(** * UDC DSP firmware: interlock debouncing, parameter bank, signal
      generator and power-supply state machine

    A shallow embedding of the C sources of the C28 core firmware
    ([event_manager.c], [parameters.c], [siggen.c], [fap_4p.c],
    [fac_2p4s_acdc.c]) together with the properties their specification
    states about them.

    Conventions of the embedding:
    - [uint16_t] and [uint32_t] values are [Z] with the wrap-around written
      out where the code can overflow; array indices and loop counters are
      [nat];
    - [float] (and [double], which the C28x COFF ABI also maps to 32 bits)
      is IEEE-754 binary32, computed exactly with the Standard Library's
      [SpecFloat] (round to nearest, ties to even);
    - C arrays are lists read with [!!] and updated with [<[i:=x]>] or
      [alter]; a read or write outside the array is undefined in C and is
      a no-op (or a default value) here;
    - the data memory that the parameter bank points into is an array of
      16-bit words, the addressable unit of the C28x: a [uint16_t] is
      one word, a [uint32_t] or a [float] two words with the least
      significant first, a [float] in the binary32 encoding;
    - global variables are fields of explicit state records that every
      function takes and returns. *)

From Stdlib Require Import ZArith List Bool Lia.
From Stdlib Require Import Floats.SpecFloat.
From stdpp Require Import base option list gmap.

Local Open Scope Z_scope.

(** ** IEEE-754 binary32 arithmetic *)

Module F32.

Definition prec : Z := 24.
Definition emax : Z := 128.

Definition float : Type := spec_float.

Definition zero : float := S754_zero false.
Definition nan : float := S754_nan.

Definition fadd : float -> float -> float := SFadd prec emax.
Definition fsub : float -> float -> float := SFsub prec emax.
Definition fmul : float -> float -> float := SFmul prec emax.
Definition fdiv : float -> float -> float := SFdiv prec emax.
Definition fneg : float -> float := SFopp.

(** C's [<], [<=], [>], [>=] on floats: false whenever an operand is NaN. *)
Definition flt : float -> float -> bool := SFltb.
Definition fle : float -> float -> bool := SFleb.
Definition fgt (x y : float) : bool := SFltb y x.
Definition fge (x y : float) : bool := SFleb y x.

(** [(float) z] for an integer [z]: the nearest binary32 value. *)
Definition of_Z (z : Z) : float := binary_normalize prec emax z 0 false.

(** The dyadic literal [m * 2^e], rounded to binary32. *)
Definition of_dyadic (m e : Z) : float := binary_normalize prec emax m e false.

(** The integer part of a float, truncated toward zero (0 for NaN and
    the infinities). *)
Definition trunc (x : float) : Z :=
  match x with
  | S754_finite s m e =>
      let a := if 0 <=? e then Z.pos m * 2 ^ e else Z.pos m / 2 ^ (- e) in
      if s then - a else a
  | _ => 0
  end.

(** [(uintN_t) x]: truncation toward zero.  C leaves the conversion
    undefined when the truncated value does not fit, and the hardware
    decides; the embedding wraps it modulo [2^w] there.  [in_range]
    tells where the conversion is defined, and the statements below
    that depend on the value of a conversion assume it. *)
Definition to_uint (w : Z) (x : float) : Z := trunc x mod 2 ^ w.

(** [(uintN_t) x] is defined in C when the integer part of [x] is a
    value of the type; [in_range w x] says so. *)
Definition in_range (w : Z) (x : float) : bool :=
  match x with
  | S754_zero _ => true
  | S754_finite _ _ _ => (0 <=? trunc x) && (trunc x <? 2 ^ w)
  | _ => false
  end.

(** A positive finite number. *)
Definition positive_finite (x : float) : bool :=
  match x with
  | S754_finite false _ _ => true
  | _ => false
  end.

(** A value of the C type [float]: a finite number is in the canonical
    form of binary32. *)
Definition is_binary32 (x : float) : bool := valid_binary prec emax x.

(** The 32 bits of a [float] in memory: sign, biased exponent on 8
    bits, fraction on 23 bits.  NaN is written as the quiet NaN with an
    empty payload, and every NaN is read as NaN. *)
Definition sign_bit (s : bool) : Z := if s then 0x80000000 else 0.

Definition to_bits (x : float) : Z :=
  match x with
  | S754_zero s => sign_bit s
  | S754_infinity s => sign_bit s + 0x7F800000
  | S754_nan => 0x7FC00000
  | S754_finite s m e =>
      if Z.pos m <? 2 ^ 23 then sign_bit s + Z.pos m
      else sign_bit s + (e + 150) * 2 ^ 23 + (Z.pos m - 2 ^ 23)
  end.

Definition of_bits (z : Z) : float :=
  let s := 2 ^ 31 <=? z in
  let ex := (z / 2 ^ 23) mod 2 ^ 8 in
  let mant := z mod 2 ^ 23 in
  if ex =? 0 then
    match mant with
    | Z.pos m => S754_finite s m (-149)
    | _ => S754_zero s
    end
  else if ex =? 255 then
    if mant =? 0 then S754_infinity s else S754_nan
  else
    match mant + 2 ^ 23 with
    | Z.pos m => S754_finite s m (ex - 150)
    | _ => S754_nan
    end.

(** [fabs] of libm. *)
Definition fabs : float -> float := SFabs.

(** [roundf] of libm: nearest integer, halfway cases away from zero. *)
Definition roundf (x : float) : float :=
  match x with
  | S754_finite s m e =>
      if 0 <=? e then x
      else
        let d := 2 ^ (- e) in
        let q := Z.pos m / d in
        let r := Z.pos m mod d in
        let q' := if d <=? 2 * r then q + 1 else q in
        binary_normalize prec emax (if s then - q' else q') 0 s
  | _ => x
  end.

End F32.

Abbreviation float := F32.float.

(** ** Rounding to nearest even, as integer arithmetic

    What [SpecFloat] computes by shifting a mantissa, written with
    quotients and remainders: the statements on the order of rounded
    products are made on these. *)

Module Rounding.

Import F32.

(** [m / 2^k] rounded to the nearest integer, ties to even. *)
Definition rnd_div (m k : Z) : Z :=
  let q := m / 2 ^ k in
  let r := m mod 2 ^ k in
  if (2 ^ k <? 2 * r) || ((2 * r =? 2 ^ k) && Z.odd q) then q + 1 else q.

(** The exponent a mantissa of [d] digits at exponent [e] is rounded
    to. *)
Definition round_exp (d e : Z) : Z := Z.max (d + e - 24) (-149).

(** The float of sign [s] whose mantissa was rounded to [q <= 2^24] at
    exponent [f]. *)
Definition rounded (s : bool) (q f : Z) : float :=
  match q with
  | Z.pos q' =>
      if q =? 2 ^ 24 then
        if f + 1 <=? 104 then S754_finite s (2 ^ 23)%positive (f + 1)
        else S754_infinity s
      else
        if f <=? 104 then S754_finite s q' f else S754_infinity s
  | _ => S754_zero s
  end.

(** The value of a finite float in units of [2^E0], an integer when
    [E0] is at most the exponent. *)
Definition sval (E0 : Z) (x : float) : Z :=
  match x with
  | S754_finite _ m e => Z.pos m * 2 ^ (e - E0)
  | _ => 0
  end.

(** The exponent a value [X > 0] in units of [2^E0] is rounded at,
    counted from [E0]; [K] is the least exponent, counted from [E0]. *)
Definition scaled_exp (K X : Z) : Z := Z.max (Z.log2 X - 23) K.

(** Zero, or a positive finite number with an exponent of [E0] at
    least. *)
Definition finite_nonneg (E0 : Z) (x : float) : Prop :=
  match x with
  | S754_zero _ => True
  | S754_finite false _ e => E0 <= e
  | _ => False
  end.

End Rounding.

(** ** Signals

    DSP stages, the signal generator and the slew-rate limiters hold
    non-owning pointers to the scalars they read and write.  A pointer is
    modelled by the name of the location it designates. *)

Inductive sigref : Type :=
  | NetSignal (i : nat)          (* g_controller_ctom.net_signals[i].f *)
  | OutputSignal (i : nat)       (* g_controller_ctom.output_signals[i].f *)
  | PsSetpoint (m : nat)         (* g_ipc_ctom.ps_module[m].ps_setpoint *)
  | PsReference (m : nat)        (* g_ipc_ctom.ps_module[m].ps_reference *)
  | SiggenAmplitude              (* SIGGEN_CTOM[0].amplitude *)
  | SiggenOffset                 (* SIGGEN_CTOM[0].offset *)
  | MtocSiggenAmplitude          (* SIGGEN_MTOC[0].amplitude *)
  | MtocSiggenOffset             (* SIGGEN_MTOC[0].offset *)
  | DummyFloat.                  (* the file-local dummy_float *)

(** Reading a C array of floats; the arrays of the firmware are static and
    zero-initialised, and an index outside the list reads as [0.0]. *)
Definition fget (l : list float) (i : nat) : float :=
  default F32.zero (l !! i).

(** [P] holds on the [2^bits] integers from [base] on; a check by
    enumeration that evaluates. *)
Fixpoint forall_range (bits : nat) (base : Z) (P : Z -> bool) : bool :=
  match bits with
  | O => P base
  | S b => forall_range b base P && forall_range b (base + 2 ^ Z.of_nat b) P
  end.

(** ** siggen.c: the signal generator *)

Module Siggen.

Import F32.

(** Modelled from the spec: the enumeration [siggen_type_t] is declared
    in siggen.h, which is not part of the sources; the specification
    names the variants Sine, DampedSine and Trapezoidal. *)
Inductive siggen_type_t : Type := Sine | DampedSine | Trapezoidal.

(** Modelled from the spec: [NUM_SIGGEN_AUX_VAR] is declared in siggen.h;
    the specification gives the generator six auxiliary derived
    variables ([aux_var[0]] to [aux_var[5]] are the ones the code
    uses). *)
Definition NUM_SIGGEN_AUX_VAR : nat := 6.

(** Modelled from the spec: [NUM_SIGGEN_AUX_PARAM] is declared in
    siggen.h; the code reads [aux_param[0]] to [aux_param[2]] and the
    parameter bank exposes the array as one parameter; four entries are
    taken here, and nothing below depends on the fourth. *)
Definition NUM_SIGGEN_AUX_PARAM : nat := 4.

(** The functions [p_run_siggen] can point to. *)
Inductive run_siggen_ptr : Type :=
  | ptr_none
  | ptr_run_siggen_sine
  | ptr_run_siggen_dampedsine
  | ptr_run_siggen_trapezoidal.

Record siggen_t : Type := mk_siggen {
  enable : Z;                     (* uint16_t *)
  type : siggen_type_t;
  num_cycles : Z;                 (* uint16_t *)
  freq_sampling : float;
  n : float;
  freq : float;
  amplitude : float;
  offset : float;
  aux_param : list float;         (* float [NUM_SIGGEN_AUX_PARAM] *)
  aux_var : list float;           (* float [NUM_SIGGEN_AUX_VAR] *)
  p_run_siggen : run_siggen_ptr;
  p_out : sigref
}.

Definition set_enable (v : Z) (s : siggen_t) : siggen_t :=
  mk_siggen v (type s) (num_cycles s) (freq_sampling s) (n s) (freq s)
    (amplitude s) (offset s) (aux_param s) (aux_var s) (p_run_siggen s)
    (p_out s).
Definition set_type (v : siggen_type_t) (s : siggen_t) : siggen_t :=
  mk_siggen (enable s) v (num_cycles s) (freq_sampling s) (n s) (freq s)
    (amplitude s) (offset s) (aux_param s) (aux_var s) (p_run_siggen s)
    (p_out s).
Definition set_num_cycles (v : Z) (s : siggen_t) : siggen_t :=
  mk_siggen (enable s) (type s) v (freq_sampling s) (n s) (freq s)
    (amplitude s) (offset s) (aux_param s) (aux_var s) (p_run_siggen s)
    (p_out s).
Definition set_freq_sampling (v : float) (s : siggen_t) : siggen_t :=
  mk_siggen (enable s) (type s) (num_cycles s) v (n s) (freq s)
    (amplitude s) (offset s) (aux_param s) (aux_var s) (p_run_siggen s)
    (p_out s).
Definition set_n (v : float) (s : siggen_t) : siggen_t :=
  mk_siggen (enable s) (type s) (num_cycles s) (freq_sampling s) v (freq s)
    (amplitude s) (offset s) (aux_param s) (aux_var s) (p_run_siggen s)
    (p_out s).
Definition set_freq (v : float) (s : siggen_t) : siggen_t :=
  mk_siggen (enable s) (type s) (num_cycles s) (freq_sampling s) (n s) v
    (amplitude s) (offset s) (aux_param s) (aux_var s) (p_run_siggen s)
    (p_out s).
Definition set_amplitude (v : float) (s : siggen_t) : siggen_t :=
  mk_siggen (enable s) (type s) (num_cycles s) (freq_sampling s) (n s)
    (freq s) v (offset s) (aux_param s) (aux_var s) (p_run_siggen s)
    (p_out s).
Definition set_offset (v : float) (s : siggen_t) : siggen_t :=
  mk_siggen (enable s) (type s) (num_cycles s) (freq_sampling s) (n s)
    (freq s) (amplitude s) v (aux_param s) (aux_var s) (p_run_siggen s)
    (p_out s).
Definition set_aux_param (v : list float) (s : siggen_t) : siggen_t :=
  mk_siggen (enable s) (type s) (num_cycles s) (freq_sampling s) (n s)
    (freq s) (amplitude s) (offset s) v (aux_var s) (p_run_siggen s)
    (p_out s).
Definition set_aux_var (v : list float) (s : siggen_t) : siggen_t :=
  mk_siggen (enable s) (type s) (num_cycles s) (freq_sampling s) (n s)
    (freq s) (amplitude s) (offset s) (aux_param s) v (p_run_siggen s)
    (p_out s).
Definition set_p_run_siggen (v : run_siggen_ptr) (s : siggen_t) : siggen_t :=
  mk_siggen (enable s) (type s) (num_cycles s) (freq_sampling s) (n s)
    (freq s) (amplitude s) (offset s) (aux_param s) (aux_var s) v (p_out s).
Definition set_p_out (v : sigref) (s : siggen_t) : siggen_t :=
  mk_siggen (enable s) (type s) (num_cycles s) (freq_sampling s) (n s)
    (freq s) (amplitude s) (offset s) (aux_param s) (aux_var s)
    (p_run_siggen s) v.

(** [p_siggen->aux_var[i] = v] and [p_siggen->aux_param[i] = v]. *)
Definition set_aux_var_at (i : nat) (v : float) (s : siggen_t) : siggen_t :=
  set_aux_var (<[i := v]> (aux_var s)) s.
Definition set_aux_param_at (i : nat) (v : float) (s : siggen_t) : siggen_t :=
  set_aux_param (<[i := v]> (aux_param s)) s.

(** [#define PI 3.14159265358979323846], as a binary32 constant. *)
Definition PI : float := of_dyadic 13176795 (-22).

Definition one : float := of_Z 1.

Definition default_aux_param : list float :=
  replicate NUM_SIGGEN_AUX_PARAM zero.

(** A generator of the zero-initialised globals. *)
Definition siggen_zero : siggen_t :=
  mk_siggen 0 Sine 0 zero zero zero zero zero
    (replicate NUM_SIGGEN_AUX_PARAM zero)
    (replicate NUM_SIGGEN_AUX_VAR zero) ptr_none DummyFloat.

Definition scale_siggen (s : siggen_t) (amp off : float) : siggen_t :=
  set_offset off (set_amplitude amp s).

Definition set_siggen_freq (s : siggen_t) : siggen_t :=
  match type s with
  | Sine | DampedSine =>
      let s1 :=
        if num_cycles s =? 0 then set_freq (fabs (roundf (freq s))) s
        else s in
      set_aux_var_at 0
        (fdiv (fmul (fmul (of_Z 2) PI) (freq s1)) (freq_sampling s1)) s1
  | _ => set_freq zero s
  end.

(** The body of the [switch(sig_type)] of [cfg_siggen]. *)
Definition cfg_sine_common (s : siggen_t) : siggen_t :=
  let s1 :=
    set_aux_var_at 1
      (fdiv (fmul PI (fget (aux_param s) 0)) (of_Z 180)) s in
  let s2 :=
    set_aux_var_at 2
      (fadd (of_Z (num_cycles s1))
         (fdiv (fsub (fget (aux_param s1) 1) (fget (aux_param s1) 0))
            (of_Z 360))) s1 in
  let s3 :=
    if fgt (fget (aux_param s2) 0) (fget (aux_param s2) 1)
    then set_aux_var_at 2 (fadd (fget (aux_var s2) 2) one) s2
    else s2 in
  set_aux_var_at 2
    (fmul (fget (aux_var s3) 2) (fdiv (freq_sampling s3) (freq s3))) s3.

Definition cfg_switch (sig_type : siggen_type_t) (amp : float)
    (s : siggen_t) : siggen_t :=
  match sig_type with
  | Sine => set_p_run_siggen ptr_run_siggen_sine (cfg_sine_common s)
  | DampedSine =>
      let s1 := cfg_sine_common s in
      let s2 :=
        set_aux_var_at 3
          (fdiv (fneg (fdiv one (fget (aux_param s1) 2)))
             (freq_sampling s1)) s1 in
      set_p_run_siggen ptr_run_siggen_dampedsine s2
  | Trapezoidal =>
      let s0 :=
        set_aux_var_at 0
          (fmul (fget (aux_param s) 0) (freq_sampling s)) s in
      let s1 :=
        set_aux_var_at 1
          (fmul (fadd (fget (aux_param s0) 0) (fget (aux_param s0) 1))
             (freq_sampling s0)) s0 in
      let s2 :=
        set_aux_var_at 2
          (fmul
             (fadd (fadd (fget (aux_param s1) 0) (fget (aux_param s1) 1))
                (fget (aux_param s1) 2))
             (freq_sampling s1)) s1 in
      let s3 := set_aux_var_at 3 (fdiv amp (fget (aux_var s2) 0)) s2 in
      let s4 :=
        set_aux_var_at 4
          (fdiv amp (fmul (fget (aux_param s3) 2) (freq_sampling s3))) s3 in
      let s5 := set_aux_var_at 5 zero s4 in
      set_p_run_siggen ptr_run_siggen_trapezoidal s5
  end.

Definition cfg_siggen (s : siggen_t) (sig_type : siggen_type_t)
    (ncycles : Z) (f amp off : float) (p_aux_param : list float)
    : siggen_t :=
  if enable s =? 0 then
    let s1 := set_freq f (set_n zero (set_num_cycles ncycles
                (set_type sig_type s))) in
    let s2 := scale_siggen s1 amp off in
    let s3 := set_siggen_freq s2 in
    let s4 :=
      foldl (fun acc i => set_aux_param_at i (fget p_aux_param i) acc)
        s3 (seq 0 NUM_SIGGEN_AUX_PARAM) in
    let s5 :=
      foldl (fun acc i => set_aux_var_at i zero acc)
        s4 (seq 0 NUM_SIGGEN_AUX_VAR) in
    cfg_switch sig_type amp s5
  else s.

Definition init_siggen (s : siggen_t) (fs : float) (out : sigref)
    : siggen_t :=
  if enable s =? 0 then
    let s1 := set_freq_sampling fs s in
    let s2 := cfg_siggen s1 Sine 1 one one zero default_aux_param in
    set_p_out out s2
  else s.

Definition reset_siggen (s : siggen_t) : siggen_t := set_n zero s.

Definition enable_siggen (s : siggen_t) : siggen_t :=
  if enable s =? 0 then
    let s1 := reset_siggen s in
    let s2 :=
      match type s1 with
      | Sine | DampedSine => set_siggen_freq s1
      | _ => s1
      end in
    set_enable 1 s2
  else s.

Definition disable_siggen (s : siggen_t) : siggen_t := set_enable 0 s.

(** The run functions return the updated generator and the sample they
    store through [p_out], if they store one. *)

Definition run_siggen_trapezoidal (s : siggen_t)
    : siggen_t * option float :=
  if negb (enable s =? 0) then
    if flt (fget (aux_var s) 5) (of_Z (num_cycles s)) then
      let '(s1, out) :=
        if flt (n s) (fget (aux_var s) 0) then
          (s, fadd (fmul (n s) (fget (aux_var s) 3)) (offset s))
        else if flt (n s) (fget (aux_var s) 1) then
          (s, fadd (amplitude s) (offset s))
        else if flt (n s) (fget (aux_var s) 2) then
          (s, fadd (fadd (fmul (fget (aux_var s) 4)
                            (fsub (fget (aux_var s) 1) (n s)))
                       (amplitude s)) (offset s))
        else
          (set_n zero
             (set_aux_var_at 5 (fadd (fget (aux_var s) 5) one) s),
           offset s) in
      (set_n (fadd (n s1) one) s1, Some out)
    else
      (set_aux_var_at 5 zero (disable_siggen s), None)
  else (s, None).

Section Libm.

(** [sin] and [exp] of the C library. *)
Variable sin exp : float -> float.

Definition run_siggen_sine (s : siggen_t) : siggen_t * option float :=
  if negb (enable s =? 0) then
    let out :=
      fadd (fmul (amplitude s)
              (sin (fadd (fmul (fget (aux_var s) 0) (n s))
                      (fget (aux_var s) 1))))
        (offset s) in
    let s1 := set_n (fadd (n s) one) s in
    let s2 :=
      if fgt (fget (aux_var s1) 2) zero then
        if fge (n s1) (fget (aux_var s1) 2) then disable_siggen s1
        else s1
      else if fge (n s1) (freq_sampling s1) then
        set_n zero (set_siggen_freq s1)
      else s1 in
    (s2, Some out)
  else (s, None).

Definition run_siggen_dampedsine (s : siggen_t)
    : siggen_t * option float :=
  if negb (enable s =? 0) then
    if flt (n s) (fget (aux_var s) 2) then
      let out :=
        fadd (fmul (fmul (amplitude s)
                      (exp (fmul (fget (aux_var s) 3) (n s))))
                (sin (fadd (fmul (fget (aux_var s) 0) (n s))
                        (fget (aux_var s) 1))))
          (offset s) in
      (set_n (fadd (n s) one) s, Some out)
    else (disable_siggen s, None)
  else (s, None).

(** [p_siggen->p_run_siggen(p_siggen)]. *)
Definition call_p_run_siggen (s : siggen_t) : siggen_t * option float :=
  match p_run_siggen s with
  | ptr_run_siggen_sine => run_siggen_sine s
  | ptr_run_siggen_dampedsine => run_siggen_dampedsine s
  | ptr_run_siggen_trapezoidal => run_siggen_trapezoidal s
  | ptr_none => (s, None)
  end.

End Libm.

(** [k] successive calls of [run_siggen_trapezoidal], with the samples
    they store, oldest first. *)
Fixpoint run_trapezoidal_trace (k : nat) (s : siggen_t)
    : siggen_t * list (option float) :=
  match k with
  | O => (s, [])
  | S k' =>
      let '(s1, o) := run_siggen_trapezoidal s in
      let '(s2, os) := run_trapezoidal_trace k' s1 in
      (s2, o :: os)
  end.

(** [k] successive calls of a run function; the samples are dropped. *)
Fixpoint run_siggen_n (run : siggen_t -> siggen_t * option float)
    (k : nat) (s : siggen_t) : siggen_t :=
  match k with
  | O => s
  | S k' => run_siggen_n run k' (fst (run s))
  end.

(** *** Quantities the statements about the generator name *)

(** The frequency continuous operation allows: [fabs(roundf(freq))]. *)
Definition continuous_freq (s : siggen_t) : float :=
  fabs (roundf (freq s)).

(** The phase increment per sample, [2.0 * PI * f / fs]. *)
Definition phase_step (f fs : float) : float :=
  fdiv (fmul (fmul (of_Z 2) PI) f) fs.

Definition ten : float := of_Z 10.

(** The generator of the trapezoid with a rise of 1 s, a plateau of 2 s
    and a fall of 1 s, amplitude 10 and offset 0, sampled once per
    second, after configuration for [k] cycles and enabling. *)
Definition trapezoid_1_2_1 (k : Z) : siggen_t :=
  enable_siggen
    (cfg_siggen (init_siggen siggen_zero one (PsReference 0))
       Trapezoidal k zero ten zero [of_Z 1; of_Z 2; of_Z 1; zero]).

(** The states that generator goes through: sample index [n] and cycle
    counter [c]. *)
Definition trapezoid_state (k : Z) (n c : float) : siggen_t :=
  mk_siggen 1 Trapezoidal k one n zero ten zero
    [of_Z 1; of_Z 2; of_Z 1; zero]
    [of_Z 1; of_Z 3; of_Z 4; ten; ten; c]
    ptr_run_siggen_trapezoidal (PsReference 0).

(** A generator sampled at 4 Hz, as [init_siggen] leaves it (one cycle
    of a 1 Hz sine), then enabled. *)
Definition s_running : siggen_t :=
  enable_siggen (init_siggen siggen_zero (of_Z 4) (PsReference 0)).

(** A continuous sine asked for 2.5 Hz, sampled at 4 Hz and enabled. *)
Definition s_continuous : siggen_t :=
  enable_siggen
    (cfg_siggen (init_siggen siggen_zero (of_Z 4) (PsReference 0))
       Sine 0 (of_dyadic 5 (-1)) one zero default_aux_param).

(** [s_continuous] three samples later, its frequency rewritten to
    2.5 Hz in the meantime. *)
Definition s_boundary : siggen_t :=
  set_freq (of_dyadic 5 (-1)) (set_n (of_Z 3) s_continuous).

(** A generator of type [ty] in continuous mode ([num_cycles = 0]) at
    1 Hz, from phase 0 to phase 720 (two turns), sampled at 4 Hz and
    enabled, its frequency field then rewritten to 2.5 Hz: a change
    of frequency while the generator runs, which the rounding in
    [run_siggen_sine] is there to take up. *)
Definition s_two_turns (ty : siggen_type_t) : siggen_t :=
  set_freq (of_dyadic 5 (-1))
    (enable_siggen
       (cfg_siggen (init_siggen siggen_zero (of_Z 4) (PsReference 0))
          ty 0 one one zero [zero; of_Z 720; one; zero])).

End Siggen.

(** Sequencing of state updates: [m |> f |> g] runs [f] and then [g]. *)
Notation "m |> f" := (f m) (at level 45, left associativity, only parsing).

(** ** ps_modules.h: operating states and the per-module record *)

Module PsModules.

Definition NUM_MAX_PS_MODULES : nat := 4.

(** The enumeration [ps_state_t], with the enumerator [SlowRef] that
    fap_4p.c and fac_2p4s_acdc.c use.  The functions below compare a
    state with [Interlock] and [Initializing] only: the positions of
    [Off], [Interlock] and [Initializing] matter, the order of the later
    enumerators does not. *)
Inductive ps_state_t : Type :=
  | Off | Interlock | Initializing | SlowRef | SlowRefSync
  | RmpWfm | MigWfm | Cycle.

(** The integer value of an enumerator, which [<], [<=] and [>] compare. *)
Definition state_code (st : ps_state_t) : Z :=
  match st with
  | Off => 0 | Interlock => 1 | Initializing => 2 | SlowRef => 3
  | SlowRefSync => 4 | RmpWfm => 5 | MigWfm => 6 | Cycle => 7
  end.

Definition state_eqb (a b : ps_state_t) : bool :=
  state_code a =? state_code b.

(** The fields of [g_ipc_ctom.ps_module[i]] the modelled functions
    access ([ps_status.bit.state] and [ps_status.bit.openloop] are the
    bit-fields of the status word). *)
Record ps_module_t : Type := mk_ps_module {
  ps_state : ps_state_t;
  ps_openloop : Z;
  ps_setpoint : float;
  ps_reference : float;
  ps_hard_interlock : Z;          (* uint32_t *)
  ps_soft_interlock : Z;          (* uint32_t *)
  ps_alarms : Z                   (* uint32_t *)
}.

Definition set_ps_state (v : ps_state_t) (p : ps_module_t) : ps_module_t :=
  mk_ps_module v (ps_openloop p) (ps_setpoint p) (ps_reference p)
    (ps_hard_interlock p) (ps_soft_interlock p) (ps_alarms p).
Definition set_ps_openloop (v : Z) (p : ps_module_t) : ps_module_t :=
  mk_ps_module (ps_state p) v (ps_setpoint p) (ps_reference p)
    (ps_hard_interlock p) (ps_soft_interlock p) (ps_alarms p).
Definition set_ps_setpoint (v : float) (p : ps_module_t) : ps_module_t :=
  mk_ps_module (ps_state p) (ps_openloop p) v (ps_reference p)
    (ps_hard_interlock p) (ps_soft_interlock p) (ps_alarms p).
Definition set_ps_reference (v : float) (p : ps_module_t) : ps_module_t :=
  mk_ps_module (ps_state p) (ps_openloop p) (ps_setpoint p) v
    (ps_hard_interlock p) (ps_soft_interlock p) (ps_alarms p).
Definition set_ps_hard_interlock (v : Z) (p : ps_module_t) : ps_module_t :=
  mk_ps_module (ps_state p) (ps_openloop p) (ps_setpoint p)
    (ps_reference p) v (ps_soft_interlock p) (ps_alarms p).
Definition set_ps_soft_interlock (v : Z) (p : ps_module_t) : ps_module_t :=
  mk_ps_module (ps_state p) (ps_openloop p) (ps_setpoint p)
    (ps_reference p) (ps_hard_interlock p) v (ps_alarms p).
Definition set_ps_alarms (v : Z) (p : ps_module_t) : ps_module_t :=
  mk_ps_module (ps_state p) (ps_openloop p) (ps_setpoint p)
    (ps_reference p) (ps_hard_interlock p) (ps_soft_interlock p) v.

(** A module of the zero-initialised array. *)
Definition ps_module_zero : ps_module_t :=
  mk_ps_module Off 0 F32.zero F32.zero 0 0 0.

End PsModules.

(** ** The control framework: DSP stages, PWM and digital I/O

    dsp.c, pwm.c and the board header are not among the sources; the parts
    of them that [turn_off], [reset_controller] and [reset_interlocks] call
    are modelled from the specification. *)

Module Control.

Import F32 PsModules.

(** Modelled from the spec: the Error stage of dsp.h, which is not among
    the sources: out = in_plus - in_minus, no internal state. *)
Record dsp_error_t : Type := mk_dsp_error {
  err_pos : sigref;
  err_neg : sigref;
  err_out : sigref
}.

(** Modelled from the spec: the PI stage of dsp.h: gains, sampling
    frequency and output bounds, the integral accumulator as its state. *)
Record dsp_pi_t : Type := mk_dsp_pi {
  kp : float;
  ki : float;
  pi_freq_sample : float;
  u_max : float;
  u_min : float;
  u_int : float;                  (* integral accumulator *)
  pi_in : sigref;
  pi_out : sigref
}.

(** Modelled from the spec: the slew-rate limiter of dsp.h: maximum
    slew-rate and sampling frequency, the last output as its state. *)
Record dsp_srlim_t : Type := mk_dsp_srlim {
  max_slewrate : float;
  srlim_freq_sample : float;
  srlim_last : float;             (* last output *)
  srlim_in : sigref;
  srlim_out : sigref
}.

(** Modelled from the spec: a PWM modulator as the PWM sink sees it: its
    output is enabled or not and channel A holds a duty cycle. *)
Record pwm_module_t : Type := mk_pwm_module {
  pwm_output_enabled : bool;
  pwm_duty_chA : float
}.

(** Modelled from the spec: the waveform-reference player is an external
    collaborator; only its playback position is kept. *)
Record wfmref_t : Type := mk_wfmref { wfmref_position : Z }.

(** The global variables other than the event managers that the modelled
    functions read or write. *)
Record machine : Type := mk_machine {
  ps_module : list ps_module_t;       (* g_ipc_ctom.ps_module[4] *)
  SIGGEN : Siggen.siggen_t;           (* SIGGEN_CTOM[0] *)
  WFMREF : wfmref_t;                  (* g_ipc_mtoc.wfmref[0] *)
  mtoc_siggen_amplitude : float;      (* SIGGEN_MTOC[0].amplitude *)
  mtoc_siggen_offset : float;         (* SIGGEN_MTOC[0].offset *)
  dummy_float : float;
  net_signals : list float;           (* g_controller_ctom.net_signals *)
  output_signals : list float;        (* g_controller_ctom.output_signals *)
  dsp_error : list dsp_error_t;       (* ...dsp_modules.dsp_error *)
  dsp_srlim : list dsp_srlim_t;       (* ...dsp_modules.dsp_srlim *)
  dsp_pi : list dsp_pi_t;             (* ...dsp_modules.dsp_pi *)
  pwm_regs : list pwm_module_t;       (* g_pwm_modules.pwm_regs *)
  gpdo : list bool;                   (* digital outputs GPDO1.. *)
  gpdi : list bool;                   (* digital inputs GPDI1.. *)
  LOOP_STATE : Z                      (* configured loop state *)
}.

Definition set_ps_module (v : list ps_module_t) (m : machine) : machine :=
  mk_machine v (SIGGEN m) (WFMREF m) (mtoc_siggen_amplitude m)
    (mtoc_siggen_offset m) (dummy_float m) (net_signals m)
    (output_signals m) (dsp_error m) (dsp_srlim m) (dsp_pi m) (pwm_regs m)
    (gpdo m) (gpdi m) (LOOP_STATE m).
Definition set_SIGGEN (v : Siggen.siggen_t) (m : machine) : machine :=
  mk_machine (ps_module m) v (WFMREF m) (mtoc_siggen_amplitude m)
    (mtoc_siggen_offset m) (dummy_float m) (net_signals m)
    (output_signals m) (dsp_error m) (dsp_srlim m) (dsp_pi m) (pwm_regs m)
    (gpdo m) (gpdi m) (LOOP_STATE m).
Definition set_WFMREF (v : wfmref_t) (m : machine) : machine :=
  mk_machine (ps_module m) (SIGGEN m) v (mtoc_siggen_amplitude m)
    (mtoc_siggen_offset m) (dummy_float m) (net_signals m)
    (output_signals m) (dsp_error m) (dsp_srlim m) (dsp_pi m) (pwm_regs m)
    (gpdo m) (gpdi m) (LOOP_STATE m).
Definition set_mtoc_siggen_amplitude (v : float) (m : machine) : machine :=
  mk_machine (ps_module m) (SIGGEN m) (WFMREF m) v
    (mtoc_siggen_offset m) (dummy_float m) (net_signals m)
    (output_signals m) (dsp_error m) (dsp_srlim m) (dsp_pi m) (pwm_regs m)
    (gpdo m) (gpdi m) (LOOP_STATE m).
Definition set_mtoc_siggen_offset (v : float) (m : machine) : machine :=
  mk_machine (ps_module m) (SIGGEN m) (WFMREF m) (mtoc_siggen_amplitude m)
    v (dummy_float m) (net_signals m)
    (output_signals m) (dsp_error m) (dsp_srlim m) (dsp_pi m) (pwm_regs m)
    (gpdo m) (gpdi m) (LOOP_STATE m).
Definition set_dummy_float (v : float) (m : machine) : machine :=
  mk_machine (ps_module m) (SIGGEN m) (WFMREF m) (mtoc_siggen_amplitude m)
    (mtoc_siggen_offset m) v (net_signals m)
    (output_signals m) (dsp_error m) (dsp_srlim m) (dsp_pi m) (pwm_regs m)
    (gpdo m) (gpdi m) (LOOP_STATE m).
Definition set_net_signals (v : list float) (m : machine) : machine :=
  mk_machine (ps_module m) (SIGGEN m) (WFMREF m) (mtoc_siggen_amplitude m)
    (mtoc_siggen_offset m) (dummy_float m) v
    (output_signals m) (dsp_error m) (dsp_srlim m) (dsp_pi m) (pwm_regs m)
    (gpdo m) (gpdi m) (LOOP_STATE m).
Definition set_output_signals (v : list float) (m : machine) : machine :=
  mk_machine (ps_module m) (SIGGEN m) (WFMREF m) (mtoc_siggen_amplitude m)
    (mtoc_siggen_offset m) (dummy_float m) (net_signals m)
    v (dsp_error m) (dsp_srlim m) (dsp_pi m) (pwm_regs m)
    (gpdo m) (gpdi m) (LOOP_STATE m).
Definition set_dsp_srlim (v : list dsp_srlim_t) (m : machine) : machine :=
  mk_machine (ps_module m) (SIGGEN m) (WFMREF m) (mtoc_siggen_amplitude m)
    (mtoc_siggen_offset m) (dummy_float m) (net_signals m)
    (output_signals m) (dsp_error m) v (dsp_pi m) (pwm_regs m)
    (gpdo m) (gpdi m) (LOOP_STATE m).
Definition set_dsp_pi (v : list dsp_pi_t) (m : machine) : machine :=
  mk_machine (ps_module m) (SIGGEN m) (WFMREF m) (mtoc_siggen_amplitude m)
    (mtoc_siggen_offset m) (dummy_float m) (net_signals m)
    (output_signals m) (dsp_error m) (dsp_srlim m) v (pwm_regs m)
    (gpdo m) (gpdi m) (LOOP_STATE m).
Definition set_pwm_regs (v : list pwm_module_t) (m : machine) : machine :=
  mk_machine (ps_module m) (SIGGEN m) (WFMREF m) (mtoc_siggen_amplitude m)
    (mtoc_siggen_offset m) (dummy_float m) (net_signals m)
    (output_signals m) (dsp_error m) (dsp_srlim m) (dsp_pi m) v
    (gpdo m) (gpdi m) (LOOP_STATE m).
Definition set_gpdo (v : list bool) (m : machine) : machine :=
  mk_machine (ps_module m) (SIGGEN m) (WFMREF m) (mtoc_siggen_amplitude m)
    (mtoc_siggen_offset m) (dummy_float m) (net_signals m)
    (output_signals m) (dsp_error m) (dsp_srlim m) (dsp_pi m) (pwm_regs m)
    v (gpdi m) (LOOP_STATE m).

(** [g_ipc_ctom.ps_module[i]] read, and updated in place. *)
Definition module_at (m : machine) (i : nat) : ps_module_t :=
  default ps_module_zero (ps_module m !! i).
Definition upd_module (i : nat) (f : ps_module_t -> ps_module_t)
    (m : machine) : machine :=
  set_ps_module (alter f i (ps_module m)) m.

(** [*p] and [*p = v] for a pointer to a signal. *)
Definition read_signal (m : machine) (p : sigref) : float :=
  match p with
  | NetSignal i => fget (net_signals m) i
  | OutputSignal i => fget (output_signals m) i
  | PsSetpoint k => ps_setpoint (module_at m k)
  | PsReference k => ps_reference (module_at m k)
  | SiggenAmplitude => Siggen.amplitude (SIGGEN m)
  | SiggenOffset => Siggen.offset (SIGGEN m)
  | MtocSiggenAmplitude => mtoc_siggen_amplitude m
  | MtocSiggenOffset => mtoc_siggen_offset m
  | DummyFloat => dummy_float m
  end.

Definition write_signal (p : sigref) (v : float) (m : machine) : machine :=
  match p with
  | NetSignal i => set_net_signals (<[i := v]> (net_signals m)) m
  | OutputSignal i => set_output_signals (<[i := v]> (output_signals m)) m
  | PsSetpoint k => upd_module k (set_ps_setpoint v) m
  | PsReference k => upd_module k (set_ps_reference v) m
  | SiggenAmplitude => set_SIGGEN (Siggen.set_amplitude v (SIGGEN m)) m
  | SiggenOffset => set_SIGGEN (Siggen.set_offset v (SIGGEN m)) m
  | MtocSiggenAmplitude => set_mtoc_siggen_amplitude v m
  | MtocSiggenOffset => set_mtoc_siggen_offset v m
  | DummyFloat => set_dummy_float v m
  end.

(** Modelled from the spec: [reset_dsp_error], [reset_dsp_pi] and
    [reset_dsp_srlim] of dsp.c, which is not among the sources: reset
    clears the internal state of the stage and forces its output to
    zero without touching its configuration.  The argument is the index
    of the stage in its array of [g_controller_ctom.dsp_modules]. *)
Definition reset_dsp_error (i : nat) (m : machine) : machine :=
  match dsp_error m !! i with
  | Some e => write_signal (err_out e) zero m
  | None => m
  end.

Definition clear_dsp_pi (p : dsp_pi_t) : dsp_pi_t :=
  mk_dsp_pi (kp p) (ki p) (pi_freq_sample p) (u_max p) (u_min p) zero
    (pi_in p) (pi_out p).

Definition reset_dsp_pi (i : nat) (m : machine) : machine :=
  match dsp_pi m !! i with
  | Some p =>
      m |> set_dsp_pi (<[i := clear_dsp_pi p]> (dsp_pi m))
        |> write_signal (pi_out p) zero
  | None => m
  end.

Definition clear_dsp_srlim (p : dsp_srlim_t) : dsp_srlim_t :=
  mk_dsp_srlim (max_slewrate p) (srlim_freq_sample p) zero (srlim_in p)
    (srlim_out p).

Definition reset_dsp_srlim (i : nat) (m : machine) : machine :=
  match dsp_srlim m !! i with
  | Some p =>
      m |> set_dsp_srlim (<[i := clear_dsp_srlim p]> (dsp_srlim m))
        |> write_signal (srlim_out p) zero
  | None => m
  end.

(** Modelled from the spec: [reset_wfmref], declared outside the
    sources: the playback returns to the start of the waveform. *)
Definition reset_wfmref (m : machine) : machine :=
  set_WFMREF (mk_wfmref 0) m.

(** Modelled from the spec: [set_pwm_duty_chA] and [disable_pwm_output]
    of pwm.c, which is not among the sources.  [g_pwm_modules.pwm_regs[i]]
    designates modulator [i]. *)
Definition set_pwm_duty_chA (i : nat) (duty : float) (m : machine)
    : machine :=
  set_pwm_regs
    (alter (fun p => mk_pwm_module (pwm_output_enabled p) duty) i
       (pwm_regs m)) m.

Definition disable_pwm_output (i : nat) (m : machine) : machine :=
  set_pwm_regs
    (alter (fun p => mk_pwm_module false (pwm_duty_chA p)) i (pwm_regs m))
    m.

(** Modelled from the spec: the digital I/O macros of the board header:
    [SET_GPDOk] and [CLEAR_GPDOk] drive output [k], [GET_GPDIk] reads
    input [k] (pins are numbered from 1). *)
Definition SET_GPDO (k : nat) (m : machine) : machine :=
  set_gpdo (<[pred k := true]> (gpdo m)) m.
Definition CLEAR_GPDO (k : nat) (m : machine) : machine :=
  set_gpdo (<[pred k := false]> (gpdo m)) m.
Definition GET_GPDI (m : machine) (k : nat) : bool :=
  default false (gpdi m !! pred k).

(** [DELAY_US] busy-waits; it changes no modelled variable. *)
Definition DELAY_US (m : machine) : machine := m.

Definition disable_siggen (m : machine) : machine :=
  set_SIGGEN (Siggen.disable_siggen (SIGGEN m)) m.

(** The first [n] modulators have their output disabled and a zero duty
    cycle. *)
Definition pwm_off (n : nat) (m : machine) : Prop :=
  forall i p, (i < n)%nat -> pwm_regs m !! i = Some p ->
    pwm_output_enabled p = false /\ pwm_duty_chA p = zero.

(** Stage [i] of each kind is in its reset state: its internal state is
    cleared and the signal it drives reads zero. *)
Definition pi_is_reset (m : machine) (i : nat) : Prop :=
  forall p, dsp_pi m !! i = Some p ->
    u_int p = zero /\ read_signal m (pi_out p) = zero.
Definition srlim_is_reset (m : machine) (i : nat) : Prop :=
  forall p, dsp_srlim m !! i = Some p ->
    srlim_last p = zero /\ read_signal m (srlim_out p) = zero.
Definition error_is_reset (m : machine) (i : nat) : Prop :=
  forall e, dsp_error m !! i = Some e -> read_signal m (err_out e) = zero.

End Control.

(** ** fap_4p.c: the FAP-4P power-supply module *)

Module Fap4p.

Import F32 PsModules Control.

Definition NUM_PWM_MODULES : nat := 8.

(** The macros that name stages and pins, as indexes of their arrays. *)
Definition SRLIM_I_LOAD_REFERENCE : nat := 0%nat.
Definition SRLIM_SIGGEN_AMP : nat := 1%nat.
Definition SRLIM_SIGGEN_OFFSET : nat := 2%nat.
Definition ERROR_I_LOAD : nat := 0%nat.
Definition PI_CONTROLLER_I_LOAD : nat := 0%nat.
Definition PI_CONTROLLER_I_SHARE_MOD_1 : nat := 1%nat.
Definition PI_CONTROLLER_I_SHARE_MOD_2 : nat := 2%nat.
Definition PI_CONTROLLER_I_SHARE_MOD_3 : nat := 3%nat.
Definition PI_CONTROLLER_I_SHARE_MOD_4 : nat := 4%nat.

Definition PWM_MODULATOR_IGBT_1_MOD_1 : nat := 0%nat.
Definition PWM_MODULATOR_IGBT_2_MOD_1 : nat := 1%nat.
Definition PWM_MODULATOR_IGBT_1_MOD_2 : nat := 2%nat.
Definition PWM_MODULATOR_IGBT_2_MOD_2 : nat := 3%nat.
Definition PWM_MODULATOR_IGBT_1_MOD_3 : nat := 4%nat.
Definition PWM_MODULATOR_IGBT_2_MOD_3 : nat := 5%nat.
Definition PWM_MODULATOR_IGBT_1_MOD_4 : nat := 6%nat.
Definition PWM_MODULATOR_IGBT_2_MOD_4 : nat := 7%nat.

Definition PIN_OPEN_DCLINK_CONTACTOR_MOD_1 := CLEAR_GPDO 1.
Definition PIN_CLOSE_DCLINK_CONTACTOR_MOD_1 := SET_GPDO 1.
Definition PIN_STATUS_DCLINK_CONTACTOR_MOD_1 (m : machine) := GET_GPDI m 5.
Definition PIN_OPEN_DCLINK_CONTACTOR_MOD_2 := CLEAR_GPDO 2.
Definition PIN_CLOSE_DCLINK_CONTACTOR_MOD_2 := SET_GPDO 2.
Definition PIN_STATUS_DCLINK_CONTACTOR_MOD_2 (m : machine) := GET_GPDI m 7.
Definition PIN_OPEN_DCLINK_CONTACTOR_MOD_3 := CLEAR_GPDO 3.
Definition PIN_CLOSE_DCLINK_CONTACTOR_MOD_3 := SET_GPDO 3.
Definition PIN_STATUS_DCLINK_CONTACTOR_MOD_3 (m : machine) := GET_GPDI m 13.
Definition PIN_OPEN_DCLINK_CONTACTOR_MOD_4 := CLEAR_GPDO 4.
Definition PIN_CLOSE_DCLINK_CONTACTOR_MOD_4 := SET_GPDO 4.
Definition PIN_STATUS_DCLINK_CONTACTOR_MOD_4 (m : machine) := GET_GPDI m 15.

(** The globals as [init_controller] wires them, before its final
    [reset_controller]: the pointers of the stages are those of the
    [init_dsp_...] calls, every gain and bound is left at zero. *)
Definition wired_machine : machine :=
  mk_machine
    (replicate NUM_MAX_PS_MODULES ps_module_zero)
    (Siggen.set_p_out (PsReference 0) Siggen.siggen_zero)
    (mk_wfmref 0) zero zero zero
    (replicate 28 zero) (replicate 8 zero)
    (mk_dsp_error (PsReference 0) (NetSignal 3) (NetSignal 4)
       :: replicate 4 (mk_dsp_error DummyFloat DummyFloat DummyFloat))
    [ mk_dsp_srlim zero zero zero (PsSetpoint 0) (PsReference 0);
      mk_dsp_srlim zero zero zero MtocSiggenAmplitude SiggenAmplitude;
      mk_dsp_srlim zero zero zero MtocSiggenOffset SiggenOffset ]
    [ mk_dsp_pi zero zero zero zero zero zero (NetSignal 4) (NetSignal 5);
      mk_dsp_pi zero zero zero zero zero zero (NetSignal 16) (NetSignal 24);
      mk_dsp_pi zero zero zero zero zero zero (NetSignal 17) (NetSignal 25);
      mk_dsp_pi zero zero zero zero zero zero (NetSignal 18) (NetSignal 26);
      mk_dsp_pi zero zero zero zero zero zero (NetSignal 19) (NetSignal 27);
      mk_dsp_pi zero zero zero zero zero zero DummyFloat DummyFloat ]
    (replicate NUM_PWM_MODULES (mk_pwm_module false zero))
    (replicate 4 false) (replicate 16 false) 0.

Definition reset_controller (m : machine) : machine :=
  m |> set_pwm_duty_chA PWM_MODULATOR_IGBT_1_MOD_1 zero
    |> set_pwm_duty_chA PWM_MODULATOR_IGBT_2_MOD_1 zero
    |> set_pwm_duty_chA PWM_MODULATOR_IGBT_1_MOD_2 zero
    |> set_pwm_duty_chA PWM_MODULATOR_IGBT_2_MOD_2 zero
    |> set_pwm_duty_chA PWM_MODULATOR_IGBT_1_MOD_3 zero
    |> set_pwm_duty_chA PWM_MODULATOR_IGBT_2_MOD_3 zero
    |> set_pwm_duty_chA PWM_MODULATOR_IGBT_1_MOD_4 zero
    |> set_pwm_duty_chA PWM_MODULATOR_IGBT_2_MOD_4 zero
    |> (fun m => upd_module 0 (set_ps_openloop (LOOP_STATE m)) m)
    |> write_signal (PsSetpoint 0) zero
    |> write_signal (PsReference 0) zero
    |> reset_dsp_srlim SRLIM_I_LOAD_REFERENCE
    |> reset_dsp_error ERROR_I_LOAD
    |> reset_dsp_pi PI_CONTROLLER_I_LOAD
    |> reset_dsp_pi PI_CONTROLLER_I_SHARE_MOD_1
    |> reset_dsp_pi PI_CONTROLLER_I_SHARE_MOD_2
    |> reset_dsp_pi PI_CONTROLLER_I_SHARE_MOD_3
    |> reset_dsp_pi PI_CONTROLLER_I_SHARE_MOD_4
    |> reset_dsp_srlim SRLIM_SIGGEN_AMP
    |> reset_dsp_srlim SRLIM_SIGGEN_OFFSET
    |> disable_siggen
    |> reset_wfmref.

Definition turn_off (dummy : Z) (m : machine) : machine :=
  let m1 :=
    m |> disable_pwm_output 0
      |> disable_pwm_output 1
      |> disable_pwm_output 2
      |> disable_pwm_output 3
      |> disable_pwm_output 4
      |> disable_pwm_output 5
      |> disable_pwm_output 6
      |> disable_pwm_output 7
      |> PIN_OPEN_DCLINK_CONTACTOR_MOD_1
      |> PIN_OPEN_DCLINK_CONTACTOR_MOD_2
      |> PIN_OPEN_DCLINK_CONTACTOR_MOD_3
      |> PIN_OPEN_DCLINK_CONTACTOR_MOD_4
      |> DELAY_US
      |> reset_controller in
  if negb (state_eqb (ps_state (module_at m1 0)) Interlock)
  then upd_module 0 (set_ps_state Off) m1
  else m1.

(** One [if(PIN_STATUS...) { close; delay; open; delay }] block of
    [reset_interlocks]. *)
Definition pulse_contactor (status : machine -> bool)
    (close open : machine -> machine) (m : machine) : machine :=
  if status m then m |> close |> DELAY_US |> open |> DELAY_US else m.

Definition reset_interlocks (dummy : Z) (m : machine) : machine :=
  let m1 :=
    m |> upd_module 0 (set_ps_hard_interlock 0)
      |> upd_module 0 (set_ps_soft_interlock 0)
      |> upd_module 0 (set_ps_alarms 0) in
  if state_code (ps_state (module_at m1 0)) <? state_code Initializing then
    m1 |> pulse_contactor PIN_STATUS_DCLINK_CONTACTOR_MOD_1
            PIN_CLOSE_DCLINK_CONTACTOR_MOD_1 PIN_OPEN_DCLINK_CONTACTOR_MOD_1
       |> pulse_contactor PIN_STATUS_DCLINK_CONTACTOR_MOD_2
            PIN_CLOSE_DCLINK_CONTACTOR_MOD_2 PIN_OPEN_DCLINK_CONTACTOR_MOD_2
       |> pulse_contactor PIN_STATUS_DCLINK_CONTACTOR_MOD_3
            PIN_CLOSE_DCLINK_CONTACTOR_MOD_3 PIN_OPEN_DCLINK_CONTACTOR_MOD_3
       |> pulse_contactor PIN_STATUS_DCLINK_CONTACTOR_MOD_4
            PIN_CLOSE_DCLINK_CONTACTOR_MOD_4 PIN_OPEN_DCLINK_CONTACTOR_MOD_4
       |> DELAY_US
       |> upd_module 0 (set_ps_state Off)
  else m1.

(** The part of [turn_off] that precedes [reset_controller]. *)
Definition outputs_off (m : machine) : machine :=
  m |> disable_pwm_output 0 |> disable_pwm_output 1 |> disable_pwm_output 2
    |> disable_pwm_output 3 |> disable_pwm_output 4 |> disable_pwm_output 5
    |> disable_pwm_output 6 |> disable_pwm_output 7
    |> PIN_OPEN_DCLINK_CONTACTOR_MOD_1 |> PIN_OPEN_DCLINK_CONTACTOR_MOD_2
    |> PIN_OPEN_DCLINK_CONTACTOR_MOD_3 |> PIN_OPEN_DCLINK_CONTACTOR_MOD_4
    |> DELAY_US.

(** The wired machine while it regulates: state [SlowRef], the eight
    modulators enabled at full duty, a reference of 1 and a wound-up
    load-current integrator. *)
Definition regulating_machine : machine :=
  wired_machine
  |> upd_module 0 (set_ps_state SlowRef)
  |> set_pwm_regs (replicate NUM_PWM_MODULES (mk_pwm_module true Siggen.one))
  |> write_signal (PsSetpoint 0) Siggen.one
  |> write_signal (PsReference 0) Siggen.one
  |> write_signal (NetSignal 5) Siggen.one
  |> (fun m =>
        set_dsp_pi
          (alter (fun p =>
                    mk_dsp_pi (kp p) (ki p) (pi_freq_sample p) (u_max p)
                      (u_min p) Siggen.one (pi_in p) (pi_out p))
             PI_CONTROLLER_I_LOAD (dsp_pi m)) m).

End Fap4p.

(** ** fac_2p4s_acdc.c: the FAC-2P4S AC/DC module *)

Module Fac2p4sAcdc.

Import F32 PsModules Control.

Definition MOD_A_ID : nat := 0%nat.
Definition MOD_B_ID : nat := 1%nat.

Definition reset_interlocks (dummy : Z) (m : machine) : machine :=
  let m1 :=
    m |> upd_module MOD_A_ID (set_ps_hard_interlock 0)
      |> upd_module MOD_A_ID (set_ps_soft_interlock 0)
      |> upd_module MOD_B_ID (set_ps_hard_interlock 0)
      |> upd_module MOD_B_ID (set_ps_soft_interlock 0) in
  if state_code (ps_state (module_at m1 MOD_A_ID))
       <? state_code Initializing then
    m1 |> upd_module MOD_A_ID (set_ps_state Off)
       |> upd_module MOD_B_ID (set_ps_state Off)
  else m1.

End Fac2p4sAcdc.

(** ** event_manager.c: debounced interlocks *)

Module EventManager.

Import F32 PsModules Control.

Definition MAX_DEBOUNCE_TIME_US : Z := 5000000.
Definition MAX_RESET_TIME_US : Z := 10000000.

(** Modelled from the spec: [NUM_MAX_EVENT_COUNTER] is declared in
    event_manager.h, which is not among the sources: the fixed maximum
    number of channels of a set, one per bit of the 32-bit mask. *)
Definition NUM_MAX_EVENT_COUNTER : nat := 32.

(** Modelled from the spec: the macro [SATURATE(var, max, min)] of the
    board header, which is not among the sources: [var] becomes [max]
    when it is above [max], else [min] when it is below [min]. *)
Definition SATURATE (var max min : Z) : Z :=
  if max <? var then max else if var <? min then min else var.

Definition lut_bit_position : list Z :=
  [ 0x00000001; 0x00000002; 0x00000004; 0x00000008;
    0x00000010; 0x00000020; 0x00000040; 0x00000080;
    0x00000100; 0x00000200; 0x00000400; 0x00000800;
    0x00001000; 0x00002000; 0x00004000; 0x00008000;
    0x00010000; 0x00020000; 0x00040000; 0x00080000;
    0x00100000; 0x00200000; 0x00400000; 0x00800000;
    0x01000000; 0x02000000; 0x04000000; 0x08000000;
    0x10000000; 0x20000000; 0x40000000; 0x80000000 ].

(** [lut_bit_position[itlk]]. *)
Definition lut (itlk : nat) : Z := default 0 (lut_bit_position !! itlk).

Record event_t : Type := mk_event {
  flag : Z;                       (* uint16_t *)
  counter : Z;                    (* uint32_t *)
  debounce_count : Z;             (* uint32_t *)
  reset_count : Z                 (* uint32_t *)
}.

Record interlocks_t : Type := mk_interlocks {
  num_events : nat;               (* uint16_t *)
  event : list event_t            (* event_t [NUM_MAX_EVENT_COUNTER] *)
}.

Record event_manager_t : Type := mk_event_manager {
  timebase_flag : Z;              (* uint16_t *)
  freq_timebase : float;
  hard_interlocks : interlocks_t;
  soft_interlocks : interlocks_t
}.

Definition event_zero : event_t := mk_event 0 0 0 0.
Definition event_manager_zero : event_manager_t :=
  mk_event_manager 0 zero
    (mk_interlocks 0 (replicate NUM_MAX_EVENT_COUNTER event_zero))
    (mk_interlocks 0 (replicate NUM_MAX_EVENT_COUNTER event_zero)).

Definition set_flag (v : Z) (e : event_t) : event_t :=
  mk_event v (counter e) (debounce_count e) (reset_count e).
Definition set_counter (v : Z) (e : event_t) : event_t :=
  mk_event (flag e) v (debounce_count e) (reset_count e).
Definition set_debounce_count (v : Z) (e : event_t) : event_t :=
  mk_event (flag e) (counter e) v (reset_count e).
Definition set_reset_count (v : Z) (e : event_t) : event_t :=
  mk_event (flag e) (counter e) (debounce_count e) v.

Definition set_num_events (v : nat) (s : interlocks_t) : interlocks_t :=
  mk_interlocks v (event s).
Definition set_event (v : list event_t) (s : interlocks_t) : interlocks_t :=
  mk_interlocks (num_events s) v.

Definition set_timebase_flag (v : Z) (em : event_manager_t)
    : event_manager_t :=
  mk_event_manager v (freq_timebase em) (hard_interlocks em)
    (soft_interlocks em).
Definition set_freq_timebase (v : float) (em : event_manager_t)
    : event_manager_t :=
  mk_event_manager (timebase_flag em) v (hard_interlocks em)
    (soft_interlocks em).
Definition set_hard_interlocks (v : interlocks_t) (em : event_manager_t)
    : event_manager_t :=
  mk_event_manager (timebase_flag em) (freq_timebase em) v
    (soft_interlocks em).
Definition set_soft_interlocks (v : interlocks_t) (em : event_manager_t)
    : event_manager_t :=
  mk_event_manager (timebase_flag em) (freq_timebase em)
    (hard_interlocks em) v.

(** [s.event[i]] read, and updated in place. *)
Definition event_at (s : interlocks_t) (i : nat) : event_t :=
  default event_zero (event s !! i).
Definition upd_event (i : nat) (f : event_t -> event_t) (s : interlocks_t)
    : interlocks_t :=
  set_event (alter f i (event s)) s.

Definition upd_hard (f : interlocks_t -> interlocks_t)
    (em : event_manager_t) : event_manager_t :=
  set_hard_interlocks (f (hard_interlocks em)) em.
Definition upd_soft (f : interlocks_t -> interlocks_t)
    (em : event_manager_t) : event_manager_t :=
  set_soft_interlocks (f (soft_interlocks em)) em.

(** The literal [1e-6], correctly rounded to binary32. *)
Definition c_1e_6 : float := fdiv (of_Z 1) (of_Z 1000000).

(** [(uint32_t) ((freq_timebase * t_us) * 1e-6)]: the number of
    time-base periods in [t_us] microseconds. *)
Definition time_to_counts (freq : float) (t_us : Z) : Z :=
  to_uint 32 (fmul (fmul freq (of_Z t_us)) c_1e_6).

(** The conversion to [uint32_t] in [time_to_counts] is defined in C. *)
Definition time_to_counts_defined (freq : float) (t_us : Z) : bool :=
  in_range 32 (fmul (fmul freq (of_Z t_us)) c_1e_6).

(** [*(p + i)] for a pointer to an array of [uint32_t]. *)
Definition zget (l : list Z) (i : nat) : Z := default 0 (l !! i).

(** One branch of the loop body of [init_event_manager]: the
    initialisation of channel [i] of one set. *)
Definition init_event (freq : float) (max_reset_counts : Z) (num : nat)
    (p_debounce_time_us p_reset_time_us : list Z) (i : nat)
    (e : event_t) : event_t :=
  let e1 := e |> set_flag 0 |> set_counter 0 in
  if (i <? num)%nat then
    let debounce_time_us := zget p_debounce_time_us i in
    let reset_time_us := zget p_reset_time_us i in
    let debounce_time_us :=
      SATURATE debounce_time_us MAX_DEBOUNCE_TIME_US 0 in
    let e2 :=
      e1 |> set_debounce_count (time_to_counts freq debounce_time_us)
         |> set_reset_count (time_to_counts freq reset_time_us) in
    set_reset_count
      (SATURATE (reset_count e2) max_reset_counts
         ((debounce_count e2 + 1) mod 2 ^ 32)) e2
  else
    e1 |> set_debounce_count 0 |> set_reset_count 0.

Definition init_event_manager_at (freq : float)
    (num_hard_itlks num_soft_itlks : nat)
    (p_hard_itlks_debounce_time_us p_hard_itlks_reset_time_us
     p_soft_itlks_debounce_time_us p_soft_itlks_reset_time_us : list Z)
    (em : event_manager_t) : event_manager_t :=
  let max_reset_counts := time_to_counts freq MAX_RESET_TIME_US in
  let em1 :=
    em |> set_timebase_flag 0
       |> set_freq_timebase freq
       |> upd_hard (set_num_events num_hard_itlks)
       |> upd_soft (set_num_events num_soft_itlks) in
  foldl
    (fun acc i =>
       acc
       |> upd_hard
            (upd_event i
               (init_event freq max_reset_counts num_hard_itlks
                  p_hard_itlks_debounce_time_us
                  p_hard_itlks_reset_time_us i))
       |> upd_soft
            (upd_event i
               (init_event freq max_reset_counts num_soft_itlks
                  p_soft_itlks_debounce_time_us
                  p_soft_itlks_reset_time_us i)))
    em1 (seq 0 NUM_MAX_EVENT_COUNTER).

(** The body of [if (event[i].flag) { if (++counter >= reset_count) ... }]
    of [run_interlocks_debouncing]. *)
Definition debounce_event (e : event_t) : event_t :=
  if negb (flag e =? 0) then
    let e1 := set_counter ((counter e + 1) mod 2 ^ 32) e in
    if reset_count e1 <=? counter e1
    then e1 |> set_flag 0 |> set_counter 0
    else e1
  else e.

Definition debounce_interlocks (s : interlocks_t) : interlocks_t :=
  foldl (fun acc i => upd_event i debounce_event acc) s
    (seq 0 (num_events s)).

Definition run_interlocks_debouncing_at (em : event_manager_t)
    : event_manager_t :=
  if negb (timebase_flag em =? 0) then
    em |> upd_hard debounce_interlocks
       |> upd_soft debounce_interlocks
       |> set_timebase_flag 0
  else em.

(** The global state the event manager works on: its own array, the
    other globals, and a record of the calls made through the
    [turn_off] pointers (the module index of each call, latest first). *)
Record world : Type := mk_world {
  g_event_manager : list event_manager_t;  (* [NUM_MAX_PS_MODULES] *)
  g_machine : machine;
  turn_off_calls : list nat
}.

Definition set_g_event_manager (v : list event_manager_t) (w : world)
    : world :=
  mk_world v (g_machine w) (turn_off_calls w).
Definition set_g_machine (v : machine) (w : world) : world :=
  mk_world (g_event_manager w) v (turn_off_calls w).

Definition em_at (w : world) (id : nat) : event_manager_t :=
  default event_manager_zero (g_event_manager w !! id).
Definition upd_em (id : nat) (f : event_manager_t -> event_manager_t)
    (w : world) : world :=
  set_g_event_manager (alter f id (g_event_manager w)) w.
Definition upd_machine (f : machine -> machine) (w : world) : world :=
  set_g_machine (f (g_machine w)) w.

Definition init_event_manager (id : nat) (freq : float)
    (num_hard_itlks num_soft_itlks : nat)
    (p_hard_itlks_debounce_time_us p_hard_itlks_reset_time_us
     p_soft_itlks_debounce_time_us p_soft_itlks_reset_time_us : list Z)
    (w : world) : world :=
  upd_em id
    (init_event_manager_at freq num_hard_itlks num_soft_itlks
       p_hard_itlks_debounce_time_us p_hard_itlks_reset_time_us
       p_soft_itlks_debounce_time_us p_soft_itlks_reset_time_us) w.

Definition run_interlocks_debouncing (id : nat) (w : world) : world :=
  upd_em id run_interlocks_debouncing_at w.

(** Modelled from the spec: the macro [SET_INTERLOCKS_TIMEBASE_FLAG(id)]
    of event_manager.h, which is not among the sources: the control
    interrupt raises the tick flag of manager [id] once per time-base
    period. *)
Definition SET_INTERLOCKS_TIMEBASE_FLAG (id : nat) (w : world) : world :=
  upd_em id (set_timebase_flag 1) w.

(** One time-base period as manager [id] sees it: the interrupt raises
    the flag and the background loop runs the debouncing. *)
Definition timebase_period (id : nat) (w : world) : world :=
  w |> SET_INTERLOCKS_TIMEBASE_FLAG id |> run_interlocks_debouncing id.

(** The two sets of channels share their mechanics; [kind] selects one
    of them in the statements below. *)
Inductive kind : Type := Hard | Soft.

Definition interlocks_of (k : kind) (em : event_manager_t) : interlocks_t :=
  match k with
  | Hard => hard_interlocks em
  | Soft => soft_interlocks em
  end.

Definition mask_of (k : kind) (p : ps_module_t) : Z :=
  match k with
  | Hard => ps_hard_interlock p
  | Soft => ps_soft_interlock p
  end.

(** [mask |= bit] on the mask of the kind, and an update of the set of
    the kind. *)
Definition or_mask (k : kind) (bit : Z) (p : ps_module_t) : ps_module_t :=
  match k with
  | Hard => set_ps_hard_interlock (Z.lor (ps_hard_interlock p) bit) p
  | Soft => set_ps_soft_interlock (Z.lor (ps_soft_interlock p) bit) p
  end.

Definition upd_kind (k : kind) (f : interlocks_t -> interlocks_t)
    : event_manager_t -> event_manager_t :=
  match k with
  | Hard => upd_hard f
  | Soft => upd_soft f
  end.

(** Channel [itlk] of the set [k] of manager [id], and the sticky mask
    of module [id]. *)
Definition channel (k : kind) (w : world) (id itlk : nat) : event_t :=
  event_at (interlocks_of k (em_at w id)) itlk.
Definition sticky_mask (k : kind) (w : world) (id : nat) : Z :=
  mask_of k (module_at (g_machine w) id).

(** Channel [itlk] exists in the set [k] of manager [id]: the manager
    and the module are elements of their arrays, and the channel is
    below the configured count and the size of the array. *)
Definition valid_channel (k : kind) (w : world) (id itlk : nat) : Prop :=
  (id < length (g_event_manager w))%nat /\
  (id < length (ps_module (g_machine w)))%nat /\
  (itlk < num_events (interlocks_of k (em_at w id)))%nat /\
  (itlk < length (event (interlocks_of k (em_at w id))))%nat /\
  (itlk < NUM_MAX_EVENT_COUNTER)%nat.

Section Handlers.

(** Whether the firmware is built with [USE_ITLK] defined. *)
Variable USE_ITLK : bool.

(** [ps_turn_off i] is the function that [init_ps_module] stored in
    [g_ipc_ctom.ps_module[i].turn_off].  The handlers of the power
    supply modules work on the globals other than the event
    managers. *)
Variable ps_turn_off : nat -> Z -> machine -> machine.

(** [g_ipc_ctom.ps_module[id].turn_off(id)]. *)
Definition call_turn_off (id : nat) (w : world) : world :=
  mk_world (g_event_manager w)
    (ps_turn_off id (Z.of_nat id) (g_machine w))
    (id :: turn_off_calls w).

(** The statements guarded by [#ifdef USE_ITLK]. *)
Definition itlk_action (id : nat) (w : world) : world :=
  if USE_ITLK then
    w |> call_turn_off id
      |> upd_machine (upd_module id (set_ps_state Interlock))
  else w.

Definition set_hard_interlock (id : nat) (itlk : nat) (w : world)
    : world :=
  if (itlk <? num_events (hard_interlocks (em_at w id)))%nat then
    let w1 := upd_em id (upd_hard (upd_event itlk (set_flag 1))) w in
    let e := event_at (hard_interlocks (em_at w1 id)) itlk in
    if debounce_count e <=? counter e then
      let w2 :=
        if Z.land (ps_hard_interlock (module_at (g_machine w1) id))
             (lut itlk) =? 0
        then
          w1 |> itlk_action id
             |> upd_machine
                  (upd_module id
                     (fun p =>
                        set_ps_hard_interlock
                          (Z.lor (ps_hard_interlock p) (lut itlk)) p))
        else w1 in
      w2 |> upd_em id (upd_hard (upd_event itlk (set_flag 0)))
         |> upd_em id (upd_hard (upd_event itlk (set_counter 0)))
    else w1
  else w.

Definition set_soft_interlock (id : nat) (itlk : nat) (w : world)
    : world :=
  if (itlk <? num_events (soft_interlocks (em_at w id)))%nat then
    let w1 := upd_em id (upd_soft (upd_event itlk (set_flag 1))) w in
    let e := event_at (soft_interlocks (em_at w1 id)) itlk in
    if debounce_count e <=? counter e then
      let w2 :=
        if Z.land (ps_soft_interlock (module_at (g_machine w1) id))
             (lut itlk) =? 0
        then
          w1 |> itlk_action id
             |> upd_machine
                  (upd_module id
                     (fun p =>
                        set_ps_soft_interlock
                          (Z.lor (ps_soft_interlock p) (lut itlk)) p))
        else w1 in
      w2 |> upd_em id (upd_soft (upd_event itlk (set_flag 0)))
         |> upd_em id (upd_soft (upd_event itlk (set_counter 0)))
    else w1
  else w.

Definition set_interlock (k : kind) : nat -> nat -> world -> world :=
  match k with
  | Hard => set_hard_interlock
  | Soft => set_soft_interlock
  end.

(** The world after the protective action and the [|=] on the mask of
    the kind: the body of the innermost [if] of the two functions. *)
Definition latched (k : kind) (id itlk : nat) (w : world) : world :=
  w |> itlk_action id
    |> upd_machine (upd_module id (or_mask k (lut itlk))).

End Handlers.

(** The zero-initialised globals. *)
Definition world_zero (m : machine) : world :=
  mk_world (replicate NUM_MAX_PS_MODULES event_manager_zero) m [].

(** *** Configurations the statements are run on *)

(** A 48 kHz time base with two hard channels and one soft channel. *)
Definition w_48k : world :=
  init_event_manager 0 (of_Z 48000) 2 1
    [100; 200] [1000; 50] [6000000] [20000000]
    (world_zero Fap4p.wired_machine).

(** A time base of one period every 16 s. *)
Definition w_slow : world :=
  init_event_manager 0 (of_dyadic 1 (-4)) 1 0 [0] [64000000] [] []
    (world_zero Fap4p.wired_machine).

(** The handlers of a build whose modules are FAP-4P. *)
Definition fap_turn_off (i : nat) : Z -> machine -> machine :=
  Fap4p.turn_off.

(** Hard channel 0 of [w_48k] raised once, in a build with
    [USE_ITLK]. *)
Definition w_raised : world :=
  set_hard_interlock true fap_turn_off 0 0 w_48k.

(** Hard channel 0 of [w_48k] due: raised, and counted for 4 periods. *)
Definition w_due : world := Nat.iter 4 (timebase_period 0) w_raised.

End EventManager.

(** ** parameters.c: the parameter bank *)

Module Parameters.

Import F32.

(** Modelled from the spec: the enumeration [param_type_t] is declared in
    parameters.h, which is not among the sources; the specification
    types the slots uint16, uint32 or float, the three cases that
    [set_param] and [get_param] distinguish. *)
Inductive param_type_t : Type := is_uint16_t | is_uint32_t | is_float.

(** [g_parameters[id]]; [p_val] is the address the union of pointers
    holds, counted in 16-bit words, the unit of [uint16_t *p_param]. *)
Record param_t : Type := mk_param {
  id : nat;
  type : param_type_t;
  num_elements : Z;               (* uint16_t *)
  p_val : nat
}.

(** A slot of the zero-initialised array. *)
Definition param_zero : param_t := mk_param 0 is_uint16_t 0 0.

(** The bank and the data memory its slots point into.  The memory is
    an array of 16-bit words, the addressable unit of the C28x; the
    slots are views of it, and two slots may show the same words. *)
Record bank : Type := mk_bank {
  g_parameters : gmap nat param_t;
  memory : gmap nat Z
}.

Definition param_at (b : bank) (i : nat) : param_t :=
  default param_zero (g_parameters b !! i).

(** The word at an address; static storage is zero-initialised, and a
    word that was never written reads as 0. *)
Definition word (b : bank) (a : nat) : Z := default 0 (memory b !! a).

(** [sizeof], in words: a [uint32_t] and a [float] take two words, the
    least significant first. *)
Definition size_of (ty : param_type_t) : nat :=
  match ty with
  | is_uint16_t => 1
  | is_uint32_t => 2
  | is_float => 2
  end.

(** [*(p + n)] read at each of the three pointer types. *)
Definition load_u16 (b : bank) (p n : nat) : Z := word b (p + n).
Definition load_u32 (b : bank) (p n : nat) : Z :=
  word b (p + 2 * n) + 2 ^ 16 * word b (p + 2 * n + 1).
Definition load_f32 (b : bank) (p n : nat) : float :=
  of_bits (load_u32 b p n).

(** [*(p + n) = z] at each of the three pointer types. *)
Definition store_u16 (p n : nat) (z : Z) (b : bank) : bank :=
  mk_bank (g_parameters b) (<[(p + n)%nat := z]> (memory b)).
Definition store_u32 (p n : nat) (z : Z) (b : bank) : bank :=
  mk_bank (g_parameters b)
    (<[(p + 2 * n + 1)%nat := z / 2 ^ 16]>
       (<[(p + 2 * n)%nat := z mod 2 ^ 16]> (memory b))).
Definition store_f32 (p n : nat) (x : float) (b : bank) : bank :=
  store_u32 p n (to_bits x) b.

Definition init_param (i : nat) (ty : param_type_t) (nelem : Z)
    (p_param : nat) (b : bank) : bank :=
  if 0 <? nelem then
    mk_bank (<[i := mk_param i ty nelem p_param]> (g_parameters b))
      (memory b)
  else b.

(** [set_param] returns the updated state and its [uint16_t] result.
    The [default] branches of the two [switch] statements (return 0,
    resp. NaN) answer to a type that is none of the three enumerators;
    no value of [param_type_t] reaches them here. *)
Definition set_param (i : nat) (n : nat) (val : float) (b : bank)
    : bank * Z :=
  let s := param_at b i in
  if Z.of_nat n <? num_elements s then
    match type s with
    | is_uint16_t => (store_u16 (p_val s) n (to_uint 16 val) b, 1)
    | is_uint32_t => (store_u32 (p_val s) n (to_uint 32 val) b, 1)
    | is_float => (store_f32 (p_val s) n val b, 1)
    end
  else (b, 0).

Definition get_param (i : nat) (n : nat) (b : bank) : float :=
  let s := param_at b i in
  if Z.of_nat n <? num_elements s then
    match type s with
    | is_uint16_t => of_Z (load_u16 b (p_val s) n)
    | is_uint32_t => of_Z (load_u32 b (p_val s) n)
    | is_float => load_f32 b (p_val s) n
    end
  else nan.

(** The write and the read of the two functions, by the type of the
    slot. *)
Definition store_as (ty : param_type_t) (p n : nat) (v : float) (b : bank)
    : bank :=
  match ty with
  | is_uint16_t => store_u16 p n (to_uint 16 v) b
  | is_uint32_t => store_u32 p n (to_uint 32 v) b
  | is_float => store_f32 p n v b
  end.

Definition load_as (ty : param_type_t) (b : bank) (p n : nat) : float :=
  match ty with
  | is_uint16_t => of_Z (load_u16 b p n)
  | is_uint32_t => of_Z (load_u32 b p n)
  | is_float => load_f32 b p n
  end.

(** The values whose conversion to the type of a slot is defined in C:
    those with an integer part in the range of an integer type, and
    every [float]. *)
Definition representable (ty : param_type_t) (v : float) : bool :=
  match ty with
  | is_uint16_t => in_range 16 v
  | is_uint32_t => in_range 32 v
  | is_float => is_binary32 v
  end.

(** What such a value becomes when it is converted to the type of the
    slot and back: its integer part in an integer slot. *)
Definition stored_value (ty : param_type_t) (v : float) : float :=
  match ty with
  | is_uint16_t => of_Z (trunc v)
  | is_uint32_t => of_Z (trunc v)
  | is_float => v
  end.

(** The words of the element at index [n] of an array of type [ty] at
    address [p]: the first address, and the address after the last. *)
Definition element (ty : param_type_t) (p n : nat) : nat * nat :=
  (p + size_of ty * n, p + size_of ty * n + size_of ty)%nat.

(** Element [n] of a slot. *)
Definition element_of (s : param_t) (n : nat) : nat * nat :=
  element (type s) (p_val s) n.

(** Two ranges of addresses have no word in common. *)
Definition apart (r1 r2 : nat * nat) : Prop :=
  (snd r1 <= fst r2)%nat \/ (snd r2 <= fst r1)%nat.

(** The zero-initialised bank: no slot bound, nothing stored. *)
Definition bank_zero : bank := mk_bank ∅ ∅.

End Parameters.

(** ** Configurations of the signal generator *)

Module SiggenConfigs.

Import F32 Siggen.

(** A sine of 1000 cycles at 1 Hz sampled at 48 kHz, that is 48 million
    samples, once its sample index has come to [2^24]. *)
Definition s_long_run : siggen_t :=
  set_n (of_Z 16777216)
    (enable_siggen
       (cfg_siggen (init_siggen siggen_zero (of_Z 48000) (PsReference 0))
          Sine 1000 one one zero default_aux_param)).

End SiggenConfigs.

(** ** event_manager.c: the interrupt handlers *)

Module EventManagerIsr.

Import F32 PsModules Control EventManager.

(** What the handlers read of [g_ipc_mtoc]: the id of the module the
    message is about and the interlock registers of the modules, which
    the ARM core writes. *)
Record ipc_mtoc_t : Type := mk_ipc_mtoc {
  msg_id : nat;                          (* uint16_t *)
  mtoc_ps_module : list ps_module_t      (* g_ipc_mtoc.ps_module[4] *)
}.

Definition mtoc_module_at (mtoc : ipc_mtoc_t) (i : nat) : ps_module_t :=
  default ps_module_zero (mtoc_ps_module mtoc !! i).

Section Handlers.

Variable USE_ITLK : bool.
Variable ps_turn_off : nat -> Z -> machine -> machine.

(** [isr_hard_interlock] and [isr_soft_interlock]: the MtoC register is
    passed as the channel number.  The acknowledgements written to
    [CtoMIpcRegs] and [PieCtrlRegs] are not modelled. *)
Definition isr_hard_interlock (mtoc : ipc_mtoc_t) (w : world) : world :=
  set_hard_interlock USE_ITLK ps_turn_off (msg_id mtoc)
    (Z.to_nat (ps_hard_interlock (mtoc_module_at mtoc (msg_id mtoc)))) w.

Definition isr_soft_interlock (mtoc : ipc_mtoc_t) (w : world) : world :=
  set_soft_interlock USE_ITLK ps_turn_off (msg_id mtoc)
    (Z.to_nat (ps_soft_interlock (mtoc_module_at mtoc (msg_id mtoc)))) w.

End Handlers.

(** [isr_interlocks_timebase]: the tick of the four managers. *)
Definition isr_interlocks_timebase (w : world) : world :=
  w |> SET_INTERLOCKS_TIMEBASE_FLAG 0
    |> SET_INTERLOCKS_TIMEBASE_FLAG 1
    |> SET_INTERLOCKS_TIMEBASE_FLAG 2
    |> SET_INTERLOCKS_TIMEBASE_FLAG 3.

(** The channel arrays of a manager have the size of the C declaration. *)
Definition sized_manager (em : event_manager_t) : Prop :=
  length (event (hard_interlocks em)) = NUM_MAX_EVENT_COUNTER /\
  length (event (soft_interlocks em)) = NUM_MAX_EVENT_COUNTER.

(** [w'] differs from [w] at most in the flag and the counter of channel
    [itlk] of the set [k] of manager [id]. *)
Definition only_channel (k : kind) (id itlk : nat) (w w' : world) : Prop :=
  (forall k' id' i,
     (k', id', i) <> (k, id, itlk) ->
     channel k' w' id' i = channel k' w id' i) /\
  (forall k' id' i,
     debounce_count (channel k' w' id' i) =
       debounce_count (channel k' w id' i) /\
     reset_count (channel k' w' id' i) = reset_count (channel k' w id' i)) /\
  (forall k' id',
     num_events (interlocks_of k' (em_at w' id')) =
       num_events (interlocks_of k' (em_at w id'))) /\
  (forall id',
     timebase_flag (em_at w' id') = timebase_flag (em_at w id') /\
     freq_timebase (em_at w' id') = freq_timebase (em_at w id')).

End EventManagerIsr.

(** ** fap_4p.c: the interlock checks of the background loop *)

Module Fap4pInterlocks.

Import F32 PsModules Control Fap4p EventManager.

(** Modelled from the spec: [enable_pwm_output] of pwm.c, which is not
    among the sources: the counterpart of [disable_pwm_output]. *)
Definition enable_pwm_output (i : nat) (m : machine) : machine :=
  set_pwm_regs
    (alter (fun p => mk_pwm_module true (pwm_duty_chA p)) i (pwm_regs m))
    m.

(** The enumerators of [hard_interlocks_t] and [soft_interlocks_t] that
    [check_interlocks] raises. *)
Definition Load_Overcurrent : nat := 0.
Definition Load_Overvoltage : nat := 1.
Definition IGBT_1_Mod_1_Overcurrent : nat := 2.
Definition IGBT_2_Mod_1_Overcurrent : nat := 3.
Definition IGBT_1_Mod_2_Overcurrent : nat := 4.
Definition IGBT_2_Mod_2_Overcurrent : nat := 5.
Definition IGBT_1_Mod_3_Overcurrent : nat := 6.
Definition IGBT_2_Mod_3_Overcurrent : nat := 7.
Definition IGBT_1_Mod_4_Overcurrent : nat := 8.
Definition IGBT_2_Mod_4_Overcurrent : nat := 9.
Definition Welded_Contactor_Mod_1_Fault : nat := 10.
Definition Welded_Contactor_Mod_2_Fault : nat := 11.
Definition Welded_Contactor_Mod_3_Fault : nat := 12.
Definition Welded_Contactor_Mod_4_Fault : nat := 13.
Definition Opened_Contactor_Mod_1_Fault : nat := 14.
Definition Opened_Contactor_Mod_2_Fault : nat := 15.
Definition Opened_Contactor_Mod_3_Fault : nat := 16.
Definition Opened_Contactor_Mod_4_Fault : nat := 17.
Definition DCLink_Mod_1_Overvoltage : nat := 18.
Definition DCLink_Mod_2_Overvoltage : nat := 19.
Definition DCLink_Mod_3_Overvoltage : nat := 20.
Definition DCLink_Mod_4_Overvoltage : nat := 21.
Definition DCLink_Mod_1_Undervoltage : nat := 22.
Definition DCLink_Mod_2_Undervoltage : nat := 23.
Definition DCLink_Mod_3_Undervoltage : nat := 24.
Definition DCLink_Mod_4_Undervoltage : nat := 25.

Definition DCCT_1_Fault : nat := 0.
Definition DCCT_2_Fault : nat := 1.
Definition DCCT_High_Difference : nat := 2.
Definition Load_Feedback_1_Fault : nat := 3.
Definition Load_Feedback_2_Fault : nat := 4.

(** The globals that [check_interlocks] reads and that none of the
    functions it calls writes: the limits [ANALOG_VARS_MAX] and
    [ANALOG_VARS_MIN] and the net signals that the other core
    publishes, [g_controller_mtoc.net_signals]. *)
Record analog_t : Type := mk_analog {
  ANALOG_VARS_MAX : list float;
  ANALOG_VARS_MIN : list float;
  mtoc_net_signals : list float
}.

(** A float used as a condition: true unless it compares equal to
    zero. *)
Definition nonzero (x : float) : bool :=
  match x with
  | S754_zero _ => false
  | _ => true
  end.

(** [if (c) f;] with the condition read in the current globals. *)
Definition when (c : machine -> bool) (f : world -> world) (w : world)
    : world :=
  if c (g_machine w) then f w else w.

(** [if (c) f; else g;]. *)
Definition if_else (c : machine -> bool) (f g : world -> world) (w : world)
    : world :=
  if c (g_machine w) then f w else g w.

Definition PIN_STATUS_DCCT_1_STATUS (m : machine) := GET_GPDI m 9.
Definition PIN_STATUS_DCCT_1_ACTIVE (m : machine) := GET_GPDI m 10.
Definition PIN_STATUS_DCCT_2_STATUS (m : machine) := GET_GPDI m 11.
Definition PIN_STATUS_DCCT_2_ACTIVE (m : machine) := GET_GPDI m 12.

Definition I_LOAD_1 (m : machine) : float := fget (net_signals m) 0.
Definition I_LOAD_2 (m : machine) : float := fget (net_signals m) 1.
Definition V_LOAD (m : machine) : float := fget (net_signals m) 2.
Definition I_LOAD_MEAN (m : machine) : float := fget (net_signals m) 3.
Definition I_LOAD_DIFF (m : machine) : float := fget (net_signals m) 6.

(** [g_ipc_ctom.ps_module[0].ps_status.bit.state]. *)
Definition ps0_state (m : machine) : ps_state_t := ps_state (module_at m 0).

Section Checks.

(** Whether the firmware is built with [USE_ITLK] defined. *)
Variable USE_ITLK : bool.

Variable a : analog_t.

Definition MAX_I_LOAD : float := fget (ANALOG_VARS_MAX a) 0.
Definition MAX_V_LOAD : float := fget (ANALOG_VARS_MAX a) 1.
Definition MAX_DCCTS_DIFF : float := fget (ANALOG_VARS_MAX a) 2.
Definition MAX_I_IDLE_DCCT : float := fget (ANALOG_VARS_MAX a) 3.
Definition MIN_I_ACTIVE_DCCT : float := fget (ANALOG_VARS_MIN a) 3.
Definition MAX_I_IGBT : float := fget (ANALOG_VARS_MAX a) 4.
Definition MAX_V_DCLINK : float := fget (ANALOG_VARS_MAX a) 7.
Definition MIN_V_DCLINK : float := fget (ANALOG_VARS_MIN a) 7.
Definition NUM_DCCTs : float := fget (ANALOG_VARS_MAX a) 11.

(** [I_IGBT_1_MOD_1] to [I_IGBT_2_MOD_4] are the signals 0 to 7 of the
    other core, [V_DCLINK_MOD_1] to [V_DCLINK_MOD_4] its signals 8 to
    11. *)
Definition I_IGBT (i : nat) : float := fget (mtoc_net_signals a) i.
Definition V_DCLINK_MOD (k : nat) : float :=
  fget (mtoc_net_signals a) (7 + k)%nat.

(** The four DC-link voltages are above [MIN_V_DCLINK]. *)
Definition dclinks_charged : bool :=
  fgt (V_DCLINK_MOD 1) MIN_V_DCLINK && fgt (V_DCLINK_MOD 2) MIN_V_DCLINK &&
  fgt (V_DCLINK_MOD 3) MIN_V_DCLINK && fgt (V_DCLINK_MOD 4) MIN_V_DCLINK.

(** The handlers [init_ps_module] registers for module 0 are those of
    fap_4p.c. *)
Definition fap_set_hard_interlock : nat -> nat -> world -> world :=
  EventManager.set_hard_interlock USE_ITLK fap_turn_off.
Definition fap_set_soft_interlock : nat -> nat -> world -> world :=
  EventManager.set_soft_interlock USE_ITLK fap_turn_off.

(** The checks on the load feedback of one DCCT. *)
Definition check_load_feedback (active : machine -> bool)
    (i_load : machine -> float) (itlk : nat) : world -> world :=
  if_else active
    (when (fun m => flt (fabs (i_load m)) MIN_I_ACTIVE_DCCT)
       (fap_set_soft_interlock 0 itlk))
    (when (fun m => fgt (fabs (i_load m)) MAX_I_IDLE_DCCT)
       (fap_set_soft_interlock 0 itlk)).

(** The body of [if (state == Initializing) { if (...) { ... } }]: the
    power supply starts to regulate. *)
Definition start_regulating (m : machine) : machine :=
  m |> upd_module 0 (set_ps_state SlowRef)
    |> enable_pwm_output 0 |> enable_pwm_output 1
    |> enable_pwm_output 2 |> enable_pwm_output 3
    |> enable_pwm_output 4 |> enable_pwm_output 5
    |> enable_pwm_output 6 |> enable_pwm_output 7.

(** The branches of [if (state <= Interlock) ... else ...]. *)
Definition check_welded_contactors (w : world) : world :=
  w |> when PIN_STATUS_DCLINK_CONTACTOR_MOD_1
         (fap_set_hard_interlock 0 Welded_Contactor_Mod_1_Fault)
    |> when PIN_STATUS_DCLINK_CONTACTOR_MOD_2
         (fap_set_hard_interlock 0 Welded_Contactor_Mod_2_Fault)
    |> when PIN_STATUS_DCLINK_CONTACTOR_MOD_3
         (fap_set_hard_interlock 0 Welded_Contactor_Mod_3_Fault)
    |> when PIN_STATUS_DCLINK_CONTACTOR_MOD_4
         (fap_set_hard_interlock 0 Welded_Contactor_Mod_4_Fault).

Definition check_undervoltage (w : world) : world :=
  w |> when (fun _ => flt (V_DCLINK_MOD 1) MIN_V_DCLINK)
         (fap_set_hard_interlock 0 DCLink_Mod_1_Undervoltage)
    |> when (fun _ => flt (V_DCLINK_MOD 2) MIN_V_DCLINK)
         (fap_set_hard_interlock 0 DCLink_Mod_2_Undervoltage)
    |> when (fun _ => flt (V_DCLINK_MOD 3) MIN_V_DCLINK)
         (fap_set_hard_interlock 0 DCLink_Mod_3_Undervoltage)
    |> when (fun _ => flt (V_DCLINK_MOD 4) MIN_V_DCLINK)
         (fap_set_hard_interlock 0 DCLink_Mod_4_Undervoltage).

Definition check_opened_contactors (w : world) : world :=
  w |> when (fun m => negb (PIN_STATUS_DCLINK_CONTACTOR_MOD_1 m))
         (fap_set_hard_interlock 0 Opened_Contactor_Mod_1_Fault)
    |> when (fun m => negb (PIN_STATUS_DCLINK_CONTACTOR_MOD_2 m))
         (fap_set_hard_interlock 0 Opened_Contactor_Mod_2_Fault)
    |> when (fun m => negb (PIN_STATUS_DCLINK_CONTACTOR_MOD_3 m))
         (fap_set_hard_interlock 0 Opened_Contactor_Mod_3_Fault)
    |> when (fun m => negb (PIN_STATUS_DCLINK_CONTACTOR_MOD_4 m))
         (fap_set_hard_interlock 0 Opened_Contactor_Mod_4_Fault)
    |> if_else (fun m => state_eqb (ps0_state m) Initializing)
         (when (fun _ => dclinks_charged) (upd_machine start_regulating))
         (when
            (fun m => state_code Initializing <? state_code (ps0_state m))
            check_undervoltage).

(** [DINT] and [EINT] mask the interrupts around the contactor checks;
    the calls are sequential here. *)
Definition check_interlocks (w : world) : world :=
  w |> when (fun m => fgt (fabs (I_LOAD_MEAN m)) MAX_I_LOAD)
         (fap_set_hard_interlock 0 Load_Overcurrent)
    |> when (fun _ => fgt (fabs (I_IGBT 0)) MAX_I_IGBT)
         (fap_set_hard_interlock 0 IGBT_1_Mod_1_Overcurrent)
    |> when (fun _ => fgt (fabs (I_IGBT 1)) MAX_I_IGBT)
         (fap_set_hard_interlock 0 IGBT_2_Mod_1_Overcurrent)
    |> when (fun _ => fgt (fabs (I_IGBT 2)) MAX_I_IGBT)
         (fap_set_hard_interlock 0 IGBT_1_Mod_2_Overcurrent)
    |> when (fun _ => fgt (fabs (I_IGBT 3)) MAX_I_IGBT)
         (fap_set_hard_interlock 0 IGBT_2_Mod_2_Overcurrent)
    |> when (fun _ => fgt (fabs (I_IGBT 4)) MAX_I_IGBT)
         (fap_set_hard_interlock 0 IGBT_1_Mod_3_Overcurrent)
    |> when (fun _ => fgt (fabs (I_IGBT 5)) MAX_I_IGBT)
         (fap_set_hard_interlock 0 IGBT_2_Mod_3_Overcurrent)
    |> when (fun _ => fgt (fabs (I_IGBT 6)) MAX_I_IGBT)
         (fap_set_hard_interlock 0 IGBT_1_Mod_4_Overcurrent)
    |> when (fun _ => fgt (fabs (I_IGBT 7)) MAX_I_IGBT)
         (fap_set_hard_interlock 0 IGBT_2_Mod_4_Overcurrent)
    |> when (fun m => fgt (fabs (I_LOAD_DIFF m)) MAX_DCCTS_DIFF)
         (fap_set_soft_interlock 0 DCCT_High_Difference)
    |> when (fun m => fgt (fabs (V_LOAD m)) MAX_V_LOAD)
         (fap_set_hard_interlock 0 Load_Overvoltage)
    |> when (fun _ => fgt (V_DCLINK_MOD 1) MAX_V_DCLINK)
         (fap_set_hard_interlock 0 DCLink_Mod_1_Overvoltage)
    |> when (fun _ => fgt (V_DCLINK_MOD 2) MAX_V_DCLINK)
         (fap_set_hard_interlock 0 DCLink_Mod_2_Overvoltage)
    |> when (fun _ => fgt (V_DCLINK_MOD 3) MAX_V_DCLINK)
         (fap_set_hard_interlock 0 DCLink_Mod_3_Overvoltage)
    |> when (fun _ => fgt (V_DCLINK_MOD 4) MAX_V_DCLINK)
         (fap_set_hard_interlock 0 DCLink_Mod_4_Overvoltage)
    |> when (fun m => negb (PIN_STATUS_DCCT_1_STATUS m))
         (fap_set_soft_interlock 0 DCCT_1_Fault)
    |> when (fun m => nonzero NUM_DCCTs && negb (PIN_STATUS_DCCT_2_STATUS m))
         (fap_set_soft_interlock 0 DCCT_2_Fault)
    |> check_load_feedback PIN_STATUS_DCCT_1_ACTIVE I_LOAD_1
         Load_Feedback_1_Fault
    |> when (fun _ => nonzero NUM_DCCTs)
         (check_load_feedback PIN_STATUS_DCCT_2_ACTIVE I_LOAD_2
            Load_Feedback_2_Fault)
    |> if_else
         (fun m => state_code (ps0_state m) <=? state_code Interlock)
         check_welded_contactors check_opened_contactors
    |> run_interlocks_debouncing 0.

End Checks.

(** *** What a step of the checks may change *)

(** Output [i] of the PWM modulators is enabled. *)
Definition pwm_enabled (m : machine) (i : nat) : bool :=
  match pwm_regs m !! i with
  | Some p => pwm_output_enabled p
  | None => false
  end.

(** Bit [b] of the mask of kind [k] of module [j] is set. *)
Definition latched_bit (k : kind) (m : machine) (j : nat) (b : Z) : bool :=
  Z.testbit (mask_of k (module_at m j)) b.

(** The change of state between two points of [check_interlocks]: the
    state is kept, or becomes [Interlock], or goes from [Initializing]
    to [SlowRef] with the DC links charged. *)
Definition state_step (a : analog_t) (st st' : ps_state_t) : Prop :=
  st' = st \/ st' = Interlock \/
  (st = Initializing /\ st' = SlowRef /\ dclinks_charged a = true).

(** What [check_interlocks] keeps from one of its points to a later
    one. *)
Definition guarded (a : analog_t) (w w' : world) : Prop :=
  let m := g_machine w in
  let m' := g_machine w' in
  state_step a (ps0_state m) (ps0_state m') /\
  (ps0_state m <> Initializing ->
   (forall i, pwm_enabled m' i = true -> pwm_enabled m i = true) /\
   (pwm_off NUM_PWM_MODULES m -> pwm_off NUM_PWM_MODULES m')) /\
  (forall k j b, latched_bit k m j b = true -> latched_bit k m' j b = true) /\
  (forall j, j <> 0%nat ->
     em_at w' j = em_at w j /\
     ps_state (module_at m' j) = ps_state (module_at m j)) /\
  length (ps_module m') = length (ps_module m) /\
  length (g_event_manager w') = length (g_event_manager w) /\
  gpdi m' = gpdi m.

(** The state [turn_off] leaves and keeps. *)
Definition settled (m : machine) : Prop :=
  pwm_off NUM_PWM_MODULES m /\
  (forall k, (k < 4)%nat -> gpdo m !! k = Some true -> False) /\
  (forall p, ps_module m !! 0%nat = Some p -> ps_openloop p = LOOP_STATE m) /\
  (ps0_state m = Off \/ ps0_state m = Interlock) /\
  read_signal m (PsSetpoint 0) = zero /\
  read_signal m (PsReference 0) = zero /\
  (forall i, (i < 5)%nat -> pi_is_reset m i) /\
  (forall i, (i < 3)%nat -> srlim_is_reset m i) /\
  error_is_reset m ERROR_I_LOAD /\
  Siggen.enable (SIGGEN m) = 0 /\
  WFMREF m = mk_wfmref 0.

(** *** The load overcurrent *)

(** The load overcurrent is read in the current globals. *)
Definition load_overcurrent (a : analog_t) (w : world) : bool :=
  fgt (fabs (I_LOAD_MEAN (g_machine w))) (MAX_I_LOAD a).

(** What the checks after the first one and before the debouncing keep
    of the channel [Load_Overcurrent]: the channel itself, the tick
    flag, the bit of the channel in the mask and the sizes. *)
Definition keeps_overcurrent (w w' : world) : Prop :=
  channel Hard w' 0 Load_Overcurrent = channel Hard w 0 Load_Overcurrent /\
  timebase_flag (em_at w' 0) = timebase_flag (em_at w 0) /\
  Z.testbit (sticky_mask Hard w' 0) 0 = Z.testbit (sticky_mask Hard w 0) 0 /\
  num_events (hard_interlocks (em_at w' 0)) =
    num_events (hard_interlocks (em_at w 0)) /\
  length (event (hard_interlocks (em_at w' 0))) =
    length (event (hard_interlocks (em_at w 0))) /\
  length (g_event_manager w') = length (g_event_manager w) /\
  length (ps_module (g_machine w')) = length (ps_module (g_machine w)).

(** What the checks change in a build without [USE_ITLK]: interlocks
    are recorded in the masks and nothing is switched off. *)
Definition records_only (a : analog_t) (w w' : world) : Prop :=
  let m := g_machine w in
  let m' := g_machine w' in
  turn_off_calls w' = turn_off_calls w /\
  (ps0_state m' = ps0_state m \/
   (ps0_state m = Initializing /\ ps0_state m' = SlowRef /\
    dclinks_charged a = true)) /\
  (forall i, pwm_enabled m i = true -> pwm_enabled m' i = true) /\
  pwm_duty_chA <$> pwm_regs m' = pwm_duty_chA <$> pwm_regs m /\
  (forall r, read_signal m' r = read_signal m r) /\
  SIGGEN m' = SIGGEN m /\ WFMREF m' = WFMREF m /\
  dsp_pi m' = dsp_pi m /\ dsp_srlim m' = dsp_srlim m /\
  gpdo m' = gpdo m.

(** *** Configurations the checks are run on *)

(** Limits of 5 on every analog variable, and no signal from the other
    core. *)
Definition limits_5 : analog_t :=
  mk_analog (replicate 13 (of_Z 5)) (replicate 13 zero) (replicate 12 zero).

(** The regulating machine with a mean load current of 10, above the
    limit, and hard channel 0 of the manager due. *)
Definition w_overcurrent : world :=
  mk_world (g_event_manager w_due)
    (write_signal (NetSignal 3) (of_Z 10) regulating_machine) [].

(** The same machine with the manager as it is initialised: no channel
    raised, every counter at zero. *)
Definition w_overcurrent_fresh : world :=
  mk_world (g_event_manager w_48k)
    (write_signal (NetSignal 3) (of_Z 10) regulating_machine) [].

End Fap4pInterlocks.

(** * Properties *)

(** ** Enumeration *)

Lemma forall_range_spec bits base P :
  forall_range bits base P = true ->
  forall k, base <= k < base + 2 ^ Z.of_nat bits -> P k = true.
Proof.
  revert base. induction bits as [|b IH]; intros base H k Hk.
  - cbn in *. assert (k = base) as -> by lia. exact H.
  - cbn [forall_range] in H. apply andb_true_iff in H as [H1 H2].
    rewrite Nat2Z.inj_succ, Z.pow_succ_r in Hk by lia.
    destruct (Z.lt_ge_cases k (base + 2 ^ Z.of_nat b)).
    + apply (IH base H1). lia.
    + apply (IH _ H2). lia.
Qed.

(** ** Rounding

    [SpecFloat] rounds a product by shifting its mantissa.  The shifts
    are a rounded quotient, the rounded float depends on the value of
    the product only, and it grows with that value: this makes
    [time_to_counts] monotone in the time. *)

Module RoundingProofs.

Import F32 Rounding EventManager.

(** *** Shifts as quotients *)

Lemma digits2_pos_bounds m :
  2 ^ (Z.pos (digits2_pos m) - 1) <= Z.pos m < 2 ^ Z.pos (digits2_pos m).
Proof.
  induction m as [m IH|m IH|]; cbn [digits2_pos].
  - rewrite Pos2Z.inj_succ.
    replace (Z.succ (Z.pos (digits2_pos m)) - 1) with
      (Z.succ (Z.pos (digits2_pos m) - 1)) by lia.
    rewrite !Z.pow_succ_r by lia. lia.
  - rewrite Pos2Z.inj_succ.
    replace (Z.succ (Z.pos (digits2_pos m)) - 1) with
      (Z.succ (Z.pos (digits2_pos m) - 1)) by lia.
    rewrite !Z.pow_succ_r by lia. lia.
  - cbn. lia.
Qed.

Lemma iter_pos_iter {A} (f : A -> A) p x :
  SpecFloat.iter_pos f p x = Pos.iter f x p.
Proof.
  revert x. induction p as [p IH|p IH|]; intros x;
    cbn [SpecFloat.iter_pos Pos.iter].
  - rewrite !IH. by rewrite <- !Pos.iter_swap.
  - by rewrite !IH.
  - done.
Qed.

Lemma shr_1_nonneg m r s :
  0 <= m ->
  shr_1 (Build_shr_record m r s) = Build_shr_record (m / 2) (Z.odd m) (r || s).
Proof.
  intros Hm. destruct m as [|p|p]; [done| |lia].
  destruct p as [p|p|]; cbn [shr_1 Z.odd]; f_equal.
  - rewrite Pos2Z.inj_xI. apply (Z.div_unique _ _ _ 1); lia.
  - rewrite Pos2Z.inj_xO. apply (Z.div_unique _ _ _ 0); lia.
Qed.

Lemma mod_pow2_succ m k :
  0 <= k ->
  m mod 2 ^ (k + 1) =
  m mod 2 ^ k + 2 ^ k * (if Z.odd (m / 2 ^ k) then 1 else 0).
Proof.
  intros Hk. rewrite Z.pow_add_r, Z.pow_1_r by lia.
  rewrite Z.rem_mul_r by lia. f_equal. f_equal.
  rewrite Zmod_odd. done.
Qed.

(** [k] shifts from an exact record. *)
Lemma shr_iter m p :
  0 <= m ->
  Pos.iter shr_1 (Build_shr_record m false false) p =
  Build_shr_record (m / 2 ^ Z.pos p)
    (Z.odd (m / 2 ^ (Z.pos p - 1)))
    (negb (m mod 2 ^ (Z.pos p - 1) =? 0)).
Proof.
  intros Hm. induction p as [|p IH] using Pos.peano_ind.
  - cbn [Pos.iter]. rewrite shr_1_nonneg by done.
    change (Z.pos 1 - 1) with 0. rewrite Z.pow_0_r, Z.div_1_r, Z.mod_1_r.
    by rewrite Z.pow_1_r.
  - rewrite Pos.iter_succ, IH.
    rewrite shr_1_nonneg by (apply Z.div_pos; lia).
    rewrite Pos2Z.inj_succ.
    replace (Z.succ (Z.pos p) - 1) with (Z.pos p) by lia.
    f_equal.
    + rewrite Z.pow_succ_r by lia. rewrite Z.div_div by lia.
      f_equal. lia.
    + assert (Hr : m mod 2 ^ Z.pos p =
                   m mod 2 ^ (Z.pos p - 1) +
                   2 ^ (Z.pos p - 1) *
                     (if Z.odd (m / 2 ^ (Z.pos p - 1)) then 1 else 0)).
      { replace (Z.pos p) with ((Z.pos p - 1) + 1) at 1 by lia.
        apply mod_pow2_succ. lia. }
      rewrite Hr.
      pose proof (Z.mod_pos_bound m (2 ^ (Z.pos p - 1))
                    ltac:(apply Z.pow_pos_nonneg; lia)).
      assert (0 < 2 ^ (Z.pos p - 1)) by (apply Z.pow_pos_nonneg; lia).
      destruct (Z.odd (m / 2 ^ (Z.pos p - 1)));
        destruct (Z.eqb_spec (m mod 2 ^ (Z.pos p - 1)) 0); cbn [orb negb].
      * symmetry. apply negb_true_iff. apply Z.eqb_neq. lia.
      * symmetry. apply negb_true_iff. apply Z.eqb_neq. lia.
      * symmetry. apply negb_false_iff. apply Z.eqb_eq. lia.
      * symmetry. apply negb_true_iff. apply Z.eqb_neq. lia.
Qed.

(** Shifting and rounding to nearest even is [rnd_div]. *)
Lemma shr_round m p :
  0 <= m ->
  let mrs := SpecFloat.iter_pos shr_1 p (Build_shr_record m false false) in
  round_nearest_even (shr_m mrs) (loc_of_shr_record mrs) = rnd_div m (Z.pos p).
Proof.
  intros Hm. cbn zeta. rewrite iter_pos_iter, shr_iter by done.
  unfold rnd_div.
  assert (Hh : 0 < 2 ^ (Z.pos p - 1)) by (apply Z.pow_pos_nonneg; lia).
  assert (Hp : 2 ^ Z.pos p = 2 * 2 ^ (Z.pos p - 1)).
  { rewrite <- Z.pow_succ_r by lia. f_equal. lia. }
  assert (Hr : m mod 2 ^ Z.pos p =
               m mod 2 ^ (Z.pos p - 1) +
               2 ^ (Z.pos p - 1) *
                 (if Z.odd (m / 2 ^ (Z.pos p - 1)) then 1 else 0)).
  { replace (Z.pos p) with ((Z.pos p - 1) + 1) at 1 by lia.
    apply mod_pow2_succ. lia. }
  pose proof (Z.mod_pos_bound m (2 ^ (Z.pos p - 1)) Hh) as Hlow.
  rewrite Hr, Hp.
  set (h := 2 ^ (Z.pos p - 1)) in *. set (low := m mod h) in *.
  set (q := m / (2 * h)).
  destruct (Z.odd (m / h)); destruct (Z.eqb_spec low 0) as [E|E];
    cbn [negb loc_of_shr_record shr_m shr_r shr_s round_nearest_even].
  - destruct (Z.ltb_spec (2 * h) (2 * (low + h * 1))); [lia|].
    destruct (Z.eqb_spec (2 * (low + h * 1)) (2 * h)); [|lia].
    cbn [orb andb]. rewrite <- Z.negb_odd. by destruct (Z.odd q).
  - destruct (Z.ltb_spec (2 * h) (2 * (low + h * 1))); [|lia]. done.
  - destruct (Z.ltb_spec (2 * h) (2 * (low + h * 0))); [lia|].
    destruct (Z.eqb_spec (2 * (low + h * 0)) (2 * h)); [lia|]. done.
  - destruct (Z.ltb_spec (2 * h) (2 * (low + h * 0))); [lia|].
    destruct (Z.eqb_spec (2 * (low + h * 0)) (2 * h)); [lia|]. done.
Qed.

(** *** [binary_round_aux] as a rounded quotient *)

Lemma fexp_32 k : fexp prec emax k = Z.max (k - 24) (-149).
Proof. reflexivity. Qed.

Lemma Zdigits2_bounds q :
  0 < q -> 2 ^ (Zdigits2 q - 1) <= q < 2 ^ Zdigits2 q.
Proof.
  destruct q as [|p|p]; try lia. intros _. apply digits2_pos_bounds.
Qed.

Lemma Zdigits2_le q k : 0 <= k -> 0 <= q < 2 ^ k -> Zdigits2 q <= k.
Proof.
  intros Hk [H0 Hq]. destruct (Z.eq_dec q 0) as [->|Hne]; [done|].
  pose proof (Zdigits2_bounds q ltac:(lia)) as [Hlo _].
  destruct (Z.le_gt_cases (Zdigits2 q) k) as [|Hgt]; [done|].
  assert (2 ^ k <= 2 ^ (Zdigits2 q - 1)) by (apply Z.pow_le_mono_r; lia).
  lia.
Qed.

Lemma rnd_div_0 m : rnd_div m 0 = m.
Proof.
  unfold rnd_div. rewrite Z.pow_0_r, Z.div_1_r, Z.mod_1_r. done.
Qed.

Lemma rnd_div_bounds m k :
  0 <= m -> 0 <= k -> m / 2 ^ k <= rnd_div m k <= m / 2 ^ k + 1.
Proof.
  intros Hm Hk. unfold rnd_div. destruct (_ || _); lia.
Qed.

Lemma rnd_div_le_pow m k j :
  0 <= m -> 0 <= k -> 0 <= j -> m < 2 ^ (j + k) -> 0 <= rnd_div m k <= 2 ^ j.
Proof.
  intros Hm Hk Hj Hlt.
  pose proof (rnd_div_bounds m k Hm Hk) as [H1 H2].
  assert (0 < 2 ^ k) by (apply Z.pow_pos_nonneg; lia).
  assert (0 <= m / 2 ^ k) by (apply Z.div_pos; lia).
  assert (m / 2 ^ k < 2 ^ j).
  { apply Z.div_lt_upper_bound; [lia|].
    rewrite <- Z.pow_add_r by lia. by rewrite Z.add_comm. }
  lia.
Qed.

(** [binary_round_aux] on a mantissa of 24 digits or more. *)
Lemma binary_round_aux_big s m e :
  2 ^ 23 <= Z.pos m ->
  let f := round_exp (Z.pos (digits2_pos m)) e in
  binary_round_aux prec emax s (Z.pos m) e loc_Exact =
  rounded s (rnd_div (Z.pos m) (f - e)) f.
Proof.
  intros Hm. cbn zeta. unfold round_exp.
  pose proof (digits2_pos_bounds m) as [Hlo Hhi].
  set (d := Z.pos (digits2_pos m)) in *.
  assert (Hd : 24 <= d).
  { destruct (Z.le_gt_cases 24 d); [done|].
    assert (2 ^ d <= 2 ^ 23) by (apply Z.pow_le_mono_r; lia). lia. }
  set (f := Z.max (d + e - 24) (-149)).
  assert (Hf : f - e >= 0 /\ -149 <= f /\ d + e - f <= 24) by (subst f; lia).
  unfold binary_round_aux, shr_fexp. rewrite !fexp_32.
  cbn [Zdigits2]. fold d. fold f.
  destruct (f - e) as [|p|p] eqn:En; [| |lia].
  - (* no shift *)
    cbn [shr shr_record_of_loc loc_of_shr_record round_nearest_even shr_m].
    cbn [Zdigits2]. fold d. rewrite fexp_32. fold f. rewrite En.
    cbn [shr shr_m]. rewrite rnd_div_0.
    assert (d = 24) by lia.
    assert (Z.pos m < 2 ^ 24) by (replace 24 with d by lia; done).
    unfold rounded. destruct (Z.eqb_spec (Z.pos m) (2 ^ 24)); [lia|].
    replace e with f by lia. done.
  - (* a shift by [p] *)
    cbn [shr shr_record_of_loc].
    rewrite (shr_round (Z.pos m) p) by lia.
    replace (e + Z.pos p) with f by lia.
    set (q := rnd_div (Z.pos m) (Z.pos p)).
    assert (Hq : 0 <= q <= 2 ^ 24).
    { apply rnd_div_le_pow; try lia.
      assert (2 ^ d <= 2 ^ (24 + Z.pos p)) by (apply Z.pow_le_mono_r; lia).
      lia. }
    destruct (Z.eq_dec q (2 ^ 24)) as [E|E].
    + rewrite E. change (Zdigits2 (2 ^ 24)) with 25. rewrite fexp_32.
      replace (Z.max (25 + f - 24) (-149) - f) with 1 by lia.
      cbn [shr SpecFloat.iter_pos shr_1 shr_m Z.pow Z.pow_pos Pos.iter Z.mul
           Pos.mul].
      unfold rounded.
      cbn [Z.eqb Pos.eqb Z.pow Z.pow_pos Pos.iter Z.mul Pos.mul].
      done.
    + assert (Hdq : Zdigits2 q <= 24) by (apply Zdigits2_le; lia).
      assert (0 <= Zdigits2 q) by (destruct q; cbn; lia).
      rewrite fexp_32.
      destruct (Z.max (Zdigits2 q + f - 24) (-149) - f) as [|p'|p'] eqn:En';
        [| lia |].
      * cbn [shr shr_m]. unfold rounded.
        destruct q as [|q'|q']; [done| |lia].
        destruct (Z.eqb_spec (Z.pos q') (2 ^ 24)); [lia|]. done.
      * cbn [shr shr_m]. unfold rounded.
        destruct q as [|q'|q']; [done| |lia].
        destruct (Z.eqb_spec (Z.pos q') (2 ^ 24)); [lia|]. done.
Qed.

(** *** The rounded quotient grows with the value *)

Lemma pow2_pos k : 0 <= k -> 0 < 2 ^ k.
Proof. intros. apply Z.pow_pos_nonneg; lia. Qed.

Lemma rnd_div_mono a b k :
  0 <= k -> 0 <= a <= b -> rnd_div a k <= rnd_div b k.
Proof.
  intros Hk [Ha Hab].
  pose proof (pow2_pos k Hk) as Hp.
  pose proof (rnd_div_bounds a k Ha Hk) as [A1 A2].
  pose proof (rnd_div_bounds b k ltac:(lia) Hk) as [B1 B2].
  assert (Hq : a / 2 ^ k <= b / 2 ^ k) by (apply Z.div_le_mono; lia).
  destruct (Z.eq_dec (a / 2 ^ k) (b / 2 ^ k)) as [E|E]; [|lia].
  pose proof (Z.div_mod a (2 ^ k) ltac:(lia)) as Da.
  pose proof (Z.div_mod b (2 ^ k) ltac:(lia)) as Db.
  assert (Hr : a mod 2 ^ k <= b mod 2 ^ k) by (rewrite E in Da; lia).
  unfold rnd_div. rewrite E.
  destruct (Z.ltb_spec (2 ^ k) (2 * (a mod 2 ^ k)));
    destruct (Z.ltb_spec (2 ^ k) (2 * (b mod 2 ^ k)));
    destruct (Z.eqb_spec (2 * (a mod 2 ^ k)) (2 ^ k));
    destruct (Z.eqb_spec (2 * (b mod 2 ^ k)) (2 ^ k));
    destruct (Z.odd (b / 2 ^ k)); cbn [orb andb]; lia.
Qed.

Lemma rnd_div_scale m k j :
  0 <= k -> 0 <= j -> rnd_div (m * 2 ^ j) (k + j) = rnd_div m k.
Proof.
  intros Hk Hj. unfold rnd_div.
  pose proof (pow2_pos k Hk). pose proof (pow2_pos j Hj).
  rewrite Z.pow_add_r by lia.
  rewrite Z.div_mul_cancel_r by lia.
  rewrite Z.mul_mod_distr_r by lia.
  set (r := m mod 2 ^ k). set (q := m / 2 ^ k).
  assert (E1 : (2 ^ k * 2 ^ j <? 2 * (r * 2 ^ j)) = (2 ^ k <? 2 * r)).
  { destruct (Z.ltb_spec (2 ^ k) (2 * r)).
    - apply Z.ltb_lt. nia.
    - apply Z.ltb_ge. nia. }
  assert (E2 : (2 * (r * 2 ^ j) =? 2 ^ k * 2 ^ j) = (2 * r =? 2 ^ k)).
  { destruct (Z.eqb_spec (2 * r) (2 ^ k)).
    - apply Z.eqb_eq. nia.
    - apply Z.eqb_neq. nia. }
  by rewrite E1, E2.
Qed.



Lemma log2_bounds X : 0 < X -> 2 ^ Z.log2 X <= X < 2 ^ (Z.log2 X + 1).
Proof.
  intros H. pose proof (Z.log2_spec X H). rewrite <- Z.add_1_r in *. lia.
Qed.

Lemma scaled_exp_bounds K X :
  0 <= K -> 0 < X ->
  let g := scaled_exp K X in
  0 <= g /\ X < 2 ^ (24 + g) /\ 0 <= rnd_div X g <= 2 ^ 24.
Proof.
  intros HK HX. cbn zeta. unfold scaled_exp.
  pose proof (log2_bounds X HX) as [Hlo Hhi].
  pose proof (Z.log2_nonneg X).
  set (g := Z.max (Z.log2 X - 23) K).
  assert (Hg : 0 <= g) by (subst g; lia).
  assert (Hlt : X < 2 ^ (24 + g)).
  { assert (2 ^ (Z.log2 X + 1) <= 2 ^ (24 + g))
      by (apply Z.pow_le_mono_r; subst g; lia).
    lia. }
  split; [done|]. split; [done|].
  apply rnd_div_le_pow; lia.
Qed.

(** Rounding is monotone in the value, and so is the exponent of the
    result. *)
Lemma rnd_value_mono K X Y :
  0 <= K -> 0 < X <= Y ->
  let gX := scaled_exp K X in
  let gY := scaled_exp K Y in
  rnd_div X gX * 2 ^ gX <= rnd_div Y gY * 2 ^ gY /\
  gX + (if rnd_div X gX =? 2 ^ 24 then 1 else 0) <=
  gY + (if rnd_div Y gY =? 2 ^ 24 then 1 else 0).
Proof.
  intros HK [HX HXY]. cbn zeta.
  destruct (scaled_exp_bounds K X HK HX) as (HgX & HltX & HqX).
  destruct (scaled_exp_bounds K Y HK ltac:(lia)) as (HgY & HltY & HqY).
  assert (Hlog : Z.log2 X <= Z.log2 Y) by (apply Z.log2_le_mono; lia).
  assert (Hg : scaled_exp K X <= scaled_exp K Y) by (unfold scaled_exp; lia).
  destruct (Z.eq_dec (scaled_exp K X) (scaled_exp K Y)) as [E|E].
  - rewrite <- E in *.
    pose proof (rnd_div_mono X Y (scaled_exp K X) HgX ltac:(lia)) as Hq.
    pose proof (pow2_pos _ HgX).
    split; [nia|].
    destruct (Z.eqb_spec (rnd_div X (scaled_exp K X)) (2 ^ 24));
      destruct (Z.eqb_spec (rnd_div Y (scaled_exp K X)) (2 ^ 24)); lia.
  - set (gX := scaled_exp K X) in *. set (gY := scaled_exp K Y) in *.
    assert (HgY' : gY = Z.log2 Y - 23) by (unfold gY, gX, scaled_exp in *; lia).
    assert (Hll : Z.log2 X + 1 <= Z.log2 Y)
      by (unfold gY, gX, scaled_exp in *; lia).
    pose proof (log2_bounds X HX) as [_ HXhi].
    pose proof (log2_bounds Y ltac:(lia)) as [HYlo _].
    set (P := 2 ^ Z.log2 Y) in *.
    assert (HXP : X < P).
    { assert (2 ^ (Z.log2 X + 1) <= P)
        by (apply Z.pow_le_mono_r; lia).
      lia. }
    pose proof (pow2_pos _ HgX) as HpX. pose proof (pow2_pos _ HgY) as HpY.
    assert (HPX : P = 2 ^ (Z.log2 Y - gX) * 2 ^ gX).
    { unfold P. rewrite <- Z.pow_add_r by lia. f_equal. lia. }
    assert (HPY : P = 2 ^ 23 * 2 ^ gY).
    { unfold P. rewrite <- Z.pow_add_r by lia. f_equal. lia. }
    pose proof (rnd_div_bounds X gX ltac:(lia) HgX) as [_ HX2].
    pose proof (rnd_div_bounds Y gY ltac:(lia) HgY) as [HY1 _].
    assert (HqXlt : X / 2 ^ gX < 2 ^ (Z.log2 Y - gX)).
    { apply Z.div_lt_upper_bound; [lia|]. lia. }
    assert (HqYge : 2 ^ 23 <= Y / 2 ^ gY).
    { apply Z.div_le_lower_bound; lia. }
    split.
    + transitivity P; [nia|nia].
    + destruct (Z.eqb_spec (rnd_div X gX) (2 ^ 24));
        destruct (Z.eqb_spec (rnd_div Y gY) (2 ^ 24)); lia.
Qed.

(** *** The rounded float grows with the value *)

Lemma Zdigits2_log2 m : Z.pos (digits2_pos m) = Z.log2 (Z.pos m) + 1.
Proof.
  pose proof (digits2_pos_bounds m) as [Hlo Hhi].
  assert (Z.log2 (Z.pos m) = Z.pos (digits2_pos m) - 1); [|lia].
  apply Z.log2_unique; [lia|].
  replace (Z.succ (Z.pos (digits2_pos m) - 1)) with (Z.pos (digits2_pos m))
    by lia.
  split; assumption.
Qed.

(** [binary_round_aux] in terms of the scaled value. *)
Lemma binary_round_aux_scaled s m e E0 :
  2 ^ 23 <= Z.pos m -> E0 <= e -> E0 <= -149 ->
  let X := Z.pos m * 2 ^ (e - E0) in
  let g := scaled_exp (-149 - E0) X in
  binary_round_aux prec emax s (Z.pos m) e loc_Exact =
  rounded s (rnd_div X g) (g + E0).
Proof.
  intros Hm He HE. cbn zeta. rewrite binary_round_aux_big by done.
  unfold round_exp, scaled_exp. rewrite Zdigits2_log2.
  rewrite Z.log2_mul_pow2 by lia.
  set (l := Z.log2 (Z.pos m)).
  assert (Hl : 23 <= l).
  { unfold l. change 23 with (Z.log2 (2 ^ 23)). by apply Z.log2_le_mono. }
  replace (Z.max (e - E0 + l - 23) (-149 - E0) + E0)
    with (Z.max (l + 1 + e - 24) (-149)) by lia.
  set (f := Z.max (l + 1 + e - 24) (-149)).
  replace (Z.max (e - E0 + l - 23) (-149 - E0)) with ((f - e) + (e - E0))
    by (subst f; lia).
  rewrite rnd_div_scale by (subst f; lia). done.
Qed.

Lemma rounded_cases s q f E0 :
  0 <= q <= 2 ^ 24 -> E0 <= f ->
  let eo := f + (if q =? 2 ^ 24 then 1 else 0) in
  (q = 0 /\ rounded s q f = S754_zero s) \/
  (0 < q /\ eo <= 104 /\
   exists m', rounded s q f = S754_finite s m' eo /\
              Z.pos m' * 2 ^ (eo - E0) = q * 2 ^ (f - E0)) \/
  (0 < q /\ 104 < eo /\ rounded s q f = S754_infinity s).
Proof.
  intros Hq Hf. cbn zeta. unfold rounded.
  destruct q as [|q'|q']; [by left| |lia]. right.
  destruct (Z.eqb_spec (Z.pos q') (2 ^ 24)) as [E|E].
  - destruct (Z.leb_spec (f + 1) 104).
    + left. split; [lia|]. split; [done|]. eexists. split; [done|].
      rewrite E. replace (f + 1 - E0) with (Z.succ (f - E0)) by lia.
      rewrite Z.pow_succ_r by lia.
      change (Z.pos (2 ^ 23)) with (2 ^ 23). change (2 ^ 24) with (2 * 2 ^ 23).
      lia.
    + right. split; [lia|]. done.
  - rewrite Z.add_0_r. destruct (Z.leb_spec f 104).
    + left. split; [lia|]. split; [done|]. by eexists.
    + right. split; [lia|]. done.
Qed.

(** Rounding a larger value gives a larger float, and overflows
    first. *)
Lemma binary_round_aux_mono E0 m1 e1 m2 e2 :
  2 ^ 23 <= Z.pos m1 -> 2 ^ 23 <= Z.pos m2 ->
  E0 <= e1 -> E0 <= e2 -> E0 <= -149 ->
  Z.pos m1 * 2 ^ (e1 - E0) <= Z.pos m2 * 2 ^ (e2 - E0) ->
  let r1 := binary_round_aux prec emax false (Z.pos m1) e1 loc_Exact in
  let r2 := binary_round_aux prec emax false (Z.pos m2) e2 loc_Exact in
  finite_nonneg E0 r2 ->
  finite_nonneg E0 r1 /\ sval E0 r1 <= sval E0 r2.
Proof.
  intros Hm1 Hm2 He1 He2 HE HX. cbn zeta.
  rewrite !(binary_round_aux_scaled _ _ _ E0) by done.
  set (X := Z.pos m1 * 2 ^ (e1 - E0)) in *.
  set (Y := Z.pos m2 * 2 ^ (e2 - E0)) in *.
  set (K := -149 - E0).
  assert (HK : 0 <= K) by (subst K; lia).
  assert (HXpos : 0 < X).
  { unfold X. pose proof (pow2_pos (e1 - E0) ltac:(lia)). nia. }
  destruct (scaled_exp_bounds K X HK HXpos) as (HgX & _ & HqX).
  destruct (scaled_exp_bounds K Y HK ltac:(lia)) as (HgY & _ & HqY).
  destruct (rnd_value_mono K X Y HK ltac:(lia)) as [HV Hexp].
  set (gX := scaled_exp K X) in *. set (gY := scaled_exp K Y) in *.
  set (qX := rnd_div X gX) in *. set (qY := rnd_div Y gY) in *.
  pose proof (pow2_pos gX HgX). pose proof (pow2_pos gY HgY).
  destruct (rounded_cases false qX (gX + E0) E0 HqX ltac:(lia))
    as [[Q1 ->]|[(Q1 & O1 & m1' & -> & V1)|(Q1 & O1 & ->)]];
  destruct (rounded_cases false qY (gY + E0) E0 HqY ltac:(lia))
    as [[Q2 ->]|[(Q2 & O2 & m2' & -> & V2)|(Q2 & O2 & ->)]];
    cbn [finite_nonneg sval]; intros Hfin; try contradiction.
  - split; [done|lia].
  - split; [done|].
    apply Z.mul_nonneg_nonneg; [lia|]. apply Z.pow_nonneg. lia.
  - exfalso. nia.
  - split; [destruct (qX =? 2 ^ 24); lia|].
    rewrite V1, V2.
    replace (gX + E0 - E0) with gX by lia.
    replace (gY + E0 - E0) with gY by lia. done.
  - exfalso. nia.
  - exfalso. lia.
Qed.

(** *** Products *)

Lemma iter_xO p k : Z.pos (Pos.iter xO p k) = Z.pos p * 2 ^ Z.pos k.
Proof.
  induction k as [|k IH] using Pos.peano_ind.
  - cbn [Pos.iter]. rewrite Pos2Z.inj_xO, Z.pow_1_r. lia.
  - rewrite Pos.iter_succ, Pos2Z.inj_xO, IH, Pos2Z.inj_succ.
    rewrite Z.pow_succ_r by lia. lia.
Qed.

(** An integer of at most 24 bits converts exactly, to a mantissa of 24
    digits. *)
Lemma of_Z_exact t :
  1 <= t < 2 ^ 24 ->
  exists mt et,
    of_Z t = S754_finite false mt et /\
    2 ^ 23 <= Z.pos mt /\ -23 <= et <= 0 /\
    Z.pos mt * 2 ^ (et + 23) = t * 2 ^ 23.
Proof.
  intros [H1 H24]. destruct t as [|p|p]; try lia.
  unfold of_Z, binary_normalize, binary_round.
  pose proof (digits2_pos_bounds p) as [Hlo Hhi].
  pose proof (Zdigits2_log2 p) as Hlog.
  set (d := Z.pos (digits2_pos p)) in *.
  assert (Hd : 1 <= d <= 24).
  { split; [subst d; lia|].
    destruct (Z.le_gt_cases d 24); [done|].
    assert (2 ^ 24 <= 2 ^ (d - 1)) by (apply Z.pow_le_mono_r; lia). lia. }
  rewrite Z.add_0_r, fexp_32.
  replace (Z.max (d - 24) (-149)) with (d - 24) by lia.
  unfold shl_align. rewrite Z.sub_0_r.
  assert (Hgoal : forall mz ez,
    Z.pos mz = Z.pos p * 2 ^ (24 - d) -> ez = d - 24 ->
    exists mt et,
      binary_round_aux prec emax false (Z.pos mz) ez loc_Exact =
        S754_finite false mt et /\
      2 ^ 23 <= Z.pos mt /\ -23 <= et <= 0 /\
      Z.pos mt * 2 ^ (et + 23) = Z.pos p * 2 ^ 23).
  { intros mz ez Hmz ->.
    assert (Hp23 : 2 ^ 23 = 2 ^ (d - 1) * 2 ^ (24 - d)).
    { rewrite <- Z.pow_add_r by lia. f_equal. lia. }
    assert (Hp24 : 2 ^ 24 = 2 ^ d * 2 ^ (24 - d)).
    { rewrite <- Z.pow_add_r by lia. f_equal. lia. }
    pose proof (pow2_pos (24 - d) ltac:(lia)) as Hpos.
    assert (Hmz23 : 2 ^ 23 <= Z.pos mz) by (rewrite Hmz, Hp23; nia).
    assert (Hmz24 : Z.pos mz < 2 ^ 24) by (rewrite Hmz, Hp24; nia).
    assert (Hdz : Z.pos (digits2_pos mz) = 24).
    { rewrite Zdigits2_log2.
      assert (Z.log2 (Z.pos mz) = 23); [|lia].
      apply Z.log2_unique; [lia|]. change (Z.succ 23) with 24. lia. }
    rewrite binary_round_aux_big by done. rewrite Hdz.
    unfold round_exp.
    replace (Z.max (24 + (d - 24) - 24) (-149)) with (d - 24) by lia.
    rewrite Z.sub_diag, rnd_div_0.
    unfold rounded.
    destruct (Z.eqb_spec (Z.pos mz) (2 ^ 24)); [lia|].
    destruct (Z.leb_spec (d - 24) 104); [|lia].
    exists mz, (d - 24). split; [done|]. split; [done|]. split; [lia|].
    rewrite Hmz. replace (d - 24 + 23) with (d - 1) by lia.
    rewrite Hp23. lia. }
  destruct (d - 24) as [|k|k] eqn:Ek; [| lia |].
  - apply Hgoal; [|done]. replace (24 - d) with 0 by lia. lia.
  - apply Hgoal; [|done]. rewrite iter_xO. f_equal. f_equal. lia.
Qed.

Lemma c_1e_6_mantissa : c_1e_6 = S754_finite false 8796093 (-43).
Proof. vm_compute. reflexivity. Qed.

Lemma fmul_finite mx ex my ey :
  fmul (S754_finite false mx ex) (S754_finite false my ey) =
  binary_round_aux prec emax false (Z.pos (mx * my)) (ex + ey) loc_Exact.
Proof. reflexivity. Qed.

Lemma sval_nonneg E0 x : finite_nonneg E0 x -> 0 <= sval E0 x.
Proof.
  destruct x as [s|s| |s m e]; try done. destruct s; [done|].
  cbn [finite_nonneg sval]. intros He.
  apply Z.mul_nonneg_nonneg; [lia|]. apply Z.pow_nonneg. lia.
Qed.

(** Multiplying by a positive finite float is monotone on the floats
    that are zero or positive and finite, when one of the two
    mantissas has 24 digits. *)
Lemma fmul_mono_l E0 mf ef x y :
  E0 <= -149 ->
  finite_nonneg (E0 - ef) x -> finite_nonneg (E0 - ef) y ->
  (forall s m e, x = S754_finite s m e -> 2 ^ 23 <= Z.pos m * Z.pos mf) ->
  (forall s m e, y = S754_finite s m e -> 2 ^ 23 <= Z.pos m * Z.pos mf) ->
  sval (E0 - ef) x <= sval (E0 - ef) y ->
  finite_nonneg E0 (fmul (S754_finite false mf ef) y) ->
  finite_nonneg E0 (fmul (S754_finite false mf ef) x) /\
  sval E0 (fmul (S754_finite false mf ef) x) <=
  sval E0 (fmul (S754_finite false mf ef) y).
Proof.
  intros HE Hx Hy Bx By Hv Hfin.
  destruct y as [sy|sy| |sy my ey]; try done.
  - (* y = 0 *)
    destruct x as [sx|sx| |sx mx ex]; try done.
    destruct sx; [done|]. cbn [sval finite_nonneg] in *.
    pose proof (pow2_pos (ex - (E0 - ef)) ltac:(lia)). nia.
  - destruct sy; [done|].
    destruct x as [sx|sx| |sx mx ex]; try done.
    + (* x = 0 *)
      split; [done|].
      change (sval E0 (fmul (S754_finite false mf ef) (S754_zero sx))) with 0.
      by apply sval_nonneg.
    + destruct sx; [done|]. cbn [sval finite_nonneg] in *.
      rewrite !fmul_finite in *.
      apply (binary_round_aux_mono E0).
      * rewrite Pos2Z.inj_mul. specialize (Bx _ _ _ eq_refl). lia.
      * rewrite Pos2Z.inj_mul. specialize (By _ _ _ eq_refl). lia.
      * lia.
      * lia.
      * done.
      * rewrite !Pos2Z.inj_mul.
        replace (ef + ex - E0) with (ex - (E0 - ef)) by lia.
        replace (ef + ey - E0) with (ey - (E0 - ef)) by lia.
        nia.
      * done.
Qed.

Lemma fmul_comm x y : fmul x y = fmul y x.
Proof.
  destruct x as [sx|sx| |sx mx ex], y as [sy|sy| |sy my ey];
    cbn [fmul SFmul]; try (by rewrite xorb_comm); try done.
  unfold fmul, SFmul. by rewrite xorb_comm, Pos.mul_comm, Z.add_comm.
Qed.

(** A product of positive finite floats is zero, positive and finite,
    or the positive infinity. *)
Lemma fmul_shape E0 mx ex my ey :
  2 ^ 23 <= Z.pos mx * Z.pos my -> E0 <= -149 ->
  let r := fmul (S754_finite false mx ex) (S754_finite false my ey) in
  finite_nonneg E0 r \/ r = S754_infinity false.
Proof.
  intros Hm HE. cbn zeta. rewrite fmul_finite.
  rewrite binary_round_aux_big by (by rewrite Pos2Z.inj_mul).
  set (f := round_exp _ _).
  assert (Hf : -149 <= f) by (unfold f, round_exp; lia).
  set (q := rnd_div _ _).
  unfold rounded. destruct q as [|q'|q']; [by left| |by left].
  destruct (_ =? _).
  - destruct (_ <=? _); [left|by right]. cbn. lia.
  - destruct (_ <=? _); [left|by right]. cbn. lia.
Qed.

Lemma trunc_sval E0 x :
  E0 <= 0 -> finite_nonneg E0 x -> trunc x = sval E0 x / 2 ^ (- E0).
Proof.
  intros HE Hx. destruct x as [s|s| |s m e]; try done.
  destruct s; [done|]. cbn [finite_nonneg sval trunc] in *.
  pose proof (pow2_pos (- E0) ltac:(lia)).
  destruct (Z.leb_spec 0 e).
  - replace (e - E0) with (e + - E0) by lia.
    rewrite Z.pow_add_r by lia. rewrite Z.mul_assoc.
    by rewrite Z.div_mul by lia.
  - replace (- E0) with ((- e) + (e - E0)) by lia.
    rewrite Z.pow_add_r by lia.
    rewrite Z.div_mul_cancel_r; [done| |].
    + apply Z.pow_nonzero; lia.
    + apply Z.pow_nonzero; lia.
Qed.


Lemma sval_of_Z B t mt et :
  B <= -23 -> -23 <= et ->
  Z.pos mt * 2 ^ (et + 23) = t * 2 ^ 23 ->
  sval B (S754_finite false mt et) = t * 2 ^ (- B).
Proof.
  intros HB He H. cbn [sval].
  replace (et - B) with ((et + 23) + (-23 - B)) by lia.
  replace (- B) with (23 + (-23 - B)) by lia.
  rewrite (Z.pow_add_r 2 (et + 23)), (Z.pow_add_r 2 23) by lia.
  rewrite !Z.mul_assoc. by rewrite H.
Qed.

(** The number of periods grows with the time, as long as the
    conversion is defined. *)
Lemma time_to_counts_mono mf ef t1 t2 :
  0 <= t1 <= t2 -> t2 < 2 ^ 24 ->
  let freq := S754_finite false mf ef in
  time_to_counts_defined freq t2 = true ->
  time_to_counts_defined freq t1 = true /\
  time_to_counts freq t1 <= time_to_counts freq t2.
Proof.
  intros [H0 H12] H24. cbn zeta. unfold time_to_counts_defined. intros Hr2.
  assert (Hpos2 : 0 <= time_to_counts (S754_finite false mf ef) t2).
  { unfold time_to_counts, to_uint.
    apply Z.mod_pos_bound. lia. }
  destruct (Z.eq_dec t1 0) as [->|Ht1].
  { split; [done|]. exact Hpos2. }
  destruct (of_Z_exact t1 ltac:(lia)) as (m1 & e1 & E1 & Hm1 & He1 & V1).
  destruct (of_Z_exact t2 ltac:(lia)) as (m2 & e2 & E2 & Hm2 & He2 & V2).
  unfold time_to_counts. rewrite E1, E2 in *. rewrite c_1e_6_mantissa in *.
  set (E0 := Z.min (ef - 23) (-149)).
  set (c := S754_finite false 8796093 (-43)) in *.
  set (freq := S754_finite false mf ef) in *.
  (* the first product *)
  assert (Hsh2 : finite_nonneg E0 (fmul freq (S754_finite false m2 e2))).
  { destruct (fmul_shape E0 mf ef m2 e2 ltac:(lia) ltac:(lia)) as [H|H];
      [done|].
    fold freq in H. rewrite H in Hr2. done. }
  destruct (fmul_mono_l E0 mf ef (S754_finite false m1 e1)
              (S754_finite false m2 e2)) as [Hf1 Hv1]; try done.
  - lia.
  - cbn. lia.
  - cbn. lia.
  - intros s m e [= _ <- _]. lia.
  - intros s m e [= _ <- _]. lia.
  - rewrite (sval_of_Z _ t1), (sval_of_Z _ t2) by (done || lia).
    pose proof (pow2_pos (- (E0 - ef)) ltac:(lia)). nia.
  - fold freq in Hf1, Hv1.
    (* the second product *)
    set (x := fmul freq (S754_finite false m1 e1)) in *.
    set (y := fmul freq (S754_finite false m2 e2)) in *.
    rewrite (fmul_comm x c), (fmul_comm y c) in *.
    assert (Hy2 : finite_nonneg (E0 - 43) (fmul c y)).
    { destruct y as [sy|sy| |sy my ey]; try done.
      destruct sy; [done|].
      destruct (fmul_shape (E0 - 43) 8796093 (-43) my ey) as [H|H];
        [lia|lia|done|].
      fold c in H. rewrite H in Hr2. done. }
    destruct (fmul_mono_l (E0 - 43) 8796093 (-43) x y) as [Hf Hv];
      try done.
    + lia.
    + by replace (E0 - 43 - -43) with E0 by lia.
    + by replace (E0 - 43 - -43) with E0 by lia.
    + intros s m e _. lia.
    + intros s m e _. lia.
    + by replace (E0 - 43 - -43) with E0 by lia.
    + fold c in Hf, Hv.
      assert (HE : E0 - 43 <= 0) by lia.
      pose proof (trunc_sval _ _ HE Hf) as T1.
      pose proof (trunc_sval _ _ HE Hy2) as T2.
      pose proof (pow2_pos (- (E0 - 43)) ltac:(lia)) as Hp.
      assert (Hle : trunc (fmul c x) <= trunc (fmul c y)).
      { rewrite T1, T2. apply Z.div_le_mono; lia. }
      assert (Hge : 0 <= trunc (fmul c x)).
      { rewrite T1. apply Z.div_pos; [|lia]. by apply sval_nonneg. }
      assert (Hlt : trunc (fmul c y) < 2 ^ 32).
      { destruct (fmul c y) as [s|s| |s m e]; try done.
        cbn [in_range] in Hr2. apply andb_prop in Hr2 as [_ Hr2].
        by apply Z.ltb_lt. }
      split.
      * destruct (fmul c x) as [s|s| |s m e]; try done.
        cbn [in_range]. apply andb_true_intro. split.
        -- by apply Z.leb_le.
        -- apply Z.ltb_lt. lia.
      * unfold to_uint. rewrite !Z.mod_small by lia. done.
Qed.

End RoundingProofs.

(** ** The signal generator *)

Module SiggenProofs.

Import F32 Siggen.

(** [roundf] and [fabs] on a few values: halves go away from zero, and
    the sign goes with [fabs]. *)
Example roundf_samples :
  roundf (of_dyadic 5 (-1)) = of_Z 3 /\
  roundf (of_dyadic 9 (-2)) = of_Z 2 /\
  roundf (of_dyadic 1 (-2)) = zero /\
  roundf (of_Z 7) = of_Z 7 /\
  roundf (of_dyadic (-5) (-1)) = of_Z (-3) /\
  fabs (roundf (of_dyadic (-5) (-1))) = of_Z 3.
Proof. vm_compute. repeat split. Qed.

(** *** Configuration *)

(** The fields that [set_siggen_freq] leaves alone. *)
Lemma set_siggen_freq_fields s :
  let s' := set_siggen_freq s in
  n s' = n s /\ enable s' = enable s /\ type s' = type s /\
  num_cycles s' = num_cycles s /\ freq_sampling s' = freq_sampling s /\
  amplitude s' = amplitude s /\ offset s' = offset s /\
  aux_param s' = aux_param s.
Proof.
  cbn zeta. unfold set_siggen_freq.
  destruct (type s) eqn:E; [| |by rewrite <- E];
    destruct (num_cycles s =? 0); by rewrite <- E.
Qed.

Lemma fget_insert_same (l : list float) i v :
  (i < length l)%nat -> fget (<[i := v]> l) i = v.
Proof. intros H. unfold fget. by rewrite list_lookup_insert_eq. Qed.

Lemma fget_insert_ne (l : list float) i j v :
  i <> j -> fget (<[i := v]> l) j = fget l j.
Proof. intros H. unfold fget. by rewrite list_lookup_insert_ne. Qed.

Lemma set_siggen_freq_continuous s :
  type s <> Trapezoidal -> num_cycles s = 0 ->
  (0 < length (aux_var s))%nat ->
  let s' := set_siggen_freq s in
  freq s' = continuous_freq s /\
  fget (aux_var s') 0 = phase_step (continuous_freq s) (freq_sampling s) /\
  n s' = n s /\ enable s' = enable s /\ type s' = type s /\
  num_cycles s' = num_cycles s /\ freq_sampling s' = freq_sampling s /\
  length (aux_var s') = length (aux_var s) /\
  (forall i, i <> 0%nat -> fget (aux_var s') i = fget (aux_var s) i).
Proof.
  intros Hty Hnc Hlen. unfold set_siggen_freq, continuous_freq, phase_step.
  destruct (type s) eqn:E; try done; rewrite Hnc; cbn [Z.eqb];
    unfold set_aux_var_at, set_aux_var, set_freq;
    cbn [freq aux_var n enable type num_cycles freq_sampling].
  all: repeat split; try done; try (by rewrite fget_insert_same);
    try apply length_insert; intros; by rewrite fget_insert_ne.
Qed.

(** The fields [cfg_siggen] sets before and after [set_siggen_freq]. *)
Lemma foldl_aux_param_fields k (p : list float) s :
  let s' :=
    foldl (fun acc i => set_aux_param_at i (fget p i) acc) s (seq 0 k) in
  freq s' = freq s /\ n s' = n s /\ enable s' = enable s /\
  type s' = type s /\ num_cycles s' = num_cycles s /\
  freq_sampling s' = freq_sampling s /\ aux_var s' = aux_var s /\
  amplitude s' = amplitude s /\ offset s' = offset s.
Proof.
  cbn zeta. induction k as [|k IH]; [done|].
  rewrite seq_S, foldl_app. cbn [foldl]. exact IH.
Qed.

Lemma foldl_aux_var_fields k s :
  let s' := foldl (fun acc i => set_aux_var_at i zero acc) s (seq 0 k) in
  freq s' = freq s /\ n s' = n s /\ enable s' = enable s /\
  type s' = type s /\ num_cycles s' = num_cycles s /\
  freq_sampling s' = freq_sampling s /\ aux_param s' = aux_param s /\
  amplitude s' = amplitude s /\ offset s' = offset s /\
  length (aux_var s') = length (aux_var s).
Proof.
  cbn zeta. induction k as [|k IH]; [done|].
  rewrite seq_S, foldl_app. cbn [foldl].
  destruct IH as (?&?&?&?&?&?&?&?&?&Hl).
  repeat split; try done.
  unfold set_aux_var_at. cbn [aux_var set_aux_var]. by rewrite length_insert.
Qed.

Lemma cfg_switch_fields sig_type amp s :
  let s' := cfg_switch sig_type amp s in
  freq s' = freq s /\ n s' = n s /\ enable s' = enable s /\
  type s' = type s /\ num_cycles s' = num_cycles s /\
  freq_sampling s' = freq_sampling s /\
  amplitude s' = amplitude s /\ offset s' = offset s.
Proof.
  cbn zeta. unfold cfg_switch, cfg_sine_common.
  destruct sig_type; [| |done];
    destruct (fgt _ _); done.
Qed.

(** A disabled generator takes the configuration it is given. *)
Lemma cfg_siggen_accepted s sig_type ncycles f amp off p_aux :
  enable s = 0 ->
  let s' := cfg_siggen s sig_type ncycles f amp off p_aux in
  type s' = sig_type /\ num_cycles s' = ncycles /\ n s' = zero /\
  amplitude s' = amp /\ offset s' = off /\ enable s' = 0 /\
  freq_sampling s' = freq_sampling s.
Proof.
  intros He. cbn zeta. unfold cfg_siggen. rewrite He. cbn [Z.eqb].
  set (s2 := scale_siggen _ amp off).
  destruct (set_siggen_freq_fields s2)
    as (Hn3 & He3 & Ht3 & Hc3 & Hs3 & Ha3 & Ho3 & _).
  set (s3 := set_siggen_freq s2) in *.
  destruct (foldl_aux_param_fields NUM_SIGGEN_AUX_PARAM p_aux s3)
    as (_ & Hn4 & He4 & Ht4 & Hc4 & Hs4 & _ & Ha4 & Ho4).
  set (s4 := foldl _ s3 _) in *.
  destruct (foldl_aux_var_fields NUM_SIGGEN_AUX_VAR s4)
    as (_ & Hn5 & He5 & Ht5 & Hc5 & Hs5 & _ & Ha5 & Ho5 & _).
  set (s5 := foldl _ s4 _) in *.
  destruct (cfg_switch_fields sig_type amp s5)
    as (_ & Hn6 & He6 & Ht6 & Hc6 & Hs6 & Ha6 & Ho6).
  rewrite Hn6, He6, Ht6, Hc6, Hs6, Ha6, Ho6, Hn5, He5, Ht5, Hc5, Hs5, Ha5,
    Ho5, Hn4, He4, Ht4, Hc4, Hs4, Ha4, Ho4, Hn3, He3, Ht3, Hc3, Hs3, Ha3,
    Ho3.
  by rewrite <- He.
Qed.

(** Claim C7.  On a generator that is running ([enable] is not 0),
    [cfg_siggen] returns the generator as it was, whatever the
    requested configuration: type, cycle count, sample index,
    frequency, amplitude, offset, auxiliary parameters and variables
    and the run function are all unchanged; [init_siggen], which
    configures through [cfg_siggen], is a no-op as well.  A disabled
    generator ([enable] is 0) takes the requested type, cycle count,
    amplitude and offset, with its sample index back at 0. *)
Theorem cfg_siggen_running_noop s sig_type ncycles f amp off p_aux :
  (enable s <> 0 ->
     cfg_siggen s sig_type ncycles f amp off p_aux = s /\
     (forall fs out, init_siggen s fs out = s)) /\
  (enable s = 0 ->
     let s' := cfg_siggen s sig_type ncycles f amp off p_aux in
     type s' = sig_type /\ num_cycles s' = ncycles /\ n s' = zero /\
     amplitude s' = amp /\ offset s' = off /\ enable s' = 0).
Proof.
  split.
  - intros H. unfold cfg_siggen, init_siggen.
    destruct (Z.eqb_spec (enable s) 0); [done|]. by split.
  - intros He.
    destruct (cfg_siggen_accepted s sig_type ncycles f amp off p_aux He)
      as (? & ? & ? & ? & ? & ? & _).
    done.
Qed.

(** *** The trapezoid *)

Lemma flt_zero_of_Z k : 1 <= k < 65536 -> flt zero (of_Z k) = true.
Proof.
  intros Hk.
  assert (H : forall_range 16 0 (fun k => (k =? 0) || flt zero (of_Z k)) = true)
    by (vm_compute; reflexivity).
  pose proof (forall_range_spec _ _ _ H k) as Hk'. cbn beta in Hk'.
  destruct (Z.eqb_spec k 0); [lia|]. apply Hk'. cbn. lia.
Qed.

Lemma trapezoid_1_2_1_state k : trapezoid_1_2_1 k = trapezoid_state k zero zero.
Proof. reflexivity. Qed.

Lemma trapezoid_step k n c :
  flt c (of_Z k) = true ->
  run_siggen_trapezoidal (trapezoid_state k n c) =
    if flt n (of_Z 1) then
      (trapezoid_state k (fadd n one) c, Some (fadd (fmul n ten) zero))
    else if flt n (of_Z 3) then
      (trapezoid_state k (fadd n one) c, Some (fadd ten zero))
    else if flt n (of_Z 4) then
      (trapezoid_state k (fadd n one) c,
       Some (fadd (fadd (fmul ten (fsub (of_Z 3) n)) ten) zero))
    else
      (trapezoid_state k (fadd zero one) (fadd c one), Some zero).
Proof.
  intros Hc. unfold run_siggen_trapezoidal, trapezoid_state.
  cbn [enable aux_var num_cycles Siggen.n amplitude offset negb Z.eqb].
  change (fget [of_Z 1; of_Z 3; of_Z 4; ten; ten; c] 5) with c.
  rewrite Hc.
  change (fget [of_Z 1; of_Z 3; of_Z 4; ten; ten; c] 0) with (of_Z 1).
  change (fget [of_Z 1; of_Z 3; of_Z 4; ten; ten; c] 1) with (of_Z 3).
  change (fget [of_Z 1; of_Z 3; of_Z 4; ten; ten; c] 2) with (of_Z 4).
  change (fget [of_Z 1; of_Z 3; of_Z 4; ten; ten; c] 3) with ten.
  change (fget [of_Z 1; of_Z 3; of_Z 4; ten; ten; c] 4) with ten.
  destruct (flt n (of_Z 1)); [reflexivity|].
  destruct (flt n (of_Z 3)); [reflexivity|].
  destruct (flt n (of_Z 4)); reflexivity.
Qed.

Lemma trapezoid_stop k n c :
  flt c (of_Z k) = false ->
  run_siggen_trapezoidal (trapezoid_state k n c) =
    (mk_siggen 0 Trapezoidal k one n zero ten zero
       [of_Z 1; of_Z 2; of_Z 1; zero]
       [of_Z 1; of_Z 3; of_Z 4; ten; ten; zero]
       ptr_run_siggen_trapezoidal (PsReference 0), None).
Proof.
  intros Hc. unfold run_siggen_trapezoidal, trapezoid_state.
  cbn [enable aux_var num_cycles Siggen.n amplitude offset negb Z.eqb].
  change (fget [of_Z 1; of_Z 3; of_Z 4; ten; ten; c] 5) with c.
  rewrite Hc. reflexivity.
Qed.

Lemma run_trapezoidal_trace_S k s :
  run_trapezoidal_trace (S k) s =
  let '(s1, o) := run_siggen_trapezoidal s in
  let '(s2, os) := run_trapezoidal_trace k s1 in (s2, o :: os).
Proof. reflexivity. Qed.

Lemma run_trapezoidal_cycle_end s :
  enable s <> 0 -> (5 < length (aux_var s))%nat ->
  flt (fget (aux_var s) 5) (of_Z (num_cycles s)) = true ->
  flt (n s) (fget (aux_var s) 0) = false ->
  flt (n s) (fget (aux_var s) 1) = false ->
  flt (n s) (fget (aux_var s) 2) = false ->
  let '(s', o) := run_siggen_trapezoidal s in
  o = Some (offset s) /\
  fget (aux_var s') 5 = fadd (fget (aux_var s) 5) one /\
  n s' = fadd zero one /\ enable s' = enable s.
Proof.
  intros He Hl Hc H0 H1 H2. unfold run_siggen_trapezoidal.
  destruct (Z.eqb_spec (enable s) 0); [done|]. cbn [negb].
  rewrite Hc, H0, H1, H2. repeat split.
  unfold set_aux_var_at. cbn [aux_var set_aux_var set_n].
  by rewrite fget_insert_same.
Qed.

Lemma run_trapezoidal_cycles_done s :
  enable s <> 0 -> (5 < length (aux_var s))%nat ->
  flt (fget (aux_var s) 5) (of_Z (num_cycles s)) = false ->
  let '(s', o) := run_siggen_trapezoidal s in
  o = None /\ enable s' = 0 /\ fget (aux_var s') 5 = zero.
Proof.
  intros He Hl Hc. unfold run_siggen_trapezoidal.
  destruct (Z.eqb_spec (enable s) 0); [done|]. cbn [negb]. rewrite Hc.
  repeat split. unfold set_aux_var_at, disable_siggen.
  cbn [aux_var set_aux_var set_enable]. by rewrite fget_insert_same.
Qed.

(** One sample of the trace: the branch taken is decided by evaluating the
    comparisons of the sample index with the breakpoints. *)
Ltac trapezoid_sample :=
  rewrite run_trapezoidal_trace_S, trapezoid_step by assumption;
  repeat match goal with
         | |- context [if flt ?a ?b then _ else _] =>
             let v := eval vm_compute in (flt a b) in
             change (flt a b) with v; cbv iota
         end.

(** Claim C9.  The trapezoid with a rise of 1 s, a plateau of 2 s, a
    fall of 1 s, amplitude 10 and offset 0, sampled once per second
    and configured for [k] cycles: the first five samples are 0, 10,
    10, 10, 0 and leave the generator at sample index 1 with one cycle
    counted; each later cycle yields 10, 10, 10, 0 and counts one more
    cycle; once the counter is no longer below [num_cycles] the next
    call stores nothing, disables the generator and zeroes the
    counter.  The last part states the end of a cycle and the
    auto-disable for every running trapezoidal generator. *)
Theorem trapezoid_shape k :
  1 <= k < 65536 ->
  run_trapezoidal_trace 5 (trapezoid_1_2_1 k) =
    (trapezoid_state k one one,
     [Some zero; Some ten; Some ten; Some ten; Some zero]) /\
  (forall c, flt c (of_Z k) = true ->
     run_trapezoidal_trace 4 (trapezoid_state k one c) =
       (trapezoid_state k one (fadd c one),
        [Some ten; Some ten; Some ten; Some zero])) /\
  (forall x c, flt c (of_Z k) = false ->
     let '(s', o) := run_siggen_trapezoidal (trapezoid_state k x c) in
     o = None /\ enable s' = 0 /\ fget (aux_var s') 5 = zero) /\
  (forall s,
     enable s <> 0 -> (5 < length (aux_var s))%nat ->
     (flt (fget (aux_var s) 5) (of_Z (num_cycles s)) = true ->
      flt (n s) (fget (aux_var s) 0) = false ->
      flt (n s) (fget (aux_var s) 1) = false ->
      flt (n s) (fget (aux_var s) 2) = false ->
      let '(s', o) := run_siggen_trapezoidal s in
      o = Some (offset s) /\
      fget (aux_var s') 5 = fadd (fget (aux_var s) 5) one /\
      n s' = fadd zero one /\ enable s' = enable s) /\
     (flt (fget (aux_var s) 5) (of_Z (num_cycles s)) = false ->
      let '(s', o) := run_siggen_trapezoidal s in
      o = None /\ enable s' = 0 /\ fget (aux_var s') 5 = zero)).
Proof.
  intros Hk. pose proof (flt_zero_of_Z k Hk) as H0.
  split; [|split; [|split]].
  - rewrite trapezoid_1_2_1_state.
    do 5 trapezoid_sample. reflexivity.
  - intros c Hc. do 4 trapezoid_sample. reflexivity.
  - intros x c Hc. rewrite trapezoid_stop by done. done.
  - intros s He Hl. split.
    + by apply run_trapezoidal_cycle_end.
    + by apply run_trapezoidal_cycles_done.
Qed.

(** *** Continuous operation *)

Lemma set_siggen_freq_rounds s :
  type s <> Trapezoidal -> num_cycles s = 0 ->
  freq (set_siggen_freq s) = continuous_freq s.
Proof.
  intros Hty Hnc. unfold set_siggen_freq.
  destruct (type s); try done; by rewrite Hnc.
Qed.

Lemma cfg_siggen_rounds s sig_type f amp off p_aux :
  enable s = 0 -> sig_type <> Trapezoidal ->
  let s' := cfg_siggen s sig_type 0 f amp off p_aux in
  freq s' = fabs (roundf f) /\ n s' = zero /\
  num_cycles s' = 0 /\ type s' = sig_type /\ enable s' = 0.
Proof.
  intros He Hty. cbn zeta. unfold cfg_siggen. rewrite He. cbn [Z.eqb].
  set (s2 := scale_siggen _ amp off).
  assert (Hs2 : type s2 = sig_type /\ num_cycles s2 = 0 /\ freq s2 = f /\
                n s2 = zero /\ enable s2 = 0) by (by rewrite <- He).
  destruct Hs2 as (Ht2 & Hn2 & Hf2 & Hz2 & He2).
  set (s3 := set_siggen_freq s2).
  assert (Hs3 : freq s3 = fabs (roundf f) /\ n s3 = zero /\
                num_cycles s3 = 0 /\ type s3 = sig_type /\ enable s3 = 0).
  { unfold s3, set_siggen_freq. rewrite Ht2, Hn2.
    destruct sig_type; try done; cbn; by rewrite Hf2. }
  destruct Hs3 as (Hf3 & Hz3 & Hn3 & Ht3 & He3).
  set (s4 := foldl _ s3 _).
  destruct (foldl_aux_param_fields NUM_SIGGEN_AUX_PARAM p_aux s3)
    as (Hf4 & Hz4 & He4 & Ht4 & Hn4 & _).
  fold s4 in Hf4, Hz4, He4, Ht4, Hn4.
  set (s5 := foldl _ s4 _).
  destruct (foldl_aux_var_fields NUM_SIGGEN_AUX_VAR s4)
    as (Hf5 & Hz5 & He5 & Ht5 & Hn5 & _).
  fold s5 in Hf5, Hz5, He5, Ht5, Hn5.
  destruct (cfg_switch_fields sig_type amp s5)
    as (Hf6 & Hz6 & He6 & Ht6 & Hn6 & _).
  rewrite Hf6, Hz6, He6, Ht6, Hn6, Hf5, Hz5, He5, Ht5, Hn5,
    Hf4, Hz4, He4, Ht4, Hn4. done.
Qed.

Section Running.
Variable sin exp : float -> float.

Lemma run_siggen_sine_boundary s :
  enable s <> 0 -> type s <> Trapezoidal -> num_cycles s = 0 ->
  (0 < length (aux_var s))%nat ->
  fgt (fget (aux_var s) 2) zero = false ->
  let s' := fst (run_siggen_sine sin s) in
  if fge (fadd (n s) one) (freq_sampling s) then
    freq s' = continuous_freq s /\
    fget (aux_var s') 0 = phase_step (continuous_freq s) (freq_sampling s) /\
    n s' = zero /\ enable s' = enable s
  else
    freq s' = freq s /\ aux_var s' = aux_var s /\
    n s' = fadd (n s) one /\ enable s' = enable s.
Proof.
  intros He Hty Hnc Hl Ha. cbn zeta. unfold run_siggen_sine.
  destruct (Z.eqb_spec (enable s) 0); [done|]. cbn [negb fst].
  cbn [aux_var set_n freq_sampling Siggen.n]. rewrite Ha.
  destruct (fge (fadd (n s) one) (freq_sampling s)); [|done].
  destruct (set_siggen_freq_continuous (set_n (fadd (n s) one) s))
    as (Hf & Ha0 & _ & He' & _); [done..|].
  repeat split; done.
Qed.

Lemma run_siggen_sine_finite s :
  enable s <> 0 -> fgt (fget (aux_var s) 2) zero = true ->
  let s' := fst (run_siggen_sine sin s) in
  freq s' = freq s /\ aux_var s' = aux_var s /\ n s' = fadd (n s) one.
Proof.
  intros He Ha. cbn zeta. unfold run_siggen_sine.
  destruct (Z.eqb_spec (enable s) 0); [done|]. cbn [negb fst].
  cbn [aux_var set_n freq_sampling Siggen.n]. rewrite Ha.
  by destruct (fge _ _).
Qed.

Lemma run_siggen_dampedsine_freq s :
  let s' := fst (run_siggen_dampedsine sin exp s) in
  freq s' = freq s /\ aux_var s' = aux_var s /\
  (n s' = n s \/ n s' = fadd (n s) one).
Proof.
  cbn zeta. unfold run_siggen_dampedsine.
  destruct (negb _); [|repeat split; by left].
  destruct (flt _ _); cbn [fst]; repeat split; (by left) || (by right).
Qed.

(** Claim C8, amended.  For a Sine or DampedSine generator with
    [num_cycles = 0], the frequency becomes [fabs (roundf freq)] and
    the phase increment is recomputed from it by [set_siggen_freq], at
    configuration by [cfg_siggen], and when [enable_siggen] starts the
    generator.  While running, [run_siggen_sine] rounds again and
    resets [n] exactly when the sample budget [aux_var[2]] is not
    positive and the incremented [n] has reached [freq_sampling]; with
    a positive budget it never does, and [run_siggen_dampedsine] never
    changes the frequency or the phase increment. *)
Theorem continuous_mode_rounding s :
  type s <> Trapezoidal -> num_cycles s = 0 ->
  (0 < length (aux_var s))%nat ->
  let rounded := fabs (roundf (freq s)) in
  let step := phase_step rounded (freq_sampling s) in
  (freq (set_siggen_freq s) = rounded /\
   fget (aux_var (set_siggen_freq s)) 0 = step) /\
  (forall sig_type f amp off p_aux,
     enable s = 0 -> sig_type <> Trapezoidal ->
     let s' := cfg_siggen s sig_type 0 f amp off p_aux in
     freq s' = fabs (roundf f) /\ n s' = zero) /\
  (enable s = 0 ->
     let s' := enable_siggen s in
     enable s' = 1 /\ n s' = zero /\ freq s' = rounded /\
     fget (aux_var s') 0 = step) /\
  (enable s <> 0 -> fgt (fget (aux_var s) 2) zero = false ->
     let s' := fst (run_siggen_sine sin s) in
     if fge (fadd (n s) one) (freq_sampling s) then
       freq s' = rounded /\ fget (aux_var s') 0 = step /\ n s' = zero
     else
       freq s' = freq s /\ aux_var s' = aux_var s /\
       n s' = fadd (n s) one) /\
  (enable s <> 0 -> fgt (fget (aux_var s) 2) zero = true ->
     let s' := fst (run_siggen_sine sin s) in
     freq s' = freq s /\ aux_var s' = aux_var s /\
     n s' = fadd (n s) one) /\
  (let s' := fst (run_siggen_dampedsine sin exp s) in
   freq s' = freq s /\ aux_var s' = aux_var s).
Proof.
  intros Hty Hnc Hl rounded step.
  destruct (set_siggen_freq_continuous s Hty Hnc Hl) as (Hf & Ha & _).
  split; [by split|]. split; [|split; [|split; [|split]]].
  - intros sig_type f amp off p_aux He Hs.
    by destruct (cfg_siggen_rounds s sig_type f amp off p_aux He Hs)
      as (? & ? & _).
  - intros He. cbn zeta. unfold enable_siggen. rewrite He. cbn [Z.eqb].
    assert (Hr : type (reset_siggen s) = type s) by done.
    rewrite Hr.
    destruct (set_siggen_freq_continuous (reset_siggen s))
      as (Hf' & Ha' & Hn' & _); [done..|].
    destruct (type s); try done; cbn [enable set_enable Siggen.n freq aux_var];
      repeat split; done.
  - intros He Ha2.
    pose proof (run_siggen_sine_boundary s He Hty Hnc Hl Ha2) as H.
    cbn zeta in H. destruct (fge _ _).
    + by destruct H as (? & ? & ? & _).
    + by destruct H as (? & ? & ? & _).
  - intros He Ha2. by apply run_siggen_sine_finite.
  - by destruct (run_siggen_dampedsine_freq s) as (? & ? & _).
Qed.
End Running.

(** *** The statements on concrete generators *)

(** Claim C7 on the enabled generator [s_running]. *)
Lemma cfg_siggen_running_noop_witness :
  enable s_running <> 0 /\
  cfg_siggen s_running Trapezoidal 3 zero ten zero
    [of_Z 1; of_Z 2; of_Z 1; zero] = s_running /\
  init_siggen s_running (of_Z 8) DummyFloat = s_running.
Proof.
  assert (He : enable s_running <> 0) by (vm_compute; discriminate).
  split; [exact He|].
  destruct (cfg_siggen_running_noop s_running Trapezoidal 3 zero ten zero
              [of_Z 1; of_Z 2; of_Z 1; zero]) as [Hrun _].
  destruct (Hrun He) as [Hc Hi].
  split; [exact Hc|exact (Hi (of_Z 8) DummyFloat)].
Defined.

(** Claim C8 on [s_boundary]: the call that brings [n] to
    [freq_sampling] rounds 2.5 Hz to 3 Hz and resets [n]. *)
Lemma continuous_mode_rounding_witness :
  (type s_boundary <> Trapezoidal /\ num_cycles s_boundary = 0 /\
   (0 < length (aux_var s_boundary))%nat /\ enable s_boundary <> 0 /\
   freq s_boundary = of_dyadic 5 (-1) /\ n s_boundary = of_Z 3 /\
   freq_sampling s_boundary = of_Z 4 /\
   fabs (roundf (freq s_boundary)) = of_Z 3) /\
  (forall sin exp : float -> float,
     let s' := fst (run_siggen_sine sin s_boundary) in
     freq s' = fabs (roundf (freq s_boundary)) /\
     fget (aux_var s') 0 =
       phase_step (fabs (roundf (freq s_boundary)))
         (freq_sampling s_boundary) /\
     n s' = zero).
Proof.
  assert (Hty : type s_boundary <> Trapezoidal) by (vm_compute; discriminate).
  assert (Hnc : num_cycles s_boundary = 0) by (vm_compute; reflexivity).
  assert (Hl : (0 < length (aux_var s_boundary))%nat) by (vm_compute; lia).
  assert (He : enable s_boundary <> 0) by (vm_compute; discriminate).
  assert (Ha : fgt (fget (aux_var s_boundary) 2) zero = false)
    by (vm_compute; reflexivity).
  assert (Hb : fge (fadd (n s_boundary) one) (freq_sampling s_boundary) = true)
    by (vm_compute; reflexivity).
  split.
  - split; [exact Hty|]. split; [exact Hnc|]. split; [exact Hl|].
    split; [exact He|]. vm_compute. repeat split.
  - intros sin exp.
    pose proof (continuous_mode_rounding sin exp s_boundary Hty Hnc Hl)
      as (_ & _ & _ & Hrun & _).
    specialize (Hrun He Ha). cbn zeta in Hrun. rewrite Hb in Hrun.
    exact Hrun.
Defined.

(** Claim C9 for two cycles: nine samples, then the call that
    disables the generator. *)
Lemma trapezoid_shape_witness :
  1 <= 2 < 65536 /\
  run_trapezoidal_trace 5 (trapezoid_1_2_1 2) =
    (trapezoid_state 2 one one,
     [Some zero; Some ten; Some ten; Some ten; Some zero]) /\
  run_trapezoidal_trace 4 (trapezoid_state 2 one one) =
    (trapezoid_state 2 one (of_Z 2),
     [Some ten; Some ten; Some ten; Some zero]) /\
  run_siggen_trapezoidal (trapezoid_state 2 one (of_Z 2)) =
    (set_aux_var_at 5 zero (disable_siggen (trapezoid_state 2 one (of_Z 2))),
     None).
Proof.
  assert (Hk : 1 <= 2 < 65536) by lia.
  split; [exact Hk|].
  destruct (trapezoid_shape 2 Hk) as (H5 & H4 & _).
  split; [exact H5|]. split.
  - apply (H4 one). vm_compute. reflexivity.
  - vm_compute. reflexivity.
Defined.

(** Against claim C8 as stated: the generators [s_two_turns] are in
    continuous mode, their sample budget [aux_var[2]] is 8 samples and
    their frequency field holds 2.5 Hz.  They run through the 1-second
    boundary (4 samples at 4 Hz) still enabled, with [n] at 4 instead
    of 0 and the frequency still 2.5 Hz instead of 3 Hz, and stop after
    the second turn with the frequency never rounded. *)
Lemma two_turns_never_round :
  (type (s_two_turns Sine) = Sine /\
   type (s_two_turns DampedSine) = DampedSine) /\
  (forall ty,
     let s := s_two_turns ty in
     num_cycles s = 0 /\ enable s = 1 /\ n s = zero /\
     freq_sampling s = of_Z 4 /\ freq s = of_dyadic 5 (-1) /\
     continuous_freq s = of_Z 3 /\ (ty <> Trapezoidal ->
     fget (aux_var s) 2 = of_Z 8)) /\
  (forall sin exp : float -> float,
     let s4 := run_siggen_n (run_siggen_sine sin) 4 (s_two_turns Sine) in
     let s9 := run_siggen_n (run_siggen_sine sin) 9 (s_two_turns Sine) in
     let d4 :=
       run_siggen_n (run_siggen_dampedsine sin exp) 4
         (s_two_turns DampedSine) in
     let d9 :=
       run_siggen_n (run_siggen_dampedsine sin exp) 9
         (s_two_turns DampedSine) in
     (enable s4 = 1 /\ n s4 = of_Z 4 /\ freq s4 = of_dyadic 5 (-1)) /\
     (enable d4 = 1 /\ n d4 = of_Z 4 /\ freq d4 = of_dyadic 5 (-1)) /\
     (enable s9 = 0 /\ freq s9 = of_dyadic 5 (-1)) /\
     (enable d9 = 0 /\ freq d9 = of_dyadic 5 (-1))).
Proof.
  split; [split; vm_compute; reflexivity|]. split.
  - intros ty. cbn zeta.
    destruct ty; vm_compute; repeat split; intros; congruence.
  - intros sin exp. vm_compute. repeat split.
Qed.

End SiggenProofs.

(** ** The power-supply modules *)

Module PsModuleProofs.

Import F32 PsModules Control.

Create HintDb fw_ops discriminated.
#[local] Hint Unfold reset_dsp_pi reset_dsp_srlim reset_dsp_error write_signal
  reset_wfmref set_pwm_duty_chA disable_pwm_output SET_GPDO CLEAR_GPDO
  DELAY_US disable_siggen upd_module : fw_ops.

Ltac frame :=
  intros; autounfold with fw_ops;
  repeat match goal with
         | |- context [match ?x with _ => _ end] => destruct x
         end;
  reflexivity.

(** *** Reading a signal after a write *)

Lemma fget_insert_zero_same l i : fget (<[i := zero]> l) i = zero.
Proof.
  unfold fget. destruct (decide (i < length l)%nat).
  - by rewrite list_lookup_insert_eq.
  - rewrite list_insert_ge by lia. by rewrite lookup_ge_None_2 by lia.
Qed.

Lemma fget_insert_zero l i j :
  fget l j = zero -> fget (<[i := zero]> l) j = zero.
Proof.
  intros H. destruct (decide (i = j)) as [->|Hne].
  - apply fget_insert_zero_same.
  - unfold fget. by rewrite list_lookup_insert_ne.
Qed.

Lemma module_at_alter m i j f :
  module_at (upd_module i f m) j =
  if decide (i = j) then
    match ps_module m !! j with
    | Some p => f p
    | None => ps_module_zero
    end
  else module_at m j.
Proof.
  unfold module_at, upd_module. cbn. case_decide as H.
  - subst. rewrite list_lookup_alter_eq. by destruct (ps_module m !! j).
  - by rewrite list_lookup_alter_ne.
Qed.

Lemma read_write_zero_same r m : read_signal (write_signal r zero m) r = zero.
Proof.
  destruct r; cbn [read_signal write_signal]; try reflexivity;
    try apply fget_insert_zero_same.
  - rewrite module_at_alter. case_decide; [|done].
    by destruct (ps_module m !! m0).
  - rewrite module_at_alter. case_decide; [|done].
    by destruct (ps_module m !! m0).
Qed.

Lemma read_write_zero r r' m :
  read_signal m r = zero -> read_signal (write_signal r' zero m) r = zero.
Proof.
  intros H.
  destruct r, r'; cbn [read_signal write_signal] in *; try exact H;
    try (by apply fget_insert_zero).
  all: try reflexivity.
  all: rewrite module_at_alter; case_decide; [|exact H]; subst.
  all: unfold module_at in H; by destruct (ps_module m !! m0).
Qed.

(** *** Signals that an operation does not write *)

Lemma read_signal_set_dsp_pi v m r :
  read_signal (set_dsp_pi v m) r = read_signal m r.
Proof. by destruct r. Qed.
Lemma read_signal_set_dsp_srlim v m r :
  read_signal (set_dsp_srlim v m) r = read_signal m r.
Proof. by destruct r. Qed.
Lemma read_signal_disable_siggen m r :
  read_signal (disable_siggen m) r = read_signal m r.
Proof. by destruct r. Qed.
Lemma read_signal_reset_wfmref m r :
  read_signal (reset_wfmref m) r = read_signal m r.
Proof. by destruct r. Qed.
Lemma read_signal_upd_module i f m r :
  (forall p, ps_setpoint (f p) = ps_setpoint p) ->
  (forall p, ps_reference (f p) = ps_reference p) ->
  read_signal (upd_module i f m) r = read_signal m r.
Proof.
  intros Hs Hr. destruct r; cbn [read_signal]; try reflexivity.
  all: rewrite module_at_alter; case_decide; [subst|done].
  all: unfold module_at; destruct (ps_module m !! m0); cbn; auto.
Qed.

Lemma zero_reset_dsp_pi i m r :
  read_signal m r = zero -> read_signal (reset_dsp_pi i m) r = zero.
Proof.
  intros H. unfold reset_dsp_pi. destruct (dsp_pi m !! i); [|done].
  apply read_write_zero. by rewrite read_signal_set_dsp_pi.
Qed.
Lemma zero_reset_dsp_srlim i m r :
  read_signal m r = zero -> read_signal (reset_dsp_srlim i m) r = zero.
Proof.
  intros H. unfold reset_dsp_srlim. destruct (dsp_srlim m !! i); [|done].
  apply read_write_zero. by rewrite read_signal_set_dsp_srlim.
Qed.
Lemma zero_reset_dsp_error i m r :
  read_signal m r = zero -> read_signal (reset_dsp_error i m) r = zero.
Proof.
  intros H. unfold reset_dsp_error. destruct (dsp_error m !! i); [|done].
  by apply read_write_zero.
Qed.

(** *** What each reset establishes *)

Lemma reset_dsp_pi_out i m p :
  dsp_pi m !! i = Some p -> read_signal (reset_dsp_pi i m) (pi_out p) = zero.
Proof.
  intros H. unfold reset_dsp_pi. rewrite H. apply read_write_zero_same.
Qed.
Lemma reset_dsp_srlim_out i m p :
  dsp_srlim m !! i = Some p ->
  read_signal (reset_dsp_srlim i m) (srlim_out p) = zero.
Proof.
  intros H. unfold reset_dsp_srlim. rewrite H. apply read_write_zero_same.
Qed.
Lemma reset_dsp_error_out i m e :
  dsp_error m !! i = Some e ->
  read_signal (reset_dsp_error i m) (err_out e) = zero.
Proof.
  intros H. unfold reset_dsp_error. rewrite H. apply read_write_zero_same.
Qed.

Lemma dsp_pi_reset_dsp_pi i m :
  dsp_pi (reset_dsp_pi i m) = alter clear_dsp_pi i (dsp_pi m).
Proof.
  unfold reset_dsp_pi. destruct (dsp_pi m !! i) as [p|] eqn:E.
  - transitivity (<[i := clear_dsp_pi p]> (dsp_pi m));
      [by destruct (pi_out p)|].
    apply list_eq. intros j. destruct (decide (i = j)) as [->|Hne].
    + rewrite list_lookup_alter_eq, E.
      apply list_lookup_insert_eq. by apply lookup_lt_Some in E.
    + by rewrite list_lookup_insert_ne, list_lookup_alter_ne.
  - symmetry. apply list_eq. intros j. destruct (decide (i = j)) as [->|Hne].
    + by rewrite list_lookup_alter_eq, E.
    + by rewrite list_lookup_alter_ne.
Qed.

Lemma dsp_srlim_reset_dsp_srlim i m :
  dsp_srlim (reset_dsp_srlim i m) = alter clear_dsp_srlim i (dsp_srlim m).
Proof.
  unfold reset_dsp_srlim. destruct (dsp_srlim m !! i) as [p|] eqn:E.
  - transitivity (<[i := clear_dsp_srlim p]> (dsp_srlim m));
      [by destruct (srlim_out p)|].
    apply list_eq. intros j. destruct (decide (i = j)) as [->|Hne].
    + rewrite list_lookup_alter_eq, E.
      apply list_lookup_insert_eq. by apply lookup_lt_Some in E.
    + by rewrite list_lookup_insert_ne, list_lookup_alter_ne.
  - symmetry. apply list_eq. intros j. destruct (decide (i = j)) as [->|Hne].
    + by rewrite list_lookup_alter_eq, E.
    + by rewrite list_lookup_alter_ne.
Qed.

Lemma zero_disable_siggen m r :
  read_signal m r = zero -> read_signal (disable_siggen m) r = zero.
Proof. by rewrite read_signal_disable_siggen. Qed.
Lemma zero_reset_wfmref m r :
  read_signal m r = zero -> read_signal (reset_wfmref m) r = zero.
Proof. by rewrite read_signal_reset_wfmref. Qed.
Lemma zero_upd_state i v m r :
  read_signal m r = zero ->
  read_signal (upd_module i (set_ps_state v) m) r = zero.
Proof. by rewrite read_signal_upd_module. Qed.

(** *** Frame lemmas: the globals an operation does not touch *)

Create Rewrite HintDb fw_frame.

Lemma dsp_pi_write_signal r v m : dsp_pi (write_signal r v m) = dsp_pi m.
Proof. frame. Qed.
Lemma dsp_pi_upd_module i f m : dsp_pi (upd_module i f m) = dsp_pi m.
Proof. frame. Qed.
Lemma dsp_pi_reset_dsp_srlim i m : dsp_pi (reset_dsp_srlim i m) = dsp_pi m.
Proof. frame. Qed.
Lemma dsp_pi_reset_dsp_error i m : dsp_pi (reset_dsp_error i m) = dsp_pi m.
Proof. frame. Qed.
Lemma dsp_pi_reset_wfmref m : dsp_pi (reset_wfmref m) = dsp_pi m.
Proof. frame. Qed.
Lemma dsp_pi_disable_siggen m : dsp_pi (disable_siggen m) = dsp_pi m.
Proof. frame. Qed.
Lemma dsp_pi_set_pwm_duty_chA i v m :
  dsp_pi (set_pwm_duty_chA i v m) = dsp_pi m.
Proof. frame. Qed.
Lemma dsp_pi_disable_pwm_output i m :
  dsp_pi (disable_pwm_output i m) = dsp_pi m.
Proof. frame. Qed.
Lemma dsp_pi_CLEAR_GPDO i m : dsp_pi (CLEAR_GPDO i m) = dsp_pi m.
Proof. frame. Qed.
Lemma dsp_pi_DELAY_US m : dsp_pi (DELAY_US m) = dsp_pi m.
Proof. frame. Qed.
Lemma dsp_srlim_write_signal r v m :
  dsp_srlim (write_signal r v m) = dsp_srlim m.
Proof. frame. Qed.
Lemma dsp_srlim_upd_module i f m : dsp_srlim (upd_module i f m) = dsp_srlim m.
Proof. frame. Qed.
Lemma dsp_srlim_reset_dsp_pi i m : dsp_srlim (reset_dsp_pi i m) = dsp_srlim m.
Proof. frame. Qed.
Lemma dsp_srlim_reset_dsp_error i m :
  dsp_srlim (reset_dsp_error i m) = dsp_srlim m.
Proof. frame. Qed.
Lemma dsp_srlim_reset_wfmref m : dsp_srlim (reset_wfmref m) = dsp_srlim m.
Proof. frame. Qed.
Lemma dsp_srlim_disable_siggen m : dsp_srlim (disable_siggen m) = dsp_srlim m.
Proof. frame. Qed.
Lemma dsp_srlim_set_pwm_duty_chA i v m :
  dsp_srlim (set_pwm_duty_chA i v m) = dsp_srlim m.
Proof. frame. Qed.
Lemma dsp_srlim_disable_pwm_output i m :
  dsp_srlim (disable_pwm_output i m) = dsp_srlim m.
Proof. frame. Qed.
Lemma dsp_srlim_CLEAR_GPDO i m : dsp_srlim (CLEAR_GPDO i m) = dsp_srlim m.
Proof. frame. Qed.
Lemma dsp_srlim_DELAY_US m : dsp_srlim (DELAY_US m) = dsp_srlim m.
Proof. frame. Qed.
Lemma dsp_error_write_signal r v m :
  dsp_error (write_signal r v m) = dsp_error m.
Proof. frame. Qed.
Lemma dsp_error_upd_module i f m : dsp_error (upd_module i f m) = dsp_error m.
Proof. frame. Qed.
Lemma dsp_error_reset_dsp_pi i m : dsp_error (reset_dsp_pi i m) = dsp_error m.
Proof. frame. Qed.
Lemma dsp_error_reset_dsp_srlim i m :
  dsp_error (reset_dsp_srlim i m) = dsp_error m.
Proof. frame. Qed.
Lemma dsp_error_reset_dsp_error i m :
  dsp_error (reset_dsp_error i m) = dsp_error m.
Proof. frame. Qed.
Lemma dsp_error_reset_wfmref m : dsp_error (reset_wfmref m) = dsp_error m.
Proof. frame. Qed.
Lemma dsp_error_disable_siggen m : dsp_error (disable_siggen m) = dsp_error m.
Proof. frame. Qed.
Lemma dsp_error_set_pwm_duty_chA i v m :
  dsp_error (set_pwm_duty_chA i v m) = dsp_error m.
Proof. frame. Qed.
Lemma dsp_error_disable_pwm_output i m :
  dsp_error (disable_pwm_output i m) = dsp_error m.
Proof. frame. Qed.
Lemma dsp_error_CLEAR_GPDO i m : dsp_error (CLEAR_GPDO i m) = dsp_error m.
Proof. frame. Qed.
Lemma dsp_error_DELAY_US m : dsp_error (DELAY_US m) = dsp_error m.
Proof. frame. Qed.
Lemma pwm_regs_write_signal r v m : pwm_regs (write_signal r v m) = pwm_regs m.
Proof. frame. Qed.
Lemma pwm_regs_upd_module i f m : pwm_regs (upd_module i f m) = pwm_regs m.
Proof. frame. Qed.
Lemma pwm_regs_reset_dsp_pi i m : pwm_regs (reset_dsp_pi i m) = pwm_regs m.
Proof. frame. Qed.
Lemma pwm_regs_reset_dsp_srlim i m :
  pwm_regs (reset_dsp_srlim i m) = pwm_regs m.
Proof. frame. Qed.
Lemma pwm_regs_reset_dsp_error i m :
  pwm_regs (reset_dsp_error i m) = pwm_regs m.
Proof. frame. Qed.
Lemma pwm_regs_reset_wfmref m : pwm_regs (reset_wfmref m) = pwm_regs m.
Proof. frame. Qed.
Lemma pwm_regs_disable_siggen m : pwm_regs (disable_siggen m) = pwm_regs m.
Proof. frame. Qed.
Lemma pwm_regs_CLEAR_GPDO i m : pwm_regs (CLEAR_GPDO i m) = pwm_regs m.
Proof. frame. Qed.
Lemma pwm_regs_DELAY_US m : pwm_regs (DELAY_US m) = pwm_regs m.
Proof. frame. Qed.
Lemma SIGGEN_upd_module i f m : SIGGEN (upd_module i f m) = SIGGEN m.
Proof. frame. Qed.
Lemma SIGGEN_reset_wfmref m : SIGGEN (reset_wfmref m) = SIGGEN m.
Proof. frame. Qed.
Lemma SIGGEN_set_pwm_duty_chA i v m :
  SIGGEN (set_pwm_duty_chA i v m) = SIGGEN m.
Proof. frame. Qed.
Lemma SIGGEN_disable_pwm_output i m :
  SIGGEN (disable_pwm_output i m) = SIGGEN m.
Proof. frame. Qed.
Lemma SIGGEN_CLEAR_GPDO i m : SIGGEN (CLEAR_GPDO i m) = SIGGEN m.
Proof. frame. Qed.
Lemma SIGGEN_DELAY_US m : SIGGEN (DELAY_US m) = SIGGEN m.
Proof. frame. Qed.
Lemma WFMREF_write_signal r v m : WFMREF (write_signal r v m) = WFMREF m.
Proof. frame. Qed.
Lemma WFMREF_upd_module i f m : WFMREF (upd_module i f m) = WFMREF m.
Proof. frame. Qed.
Lemma WFMREF_reset_dsp_pi i m : WFMREF (reset_dsp_pi i m) = WFMREF m.
Proof. frame. Qed.
Lemma WFMREF_reset_dsp_srlim i m : WFMREF (reset_dsp_srlim i m) = WFMREF m.
Proof. frame. Qed.
Lemma WFMREF_reset_dsp_error i m : WFMREF (reset_dsp_error i m) = WFMREF m.
Proof. frame. Qed.
Lemma WFMREF_disable_siggen m : WFMREF (disable_siggen m) = WFMREF m.
Proof. frame. Qed.
Lemma WFMREF_set_pwm_duty_chA i v m :
  WFMREF (set_pwm_duty_chA i v m) = WFMREF m.
Proof. frame. Qed.
Lemma WFMREF_disable_pwm_output i m :
  WFMREF (disable_pwm_output i m) = WFMREF m.
Proof. frame. Qed.
Lemma WFMREF_CLEAR_GPDO i m : WFMREF (CLEAR_GPDO i m) = WFMREF m.
Proof. frame. Qed.
Lemma WFMREF_DELAY_US m : WFMREF (DELAY_US m) = WFMREF m.
Proof. frame. Qed.
Lemma ps_module_reset_wfmref m : ps_module (reset_wfmref m) = ps_module m.
Proof. frame. Qed.
Lemma ps_module_disable_siggen m : ps_module (disable_siggen m) = ps_module m.
Proof. frame. Qed.
Lemma ps_module_set_pwm_duty_chA i v m :
  ps_module (set_pwm_duty_chA i v m) = ps_module m.
Proof. frame. Qed.
Lemma ps_module_disable_pwm_output i m :
  ps_module (disable_pwm_output i m) = ps_module m.
Proof. frame. Qed.
Lemma ps_module_CLEAR_GPDO i m : ps_module (CLEAR_GPDO i m) = ps_module m.
Proof. frame. Qed.
Lemma ps_module_DELAY_US m : ps_module (DELAY_US m) = ps_module m.
Proof. frame. Qed.

#[local] Hint Rewrite dsp_pi_write_signal dsp_pi_upd_module
  dsp_pi_reset_dsp_srlim dsp_pi_reset_dsp_error dsp_pi_reset_wfmref
  dsp_pi_disable_siggen dsp_pi_set_pwm_duty_chA dsp_pi_disable_pwm_output
  dsp_pi_CLEAR_GPDO dsp_pi_DELAY_US dsp_srlim_write_signal
  dsp_srlim_upd_module dsp_srlim_reset_dsp_pi dsp_srlim_reset_dsp_error
  dsp_srlim_reset_wfmref dsp_srlim_disable_siggen dsp_srlim_set_pwm_duty_chA
  dsp_srlim_disable_pwm_output dsp_srlim_CLEAR_GPDO dsp_srlim_DELAY_US
  dsp_error_write_signal dsp_error_upd_module dsp_error_reset_dsp_pi
  dsp_error_reset_dsp_srlim dsp_error_reset_dsp_error dsp_error_reset_wfmref
  dsp_error_disable_siggen dsp_error_set_pwm_duty_chA
  dsp_error_disable_pwm_output dsp_error_CLEAR_GPDO dsp_error_DELAY_US
  pwm_regs_write_signal pwm_regs_upd_module pwm_regs_reset_dsp_pi
  pwm_regs_reset_dsp_srlim pwm_regs_reset_dsp_error pwm_regs_reset_wfmref
  pwm_regs_disable_siggen pwm_regs_CLEAR_GPDO pwm_regs_DELAY_US
  SIGGEN_upd_module SIGGEN_reset_wfmref SIGGEN_set_pwm_duty_chA
  SIGGEN_disable_pwm_output SIGGEN_CLEAR_GPDO SIGGEN_DELAY_US
  WFMREF_write_signal WFMREF_upd_module WFMREF_reset_dsp_pi
  WFMREF_reset_dsp_srlim WFMREF_reset_dsp_error WFMREF_disable_siggen
  WFMREF_set_pwm_duty_chA WFMREF_disable_pwm_output WFMREF_CLEAR_GPDO
  WFMREF_DELAY_US ps_module_reset_wfmref ps_module_disable_siggen
  ps_module_set_pwm_duty_chA ps_module_disable_pwm_output
  ps_module_CLEAR_GPDO ps_module_DELAY_US : fw_frame.
#[local] Hint Rewrite dsp_pi_reset_dsp_pi dsp_srlim_reset_dsp_srlim : fw_frame.

Lemma enable_write_signal r v m :
  Siggen.enable (SIGGEN (write_signal r v m)) = Siggen.enable (SIGGEN m).
Proof. frame. Qed.
Lemma enable_reset_dsp_pi i m :
  Siggen.enable (SIGGEN (reset_dsp_pi i m)) = Siggen.enable (SIGGEN m).
Proof. frame. Qed.
Lemma enable_reset_dsp_srlim i m :
  Siggen.enable (SIGGEN (reset_dsp_srlim i m)) = Siggen.enable (SIGGEN m).
Proof. frame. Qed.
Lemma enable_reset_dsp_error i m :
  Siggen.enable (SIGGEN (reset_dsp_error i m)) = Siggen.enable (SIGGEN m).
Proof. frame. Qed.

Lemma ps_state_write_signal r v m k :
  ps_state (module_at (write_signal r v m) k) = ps_state (module_at m k).
Proof.
  destruct r; cbn [write_signal]; try reflexivity.
  all: rewrite module_at_alter; case_decide; [subst|done].
  all: unfold module_at; by destruct (ps_module m !! k).
Qed.
Lemma ps_state_reset_dsp_pi i m k :
  ps_state (module_at (reset_dsp_pi i m) k) = ps_state (module_at m k).
Proof.
  unfold reset_dsp_pi. destruct (dsp_pi m !! i); [|done].
  by rewrite ps_state_write_signal.
Qed.
Lemma ps_state_reset_dsp_srlim i m k :
  ps_state (module_at (reset_dsp_srlim i m) k) = ps_state (module_at m k).
Proof.
  unfold reset_dsp_srlim. destruct (dsp_srlim m !! i); [|done].
  by rewrite ps_state_write_signal.
Qed.
Lemma ps_state_reset_dsp_error i m k :
  ps_state (module_at (reset_dsp_error i m) k) = ps_state (module_at m k).
Proof.
  unfold reset_dsp_error. destruct (dsp_error m !! i); [|done].
  by rewrite ps_state_write_signal.
Qed.
Lemma ps_state_upd_openloop i v m k :
  ps_state (module_at (upd_module i (set_ps_openloop v) m) k) =
  ps_state (module_at m k).
Proof.
  rewrite module_at_alter; case_decide; [subst|done].
  unfold module_at; by destruct (ps_module m !! k).
Qed.

Lemma modules_write_signal r v m :
  length (ps_module (write_signal r v m)) = length (ps_module m).
Proof. destruct r; cbn [write_signal]; try reflexivity; apply length_alter. Qed.
Lemma modules_reset_dsp_pi i m :
  length (ps_module (reset_dsp_pi i m)) = length (ps_module m).
Proof.
  unfold reset_dsp_pi. destruct (dsp_pi m !! i); [|done].
  by rewrite modules_write_signal.
Qed.
Lemma modules_reset_dsp_srlim i m :
  length (ps_module (reset_dsp_srlim i m)) = length (ps_module m).
Proof.
  unfold reset_dsp_srlim. destruct (dsp_srlim m !! i); [|done].
  by rewrite modules_write_signal.
Qed.
Lemma modules_reset_dsp_error i m :
  length (ps_module (reset_dsp_error i m)) = length (ps_module m).
Proof.
  unfold reset_dsp_error. destruct (dsp_error m !! i); [|done].
  by rewrite modules_write_signal.
Qed.
Lemma modules_upd_module i f m :
  length (ps_module (upd_module i f m)) = length (ps_module m).
Proof. apply length_alter. Qed.

#[local] Hint Rewrite enable_write_signal enable_reset_dsp_pi
  enable_reset_dsp_srlim enable_reset_dsp_error
  ps_state_write_signal ps_state_reset_dsp_pi ps_state_reset_dsp_srlim
  ps_state_reset_dsp_error ps_state_upd_openloop
  modules_write_signal modules_reset_dsp_pi modules_reset_dsp_srlim
  modules_reset_dsp_error modules_upd_module : fw_frame.

Lemma module_at_reset_wfmref m k :
  module_at (reset_wfmref m) k = module_at m k.
Proof. reflexivity. Qed.
Lemma module_at_disable_siggen m k :
  module_at (disable_siggen m) k = module_at m k.
Proof. reflexivity. Qed.
Lemma module_at_set_pwm_duty_chA i v m k :
  module_at (set_pwm_duty_chA i v m) k = module_at m k.
Proof. reflexivity. Qed.
Lemma module_at_disable_pwm_output i m k :
  module_at (disable_pwm_output i m) k = module_at m k.
Proof. reflexivity. Qed.
Lemma module_at_CLEAR_GPDO i m k :
  module_at (CLEAR_GPDO i m) k = module_at m k.
Proof. reflexivity. Qed.
Lemma module_at_DELAY_US m k :
  module_at (DELAY_US m) k = module_at m k.
Proof. reflexivity. Qed.
Lemma enable_reset_wfmref m :
  Siggen.enable (SIGGEN (reset_wfmref m)) = Siggen.enable (SIGGEN m).
Proof. reflexivity. Qed.
Lemma enable_upd_module i f m :
  Siggen.enable (SIGGEN (upd_module i f m)) = Siggen.enable (SIGGEN m).
Proof. reflexivity. Qed.
#[local] Hint Rewrite module_at_reset_wfmref module_at_disable_siggen
  module_at_set_pwm_duty_chA module_at_disable_pwm_output
  module_at_CLEAR_GPDO module_at_DELAY_US enable_reset_wfmref
  enable_upd_module : fw_frame.

(** *** [turn_off] *)

Import Fap4p.

Ltac unfold_turn_off :=
  unfold reset_controller, outputs_off,
    PIN_OPEN_DCLINK_CONTACTOR_MOD_1, PIN_OPEN_DCLINK_CONTACTOR_MOD_2,
    PIN_OPEN_DCLINK_CONTACTOR_MOD_3, PIN_OPEN_DCLINK_CONTACTOR_MOD_4.

Lemma ps_state_reset_controller m :
  ps_state (module_at (reset_controller (outputs_off m)) 0) =
  ps_state (module_at m 0).
Proof. unfold_turn_off. by autorewrite with fw_frame. Qed.

Lemma turn_off_unfold dummy m :
  turn_off dummy m =
  let m1 := reset_controller (outputs_off m) in
  if negb (state_eqb (ps_state (module_at m 0)) Interlock)
  then upd_module 0 (set_ps_state Off) m1 else m1.
Proof.
  unfold turn_off. fold (outputs_off m). cbn zeta.
  by rewrite ps_state_reset_controller.
Qed.

Lemma pwm_regs_turn_off dummy m :
  pwm_regs (turn_off dummy m) =
  pwm_regs (m |> disable_pwm_output 0 |> disable_pwm_output 1
              |> disable_pwm_output 2 |> disable_pwm_output 3
              |> disable_pwm_output 4 |> disable_pwm_output 5
              |> disable_pwm_output 6 |> disable_pwm_output 7
              |> set_pwm_duty_chA 0 zero |> set_pwm_duty_chA 1 zero
              |> set_pwm_duty_chA 2 zero |> set_pwm_duty_chA 3 zero
              |> set_pwm_duty_chA 4 zero |> set_pwm_duty_chA 5 zero
              |> set_pwm_duty_chA 6 zero |> set_pwm_duty_chA 7 zero).
Proof.
  rewrite turn_off_unfold. cbn zeta.
  destruct (negb _); unfold_turn_off; autorewrite with fw_frame;
    reflexivity.
Qed.

Lemma turn_off_pwm_off dummy m : pwm_off NUM_PWM_MODULES (turn_off dummy m).
Proof.
  intros i p Hi Hp. rewrite pwm_regs_turn_off in Hp.
  unfold set_pwm_duty_chA, disable_pwm_output in Hp.
  cbn [pwm_regs set_pwm_regs] in Hp.
  unfold NUM_PWM_MODULES in Hi.
  do 8 (destruct i as [|i];
        [ repeat first [ rewrite list_lookup_alter_eq in Hp
                       | rewrite list_lookup_alter_ne in Hp by lia ];
          destruct (pwm_regs m !! _); [|done];
          by injection Hp as <- | ]).
  lia.
Qed.

Ltac unfold_names :=
  unfold SRLIM_I_LOAD_REFERENCE, SRLIM_SIGGEN_AMP, SRLIM_SIGGEN_OFFSET,
    ERROR_I_LOAD, PI_CONTROLLER_I_LOAD, PI_CONTROLLER_I_SHARE_MOD_1,
    PI_CONTROLLER_I_SHARE_MOD_2, PI_CONTROLLER_I_SHARE_MOD_3,
    PI_CONTROLLER_I_SHARE_MOD_4, PWM_MODULATOR_IGBT_1_MOD_1,
    PWM_MODULATOR_IGBT_2_MOD_1, PWM_MODULATOR_IGBT_1_MOD_2,
    PWM_MODULATOR_IGBT_2_MOD_2, PWM_MODULATOR_IGBT_1_MOD_3,
    PWM_MODULATOR_IGBT_2_MOD_3, PWM_MODULATOR_IGBT_1_MOD_4,
    PWM_MODULATOR_IGBT_2_MOD_4 in *.

(** The stage a reset is about to clear is still the one of the initial
    state: the earlier resets touched other indices. *)
Ltac stage_lookup E :=
  autorewrite with fw_frame;
  repeat rewrite list_lookup_alter_ne by lia;
  exact E.

Ltac reach_reset E :=
  repeat lazymatch goal with
    | |- read_signal (upd_module _ (set_ps_state _) _) _ = _ =>
        apply zero_upd_state
    | |- read_signal (reset_wfmref _) _ = _ => apply zero_reset_wfmref
    | |- read_signal (disable_siggen _) _ = _ => apply zero_disable_siggen
    | |- read_signal (reset_dsp_pi _ _) _ = _ =>
        first [ apply reset_dsp_pi_out; solve [stage_lookup E]
              | apply zero_reset_dsp_pi ]
    | |- read_signal (reset_dsp_srlim _ _) _ = _ =>
        first [ apply reset_dsp_srlim_out; solve [stage_lookup E]
              | apply zero_reset_dsp_srlim ]
    | |- read_signal (reset_dsp_error _ _) _ = _ =>
        first [ apply reset_dsp_error_out; solve [stage_lookup E]
              | apply zero_reset_dsp_error ]
    end.

Lemma dsp_pi_turn_off dummy m :
  dsp_pi (turn_off dummy m) =
  dsp_pi m |> alter clear_dsp_pi PI_CONTROLLER_I_LOAD
           |> alter clear_dsp_pi PI_CONTROLLER_I_SHARE_MOD_1
           |> alter clear_dsp_pi PI_CONTROLLER_I_SHARE_MOD_2
           |> alter clear_dsp_pi PI_CONTROLLER_I_SHARE_MOD_3
           |> alter clear_dsp_pi PI_CONTROLLER_I_SHARE_MOD_4.
Proof.
  rewrite turn_off_unfold. cbn zeta.
  destruct (negb _); unfold_turn_off; autorewrite with fw_frame;
    reflexivity.
Qed.

Lemma dsp_srlim_turn_off dummy m :
  dsp_srlim (turn_off dummy m) =
  dsp_srlim m |> alter clear_dsp_srlim SRLIM_I_LOAD_REFERENCE
              |> alter clear_dsp_srlim SRLIM_SIGGEN_AMP
              |> alter clear_dsp_srlim SRLIM_SIGGEN_OFFSET.
Proof.
  rewrite turn_off_unfold. cbn zeta.
  destruct (negb _); unfold_turn_off; autorewrite with fw_frame;
    reflexivity.
Qed.

Lemma dsp_error_turn_off dummy m : dsp_error (turn_off dummy m) = dsp_error m.
Proof.
  rewrite turn_off_unfold. cbn zeta.
  destruct (negb _); unfold_turn_off; autorewrite with fw_frame;
    reflexivity.
Qed.

Lemma turn_off_pi_reset dummy m i :
  (i < 5)%nat -> pi_is_reset (turn_off dummy m) i.
Proof.
  intros Hi p' Hp'. rewrite dsp_pi_turn_off in Hp'. unfold_names.
  assert (Hp : exists p, dsp_pi m !! i = Some p /\ p' = clear_dsp_pi p).
  { do 5 (destruct i as [|i];
          [ repeat first [ rewrite list_lookup_alter_eq in Hp'
                         | rewrite list_lookup_alter_ne in Hp' by lia ];
            destruct (dsp_pi m !! _) as [p|]; [|done];
            exists p; split; [done|by injection Hp' as <-] | ]).
    lia. }
  destruct Hp as (p & E & ->). split; [reflexivity|].
  cbn [pi_out clear_dsp_pi].
  rewrite turn_off_unfold. cbn zeta.
  do 5 (destruct i as [|i];
        [ destruct (negb _); unfold_turn_off; unfold_names; reach_reset E | ]).
  lia.
Qed.

Lemma turn_off_srlim_reset dummy m i :
  (i < 3)%nat -> srlim_is_reset (turn_off dummy m) i.
Proof.
  intros Hi p' Hp'. rewrite dsp_srlim_turn_off in Hp'. unfold_names.
  assert (Hp : exists p, dsp_srlim m !! i = Some p /\ p' = clear_dsp_srlim p).
  { do 3 (destruct i as [|i];
          [ repeat first [ rewrite list_lookup_alter_eq in Hp'
                         | rewrite list_lookup_alter_ne in Hp' by lia ];
            destruct (dsp_srlim m !! _) as [p|]; [|done];
            exists p; split; [done|by injection Hp' as <-] | ]).
    lia. }
  destruct Hp as (p & E & ->). split; [reflexivity|].
  cbn [srlim_out clear_dsp_srlim].
  rewrite turn_off_unfold. cbn zeta.
  do 3 (destruct i as [|i];
        [ destruct (negb _); unfold_turn_off; unfold_names; reach_reset E | ]).
  lia.
Qed.

Lemma turn_off_error_reset dummy m :
  error_is_reset (turn_off dummy m) ERROR_I_LOAD.
Proof.
  intros e E. rewrite dsp_error_turn_off in E.
  rewrite turn_off_unfold. cbn zeta.
  destruct (negb _); unfold_turn_off; unfold_names; reach_reset E.
Qed.

Ltac reach_write :=
  repeat lazymatch goal with
    | |- read_signal (upd_module _ (set_ps_state _) _) _ = _ =>
        apply zero_upd_state
    | |- read_signal (reset_wfmref _) _ = _ => apply zero_reset_wfmref
    | |- read_signal (disable_siggen _) _ = _ => apply zero_disable_siggen
    | |- read_signal (reset_dsp_pi _ _) _ = _ => apply zero_reset_dsp_pi
    | |- read_signal (reset_dsp_srlim _ _) _ = _ => apply zero_reset_dsp_srlim
    | |- read_signal (reset_dsp_error _ _) _ = _ => apply zero_reset_dsp_error
    | |- read_signal (write_signal ?r _ _) ?r = _ => apply read_write_zero_same
    | |- read_signal (write_signal _ _ _) _ = _ => apply read_write_zero
    end.

Lemma turn_off_references dummy m :
  read_signal (turn_off dummy m) (PsSetpoint 0) = zero /\
  read_signal (turn_off dummy m) (PsReference 0) = zero.
Proof.
  rewrite turn_off_unfold. cbn zeta.
  split; destruct (negb _); unfold_turn_off; reach_write.
Qed.

Lemma turn_off_siggen dummy m : Siggen.enable (SIGGEN (turn_off dummy m)) = 0.
Proof.
  rewrite turn_off_unfold. cbn zeta.
  destruct (negb _); unfold_turn_off; autorewrite with fw_frame; reflexivity.
Qed.

Lemma turn_off_wfmref dummy m : WFMREF (turn_off dummy m) = mk_wfmref 0.
Proof.
  rewrite turn_off_unfold. cbn zeta.
  destruct (negb _); unfold_turn_off; autorewrite with fw_frame; reflexivity.
Qed.

Lemma turn_off_modules dummy m :
  length (ps_module (turn_off dummy m)) = length (ps_module m).
Proof.
  rewrite turn_off_unfold. cbn zeta.
  destruct (negb _); unfold_turn_off; autorewrite with fw_frame; reflexivity.
Qed.

Lemma turn_off_state dummy m :
  ps_state (module_at (turn_off dummy m) 0) =
  if state_eqb (ps_state (module_at m 0)) Interlock then Interlock else Off.
Proof.
  rewrite turn_off_unfold. cbn zeta.
  destruct (state_eqb (ps_state (module_at m 0)) Interlock) eqn:E;
    cbn [negb].
  - rewrite ps_state_reset_controller.
    unfold state_eqb in E. apply Z.eqb_eq in E.
    by destruct (ps_state (module_at m 0)).
  - rewrite module_at_alter. case_decide; [|done].
    by destruct (ps_module _ !! 0%nat).
Qed.

(** *** [reset_interlocks] *)

Lemma ps_module_SET_GPDO i m : ps_module (SET_GPDO i m) = ps_module m.
Proof. frame. Qed.

Lemma ps_module_pulse_contactor status k k' m :
  ps_module (Fap4p.pulse_contactor status (SET_GPDO k) (CLEAR_GPDO k') m) =
  ps_module m.
Proof.
  unfold Fap4p.pulse_contactor. destruct (status m); [|done].
  by rewrite ps_module_DELAY_US, ps_module_CLEAR_GPDO, ps_module_DELAY_US,
    ps_module_SET_GPDO.
Qed.

Lemma module_at_ext m m' i :
  ps_module m = ps_module m' -> module_at m i = module_at m' i.
Proof. unfold module_at. by intros ->. Qed.

Lemma state_below_initializing st :
  (state_code st <? state_code Initializing) = true ->
  st = Off \/ st = Interlock.
Proof. destruct st; cbn; intros; auto; discriminate. Qed.

Lemma fap_reset_interlocks_module dummy m :
  let st := ps_state (module_at m 0) in
  let p' := module_at (Fap4p.reset_interlocks dummy m) 0 in
  ps_hard_interlock p' = 0 /\ ps_soft_interlock p' = 0 /\
  ps_state p' =
    if state_code st <? state_code Initializing then Off else st.
Proof.
  cbn zeta. unfold Fap4p.reset_interlocks. cbn zeta.
  set (m1 := upd_module 0 (set_ps_alarms 0) _).
  assert (H1 : module_at m1 0 =
               match ps_module m !! 0%nat with
               | Some p =>
                   set_ps_alarms 0
                     (set_ps_soft_interlock 0 (set_ps_hard_interlock 0 p))
               | None => ps_module_zero
               end).
  { unfold m1. rewrite !module_at_alter. cbn [decide_rel].
    repeat case_decide; try done.
    unfold upd_module; cbn [ps_module set_ps_module].
    rewrite !list_lookup_alter_eq.
    by destruct (ps_module m !! 0%nat). }
  assert (Hst : ps_state (module_at m1 0) = ps_state (module_at m 0)).
  { rewrite H1. unfold module_at. by destruct (ps_module m !! 0%nat). }
  rewrite Hst.
  destruct (state_code (ps_state (module_at m 0)) <? _) eqn:E.
  - set (m2 := DELAY_US _).
    assert (H2 : ps_module m2 = ps_module m1).
    { unfold m2, Fap4p.PIN_CLOSE_DCLINK_CONTACTOR_MOD_1,
        Fap4p.PIN_CLOSE_DCLINK_CONTACTOR_MOD_2,
        Fap4p.PIN_CLOSE_DCLINK_CONTACTOR_MOD_3,
        Fap4p.PIN_CLOSE_DCLINK_CONTACTOR_MOD_4,
        Fap4p.PIN_OPEN_DCLINK_CONTACTOR_MOD_1,
        Fap4p.PIN_OPEN_DCLINK_CONTACTOR_MOD_2,
        Fap4p.PIN_OPEN_DCLINK_CONTACTOR_MOD_3,
        Fap4p.PIN_OPEN_DCLINK_CONTACTOR_MOD_4.
      by rewrite ps_module_DELAY_US, !ps_module_pulse_contactor. }
    rewrite module_at_alter. case_decide; [|done].
    rewrite H2. fold (module_at m1 0).
    assert (H3 : ps_module m1 !! 0%nat =
                 set_ps_alarms 0 ∘ set_ps_soft_interlock 0
                   ∘ set_ps_hard_interlock 0
                   <$> ps_module m !! 0%nat).
    { unfold m1, upd_module; cbn [ps_module set_ps_module].
      rewrite !list_lookup_alter_eq.
      by destruct (ps_module m !! 0%nat). }
    rewrite H3. by destruct (ps_module m !! 0%nat).
  - rewrite H1. unfold module_at.
    by destruct (ps_module m !! 0%nat).
Qed.

Lemma fac_reset_interlocks_modules dummy m :
  let st := ps_state (module_at m Fac2p4sAcdc.MOD_A_ID) in
  let m' := Fac2p4sAcdc.reset_interlocks dummy m in
  let a' := module_at m' Fac2p4sAcdc.MOD_A_ID in
  let b' := module_at m' Fac2p4sAcdc.MOD_B_ID in
  ps_hard_interlock a' = 0 /\ ps_soft_interlock a' = 0 /\
  ps_hard_interlock b' = 0 /\ ps_soft_interlock b' = 0 /\
  ps_state a' =
    (if state_code st <? state_code Initializing then Off else st) /\
  ps_state b' =
    (if state_code st <? state_code Initializing then Off
     else ps_state (module_at m Fac2p4sAcdc.MOD_B_ID)).
Proof.
  cbn zeta. unfold Fac2p4sAcdc.reset_interlocks, Fac2p4sAcdc.MOD_A_ID,
    Fac2p4sAcdc.MOD_B_ID. cbn zeta.
  destruct m as [mods sg wf a o d ns os de ds dp pw go gi ls].
  unfold module_at, upd_module; cbn [ps_module set_ps_module].
  destruct mods as [|pa [|pb mods]]; cbn;
    try destruct (state_code (ps_state pa) <? 2); cbn; done.
Qed.

(** Claim C5.  [reset_interlocks] of the FAP-4P module and of the
    FAC-2P4S AC/DC module clears the hard and the soft interlock masks
    in every state.  The operating state becomes [Off] when the state
    tested (that of module 0, resp. of module A) is below
    [Initializing], that is [Off] or [Interlock], and is left as it was
    in every state from [Initializing] on; the FAC module B follows the
    test made on module A. *)
Theorem reset_interlocks_state_guard dummy m :
  let st := ps_state (module_at m 0) in
  let below := state_code st <? state_code Initializing in
  (let p' := module_at (Fap4p.reset_interlocks dummy m) 0 in
   ps_hard_interlock p' = 0 /\ ps_soft_interlock p' = 0 /\
   ps_state p' = if below then Off else st) /\
  (let m' := Fac2p4sAcdc.reset_interlocks dummy m in
   let a' := module_at m' Fac2p4sAcdc.MOD_A_ID in
   let b' := module_at m' Fac2p4sAcdc.MOD_B_ID in
   ps_hard_interlock a' = 0 /\ ps_soft_interlock a' = 0 /\
   ps_hard_interlock b' = 0 /\ ps_soft_interlock b' = 0 /\
   ps_state a' = (if below then Off else st) /\
   ps_state b' =
     (if below then Off else ps_state (module_at m Fac2p4sAcdc.MOD_B_ID))) /\
  (below = true <-> st = Off \/ st = Interlock).
Proof.
  cbn zeta. split; [apply fap_reset_interlocks_module|].
  split; [apply fac_reset_interlocks_modules|].
  split; [apply state_below_initializing|].
  by intros [-> | ->].
Qed.

(** Claim C1.  From every machine state, [turn_off] leaves the eight
    PWM modulators disabled with a duty cycle of zero, and every stage
    that [reset_controller] resets in its reset state: the five PI
    controllers, the three slew-rate limiters and the load-current
    error stage hold no internal state and read zero at their outputs,
    the setpoint and the reference are zero, the signal generator is
    disabled and the waveform reference rewound.  The operating state
    of the module is then [Off], unless it was [Interlock], which it
    stays. *)
Theorem turn_off_safe_stop dummy m :
  let m' := turn_off dummy m in
  let st := ps_state (module_at m 0) in
  pwm_off NUM_PWM_MODULES m' /\
  length (pwm_regs m') = length (pwm_regs m) /\
  (forall i, (i < 5)%nat -> pi_is_reset m' i) /\
  (forall i, (i < 3)%nat -> srlim_is_reset m' i) /\
  error_is_reset m' ERROR_I_LOAD /\
  read_signal m' (PsSetpoint 0) = zero /\
  read_signal m' (PsReference 0) = zero /\
  Siggen.enable (SIGGEN m') = 0 /\
  WFMREF m' = mk_wfmref 0 /\
  ps_state (module_at m' 0) =
    (if state_eqb st Interlock then Interlock else Off) /\
  (state_eqb st Interlock = true <-> st = Interlock).
Proof.
  cbn zeta.
  split; [apply turn_off_pwm_off|].
  split.
  { rewrite pwm_regs_turn_off. unfold set_pwm_duty_chA, disable_pwm_output.
    cbn [pwm_regs set_pwm_regs]. by rewrite !length_alter. }
  split; [intros i Hi; by apply turn_off_pi_reset|].
  split; [intros i Hi; by apply turn_off_srlim_reset|].
  split; [apply turn_off_error_reset|].
  split; [apply turn_off_references|].
  split; [apply turn_off_references|].
  split; [apply turn_off_siggen|].
  split; [apply turn_off_wfmref|].
  split; [apply turn_off_state|].
  unfold state_eqb. rewrite Z.eqb_eq.
  split; [|by intros ->].
  by destruct (ps_state (module_at m 0)).
Qed.

(** [turn_off] on the regulating machine: nothing of the statement
    above is vacuous there. *)
Example turn_off_regulating_machine :
  let m := regulating_machine in
  let m' := turn_off 0 m in
  ps_state (module_at m 0) = SlowRef /\
  pwm_regs m = replicate 8 (mk_pwm_module true Siggen.one) /\
  read_signal m (PsReference 0) = Siggen.one /\
  ps_state (module_at m' 0) = Off /\
  pwm_regs m' = replicate 8 (mk_pwm_module false zero) /\
  read_signal m' (PsReference 0) = zero /\
  read_signal m' (NetSignal 5) = zero /\
  (u_int <$> dsp_pi m' !! 0%nat) = Some zero /\
  turn_off 0 m' = m'.
Proof. vm_compute. repeat split. Qed.

End PsModuleProofs.

(** ** The event manager *)

Module EventManagerProofs.

Import F32 PsModules Control EventManager RoundingProofs.

(** *** Arrays of events *)

Lemma event_at_upd_event s i f :
  (i < length (event s))%nat ->
  event_at (upd_event i f s) i = f (event_at s i).
Proof.
  intros Hi. unfold event_at, upd_event. simpl.
  rewrite list_lookup_alter_eq.
  destruct (lookup_lt_is_Some_2 _ _ Hi) as [e He]. rewrite He. reflexivity.
Qed.

Lemma event_at_upd_event_ne s i j f :
  i <> j -> event_at (upd_event i f s) j = event_at s j.
Proof.
  intros Hne. unfold event_at, upd_event. simpl.
  by rewrite list_lookup_alter_ne.
Qed.

Lemma length_upd_event s i f :
  length (event (upd_event i f s)) = length (event s).
Proof. unfold upd_event. simpl. apply length_alter. Qed.

Lemma num_events_upd_event s i f : num_events (upd_event i f s) = num_events s.
Proof. reflexivity. Qed.

Lemma foldl_upd_event_num n (g : nat -> event_t -> event_t) s :
  num_events (foldl (fun acc k => upd_event k (g k) acc) s (seq 0 n)) =
  num_events s.
Proof.
  induction n as [|n IH]; [done|].
  rewrite seq_S, foldl_app. simpl. apply IH.
Qed.

Lemma foldl_upd_event_lookup n (g : nat -> event_t -> event_t) s i :
  event (foldl (fun acc k => upd_event k (g k) acc) s (seq 0 n)) !! i =
  if (i <? n)%nat then g i <$> (event s !! i) else event s !! i.
Proof.
  induction n as [|n IH]; [done|].
  rewrite seq_S, foldl_app. simpl.
  destruct (decide (i = n)) as [->|Hne].
  - rewrite list_lookup_alter_eq, IH.
    rewrite Nat.ltb_irrefl.
    destruct (Nat.ltb_spec n (S n)); [done|lia].
  - rewrite list_lookup_alter_ne by done. rewrite IH.
    destruct (Nat.ltb_spec i n), (Nat.ltb_spec i (S n)); try done; lia.
Qed.

(** *** [init_event_manager] *)

Lemma time_to_counts_range freq t : 0 <= time_to_counts freq t < 2 ^ 32.
Proof. unfold time_to_counts, to_uint. apply Z.mod_pos_bound. lia. Qed.

Lemma SATURATE_min_max t :
  SATURATE t MAX_DEBOUNCE_TIME_US 0 = Z.min (Z.max 0 t) MAX_DEBOUNCE_TIME_US.
Proof.
  unfold SATURATE, MAX_DEBOUNCE_TIME_US.
  destruct (Z.ltb_spec 5000000 t), (Z.ltb_spec t 0); lia.
Qed.

Lemma init_event_configured freq maxc num pd pr i e :
  (i < num)%nat -> 0 <= maxc < 2 ^ 32 ->
  let e' := init_event freq maxc num pd pr i e in
  flag e' = 0 /\ counter e' = 0 /\
  debounce_count e' =
    time_to_counts freq (Z.min (Z.max 0 (zget pd i)) MAX_DEBOUNCE_TIME_US) /\
  ((debounce_count e' < reset_count e' /\ reset_count e' <= maxc) <->
   debounce_count e' < maxc).
Proof.
  intros Hi Hmax. unfold init_event.
  destruct (Nat.ltb_spec i num) as [_|]; [|lia].
  cbn [flag counter debounce_count reset_count set_flag set_counter
       set_debounce_count set_reset_count].
  rewrite SATURATE_min_max.
  set (d := time_to_counts freq _).
  set (r := time_to_counts freq (zget pr i)).
  assert (Hd : 0 <= d < 2 ^ 32) by apply time_to_counts_range.
  assert (Hr : 0 <= r < 2 ^ 32) by apply time_to_counts_range.
  repeat split; try lia.
  - unfold SATURATE. rewrite Z.mod_small by lia.
    destruct (Z.ltb_spec maxc r), (Z.ltb_spec r (d + 1)); lia.
  - unfold SATURATE. rewrite Z.mod_small by lia.
    destruct (Z.ltb_spec maxc r), (Z.ltb_spec r (d + 1)); lia.
Qed.

Lemma hard_upd_hard f em :
  hard_interlocks (upd_hard f em) = f (hard_interlocks em).
Proof. reflexivity. Qed.
Lemma hard_upd_soft f em : hard_interlocks (upd_soft f em) = hard_interlocks em.
Proof. reflexivity. Qed.
Lemma soft_upd_soft f em :
  soft_interlocks (upd_soft f em) = f (soft_interlocks em).
Proof. reflexivity. Qed.
Lemma soft_upd_hard f em : soft_interlocks (upd_hard f em) = soft_interlocks em.
Proof. reflexivity. Qed.
Lemma event_upd_event i f s : event (upd_event i f s) = alter f i (event s).
Proof. reflexivity. Qed.

Lemma foldl_init_hard n gh gs em i :
  event (hard_interlocks
    (foldl (fun acc k => acc |> upd_hard (upd_event k (gh k))
                             |> upd_soft (upd_event k (gs k)))
       em (seq 0 n))) !! i =
  if (i <? n)%nat then gh i <$> (event (hard_interlocks em) !! i)
  else event (hard_interlocks em) !! i.
Proof.
  induction n as [|n IH]; [done|].
  rewrite seq_S, foldl_app. cbn [foldl Nat.add].
  rewrite hard_upd_soft, hard_upd_hard, event_upd_event.
  destruct (decide (i = n)) as [->|Hne].
  - rewrite list_lookup_alter_eq, IH, Nat.ltb_irrefl.
    destruct (Nat.ltb_spec n (S n)); [done|lia].
  - rewrite list_lookup_alter_ne by done. rewrite IH.
    destruct (Nat.ltb_spec i n), (Nat.ltb_spec i (S n)); try done; lia.
Qed.

Lemma foldl_init_soft n gh gs em i :
  event (soft_interlocks
    (foldl (fun acc k => acc |> upd_hard (upd_event k (gh k))
                             |> upd_soft (upd_event k (gs k)))
       em (seq 0 n))) !! i =
  if (i <? n)%nat then gs i <$> (event (soft_interlocks em) !! i)
  else event (soft_interlocks em) !! i.
Proof.
  induction n as [|n IH]; [done|].
  rewrite seq_S, foldl_app. cbn [foldl Nat.add].
  rewrite soft_upd_soft, soft_upd_hard, event_upd_event.
  destruct (decide (i = n)) as [->|Hne].
  - rewrite list_lookup_alter_eq, IH, Nat.ltb_irrefl.
    destruct (Nat.ltb_spec n (S n)); [done|lia].
  - rewrite list_lookup_alter_ne by done. rewrite IH.
    destruct (Nat.ltb_spec i n), (Nat.ltb_spec i (S n)); try done; lia.
Qed.

Lemma em_at_upd_em w id f :
  (id < length (g_event_manager w))%nat ->
  em_at (upd_em id f w) id = f (em_at w id).
Proof.
  intros Hid. unfold em_at, upd_em. simpl.
  rewrite list_lookup_alter_eq.
  destruct (lookup_lt_is_Some_2 _ _ Hid) as [e He]. rewrite He. reflexivity.
Qed.

Lemma em_at_upd_em_ne w id j f :
  id <> j -> em_at (upd_em id f w) j = em_at w j.
Proof.
  intros Hne. unfold em_at, upd_em. simpl.
  by rewrite list_lookup_alter_ne.
Qed.

Lemma init_event_manager_at_hard freq nh ns pdh prh pds prs em i :
  (i < NUM_MAX_EVENT_COUNTER)%nat ->
  length (event (hard_interlocks em)) = NUM_MAX_EVENT_COUNTER ->
  event_at (hard_interlocks
     (init_event_manager_at freq nh ns pdh prh pds prs em)) i =
  init_event freq (time_to_counts freq MAX_RESET_TIME_US) nh pdh prh i
    (event_at (hard_interlocks em) i).
Proof.
  intros Hi Hlen. unfold init_event_manager_at, event_at.
  rewrite foldl_init_hard.
  destruct (Nat.ltb_spec i NUM_MAX_EVENT_COUNTER); [|lia].
  cbn [upd_soft upd_hard set_soft_interlocks set_timebase_flag set_freq_timebase
    set_hard_interlocks hard_interlocks soft_interlocks set_num_events event].
  destruct (lookup_lt_is_Some_2 (event (hard_interlocks em)) i)
    as [e He]; [lia|].
  rewrite He. reflexivity.
Qed.

Lemma init_event_manager_at_soft freq nh ns pdh prh pds prs em i :
  (i < NUM_MAX_EVENT_COUNTER)%nat ->
  length (event (soft_interlocks em)) = NUM_MAX_EVENT_COUNTER ->
  event_at (soft_interlocks
     (init_event_manager_at freq nh ns pdh prh pds prs em)) i =
  init_event freq (time_to_counts freq MAX_RESET_TIME_US) ns pds prs i
    (event_at (soft_interlocks em) i).
Proof.
  intros Hi Hlen. unfold init_event_manager_at, event_at.
  rewrite foldl_init_soft.
  destruct (Nat.ltb_spec i NUM_MAX_EVENT_COUNTER); [|lia].
  cbn [upd_soft upd_hard set_soft_interlocks set_timebase_flag set_freq_timebase
    set_hard_interlocks hard_interlocks soft_interlocks set_num_events event].
  destruct (lookup_lt_is_Some_2 (event (soft_interlocks em)) i)
    as [e He]; [lia|].
  rewrite He. reflexivity.
Qed.

(** At a time base where the count of the cap of the reset time is
    defined, every debounce time counts at most what the cap of the
    debounce time counts. *)
Lemma debounce_count_below_cap freq t :
  positive_finite freq = true ->
  time_to_counts_defined freq MAX_RESET_TIME_US = true ->
  time_to_counts freq (Z.min (Z.max 0 t) MAX_DEBOUNCE_TIME_US) <=
  time_to_counts freq MAX_DEBOUNCE_TIME_US.
Proof.
  intros Hf Hr. destruct freq as [| | |s mf ef]; try done.
  destruct s; [done|].
  destruct (time_to_counts_mono mf ef MAX_DEBOUNCE_TIME_US MAX_RESET_TIME_US)
    as [Hd _]; [done|done|exact Hr|].
  apply time_to_counts_mono; [|done|exact Hd].
  unfold MAX_DEBOUNCE_TIME_US. lia.
Qed.

Lemma init_event_capped freq maxc num pd pr i e :
  (i < num)%nat -> 0 <= maxc < 2 ^ 32 ->
  positive_finite freq = true ->
  time_to_counts_defined freq MAX_RESET_TIME_US = true ->
  time_to_counts freq MAX_DEBOUNCE_TIME_US < maxc ->
  let e' := init_event freq maxc num pd pr i e in
  debounce_count e' <= time_to_counts freq MAX_DEBOUNCE_TIME_US /\
  debounce_count e' < reset_count e' /\ reset_count e' <= maxc.
Proof.
  intros Hi Hmax Hf Hr Hcap. cbn zeta.
  destruct (init_event_configured freq maxc num pd pr i e Hi Hmax)
    as (_ & _ & Hd & Hiff).
  pose proof (debounce_count_below_cap freq (zget pd i) Hf Hr) as Hle.
  rewrite <- Hd in Hle.
  split; [done|]. apply Hiff. lia.
Qed.

(** Claim C2, amended.  After [init_event_manager], every configured
    hard or soft channel has as debounce count the count of its
    debounce time capped at [MAX_DEBOUNCE_TIME_US], and its reset count
    is strictly above its debounce count and at most the count of
    [MAX_RESET_TIME_US] exactly when the debounce count is below that
    maximal reset count.  At every positive finite time base at which
    the count of [MAX_RESET_TIME_US] is a defined conversion and is
    above the count of [MAX_DEBOUNCE_TIME_US], this is so on every
    configured channel, for all arrays of times: the debounce count is
    at most the count of [MAX_DEBOUNCE_TIME_US], and the reset count is
    strictly above the debounce count and at most the count of
    [MAX_RESET_TIME_US].  At a time base at which the count of
    [MAX_RESET_TIME_US] is not above the count of
    [MAX_DEBOUNCE_TIME_US], it fails on every configured channel whose
    debounce time is [MAX_DEBOUNCE_TIME_US] or more. *)
Theorem init_event_manager_thresholds id freq nh ns pdh prh pds prs w i :
  (id < length (g_event_manager w))%nat ->
  length (event (hard_interlocks (em_at w id))) = NUM_MAX_EVENT_COUNTER ->
  length (event (soft_interlocks (em_at w id))) = NUM_MAX_EVENT_COUNTER ->
  (i < NUM_MAX_EVENT_COUNTER)%nat ->
  let w' := init_event_manager id freq nh ns pdh prh pds prs w in
  let max_reset_counts := time_to_counts freq MAX_RESET_TIME_US in
  let max_debounce_counts := time_to_counts freq MAX_DEBOUNCE_TIME_US in
  let h := event_at (hard_interlocks (em_at w' id)) i in
  let s := event_at (soft_interlocks (em_at w' id)) i in
  ((i < nh)%nat ->
     debounce_count h =
       time_to_counts freq
         (Z.min (Z.max 0 (zget pdh i)) MAX_DEBOUNCE_TIME_US) /\
     ((debounce_count h < reset_count h /\
       reset_count h <= max_reset_counts) <->
      debounce_count h < max_reset_counts)) /\
  ((i < ns)%nat ->
     debounce_count s =
       time_to_counts freq
         (Z.min (Z.max 0 (zget pds i)) MAX_DEBOUNCE_TIME_US) /\
     ((debounce_count s < reset_count s /\
       reset_count s <= max_reset_counts) <->
      debounce_count s < max_reset_counts)) /\
  (positive_finite freq = true ->
   time_to_counts_defined freq MAX_RESET_TIME_US = true ->
   max_debounce_counts < max_reset_counts ->
   ((i < nh)%nat ->
      debounce_count h <= max_debounce_counts /\
      debounce_count h < reset_count h /\
      reset_count h <= max_reset_counts) /\
   ((i < ns)%nat ->
      debounce_count s <= max_debounce_counts /\
      debounce_count s < reset_count s /\
      reset_count s <= max_reset_counts)) /\
  (max_reset_counts <= max_debounce_counts ->
   ((i < nh)%nat -> MAX_DEBOUNCE_TIME_US <= zget pdh i ->
      ~ (debounce_count h < reset_count h /\
         reset_count h <= max_reset_counts)) /\
   ((i < ns)%nat -> MAX_DEBOUNCE_TIME_US <= zget pds i ->
      ~ (debounce_count s < reset_count s /\
         reset_count s <= max_reset_counts))).
Proof.
  intros Hid Hh Hs Hi w' maxc maxd h s.
  subst w' h s. unfold init_event_manager.
  rewrite em_at_upd_em by done.
  rewrite init_event_manager_at_hard, init_event_manager_at_soft by done.
  assert (Hcapped : forall d,
    MAX_DEBOUNCE_TIME_US <= d ->
    Z.min (Z.max 0 d) MAX_DEBOUNCE_TIME_US = MAX_DEBOUNCE_TIME_US)
    by (unfold MAX_DEBOUNCE_TIME_US; lia).
  pose proof (fun n pd pr e (Hn : (i < n)%nat) =>
    init_event_configured freq maxc n pd pr i e Hn
      (time_to_counts_range _ _)) as Hconf.
  cbn zeta in Hconf.
  split; [|split; [|split]].
  - intros Hn.
    destruct (Hconf nh pdh prh
                (event_at (hard_interlocks (em_at w id)) i) Hn)
      as (_ & _ & Hd & Hr).
    split; assumption.
  - intros Hn.
    destruct (Hconf ns pds prs
                (event_at (soft_interlocks (em_at w id)) i) Hn)
      as (_ & _ & Hd & Hr).
    split; assumption.
  - intros Hf Hr Hcap. split; intros Hn.
    + exact (init_event_capped freq maxc nh pdh prh i _ Hn
               (time_to_counts_range _ _) Hf Hr Hcap).
    + exact (init_event_capped freq maxc ns pds prs i _ Hn
               (time_to_counts_range _ _) Hf Hr Hcap).
  - intros Hle. split; intros Hn Hd0 Hinv.
    + destruct (Hconf nh pdh prh
                  (event_at (hard_interlocks (em_at w id)) i) Hn)
        as (_ & _ & Hd & Hr).
      apply Hr in Hinv. rewrite Hd, (Hcapped _ Hd0) in Hinv.
      fold maxd in Hinv. lia.
    + destruct (Hconf ns pds prs
                  (event_at (soft_interlocks (em_at w id)) i) Hn)
        as (_ & _ & Hd & Hr).
      apply Hr in Hinv. rewrite Hd, (Hcapped _ Hd0) in Hinv.
      fold maxd in Hinv. lia.
Qed.

(** *** Modules, managers and masks *)

Lemma module_at_upd_module m i f :
  (i < length (ps_module m))%nat ->
  module_at (upd_module i f m) i = f (module_at m i).
Proof.
  intros Hi. unfold module_at, upd_module. simpl.
  rewrite list_lookup_alter_eq.
  destruct (lookup_lt_is_Some_2 _ _ Hi) as [e He]. rewrite He. reflexivity.
Qed.

Lemma length_upd_module m i f :
  length (ps_module (upd_module i f m)) = length (ps_module m).
Proof. unfold upd_module. simpl. apply length_alter. Qed.

Lemma length_upd_em w id f :
  length (g_event_manager (upd_em id f w)) = length (g_event_manager w).
Proof. unfold upd_em. simpl. apply length_alter. Qed.

Lemma lut_pow2 itlk :
  (itlk < NUM_MAX_EVENT_COUNTER)%nat -> lut itlk = 2 ^ Z.of_nat itlk.
Proof.
  unfold NUM_MAX_EVENT_COUNTER. intros H.
  do 32 (destruct itlk as [|itlk]; [reflexivity|]). lia.
Qed.

Lemma lut_bit_set mask itlk :
  (itlk < NUM_MAX_EVENT_COUNTER)%nat ->
  (Z.land (Z.lor mask (lut itlk)) (lut itlk) =? 0) = false.
Proof.
  intros H. rewrite lut_pow2 by done.
  apply Z.eqb_neq. intros Heq.
  rewrite Z.land_lor_distr_l, Z.land_diag in Heq.
  apply Z.lor_eq_0_iff in Heq as [_ Heq].
  pose proof (Z.pow_pos_nonneg 2 (Z.of_nat itlk)). lia.
Qed.

(** *** [run_interlocks_debouncing] on one manager *)

Lemma debounce_interlocks_num s :
  num_events (debounce_interlocks s) = num_events s.
Proof.
  unfold debounce_interlocks.
  apply foldl_upd_event_num with (g := fun _ => debounce_event).
Qed.

Lemma debounce_interlocks_length s :
  length (event (debounce_interlocks s)) = length (event s).
Proof.
  unfold debounce_interlocks. generalize (num_events s). intros n.
  induction n as [|n IH]; [done|].
  rewrite seq_S, foldl_app. cbn [foldl].
  rewrite event_upd_event, length_alter. apply IH.
Qed.

Lemma debounce_interlocks_event s i :
  (i < num_events s)%nat -> (i < length (event s))%nat ->
  event_at (debounce_interlocks s) i = debounce_event (event_at s i).
Proof.
  intros Hn Hl. unfold debounce_interlocks, event_at.
  rewrite (foldl_upd_event_lookup _ (fun _ => debounce_event)).
  destruct (Nat.ltb_spec i (num_events s)); [|lia].
  destruct (lookup_lt_is_Some_2 _ _ Hl) as [e He]. rewrite He. reflexivity.
Qed.

Lemma debounce_interlocks_event_other s i :
  (num_events s <= i)%nat ->
  event_at (debounce_interlocks s) i = event_at s i.
Proof.
  intros Hn. unfold debounce_interlocks, event_at.
  rewrite (foldl_upd_event_lookup _ (fun _ => debounce_event)).
  destruct (Nat.ltb_spec i (num_events s)); [lia|done].
Qed.

Lemma debounce_event_raised e :
  flag e <> 0 ->
  let c := (counter e + 1) mod 2 ^ 32 in
  debounce_event e =
    if reset_count e <=? c then mk_event 0 0 (debounce_count e) (reset_count e)
    else mk_event (flag e) c (debounce_count e) (reset_count e).
Proof.
  intros Hf c. unfold debounce_event.
  destruct (Z.eqb_spec (flag e) 0); [done|]. simpl.
  fold c. destruct (reset_count e <=? c); reflexivity.
Qed.

Lemma debounce_event_idle e : flag e = 0 -> debounce_event e = e.
Proof. intros Hf. unfold debounce_event. rewrite Hf. reflexivity. Qed.

Lemma interlocks_of_run_at k em :
  timebase_flag em <> 0 ->
  interlocks_of k (run_interlocks_debouncing_at em) =
  debounce_interlocks (interlocks_of k em).
Proof.
  intros Hf. unfold run_interlocks_debouncing_at.
  destruct (Z.eqb_spec (timebase_flag em) 0); [done|].
  destruct k; reflexivity.
Qed.

Lemma timebase_flag_run_at em :
  timebase_flag (run_interlocks_debouncing_at em) = 0.
Proof.
  unfold run_interlocks_debouncing_at.
  destruct (Z.eqb_spec (timebase_flag em) 0); [done|reflexivity].
Qed.

Lemma run_at_idempotent em :
  run_interlocks_debouncing_at (run_interlocks_debouncing_at em) =
  run_interlocks_debouncing_at em.
Proof.
  unfold run_interlocks_debouncing_at at 1.
  rewrite timebase_flag_run_at. reflexivity.
Qed.

(** *** Updates of the world *)

Lemma interlocks_of_upd_kind k f em :
  interlocks_of k (upd_kind k f em) = f (interlocks_of k em).
Proof. destruct k; reflexivity. Qed.

Lemma upd_kind_compose k f g em :
  upd_kind k f (upd_kind k g em) = upd_kind k (f ∘ g) em.
Proof. destruct k; reflexivity. Qed.

Lemma upd_event_compose i f g s :
  upd_event i f (upd_event i g s) = upd_event i (f ∘ g) s.
Proof. unfold upd_event. cbn. by rewrite list_alter_alter_eq. Qed.

Lemma upd_em_compose id f g w :
  upd_em id f (upd_em id g w) = upd_em id (f ∘ g) w.
Proof. unfold upd_em. cbn. by rewrite list_alter_alter_eq. Qed.

Lemma upd_em_ext id f g w :
  (forall em, f em = g em) -> upd_em id f w = upd_em id g w.
Proof.
  intros H. unfold upd_em. f_equal. apply list_alter_ext; [|done]. auto.
Qed.

Section HandlersFacts.
Variable USE_ITLK : bool.
Variable ps_turn_off : nat -> Z -> machine -> machine.

Local Abbreviation set_hard_interlock :=
  (set_hard_interlock USE_ITLK ps_turn_off).
Local Abbreviation set_soft_interlock :=
  (set_soft_interlock USE_ITLK ps_turn_off).
Local Abbreviation set_interlock := (set_interlock USE_ITLK ps_turn_off).
Local Abbreviation itlk_action := (itlk_action USE_ITLK ps_turn_off).

Lemma itlk_action_upd_em id j f w :
  itlk_action id (upd_em j f w) = upd_em j f (itlk_action id w).
Proof. unfold EventManager.itlk_action. destruct USE_ITLK; reflexivity. Qed.

Lemma upd_machine_upd_em g j f w :
  upd_machine g (upd_em j f w) = upd_em j f (upd_machine g w).
Proof. reflexivity. Qed.

Lemma itlk_action_calls id w :
  turn_off_calls (itlk_action id w) =
  if USE_ITLK then id :: turn_off_calls w else turn_off_calls w.
Proof. unfold EventManager.itlk_action. destruct USE_ITLK; reflexivity. Qed.

Lemma itlk_action_machine id w :
  g_machine (itlk_action id w) =
  if USE_ITLK
  then upd_module id (set_ps_state Interlock)
         (ps_turn_off id (Z.of_nat id) (g_machine w))
  else g_machine w.
Proof. unfold EventManager.itlk_action. destruct USE_ITLK; reflexivity. Qed.

(** [set_hard_interlock] and [set_soft_interlock] on a channel that
    exists, as one update of the event manager after the protective
    action. *)
Lemma set_interlock_unfold k w id itlk :
  valid_channel k w id itlk ->
  set_interlock k id itlk w =
    let e := channel k w id itlk in
    if debounce_count e <=? counter e then
      (if Z.land (sticky_mask k w id) (lut itlk) =? 0
       then w |> itlk_action id
              |> upd_machine (upd_module id (or_mask k (lut itlk)))
       else w)
      |> upd_em id
           (upd_kind k (upd_event itlk
              (set_counter 0 ∘ set_flag 0 ∘ set_flag 1)))
    else upd_em id (upd_kind k (upd_event itlk (set_flag 1))) w.
Proof.
  intros (Hid & Hm & Hn & Hl & H32).
  destruct k; cbn [EventManager.set_interlock interlocks_of] in *.
  - unfold EventManager.set_hard_interlock.
    destruct (Nat.ltb_spec itlk (num_events (hard_interlocks (em_at w id))));
      [|lia].
    rewrite em_at_upd_em by done.
    rewrite hard_upd_hard, event_at_upd_event by done.
    cbn zeta. unfold channel, sticky_mask. cbn [interlocks_of mask_of].
    cbn [debounce_count counter set_flag].
    destruct (debounce_count _ <=? counter _); [|reflexivity].
    change (g_machine (upd_em id ?f w)) with (g_machine w).
    destruct (_ =? 0).
    + rewrite itlk_action_upd_em, upd_machine_upd_em, !upd_em_compose.
      apply upd_em_ext. intros em. cbn [compose upd_kind].
      change (upd_hard ?f (upd_hard ?g ?x)) with (upd_hard (f ∘ g) x).
      change (upd_hard ?f (upd_hard ?g ?x)) with (upd_hard (f ∘ g) x).
      unfold upd_hard. f_equal. cbn [compose].
      by rewrite !upd_event_compose.
    + rewrite !upd_em_compose.
      apply upd_em_ext. intros em. cbn [compose upd_kind].
      change (upd_hard ?f (upd_hard ?g ?x)) with (upd_hard (f ∘ g) x).
      change (upd_hard ?f (upd_hard ?g ?x)) with (upd_hard (f ∘ g) x).
      unfold upd_hard. f_equal. cbn [compose].
      by rewrite !upd_event_compose.
  - unfold EventManager.set_soft_interlock.
    destruct (Nat.ltb_spec itlk (num_events (soft_interlocks (em_at w id))));
      [|lia].
    rewrite em_at_upd_em by done.
    rewrite soft_upd_soft, event_at_upd_event by done.
    cbn zeta. unfold channel, sticky_mask. cbn [interlocks_of mask_of].
    cbn [debounce_count counter set_flag].
    destruct (debounce_count _ <=? counter _); [|reflexivity].
    change (g_machine (upd_em id ?f w)) with (g_machine w).
    destruct (_ =? 0).
    + rewrite itlk_action_upd_em, upd_machine_upd_em, !upd_em_compose.
      apply upd_em_ext. intros em. cbn [compose upd_kind].
      change (upd_soft ?f (upd_soft ?g ?x)) with (upd_soft (f ∘ g) x).
      change (upd_soft ?f (upd_soft ?g ?x)) with (upd_soft (f ∘ g) x).
      unfold upd_soft. f_equal. cbn [compose].
      by rewrite !upd_event_compose.
    + rewrite !upd_em_compose.
      apply upd_em_ext. intros em. cbn [compose upd_kind].
      change (upd_soft ?f (upd_soft ?g ?x)) with (upd_soft (f ∘ g) x).
      change (upd_soft ?f (upd_soft ?g ?x)) with (upd_soft (f ∘ g) x).
      unfold upd_soft. f_equal. cbn [compose].
      by rewrite !upd_event_compose.
Qed.
End HandlersFacts.

Lemma land_lor_absorb x b : Z.land (Z.lor x b) b = b.
Proof.
  apply Z.bits_inj'. intros n Hn.
  rewrite Z.land_spec, Z.lor_spec.
  destruct (Z.testbit x n), (Z.testbit b n); reflexivity.
Qed.

Lemma lut_nonzero itlk : (itlk < NUM_MAX_EVENT_COUNTER)%nat -> lut itlk <> 0.
Proof.
  intros H. rewrite lut_pow2 by done.
  pose proof (Z.pow_pos_nonneg 2 (Z.of_nat itlk)). lia.
Qed.

Lemma mask_of_or_mask k bit p :
  mask_of k (or_mask k bit p) = Z.lor (mask_of k p) bit.
Proof. destruct k; reflexivity. Qed.

Lemma ps_state_or_mask k bit p : ps_state (or_mask k bit p) = ps_state p.
Proof. destruct k; reflexivity. Qed.

Lemma channel_upd_em k w id itlk f :
  (id < length (g_event_manager w))%nat ->
  (itlk < length (event (interlocks_of k (em_at w id))))%nat ->
  channel k (upd_em id (upd_kind k (upd_event itlk f)) w) id itlk =
  f (channel k w id itlk).
Proof.
  intros Hid Hl. unfold channel.
  rewrite em_at_upd_em, interlocks_of_upd_kind, event_at_upd_event by done.
  reflexivity.
Qed.

Lemma valid_channel_upd_em k w id itlk f :
  valid_channel k w id itlk ->
  valid_channel k (upd_em id (upd_kind k (upd_event itlk f)) w) id itlk.
Proof.
  intros (Hid & Hm & Hn & Hl & H32). unfold valid_channel.
  rewrite length_upd_em, em_at_upd_em, interlocks_of_upd_kind by done.
  rewrite length_upd_event. repeat split; done.
Qed.

Lemma valid_channel_machine k w m c id itlk :
  valid_channel k w id itlk ->
  length (ps_module m) = length (ps_module (g_machine w)) ->
  valid_channel k (mk_world (g_event_manager w) m c) id itlk.
Proof.
  intros (Hid & Hm & Hn & Hl & H32) Hlen. unfold valid_channel, em_at in *.
  cbn. rewrite Hlen. repeat split; done.
Qed.

(** *** The commit *)

Section CommitFacts.
Variable USE_ITLK : bool.
Variable ps_turn_off : nat -> Z -> machine -> machine.
Hypothesis ps_turn_off_modules :
  forall i a m, length (ps_module (ps_turn_off i a m)) = length (ps_module m).

Local Abbreviation set_interlock := (set_interlock USE_ITLK ps_turn_off).
Local Abbreviation itlk_action := (itlk_action USE_ITLK ps_turn_off).
Local Abbreviation latched := (latched USE_ITLK ps_turn_off).

Lemma itlk_action_em id w :
  g_event_manager (itlk_action id w) = g_event_manager w.
Proof. unfold EventManager.itlk_action. destruct USE_ITLK; reflexivity. Qed.

Lemma itlk_action_modules id w :
  length (ps_module (g_machine (itlk_action id w))) =
  length (ps_module (g_machine w)).
Proof.
  rewrite itlk_action_machine. destruct USE_ITLK; [|done].
  by rewrite length_upd_module, ps_turn_off_modules.
Qed.

Lemma itlk_action_state id w :
  USE_ITLK = true -> (id < length (ps_module (g_machine w)))%nat ->
  ps_state (module_at (g_machine (itlk_action id w)) id) = Interlock.
Proof.
  intros -> Hid. rewrite itlk_action_machine.
  rewrite module_at_upd_module; [reflexivity|].
  by rewrite ps_turn_off_modules.
Qed.

Lemma latched_valid k w id itlk :
  valid_channel k w id itlk -> valid_channel k (latched k id itlk w) id itlk.
Proof.
  intros (Hid & Hm & Hn & Hl & H32).
  unfold valid_channel, EventManager.latched, em_at.
  cbn [g_event_manager g_machine upd_machine set_g_machine].
  rewrite length_upd_module, itlk_action_modules, itlk_action_em.
  repeat split; done.
Qed.

Lemma latched_channel k w id itlk :
  channel k (latched k id itlk w) id itlk = channel k w id itlk.
Proof.
  unfold channel, EventManager.latched, em_at.
  cbn [g_event_manager upd_machine set_g_machine].
  by rewrite itlk_action_em.
Qed.

Lemma latched_mask k w id itlk :
  (id < length (ps_module (g_machine w)))%nat ->
  sticky_mask k (latched k id itlk w) id =
  Z.lor (sticky_mask k (itlk_action id w) id) (lut itlk).
Proof.
  intros Hid. unfold sticky_mask, EventManager.latched.
  cbn [g_machine upd_machine set_g_machine].
  rewrite module_at_upd_module by (by rewrite itlk_action_modules).
  apply mask_of_or_mask.
Qed.

Lemma latched_state k w id itlk :
  USE_ITLK = true -> (id < length (ps_module (g_machine w)))%nat ->
  ps_state (module_at (g_machine (latched k id itlk w)) id) = Interlock.
Proof.
  intros Hu Hid. unfold EventManager.latched.
  cbn [g_machine upd_machine set_g_machine].
  rewrite module_at_upd_module by (by rewrite itlk_action_modules).
  rewrite ps_state_or_mask. by apply itlk_action_state.
Qed.

Lemma latched_calls k w id itlk :
  turn_off_calls (latched k id itlk w) =
  if USE_ITLK then id :: turn_off_calls w else turn_off_calls w.
Proof. unfold EventManager.latched. cbn. apply itlk_action_calls. Qed.

(** One call of [set_hard_interlock] or [set_soft_interlock] on an
    existing channel. *)
Lemma set_interlock_step k w id itlk :
  valid_channel k w id itlk ->
  let e := channel k w id itlk in
  let w' := set_interlock k id itlk w in
  let e' := channel k w' id itlk in
  valid_channel k w' id itlk /\
  (counter e < debounce_count e ->
     e' = set_flag 1 e /\
     g_machine w' = g_machine w /\ turn_off_calls w' = turn_off_calls w) /\
  (debounce_count e <= counter e ->
     e' = mk_event 0 0 (debounce_count e) (reset_count e) /\
     if Z.land (sticky_mask k w id) (lut itlk) =? 0
     then g_machine w' = g_machine (latched k id itlk w) /\
          turn_off_calls w' = turn_off_calls (latched k id itlk w)
     else g_machine w' = g_machine w /\
          turn_off_calls w' = turn_off_calls w).
Proof.
  intros Hv e w' e'. subst w' e'.
  rewrite (set_interlock_unfold USE_ITLK ps_turn_off k w id itlk Hv).
  cbn zeta. fold e.
  pose proof Hv as (Hid & Hm & Hn & Hl & H32).
  destruct (Z.leb_spec (debounce_count e) (counter e)) as [Hge|Hlt].
  - destruct (Z.land (sticky_mask k w id) (lut itlk) =? 0) eqn:Hbit.
    + fold (latched k id itlk w).
      pose proof (latched_valid k w id itlk Hv) as Hv'.
      pose proof Hv' as (Hid' & Hm' & Hn' & Hl' & _).
      split; [by apply valid_channel_upd_em|].
      split; [lia|]. intros _.
      rewrite channel_upd_em by done. rewrite latched_channel. fold e.
      repeat split.
    + split; [by apply valid_channel_upd_em|].
      split; [lia|]. intros _.
      rewrite channel_upd_em by done. fold e. repeat split.
  - split; [by apply valid_channel_upd_em|].
    split; [|lia]. intros _.
    rewrite channel_upd_em by done. repeat split.
Qed.
End CommitFacts.

Section CommitOnce.
Variable USE_ITLK : bool.
Variable ps_turn_off : nat -> Z -> machine -> machine.
Hypothesis ps_turn_off_modules :
  forall i a m, length (ps_module (ps_turn_off i a m)) = length (ps_module m).

Local Abbreviation set_interlock := (set_interlock USE_ITLK ps_turn_off).
Local Abbreviation itlk_action := (itlk_action USE_ITLK ps_turn_off).
Local Abbreviation latched := (latched USE_ITLK ps_turn_off).

Lemma latched_present k w id itlk :
  valid_channel k w id itlk ->
  Z.land (sticky_mask k (latched k id itlk w) id) (lut itlk) <> 0.
Proof.
  intros (Hid & Hm & Hn & Hl & H32).
  rewrite (latched_mask USE_ITLK ps_turn_off ps_turn_off_modules) by done.
  rewrite land_lor_absorb. by apply lut_nonzero.
Qed.

(** While the bit is in the mask, raising the channel again reaches
    neither the module nor its [turn_off]. *)
Lemma raise_again_present k w id itlk n :
  valid_channel k w id itlk ->
  Z.land (sticky_mask k w id) (lut itlk) <> 0 ->
  let wn := Nat.iter n (set_interlock k id itlk) w in
  valid_channel k wn id itlk /\
  g_machine wn = g_machine w /\ turn_off_calls wn = turn_off_calls w.
Proof.
  intros Hv Hbit. cbn zeta. induction n as [|n (IHv & IHm & IHc)]; [done|].
  rewrite Nat.iter_succ.
  set (wn := Nat.iter n (set_interlock k id itlk) w) in *.
  destruct (set_interlock_step USE_ITLK ps_turn_off ps_turn_off_modules
              k wn id itlk IHv) as (Hv' & Hlow & Hhigh).
  split; [done|].
  destruct (Z.lt_ge_cases (counter (channel k wn id itlk))
              (debounce_count (channel k wn id itlk))) as [Hlt|Hge].
  - destruct (Hlow Hlt) as (_ & Hm' & Hc'). by rewrite Hm', Hc'.
  - destruct (Hhigh Hge) as (_ & Hcase).
    unfold sticky_mask in Hcase. rewrite IHm in Hcase.
    fold (sticky_mask k w id) in Hcase.
    destruct (Z.eqb_spec (Z.land (sticky_mask k w id) (lut itlk)) 0); [done|].
    destruct Hcase as (Hm' & Hc'). by rewrite Hm', Hc'.
Qed.

(** However often the channel is raised, [turn_off] is reached at most
    once, and then the bit is in the mask. *)
Lemma raise_again_once k w id itlk n :
  valid_channel k w id itlk ->
  let wn := Nat.iter n (set_interlock k id itlk) w in
  valid_channel k wn id itlk /\
  ((g_machine wn = g_machine w /\ turn_off_calls wn = turn_off_calls w) \/
   (Z.land (sticky_mask k wn id) (lut itlk) <> 0 /\
    turn_off_calls wn =
      if USE_ITLK then id :: turn_off_calls w else turn_off_calls w)).
Proof.
  intros Hv. cbn zeta. induction n as [|n (IHv & IH)]; [by split; [|left]|].
  rewrite Nat.iter_succ.
  set (wn := Nat.iter n (set_interlock k id itlk) w) in *.
  destruct (set_interlock_step USE_ITLK ps_turn_off ps_turn_off_modules
              k wn id itlk IHv) as (Hv' & Hlow & Hhigh).
  split; [done|].
  destruct (Z.lt_ge_cases (counter (channel k wn id itlk))
              (debounce_count (channel k wn id itlk))) as [Hlt|Hge].
  - destruct (Hlow Hlt) as (_ & Hm' & Hc').
    destruct IH as [(IHm & IHc)|(IHb & IHc)].
    + left. by rewrite Hm', Hc'.
    + right. unfold sticky_mask in *. by rewrite Hm', Hc'.
  - destruct (Hhigh Hge) as (_ & Hcase).
    destruct (Z.eqb_spec (Z.land (sticky_mask k wn id) (lut itlk)) 0)
      as [Habs|Hpres]; destruct Hcase as (Hm' & Hc').
    + destruct IH as [(IHm & IHc)|(IHb & IHc)]; [|done].
      right. split.
      * unfold sticky_mask. rewrite Hm'. by apply latched_present.
      * rewrite Hc'.
        rewrite (latched_calls USE_ITLK ps_turn_off). by rewrite IHc.
    + destruct IH as [(IHm & IHc)|(IHb & IHc)].
      * left. by rewrite Hm', Hc'.
      * right. unfold sticky_mask in *. by rewrite Hm', Hc'.
Qed.

(** Claim C3.  Raising an existing channel of either kind: below the
    debounce count only the flag is set; at or above it the flag and
    the counter are cleared and the bit of the channel is in the sticky
    mask afterwards, the turn-off handler being called and the state
    set to [Interlock] (in a build with [USE_ITLK]) only when the bit
    was not in the mask before, the bit then being OR'd in.  However
    often the channel is raised in a row, the handler is called at most
    once, and not at all when the bit was in the mask. *)
Theorem set_interlock_commits_once k w id itlk :
  valid_channel k w id itlk ->
  let e := channel k w id itlk in
  let bit := lut itlk in
  let w' := set_interlock k id itlk w in
  let e' := channel k w' id itlk in
  (counter e < debounce_count e ->
     e' = set_flag 1 e /\
     g_machine w' = g_machine w /\ turn_off_calls w' = turn_off_calls w) /\
  (debounce_count e <= counter e ->
     flag e' = 0 /\ counter e' = 0 /\
     Z.land (sticky_mask k w' id) bit <> 0 /\
     (Z.land (sticky_mask k w id) bit = 0 ->
        turn_off_calls w' =
          (if USE_ITLK then id :: turn_off_calls w else turn_off_calls w) /\
        (USE_ITLK = true ->
           ps_state (module_at (g_machine w') id) = Interlock) /\
        sticky_mask k w' id =
          Z.lor (sticky_mask k (itlk_action id w) id) bit) /\
     (Z.land (sticky_mask k w id) bit <> 0 ->
        g_machine w' = g_machine w /\
        turn_off_calls w' = turn_off_calls w)) /\
  (forall n,
     let wn := Nat.iter n (set_interlock k id itlk) w in
     (turn_off_calls wn = turn_off_calls w \/
      turn_off_calls wn = id :: turn_off_calls w) /\
     (Z.land (sticky_mask k w id) bit <> 0 ->
        g_machine wn = g_machine w /\
        turn_off_calls wn = turn_off_calls w)).
Proof.
  intros Hv e bit w' e'. subst e bit w' e'.
  destruct (set_interlock_step USE_ITLK ps_turn_off ps_turn_off_modules
              k w id itlk Hv) as (Hv' & Hlow & Hhigh).
  pose proof Hv as (Hid & Hm & Hn & Hl & H32).
  split; [exact Hlow|]. split.
  - intros Hge. destruct (Hhigh Hge) as (He' & Hcase).
    rewrite He'. cbn [flag counter].
    split; [done|]. split; [done|].
    destruct (Z.eqb_spec (Z.land (sticky_mask k w id) (lut itlk)) 0)
      as [Habs|Hpres]; destruct Hcase as (Hm' & Hc').
    + assert (Hmask : sticky_mask k (set_interlock k id itlk w) id =
                Z.lor (sticky_mask k (itlk_action id w) id) (lut itlk)).
      { unfold sticky_mask at 1. rewrite Hm'.
        by apply (latched_mask USE_ITLK ps_turn_off ps_turn_off_modules). }
      split; [|split; [|done]].
      * rewrite Hmask, land_lor_absorb. by apply lut_nonzero.
      * intros _. split; [|split; [|done]].
        -- rewrite Hc'. apply latched_calls.
        -- intros Hu. rewrite Hm'.
           by apply (latched_state USE_ITLK ps_turn_off ps_turn_off_modules).
    + split; [|split; [done|]].
      * unfold sticky_mask. rewrite Hm'. exact Hpres.
      * intros _. by split.
  - intros n wn. subst wn. split.
    + destruct (raise_again_once k w id itlk n Hv) as (_ & [(_ & Hc)|(_ & Hc)]).
      * by left.
      * rewrite Hc. destruct USE_ITLK; [by right|by left].
    + intros Hpres.
      by destruct (raise_again_present k w id itlk n Hv Hpres) as (_ & ? & ?).
Qed.
End CommitOnce.

(** *** Time-base periods *)

Lemma upd_em_fixed id f w :
  f (em_at w id) = em_at w id -> upd_em id f w = w.
Proof.
  intros Hf. destruct w as [ems m c].
  unfold upd_em, set_g_event_manager, em_at in *. cbn in *. f_equal.
  transitivity (alter (fun x => x) id ems); [|by apply list_alter_id].
  apply list_alter_ext; [|done]. intros x Hx.
  rewrite Hx in Hf. exact Hf.
Qed.

Lemma valid_channel_em k w id itlk f :
  valid_channel k w id itlk ->
  num_events (interlocks_of k (f (em_at w id))) =
    num_events (interlocks_of k (em_at w id)) ->
  length (event (interlocks_of k (f (em_at w id)))) =
    length (event (interlocks_of k (em_at w id))) ->
  valid_channel k (upd_em id f w) id itlk.
Proof.
  intros (Hid & Hm & Hn & Hl & H32) Hnum Hlen. unfold valid_channel.
  rewrite length_upd_em, em_at_upd_em by done.
  rewrite Hnum, Hlen. repeat split; done.
Qed.

(** One run of the debouncing with the tick flag raised. *)
Lemma run_interlocks_debouncing_step k w id itlk :
  valid_channel k w id itlk ->
  timebase_flag (em_at w id) <> 0 ->
  let w1 := run_interlocks_debouncing id w in
  valid_channel k w1 id itlk /\
  channel k w1 id itlk = debounce_event (channel k w id itlk) /\
  g_machine w1 = g_machine w /\ turn_off_calls w1 = turn_off_calls w /\
  timebase_flag (em_at w1 id) = 0.
Proof.
  intros Hv Hf. cbn zeta. unfold run_interlocks_debouncing.
  pose proof Hv as (Hid & Hm & Hn & Hl & H32).
  split; [|split; [|split; [done|split; [done|]]]].
  - apply valid_channel_em; [done| |];
      rewrite interlocks_of_run_at by done.
    + apply debounce_interlocks_num.
    + apply debounce_interlocks_length.
  - unfold channel. rewrite em_at_upd_em by done.
    rewrite interlocks_of_run_at by done.
    by apply debounce_interlocks_event.
  - rewrite em_at_upd_em by done. apply timebase_flag_run_at.
Qed.

Lemma run_interlocks_debouncing_twice id w :
  run_interlocks_debouncing id (run_interlocks_debouncing id w) =
  run_interlocks_debouncing id w.
Proof.
  unfold run_interlocks_debouncing. rewrite upd_em_compose.
  apply upd_em_ext. intros em. apply run_at_idempotent.
Qed.

Lemma run_interlocks_debouncing_idle id w :
  timebase_flag (em_at w id) = 0 -> run_interlocks_debouncing id w = w.
Proof.
  intros Hf. apply upd_em_fixed. unfold run_interlocks_debouncing_at.
  by rewrite Hf.
Qed.

(** One time-base period. *)
Lemma timebase_period_step k w id itlk :
  valid_channel k w id itlk ->
  let w1 := timebase_period id w in
  valid_channel k w1 id itlk /\
  channel k w1 id itlk = debounce_event (channel k w id itlk) /\
  g_machine w1 = g_machine w /\ turn_off_calls w1 = turn_off_calls w.
Proof.
  intros Hv. cbn zeta. unfold timebase_period, SET_INTERLOCKS_TIMEBASE_FLAG.
  pose proof Hv as (Hid & Hm & Hn & Hl & H32).
  set (w0 := upd_em id (set_timebase_flag 1) w).
  assert (Hv0 : valid_channel k w0 id itlk).
  { apply valid_channel_em; [done| |]; by destruct k. }
  assert (Hf0 : timebase_flag (em_at w0 id) <> 0).
  { unfold w0. rewrite em_at_upd_em by done. cbn. lia. }
  assert (Hc0 : channel k w0 id itlk = channel k w id itlk).
  { unfold channel, w0. rewrite em_at_upd_em by done. by destruct k. }
  destruct (run_interlocks_debouncing_step k w0 id itlk Hv0 Hf0)
    as (Hv1 & Hc1 & Hm1 & Hk1 & _).
  rewrite Hc0 in Hc1.
  split; [exact Hv1|]. split; [exact Hc1|]. split; [exact Hm1|exact Hk1].
Qed.

(** A raised channel counts the periods up to its reset threshold. *)
Lemma timebase_periods_count k w id itlk n :
  valid_channel k w id itlk ->
  let e := channel k w id itlk in
  flag e <> 0 -> 0 <= counter e -> reset_count e < 2 ^ 32 ->
  counter e + Z.of_nat n < reset_count e ->
  let wn := Nat.iter n (timebase_period id) w in
  valid_channel k wn id itlk /\
  channel k wn id itlk = set_counter (counter e + Z.of_nat n) e /\
  g_machine wn = g_machine w /\ turn_off_calls wn = turn_off_calls w.
Proof.
  intros Hv e Hf Hc Hr. cbn zeta. induction n as [|n IH]; intros Hn.
  - cbn [Nat.iter nat_rect]. rewrite Z.add_0_r.
    split; [done|]. split; [|done]. fold e. by destruct e.
  - rewrite Nat.iter_succ.
    destruct IH as (IHv & IHc & IHm & IHk); [lia|].
    set (wn := Nat.iter n (timebase_period id) w) in *.
    destruct (timebase_period_step k wn id itlk IHv) as (Hv1 & Hc1 & Hm1 & Hk1).
    split; [done|]. split; [|by rewrite Hm1, Hk1].
    rewrite Hc1, IHc. rewrite debounce_event_raised by done.
    cbn [counter reset_count set_counter flag debounce_count].
    rewrite Z.mod_small by lia.
    destruct (Z.leb_spec (reset_count e) (counter e + Z.of_nat n + 1)); [lia|].
    unfold set_counter. cbn [flag debounce_count reset_count]. f_equal. lia.
Qed.

Section Lifecycle.
Variable USE_ITLK : bool.
Variable ps_turn_off : nat -> Z -> machine -> machine.
Hypothesis ps_turn_off_modules :
  forall i a m, length (ps_module (ps_turn_off i a m)) = length (ps_module m).

Local Abbreviation set_interlock := (set_interlock USE_ITLK ps_turn_off).

(** Claim C4, amended.  For an existing channel whose flag is raised:
    a call of [run_interlocks_debouncing] with the tick flag set
    increments the counter once (clearing flag and counter when the
    reset count is reached), clears the tick flag and touches neither
    the module nor the handler, and further calls within the period do
    nothing.  The debouncing never commits: after [n] time-base periods
    below the reset count the counter has grown by [n], through the
    debounce count and beyond, and nothing was committed.  The commit
    is made by the next raise once the counter has reached the debounce
    count: the bit is in the sticky mask, the handler is called and the
    state is [Interlock].  When the counter reaches the reset count,
    flag and counter are cleared and the module is as it was. *)
Theorem debounce_lifecycle k w id itlk :
  valid_channel k w id itlk ->
  let e := channel k w id itlk in
  flag e <> 0 ->
  (timebase_flag (em_at w id) <> 0 ->
     let w1 := run_interlocks_debouncing id w in
     let c := (counter e + 1) mod 2 ^ 32 in
     channel k w1 id itlk =
       (if reset_count e <=? c
        then mk_event 0 0 (debounce_count e) (reset_count e)
        else set_counter c e) /\
     g_machine w1 = g_machine w /\
     turn_off_calls w1 = turn_off_calls w /\
     timebase_flag (em_at w1 id) = 0 /\
     run_interlocks_debouncing id w1 = w1) /\
  (timebase_flag (em_at w id) = 0 ->
     run_interlocks_debouncing id w = w) /\
  (0 <= counter e -> reset_count e < 2 ^ 32 ->
   forall n,
     let wn := Nat.iter n (timebase_period id) w in
     (counter e + Z.of_nat n < reset_count e ->
        channel k wn id itlk = set_counter (counter e + Z.of_nat n) e /\
        g_machine wn = g_machine w /\
        turn_off_calls wn = turn_off_calls w /\
        (debounce_count e <= counter e + Z.of_nat n ->
         Z.land (sticky_mask k w id) (lut itlk) = 0 ->
         let w' := set_interlock k id itlk wn in
         Z.land (sticky_mask k w' id) (lut itlk) <> 0 /\
         turn_off_calls w' =
           (if USE_ITLK then id :: turn_off_calls w
            else turn_off_calls w) /\
         (USE_ITLK = true ->
            ps_state (module_at (g_machine w') id) = Interlock) /\
         flag (channel k w' id itlk) = 0 /\
         counter (channel k w' id itlk) = 0)) /\
     (counter e + Z.of_nat n = reset_count e -> (0 < n)%nat ->
        flag (channel k wn id itlk) = 0 /\
        counter (channel k wn id itlk) = 0 /\
        g_machine wn = g_machine w /\
        turn_off_calls wn = turn_off_calls w)).
Proof.
  intros Hv e Hf. subst e.
  set (e := channel k w id itlk) in *.
  split; [|split].
  - intros Htb. cbn zeta.
    destruct (run_interlocks_debouncing_step k w id itlk Hv Htb)
      as (Hv1 & Hc1 & Hm1 & Hk1 & Hf1).
    split; [|split; [done|split; [done|split; [done|]]]].
    + rewrite Hc1. fold e. rewrite debounce_event_raised by done.
      cbn zeta. destruct (_ <=? _); [done|]. by destruct e.
    + apply run_interlocks_debouncing_twice.
  - apply run_interlocks_debouncing_idle.
  - intros Hc Hr n. cbn zeta. split.
    + intros Hn.
      destruct (timebase_periods_count k w id itlk n Hv Hf Hc Hr Hn)
        as (Hvn & Hcn & Hmn & Hkn).
      fold e in Hcn.
      split; [done|]. split; [done|]. split; [done|].
      intros Hd Habs.
      set (wn := Nat.iter n (timebase_period id) w) in *.
      destruct (set_interlock_step USE_ITLK ps_turn_off ps_turn_off_modules
                  k wn id itlk Hvn) as (Hv' & _ & Hhigh).
      rewrite Hcn in Hhigh. cbn [counter debounce_count set_counter] in Hhigh.
      destruct (Hhigh Hd) as (He' & Hcase).
      assert (Hsame : sticky_mask k wn id = sticky_mask k w id)
        by (unfold sticky_mask; by rewrite Hmn).
      rewrite Hsame, Habs, Z.eqb_refl in Hcase.
      destruct Hcase as (Hm' & Hk').
      pose proof Hvn as (Hid & Hmod & _).
      rewrite He'. cbn [flag counter].
      split; [|split; [|split; [|done]]].
      * unfold sticky_mask. rewrite Hm'.
        by apply (latched_present USE_ITLK ps_turn_off ps_turn_off_modules).
      * rewrite Hk', (latched_calls USE_ITLK ps_turn_off). by rewrite Hkn.
      * intros Hu. rewrite Hm'.
        by apply (latched_state USE_ITLK ps_turn_off ps_turn_off_modules).
    + intros Hn Hpos. destruct n as [|n]; [lia|].
      destruct (timebase_periods_count k w id itlk n Hv Hf Hc Hr)
        as (Hvn & Hcn & Hmn & Hkn); [fold e; lia|].
      fold e in Hcn. rewrite Nat.iter_succ.
      set (wn := Nat.iter n (timebase_period id) w) in *.
      destruct (timebase_period_step k wn id itlk Hvn)
        as (Hv1 & Hc1 & Hm1 & Hk1).
      rewrite Hc1, Hcn, debounce_event_raised by done.
      cbn [counter reset_count set_counter flag debounce_count].
      rewrite Z.mod_small by lia.
      destruct (Z.leb_spec (reset_count e) (counter e + Z.of_nat n + 1));
        [|lia].
      cbn [flag counter]. rewrite Hm1, Hk1. done.
Qed.
End Lifecycle.

(** *** The statements on concrete configurations *)

Lemma fap_turn_off_modules i a m :
  length (ps_module (fap_turn_off i a m)) = length (ps_module m).
Proof. apply PsModuleProofs.turn_off_modules. Qed.

(** Claim C2 at 48 kHz: the caps count 240000 and 480000 periods, so
    that every channel is within the bounds; times of 100 us and 1000 us
    count 4 and 48 periods, a reset time below the debounce time is
    raised to one period more, and times beyond the caps count 240000
    and 480000 periods. *)
Lemma init_event_manager_thresholds_witness :
  let h0 := event_at (hard_interlocks (em_at w_48k 0)) 0 in
  let h1 := event_at (hard_interlocks (em_at w_48k 0)) 1 in
  let s0 := event_at (soft_interlocks (em_at w_48k 0)) 0 in
  (debounce_count h0 = 4 /\ reset_count h0 = 48) /\
  (debounce_count h1 = 9 /\ reset_count h1 = 10) /\
  (debounce_count s0 = 240000 /\ reset_count s0 = 480000) /\
  (time_to_counts (of_Z 48000) MAX_DEBOUNCE_TIME_US = 240000 /\
   time_to_counts (of_Z 48000) MAX_RESET_TIME_US = 480000) /\
  (debounce_count h0 <= time_to_counts (of_Z 48000) MAX_DEBOUNCE_TIME_US /\
   debounce_count h0 < reset_count h0 /\
   reset_count h0 <= time_to_counts (of_Z 48000) MAX_RESET_TIME_US) /\
  (debounce_count s0 <= time_to_counts (of_Z 48000) MAX_DEBOUNCE_TIME_US /\
   debounce_count s0 < reset_count s0 /\
   reset_count s0 <= time_to_counts (of_Z 48000) MAX_RESET_TIME_US).
Proof.
  split; [vm_compute; split; reflexivity|].
  split; [vm_compute; split; reflexivity|].
  split; [vm_compute; split; reflexivity|].
  split; [vm_compute; split; reflexivity|].
  assert (Hid : (0 < length (g_event_manager
                               (world_zero Fap4p.wired_machine)))%nat)
    by (vm_compute; lia).
  assert (H0 : (0 < NUM_MAX_EVENT_COUNTER)%nat) by (vm_compute; lia).
  assert (Hf : positive_finite (of_Z 48000) = true)
    by (vm_compute; reflexivity).
  assert (Hr : time_to_counts_defined (of_Z 48000) MAX_RESET_TIME_US = true)
    by (vm_compute; reflexivity).
  assert (Hcap : time_to_counts (of_Z 48000) MAX_DEBOUNCE_TIME_US <
                 time_to_counts (of_Z 48000) MAX_RESET_TIME_US)
    by (vm_compute; reflexivity).
  pose proof (init_event_manager_thresholds 0 (of_Z 48000) 2 1
                [100; 200] [1000; 50] [6000000] [20000000]
                (world_zero Fap4p.wired_machine) 0 Hid eq_refl eq_refl H0)
    as (_ & _ & Hall & _).
  destruct (Hall Hf Hr Hcap) as [Hh Hs].
  split; [apply Hh; lia|apply Hs; lia].
Defined.

(** Against claim C2 as stated: with one time-base period every 16 s,
    10 s count no period, and a channel configured with a reset time of
    64 s ends with a reset count of 0, not above its debounce count. *)
Lemma init_event_manager_slow_timebase :
  let h := event_at (hard_interlocks (em_at w_slow 0)) 0 in
  num_events (hard_interlocks (em_at w_slow 0)) = 1%nat /\
  time_to_counts (of_dyadic 1 (-4)) MAX_RESET_TIME_US = 0 /\
  debounce_count h = 0 /\ reset_count h = 0.
Proof. by vm_compute. Qed.

Lemma valid_channel_w_due : valid_channel Hard w_due 0 0.
Proof. unfold valid_channel. vm_compute. repeat split; lia. Qed.

Lemma valid_channel_w_raised : valid_channel Hard w_raised 0 0.
Proof. unfold valid_channel. vm_compute. repeat split; lia. Qed.

(** Claim C3 on hard channel 0 of [w_due], whose counter has reached
    its debounce count: the raise commits, and any number of raises
    calls the handler at most once. *)
Lemma set_interlock_commits_once_witness :
  valid_channel Hard w_due 0 0 /\
  (let e := channel Hard w_due 0 0 in
   debounce_count e = 4 /\ counter e = 4 /\
   sticky_mask Hard w_due 0 = 0 /\ turn_off_calls w_due = []) /\
  (let w' := set_interlock true fap_turn_off Hard 0 0 w_due in
   flag (channel Hard w' 0 0) = 0 /\ counter (channel Hard w' 0 0) = 0 /\
   turn_off_calls w' = 0%nat :: turn_off_calls w_due /\
   ps_state (module_at (g_machine w') 0) = Interlock) /\
  (forall n,
     let wn := Nat.iter n (set_interlock true fap_turn_off Hard 0 0) w_due in
     turn_off_calls wn = turn_off_calls w_due \/
     turn_off_calls wn = 0%nat :: turn_off_calls w_due).
Proof.
  assert (Hdue : debounce_count (channel Hard w_due 0 0) <=
                 counter (channel Hard w_due 0 0))
    by (vm_compute; discriminate).
  assert (Habs : Z.land (sticky_mask Hard w_due 0) (lut 0) = 0)
    by (vm_compute; reflexivity).
  split; [exact valid_channel_w_due|].
  split; [vm_compute; repeat split|].
  split.
  - destruct (set_interlock_commits_once true fap_turn_off
                fap_turn_off_modules Hard w_due 0 0 valid_channel_w_due)
      as (_ & Hge & _).
    destruct (Hge Hdue) as (Hf & Hc & _ & Hfirst & _).
    destruct (Hfirst Habs) as (Hcalls & Hst & _).
    split; [exact Hf|]. split; [exact Hc|].
    split; [exact Hcalls|exact (Hst eq_refl)].
  - intros n.
    destruct (set_interlock_commits_once true fap_turn_off
                fap_turn_off_modules Hard w_due 0 0 valid_channel_w_due)
      as (_ & _ & Hn).
    destruct (Hn n) as [Hcalls _]. exact Hcalls.
Defined.

(** Claim C4 on hard channel 0 of [w_raised]: three periods count to 3,
    the raise after four periods commits, and 48 periods without a
    raise clear the channel with no action. *)
Lemma debounce_lifecycle_witness :
  valid_channel Hard w_raised 0 0 /\
  (let e := channel Hard w_raised 0 0 in
   flag e = 1 /\ counter e = 0 /\ debounce_count e = 4 /\
   reset_count e = 48 /\ turn_off_calls w_raised = []) /\
  (let w3 := Nat.iter 3 (timebase_period 0) w_raised in
   channel Hard w3 0 0 = set_counter (0 + 3) (channel Hard w_raised 0 0) /\
   turn_off_calls w3 = turn_off_calls w_raised) /\
  (let w4 := Nat.iter 4 (timebase_period 0) w_raised in
   let w' := set_interlock true fap_turn_off Hard 0 0 w4 in
   turn_off_calls w' = 0%nat :: turn_off_calls w_raised /\
   ps_state (module_at (g_machine w') 0) = Interlock) /\
  (let w48 := Nat.iter 48 (timebase_period 0) w_raised in
   flag (channel Hard w48 0 0) = 0 /\ counter (channel Hard w48 0 0) = 0 /\
   g_machine w48 = g_machine w_raised /\
   turn_off_calls w48 = turn_off_calls w_raised).
Proof.
  assert (Hf : flag (channel Hard w_raised 0 0) <> 0)
    by (vm_compute; discriminate).
  assert (Hc : 0 <= counter (channel Hard w_raised 0 0))
    by (vm_compute; discriminate).
  assert (Hr : reset_count (channel Hard w_raised 0 0) < 2 ^ 32)
    by (vm_compute; reflexivity).
  assert (Hc0 : counter (channel Hard w_raised 0 0) = 0)
    by (vm_compute; reflexivity).
  assert (H3 : counter (channel Hard w_raised 0 0) + Z.of_nat 3 <
               reset_count (channel Hard w_raised 0 0))
    by (vm_compute; reflexivity).
  assert (H4 : counter (channel Hard w_raised 0 0) + Z.of_nat 4 <
               reset_count (channel Hard w_raised 0 0))
    by (vm_compute; reflexivity).
  assert (Hd : debounce_count (channel Hard w_raised 0 0) <=
               counter (channel Hard w_raised 0 0) + Z.of_nat 4)
    by (vm_compute; discriminate).
  assert (Habs : Z.land (sticky_mask Hard w_raised 0) (lut 0) = 0)
    by (vm_compute; reflexivity).
  assert (H48 : counter (channel Hard w_raised 0 0) + Z.of_nat 48 =
                reset_count (channel Hard w_raised 0 0))
    by (vm_compute; reflexivity).
  split; [exact valid_channel_w_raised|].
  split; [vm_compute; repeat split|].
  pose proof (debounce_lifecycle true fap_turn_off fap_turn_off_modules
                Hard w_raised 0 0 valid_channel_w_raised Hf) as Hlife.
  destruct Hlife as (_ & _ & Hn).
  specialize (Hn Hc Hr).
  split; [|split].
  - destruct (Hn 3%nat) as [Hn3 _].
    destruct (Hn3 H3) as (He & _ & Hcalls & _).
    split; [|exact Hcalls].
    rewrite He, Hc0. reflexivity.
  - destruct (Hn 4%nat) as [Hn4 _].
    destruct (Hn4 H4) as (_ & _ & _ & Hcommit).
    destruct (Hcommit Hd Habs) as (_ & Hcalls & Hst & _).
    split; [exact Hcalls|exact (Hst eq_refl)].
  - destruct (Hn 48%nat) as [_ Hn48].
    exact (Hn48 H48 ltac:(lia)).
Defined.

(** Against claim C4 as stated: hard channel 0 of [w_raised] is raised
    once and then only ticked.  After 4 periods its counter has reached
    the debounce count of 4, and after 47 periods it is far beyond it:
    the mask is still empty, no handler was called and the module is
    still [Off].  The 48th period reaches the reset count and
    clears the channel: the fault was never committed. *)
Lemma debounce_count_reached_no_commit :
  let w4 := Nat.iter 4 (timebase_period 0) w_raised in
  let w47 := Nat.iter 47 (timebase_period 0) w_raised in
  let w48 := Nat.iter 48 (timebase_period 0) w_raised in
  channel Hard w4 0 0 = mk_event 1 4 4 48 /\
  sticky_mask Hard w4 0 = 0 /\ turn_off_calls w4 = [] /\
  ps_state (module_at (g_machine w4) 0) = Off /\
  channel Hard w47 0 0 = mk_event 1 47 4 48 /\
  sticky_mask Hard w47 0 = 0 /\ turn_off_calls w47 = [] /\
  channel Hard w48 0 0 = mk_event 0 0 4 48 /\
  sticky_mask Hard w48 0 = 0 /\ turn_off_calls w48 = [] /\
  ps_state (module_at (g_machine w48) 0) = Off.
Proof. vm_compute. repeat split. Qed.

End EventManagerProofs.

(** ** The parameter bank *)

Module ParametersProofs.

Import F32 Parameters RoundingProofs.

(** *** The bits of a float *)

Lemma bounded_cases m e :
  bounded prec emax m e = true ->
  (2 ^ 23 <= Z.pos m < 2 ^ 24 /\ -149 <= e <= 104) \/
  (Z.pos m < 2 ^ 23 /\ e = -149).
Proof.
  unfold bounded, canonical_mantissa, fexp, emin, prec, emax.
  intros H. apply andb_prop in H as [H1 H2].
  apply Z.eqb_eq in H1. apply Z.leb_le in H2.
  pose proof (digits2_pos_bounds m) as [Hlo Hhi].
  set (d := Z.pos (digits2_pos m)) in *.
  assert (Hd : 0 < d) by (subst d; lia).
  destruct (Z.max_spec (d + e - 24) (3 - 128 - 24)) as [[Hlt Hm]|[Hge Hm]];
    rewrite Hm in H1.
  - right. split; [|lia].
    assert (d <= 23) by lia.
    assert (2 ^ d <= 2 ^ 23) by (apply Z.pow_le_mono_r; lia). lia.
  - left. assert (d = 24) by lia. subst d.
    replace (Z.pos (digits2_pos m)) with 24 in * by lia.
    change (24 - 1) with 23 in Hlo. lia.
Qed.

Lemma of_bits_to_bits x : is_binary32 x = true -> of_bits (to_bits x) = x.
Proof.
  destruct x as [s|s| |s m e]; intros Hv.
  - destruct s; reflexivity.
  - destruct s; reflexivity.
  - reflexivity.
  - apply bounded_cases in Hv.
    unfold to_bits, of_bits.
    destruct Hv as [[Hm He]|[Hm He]].
    + destruct (Z.ltb_spec (Z.pos m) (2 ^ 23)); [lia|].
      set (E := e + 150). set (M := Z.pos m - 2 ^ 23).
      assert (HE : 1 <= E <= 254) by (subst E; lia).
      assert (HM : 0 <= M < 2 ^ 23) by (subst M; lia).
      assert (Hdiv : (sign_bit s + E * 2 ^ 23 + M) / 2 ^ 23 =
                     (if s then 256 else 0) + E).
      { symmetry. apply (Z.div_unique_pos _ _ _ M); [lia|].
        destruct s; unfold sign_bit; lia. }
      assert (Hmod : (sign_bit s + E * 2 ^ 23 + M) mod 2 ^ 23 = M).
      { symmetry.
        apply (Z.mod_unique_pos _ _ ((if s then 256 else 0) + E)); [lia|].
        destruct s; unfold sign_bit; lia. }
      assert (Hs : (2 ^ 31 <=? sign_bit s + E * 2 ^ 23 + M) = s).
      { destruct s; unfold sign_bit.
        - apply Z.leb_le. lia.
        - apply Z.leb_gt. lia. }
      rewrite Hdiv, Hmod, Hs.
      assert (HEm : ((if s then 256 else 0) + E) mod 2 ^ 8 = E).
      { symmetry. apply (Z.mod_unique_pos _ _ (if s then 1 else 0)); [lia|].
        destruct s; lia. }
      rewrite HEm.
      destruct (Z.eqb_spec E 0); [lia|].
      destruct (Z.eqb_spec E 255); [lia|].
      replace (M + 2 ^ 23) with (Z.pos m) by (subst M; lia).
      f_equal. subst E. lia.
    + destruct (Z.ltb_spec (Z.pos m) (2 ^ 23)); [|lia].
      assert (Hdiv : (sign_bit s + Z.pos m) / 2 ^ 23 = if s then 256 else 0).
      { symmetry. apply (Z.div_unique_pos _ _ _ (Z.pos m)); [lia|].
        destruct s; unfold sign_bit; lia. }
      assert (Hmod : (sign_bit s + Z.pos m) mod 2 ^ 23 = Z.pos m).
      { symmetry.
        apply (Z.mod_unique_pos _ _ (if s then 256 else 0)); [lia|].
        destruct s; unfold sign_bit; lia. }
      assert (Hs : (2 ^ 31 <=? sign_bit s + Z.pos m) = s).
      { destruct s; unfold sign_bit.
        - apply Z.leb_le. lia.
        - apply Z.leb_gt. lia. }
      rewrite Hdiv, Hmod, Hs.
      replace ((if s then 256 else 0) mod 2 ^ 8) with 0 by (by destruct s).
      cbn [Z.eqb]. by subst e.
Qed.

(** *** Loads and stores *)

Lemma to_uint_in_range w v :
  0 <= w -> in_range w v = true -> to_uint w v = trunc v.
Proof.
  intros Hw H. unfold to_uint. destruct v as [s|s| |s m e]; try done.
  unfold in_range in H. apply andb_prop in H as [H1 H2].
  apply Z.leb_le in H1. apply Z.ltb_lt in H2.
  by apply Z.mod_small.
Qed.

Lemma param_at_store_u16 p n z b i :
  param_at (store_u16 p n z b) i = param_at b i.
Proof. reflexivity. Qed.
Lemma param_at_store_u32 p n z b i :
  param_at (store_u32 p n z b) i = param_at b i.
Proof. reflexivity. Qed.
Lemma param_at_store_f32 p n x b i :
  param_at (store_f32 p n x b) i = param_at b i.
Proof. reflexivity. Qed.

Lemma word_store_u16 p n z b a :
  word (store_u16 p n z b) a = if decide (a = (p + n)%nat) then z else word b a.
Proof.
  unfold word, store_u16. cbn [memory].
  destruct (decide (a = (p + n)%nat)) as [->|Hne].
  - by rewrite lookup_insert_eq.
  - by rewrite lookup_insert_ne.
Qed.

Lemma word_store_u32 p n z b a :
  word (store_u32 p n z b) a =
  if decide (a = (p + 2 * n + 1)%nat) then z / 2 ^ 16
  else if decide (a = (p + 2 * n)%nat) then z mod 2 ^ 16
  else word b a.
Proof.
  unfold word, store_u32. cbn [memory].
  destruct (decide (a = (p + 2 * n + 1)%nat)) as [->|Hne].
  - by rewrite lookup_insert_eq.
  - rewrite lookup_insert_ne by done.
    destruct (decide (a = (p + 2 * n)%nat)) as [->|Hne'].
    + by rewrite lookup_insert_eq.
    + by rewrite lookup_insert_ne.
Qed.

Lemma load_store_u16 p n z b : load_u16 (store_u16 p n z b) p n = z.
Proof. unfold load_u16. rewrite word_store_u16. by rewrite decide_True. Qed.

Lemma load_store_u32 p n z b : load_u32 (store_u32 p n z b) p n = z.
Proof.
  unfold load_u32. rewrite !word_store_u32.
  rewrite decide_False by lia. rewrite decide_True by done.
  rewrite decide_True by done.
  pose proof (Z.div_mod z (2 ^ 16)). lia.
Qed.

Lemma load_store_f32 p n x b :
  is_binary32 x = true -> load_f32 (store_f32 p n x b) p n = x.
Proof.
  intros Hx. unfold load_f32, store_f32. rewrite load_store_u32.
  by apply of_bits_to_bits.
Qed.

Lemma set_param_get_param_cases b i n v :
  let s := param_at b i in
  (Z.of_nat n < num_elements s ->
     snd (set_param i n v b) = 1 /\
     (representable (type s) v = true ->
      get_param i n (fst (set_param i n v b)) = stored_value (type s) v)) /\
  (num_elements s <= Z.of_nat n ->
     set_param i n v b = (b, 0) /\ get_param i n b = nan).
Proof.
  intros s. split; intros Hn.
  - unfold set_param, get_param. fold s.
    destruct (Z.ltb_spec (Z.of_nat n) (num_elements s)); [|lia].
    destruct (type s) eqn:Ety; cbn [fst snd representable stored_value];
      (split; [reflexivity|intros Hv]).
    + rewrite param_at_store_u16. fold s.
      destruct (Z.ltb_spec (Z.of_nat n) (num_elements s)); [|lia].
      rewrite Ety, load_store_u16. by rewrite to_uint_in_range.
    + rewrite param_at_store_u32. fold s.
      destruct (Z.ltb_spec (Z.of_nat n) (num_elements s)); [|lia].
      rewrite Ety, load_store_u32. by rewrite to_uint_in_range.
    + rewrite param_at_store_f32. fold s.
      destruct (Z.ltb_spec (Z.of_nat n) (num_elements s)); [|lia].
      rewrite Ety. by apply load_store_f32.
  - unfold set_param, get_param. fold s.
    destruct (Z.ltb_spec (Z.of_nat n) (num_elements s)); [lia|]. done.
Qed.

Lemma init_param_slot i ty nelem p b :
  0 < nelem -> param_at (init_param i ty nelem p b) i = mk_param i ty nelem p.
Proof.
  intros H. unfold init_param, param_at.
  destruct (Z.ltb_spec 0 nelem); [|lia]. cbn. by rewrite lookup_insert_eq.
Qed.

Lemma uint16_of_Z z :
  0 <= z < 65536 -> in_range 16 (of_Z z) = true /\ trunc (of_Z z) = z.
Proof.
  intros Hz.
  assert (H : forall_range 16 0
                (fun k => in_range 16 (of_Z k) && (trunc (of_Z k) =? k)) = true)
    by (vm_compute; reflexivity).
  pose proof (forall_range_spec _ _ _ H z) as Hk. cbn beta in Hk.
  apply andb_prop in Hk as [H1 H2]; [|cbn; lia].
  split; [done|]. by apply Z.eqb_eq.
Qed.

(** Claim C6, amended.  For an index below the element count of the
    slot, [set_param] returns 1, and for a value whose conversion to
    the type of the slot is defined [get_param] then returns the value
    as the slot stores it: the value itself in a float slot, its
    integer part in a [uint16_t] or [uint32_t] slot, which gives back
    every integer from 0 to 65535 stored in a [uint16_t] slot.  For an
    index at or above the count [set_param] returns 0 and changes
    nothing, and [get_param] returns NaN.  The slot is the one
    [init_param] bound, with the type and the count it was given. *)
Theorem set_param_get_param b i n v :
  let s := param_at b i in
  (Z.of_nat n < num_elements s ->
     snd (set_param i n v b) = 1 /\
     (representable (type s) v = true ->
      get_param i n (fst (set_param i n v b)) = stored_value (type s) v)) /\
  (num_elements s <= Z.of_nat n ->
     set_param i n v b = (b, 0) /\ get_param i n b = nan) /\
  stored_value is_float v = v /\
  (forall z, 0 <= z < 65536 ->
     representable is_uint16_t (of_Z z) = true /\
     stored_value is_uint16_t (of_Z z) = of_Z z) /\
  (forall ty nelem p,
     0 < nelem ->
     param_at (init_param i ty nelem p b) i = mk_param i ty nelem p).
Proof.
  intros s.
  destruct (set_param_get_param_cases b i n v) as [Hin Hout].
  split; [exact Hin|]. split; [exact Hout|]. split; [reflexivity|].
  split.
  - intros z Hz. cbn [representable stored_value].
    destruct (uint16_of_Z z Hz) as [H1 H2]. by rewrite H2.
  - intros ty nelem p Hn. by apply init_param_slot.
Qed.

(** Against claim C6 as stated: 1.5 is in the range of [uint16_t], and
    written to a [uint16_t] slot it reads back as 1.0. *)
Lemma set_get_fraction :
  let b := init_param 0 is_uint16_t 1 0 bank_zero in
  let v := of_dyadic 3 (-1) in
  representable is_uint16_t v = true /\
  snd (set_param 0 0 v b) = 1 /\
  get_param 0 0 (fst (set_param 0 0 v b)) = of_Z 1 /\
  flt (of_Z 1) v = true.
Proof. vm_compute. repeat split. Qed.

(** Claim C10.  [init_param] with an element count of 0 returns the
    bank as it was: the slot keeps its id, type, element count and
    pointer, and [get_param] and [set_param] behave afterwards as they
    did before. *)
Theorem init_param_zero_elements i ty p b :
  let b' := init_param i ty 0 p b in
  b' = b /\
  param_at b' i = param_at b i /\
  (forall j n, get_param j n b' = get_param j n b) /\
  (forall j n v, set_param j n v b' = set_param j n v b).
Proof. cbn zeta. unfold init_param. cbn [Z.ltb Z.compare]. done. Qed.

(** A slot bound before keeps its binding: [init_param] with a count of
    0 does not rebind it. *)
Example init_param_zero_keeps_binding :
  let b := init_param 3 is_float 2 7 bank_zero in
  let b' := init_param 3 is_uint16_t 0 9 b in
  param_at b' 3 = mk_param 3 is_float 2 7 /\
  snd (set_param 3 1 (of_dyadic 3 (-1)) b') = 1 /\
  get_param 3 1 (fst (set_param 3 1 (of_dyadic 3 (-1)) b')) =
    of_dyadic 3 (-1).
Proof. vm_compute. repeat split. Qed.

(** Two slots on the same words: 0.1 written through a [float] slot
    reads through a [uint16_t] slot as the low word of its bits, and a
    [uint32_t] written at index 1 shows at indexes 2 and 3 of a
    [uint16_t] slot. *)
Example slots_share_words :
  let b := bank_zero |> init_param 0 is_float 2 16
                     |> init_param 1 is_uint16_t 4 16
                     |> init_param 2 is_uint32_t 2 16 in
  get_param 1 0 (fst (set_param 0 0 (fdiv (of_Z 1) (of_Z 10)) b)) =
    of_Z 52429 /\
  to_bits (fdiv (of_Z 1) (of_Z 10)) = 0x3DCCCCCD /\
  get_param 1 2 (fst (set_param 2 1 (of_Z 305419896) b)) = of_Z 0x5680 /\
  get_param 1 3 (fst (set_param 2 1 (of_Z 305419896) b)) = of_Z 0x1234.
Proof. vm_compute. repeat split. Qed.

End ParametersProofs.

(** ** The signal generator: further properties *)

Module SiggenLaws.

Import F32 Siggen SiggenProofs SiggenConfigs.

Section RunCalls.
Variable sin exp : float -> float.

Lemma call_p_run_siggen_disabled s :
  enable s = 0 -> call_p_run_siggen sin exp s = (s, None).
Proof.
  intros He. unfold call_p_run_siggen, run_siggen_sine,
    run_siggen_dampedsine, run_siggen_trapezoidal.
  rewrite He. by destruct (p_run_siggen s).
Qed.

Lemma run_siggen_n_disabled k s :
  enable s = 0 -> run_siggen_n (call_p_run_siggen sin exp) k s = s.
Proof.
  intros He. induction k as [|k IH]; [done|].
  cbn [run_siggen_n]. by rewrite call_p_run_siggen_disabled.
Qed.

(** Property X1.  A disabled generator stays disabled whatever is
    configured: [cfg_siggen], [init_siggen], [scale_siggen],
    [set_siggen_freq], [reset_siggen] and [disable_siggen] leave
    [enable] at 0, the three run functions return without a sample and
    without a change of the generator, any number of calls through
    [p_run_siggen] changes nothing, and only [enable_siggen] sets
    [enable] to 1. *)
Theorem disabled_never_starts s :
  enable s = 0 ->
  (forall ty k f a o p, enable (cfg_siggen s ty k f a o p) = 0) /\
  (forall fs out, enable (init_siggen s fs out) = 0) /\
  (forall a o, enable (scale_siggen s a o) = 0) /\
  enable (set_siggen_freq s) = 0 /\
  enable (reset_siggen s) = 0 /\
  enable (disable_siggen s) = 0 /\
  run_siggen_sine sin s = (s, None) /\
  run_siggen_dampedsine sin exp s = (s, None) /\
  run_siggen_trapezoidal s = (s, None) /\
  (forall k, run_siggen_n (call_p_run_siggen sin exp) k s = s) /\
  enable (enable_siggen s) = 1.
Proof.
  intros He.
  assert (Hcfg : forall s0 ty k f a o p, enable s0 = 0 ->
             enable (cfg_siggen s0 ty k f a o p) = 0).
  { intros s0 ty k f a o p H0.
    by destruct (cfg_siggen_accepted s0 ty k f a o p H0)
      as (_ & _ & _ & _ & _ & ? & _). }
  split; [intros; by apply Hcfg|].
  split.
  { intros fs out. unfold init_siggen. rewrite He. cbn [Z.eqb].
    change (enable (set_p_out out ?x)) with (enable x).
    by apply Hcfg. }
  split; [done|].
  split.
  { by destruct (set_siggen_freq_fields s) as (_ & -> & _). }
  split; [done|]. split; [done|].
  split; [unfold run_siggen_sine; by rewrite He|].
  split; [unfold run_siggen_dampedsine; by rewrite He|].
  split; [unfold run_siggen_trapezoidal; by rewrite He|].
  split; [intros k; by apply run_siggen_n_disabled|].
  unfold enable_siggen. rewrite He. reflexivity.
Qed.
End RunCalls.

Lemma disabled_never_starts_witness :
  enable siggen_zero = 0 /\
  (forall sin exp k,
     run_siggen_n (call_p_run_siggen sin exp) k siggen_zero = siggen_zero) /\
  enable (cfg_siggen siggen_zero DampedSine 3 one one zero
            default_aux_param) = 0.
Proof.
  assert (He : enable siggen_zero = 0) by reflexivity.
  split; [exact He|]. split.
  - intros sin exp k.
    destruct (disabled_never_starts sin exp siggen_zero He)
      as (_ & _ & _ & _ & _ & _ & _ & _ & _ & Hn & _).
    apply Hn.
  - destruct (disabled_never_starts (fun x => x) (fun x => x) siggen_zero He)
      as (Hc & _).
    apply Hc.
Defined.

(** The loop of [cfg_siggen] that zeroes the auxiliary variables. *)
Lemma foldl_aux_var_zero k s i :
  (i < k)%nat ->
  fget (aux_var (foldl (fun acc j => set_aux_var_at j zero acc) s (seq 0 k))) i
  = zero.
Proof.
  induction k as [|k IH]; [lia|]. intros Hi.
  rewrite seq_S, foldl_app. cbn [foldl Nat.add].
  unfold set_aux_var_at at 1. cbn [aux_var set_aux_var].
  destruct (decide (i = k)) as [->|Hne].
  - unfold fget. destruct (decide (k < length (aux_var
      (foldl (fun acc j => set_aux_var_at j zero acc) s (seq 0 k))))%nat).
    + by rewrite list_lookup_insert_eq.
    + rewrite list_insert_ge by lia. by rewrite lookup_ge_None_2 by lia.
  - rewrite fget_insert_ne by done. apply IH. lia.
Qed.

Lemma cfg_switch_aux_var_0 sig_type amp s :
  sig_type <> Trapezoidal ->
  fget (aux_var (cfg_switch sig_type amp s)) 0 = fget (aux_var s) 0.
Proof.
  intros Hty. unfold cfg_switch, cfg_sine_common.
  destruct sig_type; [| |done]; destruct (fgt _ _);
    cbn [aux_var set_p_run_siggen set_aux_var_at set_aux_var aux_param
         freq_sampling freq num_cycles];
    by rewrite !fget_insert_ne by done.
Qed.

Lemma cfg_switch_length sig_type amp s :
  length (aux_var (cfg_switch sig_type amp s)) = length (aux_var s).
Proof.
  unfold cfg_switch, cfg_sine_common.
  destruct sig_type; try destruct (fgt _ _);
    cbn [aux_var set_p_run_siggen set_aux_var_at set_aux_var aux_param
         freq_sampling freq num_cycles];
    by rewrite !length_insert.
Qed.

Lemma set_siggen_freq_length s :
  length (aux_var (set_siggen_freq s)) = length (aux_var s).
Proof.
  unfold set_siggen_freq.
  destruct (type s); try destruct (num_cycles s =? 0);
    cbn [aux_var set_aux_var_at set_aux_var set_freq]; try done;
    by rewrite length_insert.
Qed.

Lemma cfg_siggen_length s sig_type k f amp off p :
  length (aux_var (cfg_siggen s sig_type k f amp off p)) = length (aux_var s).
Proof.
  unfold cfg_siggen. destruct (enable s =? 0); [|done]. cbn zeta.
  rewrite cfg_switch_length.
  destruct (foldl_aux_var_fields NUM_SIGGEN_AUX_VAR
              (foldl (fun acc i => set_aux_param_at i (fget p i) acc)
                 (set_siggen_freq
                    (scale_siggen
                       (set_freq f (set_n zero (set_num_cycles k
                          (set_type sig_type s)))) amp off))
                 (seq 0 NUM_SIGGEN_AUX_PARAM)))
    as (_ & _ & _ & _ & _ & _ & _ & _ & _ & ->).
  destruct (foldl_aux_param_fields NUM_SIGGEN_AUX_PARAM p
              (set_siggen_freq
                 (scale_siggen
                    (set_freq f (set_n zero (set_num_cycles k
                       (set_type sig_type s)))) amp off)))
    as (_ & _ & _ & _ & _ & _ & -> & _).
  by rewrite set_siggen_freq_length.
Qed.

Lemma cfg_siggen_freq s sig_type k f amp off p :
  enable s = 0 -> sig_type <> Trapezoidal ->
  freq (cfg_siggen s sig_type k f amp off p) =
    if k =? 0 then fabs (roundf f) else f.
Proof.
  intros He Hty. unfold cfg_siggen. rewrite He. cbn [Z.eqb].
  cbn zeta.
  destruct (cfg_switch_fields sig_type amp
    (foldl (fun acc i => set_aux_var_at i zero acc)
       (foldl (fun acc i => set_aux_param_at i (fget p i) acc)
          (set_siggen_freq
             (scale_siggen
                (set_freq f (set_n zero (set_num_cycles k
                   (set_type sig_type s)))) amp off))
          (seq 0 NUM_SIGGEN_AUX_PARAM))
       (seq 0 NUM_SIGGEN_AUX_VAR))) as (-> & _).
  destruct (foldl_aux_var_fields NUM_SIGGEN_AUX_VAR
    (foldl (fun acc i => set_aux_param_at i (fget p i) acc)
       (set_siggen_freq
          (scale_siggen
             (set_freq f (set_n zero (set_num_cycles k
                (set_type sig_type s)))) amp off))
       (seq 0 NUM_SIGGEN_AUX_PARAM))) as (-> & _).
  destruct (foldl_aux_param_fields NUM_SIGGEN_AUX_PARAM p
    (set_siggen_freq
       (scale_siggen
          (set_freq f (set_n zero (set_num_cycles k
             (set_type sig_type s)))) amp off))) as (-> & _).
  unfold set_siggen_freq, scale_siggen.
  cbn [type set_offset set_amplitude set_freq set_n set_num_cycles set_type
       num_cycles freq].
  destruct sig_type; [| |done]; by destruct (k =? 0).
Qed.

(** Property X2.  [cfg_siggen] of a sine or a damped sine on a disabled
    generator leaves the phase increment [aux_var[0]] at zero (it
    computes it and then clears the auxiliary variables); the
    increment is only there after [enable_siggen], which recomputes it
    from the frequency it rounds again in continuous mode, restarts the
    sample index and keeps the other auxiliary variables. *)
Theorem cfg_then_enable_phase_step s sig_type k f amp off p :
  enable s = 0 -> sig_type <> Trapezoidal ->
  (0 < length (aux_var s))%nat ->
  let c := cfg_siggen s sig_type k f amp off p in
  let e := enable_siggen c in
  let fe := if k =? 0 then fabs (roundf (freq c)) else freq c in
  fget (aux_var c) 0 = zero /\
  freq c = (if k =? 0 then fabs (roundf f) else f) /\
  enable e = 1 /\ n e = zero /\ freq e = fe /\
  fget (aux_var e) 0 = phase_step fe (freq_sampling s) /\
  (forall i, i <> 0%nat -> fget (aux_var e) i = fget (aux_var c) i).
Proof.
  intros He Hty Hl c e fe.
  destruct (cfg_siggen_accepted s sig_type k f amp off p He)
    as (Hct & Hck & Hcn & _ & _ & Hce & Hcs).
  fold c in Hct, Hck, Hcn, Hce, Hcs.
  assert (Hc0 : fget (aux_var c) 0 = zero).
  { unfold c, cfg_siggen. rewrite He. cbn [Z.eqb]. cbn zeta.
    rewrite cfg_switch_aux_var_0 by done.
    apply foldl_aux_var_zero. unfold NUM_SIGGEN_AUX_VAR. lia. }
  assert (Hcl : (0 < length (aux_var c))%nat).
  { unfold c. by rewrite cfg_siggen_length. }
  split; [exact Hc0|].
  split; [by apply cfg_siggen_freq|].
  subst e fe. unfold enable_siggen. rewrite Hce. cbn [Z.eqb].
  assert (Hr : type (reset_siggen c) = sig_type) by done.
  rewrite Hr.
  assert (Hsf : forall x, enable (set_enable 1 x) = 1 /\
            n (set_enable 1 x) = n x /\ freq (set_enable 1 x) = freq x /\
            aux_var (set_enable 1 x) = aux_var x) by done.
  assert (Hgoal :
    let x := set_siggen_freq (reset_siggen c) in
    n x = zero /\
    freq x = (if k =? 0 then fabs (roundf (freq c)) else freq c) /\
    fget (aux_var x) 0 =
      phase_step (if k =? 0 then fabs (roundf (freq c)) else freq c)
        (freq_sampling s) /\
    (forall i, i <> 0%nat -> fget (aux_var x) i = fget (aux_var c) i)).
  { cbn zeta. unfold set_siggen_freq, reset_siggen, phase_step.
    cbn [type set_n num_cycles]. rewrite Hct, Hck.
    destruct sig_type; [| |done]; destruct (k =? 0);
      cbn [freq set_freq set_n Siggen.n aux_var set_aux_var_at set_aux_var
           freq_sampling];
      rewrite Hcs; (split; [done|]); (split; [done|]);
      (split; [by rewrite fget_insert_same|]);
      intros i Hi; by rewrite fget_insert_ne. }
  cbn zeta in Hgoal. destruct Hgoal as (Hn & Hf & Ha & Hrest).
  destruct sig_type; [| |done];
    destruct (Hsf (set_siggen_freq (reset_siggen c))) as (-> & -> & -> & ->);
    repeat split; done.
Qed.

Lemma cfg_then_enable_phase_step_witness :
  let s := init_siggen siggen_zero (of_Z 4) (PsReference 0) in
  let c := cfg_siggen s Sine 3 (of_dyadic 5 (-1)) one zero default_aux_param in
  let e := enable_siggen c in
  (enable s = 0 /\ (0 < length (aux_var s))%nat) /\
  fget (aux_var c) 0 = zero /\
  freq e = of_dyadic 5 (-1) /\
  fget (aux_var e) 0 = phase_step (of_dyadic 5 (-1)) (of_Z 4).
Proof.
  cbn zeta.
  set (s := init_siggen siggen_zero (of_Z 4) (PsReference 0)).
  assert (He : enable s = 0) by (vm_compute; reflexivity).
  assert (Hl : (0 < length (aux_var s))%nat) by (vm_compute; lia).
  assert (Hty : Sine <> Trapezoidal) by discriminate.
  destruct (cfg_then_enable_phase_step s Sine 3 (of_dyadic 5 (-1)) one zero
              default_aux_param He Hty Hl)
    as (Hc0 & Hcf & _ & _ & Hef & Ha & _).
  split; [by split|]. split; [exact Hc0|].
  cbn [Z.eqb] in Hef, Ha, Hcf. rewrite Hcf in Hef, Ha.
  split; [exact Hef|]. rewrite Ha. reflexivity.
Defined.

(** A list of six elements, and one of four. *)
Lemma list_of_length_6 {A} (l : list A) :
  length l = 6%nat -> exists a b c d e f, l = [a; b; c; d; e; f].
Proof.
  destruct l as [|a [|b [|c [|d [|e [|f [|g l]]]]]]]; try done.
  by exists a, b, c, d, e, f.
Qed.
Lemma list_of_length_4 {A} (l : list A) :
  length l = 4%nat -> exists a b c d, l = [a; b; c; d].
Proof.
  destruct l as [|a [|b [|c [|d [|e l]]]]]; try done.
  by exists a, b, c, d.
Qed.

(** Property X3.  [cfg_siggen] of a trapezoid on a disabled generator,
    field by field: the requested frequency is discarded (the frequency
    field is zero), the sample index is zero, the auxiliary parameters
    hold the rise, plateau and fall times, the auxiliary variables the
    three breakpoints in samples, the two slopes per sample and a
    cycle counter of zero; [enable_siggen] then only sets [enable]. *)
Theorem cfg_siggen_trapezoidal s k f amp off p :
  enable s = 0 ->
  length (aux_param s) = NUM_SIGGEN_AUX_PARAM ->
  length (aux_var s) = NUM_SIGGEN_AUX_VAR ->
  let fs := freq_sampling s in
  let rise := fget p 0 in
  let plateau := fget p 1 in
  let fall := fget p 2 in
  let c := cfg_siggen s Trapezoidal k f amp off p in
  c = mk_siggen 0 Trapezoidal k fs zero zero amp off
        [rise; plateau; fall; fget p 3]
        [fmul rise fs;
         fmul (fadd rise plateau) fs;
         fmul (fadd (fadd rise plateau) fall) fs;
         fdiv amp (fmul rise fs);
         fdiv amp (fmul fall fs);
         zero]
        ptr_run_siggen_trapezoidal (p_out s) /\
  enable_siggen c = set_enable 1 c.
Proof.
  intros He Hp Hv fs rise plateau fall c.
  assert (Hc : c = mk_siggen 0 Trapezoidal k fs zero zero amp off
        [rise; plateau; fall; fget p 3]
        [fmul rise fs;
         fmul (fadd rise plateau) fs;
         fmul (fadd (fadd rise plateau) fall) fs;
         fdiv amp (fmul rise fs);
         fdiv amp (fmul fall fs);
         zero]
        ptr_run_siggen_trapezoidal (p_out s)).
  { subst c fs rise plateau fall.
    destruct (list_of_length_4 _ Hp) as (p0 & p1 & p2 & p3 & Ep).
    destruct (list_of_length_6 _ Hv) as (v0 & v1 & v2 & v3 & v4 & v5 & Ev).
    destruct s as [en ty nc fs0 n0 f0 a0 o0 ap av pr po].
    cbn [enable aux_param aux_var freq_sampling p_out] in *. subst en ap av.
    reflexivity. }
  split; [exact Hc|]. rewrite Hc. reflexivity.
Qed.

Lemma cfg_siggen_trapezoidal_witness :
  let s := init_siggen siggen_zero one (PsReference 0) in
  (enable s = 0 /\ length (aux_param s) = NUM_SIGGEN_AUX_PARAM /\
   length (aux_var s) = NUM_SIGGEN_AUX_VAR) /\
  enable_siggen
    (cfg_siggen s Trapezoidal 2 (of_Z 50) ten zero
       [of_Z 1; of_Z 2; of_Z 1; zero]) =
  trapezoid_state 2 zero zero.
Proof.
  cbn zeta.
  set (s := init_siggen siggen_zero one (PsReference 0)).
  assert (He : enable s = 0) by reflexivity.
  assert (Hp : length (aux_param s) = NUM_SIGGEN_AUX_PARAM) by reflexivity.
  assert (Hv : length (aux_var s) = NUM_SIGGEN_AUX_VAR) by reflexivity.
  split; [by repeat split|].
  destruct (cfg_siggen_trapezoidal s 2 (of_Z 50) ten zero
              [of_Z 1; of_Z 2; of_Z 1; zero] He Hp Hv) as [Hc He'].
  rewrite He', Hc. vm_compute. reflexivity.
Defined.

(** The sample index is a float: at [2^24] adding one no longer changes
    it. *)
Lemma sample_index_saturates : fadd (of_Z 16777216) one = of_Z 16777216.
Proof. vm_compute. reflexivity. Qed.

Lemma set_n_same s : set_n (n s) s = s.
Proof. by destruct s. Qed.

Section Stall.
Variable sin exp : float -> float.

(** Property X4.  The sample index is a binary32 number and [n++] does
    not change it once it is [2^24]: a running generator whose index
    has come to [2^24] before its end is left exactly as it is by a
    call of its run function, so it never reaches its end: the sine
    in a finite run, the damped sine, and the trapezoid inside one of
    its three segments. *)
Theorem sample_counter_stalls s :
  enable s <> 0 -> n s = of_Z 16777216 ->
  (fgt (fget (aux_var s) 2) zero = true ->
   fge (n s) (fget (aux_var s) 2) = false ->
   fst (run_siggen_sine sin s) = s) /\
  (flt (n s) (fget (aux_var s) 2) = true ->
   fst (run_siggen_dampedsine sin exp s) = s) /\
  (flt (fget (aux_var s) 5) (of_Z (num_cycles s)) = true ->
   (flt (n s) (fget (aux_var s) 0) = true \/
    flt (n s) (fget (aux_var s) 1) = true \/
    flt (n s) (fget (aux_var s) 2) = true) ->
   fst (run_siggen_trapezoidal s) = s).
Proof.
  intros He Hn.
  assert (Hinc : set_n (fadd (n s) one) s = s).
  { rewrite Hn, sample_index_saturates, <- Hn. apply set_n_same. }
  destruct (Z.eqb_spec (enable s) 0) as [|_]; [done|].
  split; [|split].
  - intros Hpos Hlt. unfold run_siggen_sine.
    destruct (Z.eqb_spec (enable s) 0) as [|_]; [done|]. cbn [negb fst].
    rewrite Hinc, Hpos, Hlt. reflexivity.
  - intros Hlt. unfold run_siggen_dampedsine.
    destruct (Z.eqb_spec (enable s) 0) as [|_]; [done|]. cbn [negb].
    rewrite Hlt. cbn [fst]. exact Hinc.
  - intros Hc Hseg. unfold run_siggen_trapezoidal.
    destruct (Z.eqb_spec (enable s) 0) as [|_]; [done|]. cbn [negb].
    rewrite Hc.
    destruct (flt (n s) (fget (aux_var s) 0)); [exact Hinc|].
    destruct (flt (n s) (fget (aux_var s) 1)); [exact Hinc|].
    destruct (flt (n s) (fget (aux_var s) 2)); [exact Hinc|].
    by destruct Hseg as [|[|]].
Qed.
End Stall.

Lemma run_siggen_n_fixed run k s :
  fst (run s) = s -> run_siggen_n run k s = s.
Proof.
  intros H. induction k as [|k IH]; [reflexivity|].
  cbn [run_siggen_n]. rewrite H. exact IH.
Qed.


Lemma sample_counter_stalls_witness :
  (enable s_long_run <> 0 /\ n s_long_run = of_Z 16777216 /\
   fget (aux_var s_long_run) 2 = of_Z 48000000 /\
   fgt (fget (aux_var s_long_run) 2) zero = true /\
   fge (n s_long_run) (fget (aux_var s_long_run) 2) = false) /\
  (forall sin k,
     run_siggen_n (run_siggen_sine sin) k s_long_run = s_long_run).
Proof.
  assert (He : enable s_long_run <> 0) by (vm_compute; discriminate).
  assert (Hn : n s_long_run = of_Z 16777216) by (vm_compute; reflexivity).
  assert (Hpos : fgt (fget (aux_var s_long_run) 2) zero = true)
    by (vm_compute; reflexivity).
  assert (Hlt : fge (n s_long_run) (fget (aux_var s_long_run) 2) = false)
    by (vm_compute; reflexivity).
  split.
  - split; [exact He|]. split; [exact Hn|].
    split; [vm_compute; reflexivity|]. by split.
  - intros sin k. apply run_siggen_n_fixed.
    destruct (sample_counter_stalls sin (fun x => x) s_long_run He Hn)
      as (Hs & _).
    exact (Hs Hpos Hlt).
Defined.

(** Property X5.  [enable_siggen] does nothing on a running generator
    and is idempotent, as is [disable_siggen]; disabling and enabling
    again restarts the sample index at zero and keeps the type, the
    number of cycles, the amplitude and the offset. *)
Theorem enable_siggen_restart s :
  enable_siggen (enable_siggen s) = enable_siggen s /\
  (enable s <> 0 -> enable_siggen s = s) /\
  enable (enable_siggen (disable_siggen s)) = 1 /\
  n (enable_siggen (disable_siggen s)) = zero /\
  type (enable_siggen (disable_siggen s)) = type s /\
  num_cycles (enable_siggen (disable_siggen s)) = num_cycles s /\
  amplitude (enable_siggen (disable_siggen s)) = amplitude s /\
  offset (enable_siggen (disable_siggen s)) = offset s /\
  disable_siggen (disable_siggen s) = disable_siggen s.
Proof.
  assert (Hrun : forall x, enable x <> 0 -> enable_siggen x = x).
  { intros x Hx. unfold enable_siggen.
    by destruct (Z.eqb_spec (enable x) 0). }
  assert (Hen : enable (enable_siggen s) <> 0).
  { unfold enable_siggen. destruct (Z.eqb_spec (enable s) 0); done. }
  split; [by apply Hrun|]. split; [apply Hrun|].
  unfold enable_siggen, disable_siggen.
  cbn [enable set_enable Z.eqb type reset_siggen set_n].
  destruct (set_siggen_freq_fields (reset_siggen (set_enable 0 s)))
    as (Hn & _ & Ht & Hc & _ & Ha & Ho & _).
  fold (reset_siggen (set_enable 0 s)).
  destruct (type s) eqn:E;
    cbn [Siggen.n set_enable type num_cycles amplitude offset];
    rewrite ?Hn, ?Ht, ?Hc, ?Ha, ?Ho;
    cbn [Siggen.n set_enable type num_cycles amplitude offset reset_siggen
         set_n];
    rewrite ?E; repeat split; done.
Qed.

End SiggenLaws.

(** ** The event manager: further properties *)

Module EventManagerLaws.

Import F32 PsModules Control EventManager EventManagerProofs.
Import EventManagerIsr.

(** *** [init_event_manager] overwrites the manager *)

Lemma init_event_overwrites freq maxc num pd pr i e e' :
  init_event freq maxc num pd pr i e = init_event freq maxc num pd pr i e'.
Proof. unfold init_event. by destruct (i <? num)%nat. Qed.

Lemma event_manager_zero_sized : sized_manager event_manager_zero.
Proof. by split. Qed.

Lemma init_event_manager_at_num freq nh ns pdh prh pds prs em :
  let em' := init_event_manager_at freq nh ns pdh prh pds prs em in
  timebase_flag em' = 0 /\ freq_timebase em' = freq /\
  num_events (hard_interlocks em') = nh /\
  num_events (soft_interlocks em') = ns /\
  length (event (hard_interlocks em')) = length (event (hard_interlocks em)) /\
  length (event (soft_interlocks em')) = length (event (soft_interlocks em)).
Proof.
  cbn zeta. unfold init_event_manager_at. cbn zeta.
  set (em1 := upd_soft _ _).
  assert (H1 : timebase_flag em1 = 0 /\ freq_timebase em1 = freq /\
               num_events (hard_interlocks em1) = nh /\
               num_events (soft_interlocks em1) = ns /\
               length (event (hard_interlocks em1)) =
                 length (event (hard_interlocks em)) /\
               length (event (soft_interlocks em1)) =
                 length (event (soft_interlocks em))) by done.
  clearbody em1. revert H1.
  generalize (seq 0 NUM_MAX_EVENT_COUNTER). intros l. revert em1.
  induction l as [|k l IH]; intros em1 H1; [exact H1|].
  cbn [foldl]. apply IH.
  destruct H1 as (? & ? & ? & ? & ? & ?).
  unfold upd_hard, upd_soft, upd_event.
  cbn [timebase_flag freq_timebase hard_interlocks soft_interlocks
       set_hard_interlocks set_soft_interlocks num_events event set_event].
  rewrite !length_alter. done.
Qed.

Lemma interlocks_eq (a b : interlocks_t) :
  num_events a = num_events b -> event a = event b -> a = b.
Proof. destruct a, b. cbn. by intros -> ->. Qed.

Lemma event_manager_eq (a b : event_manager_t) :
  timebase_flag a = timebase_flag b -> freq_timebase a = freq_timebase b ->
  hard_interlocks a = hard_interlocks b ->
  soft_interlocks a = soft_interlocks b -> a = b.
Proof. destruct a, b. cbn. by intros -> -> -> ->. Qed.

Lemma init_event_manager_at_overwrites freq nh ns pdh prh pds prs em em' :
  sized_manager em -> sized_manager em' ->
  init_event_manager_at freq nh ns pdh prh pds prs em =
  init_event_manager_at freq nh ns pdh prh pds prs em'.
Proof.
  intros [Hh Hs] [Hh' Hs'].
  destruct (init_event_manager_at_num freq nh ns pdh prh pds prs em)
    as (Ht & Hf & Hnh & Hns & Hlh & Hls).
  destruct (init_event_manager_at_num freq nh ns pdh prh pds prs em')
    as (Ht' & Hf' & Hnh' & Hns' & Hlh' & Hls').
  apply event_manager_eq; [congruence..| |].
  - apply interlocks_eq; [congruence|].
    apply list_eq. intros i.
    destruct (decide (i < NUM_MAX_EVENT_COUNTER)%nat) as [Hi|Hi].
    + pose proof (init_event_manager_at_hard freq nh ns pdh prh pds prs
                    em i Hi Hh) as E.
      pose proof (init_event_manager_at_hard freq nh ns pdh prh pds prs
                    em' i Hi Hh') as E'.
      unfold event_at in E, E'.
      destruct (lookup_lt_is_Some_2
        (event (hard_interlocks
           (init_event_manager_at freq nh ns pdh prh pds prs em))) i)
        as [x Hx]; [lia|].
      destruct (lookup_lt_is_Some_2
        (event (hard_interlocks
           (init_event_manager_at freq nh ns pdh prh pds prs em'))) i)
        as [x' Hx']; [lia|].
      rewrite Hx in E |- *. rewrite Hx' in E' |- *. cbn in E, E'.
      rewrite E, E'. apply (f_equal Some), init_event_overwrites.
    + rewrite !lookup_ge_None_2 by lia. done.
  - apply interlocks_eq; [congruence|].
    apply list_eq. intros i.
    destruct (decide (i < NUM_MAX_EVENT_COUNTER)%nat) as [Hi|Hi].
    + pose proof (init_event_manager_at_soft freq nh ns pdh prh pds prs
                    em i Hi Hs) as E.
      pose proof (init_event_manager_at_soft freq nh ns pdh prh pds prs
                    em' i Hi Hs') as E'.
      unfold event_at in E, E'.
      destruct (lookup_lt_is_Some_2
        (event (soft_interlocks
           (init_event_manager_at freq nh ns pdh prh pds prs em))) i)
        as [x Hx]; [lia|].
      destruct (lookup_lt_is_Some_2
        (event (soft_interlocks
           (init_event_manager_at freq nh ns pdh prh pds prs em'))) i)
        as [x' Hx']; [lia|].
      rewrite Hx in E |- *. rewrite Hx' in E' |- *. cbn in E, E'.
      rewrite E, E'. apply (f_equal Some), init_event_overwrites.
    + rewrite !lookup_ge_None_2 by lia. done.
Qed.

(** Property X6.  [init_event_manager] overwrites the whole manager:
    the result is what the initialisation gives on a zero manager,
    whatever flags, counters and thresholds were there before, every
    channel comes out with flag and counter at zero, a second call with
    the same arguments changes nothing, and the other managers, the
    modules and the record of [turn_off] calls are untouched. *)
Theorem init_event_manager_overwrites id freq nh ns pdh prh pds prs w :
  (id < length (g_event_manager w))%nat ->
  sized_manager (em_at w id) ->
  let w' := init_event_manager id freq nh ns pdh prh pds prs w in
  em_at w' id =
    init_event_manager_at freq nh ns pdh prh pds prs event_manager_zero /\
  (forall k i,
     flag (channel k w' id i) = 0 /\ counter (channel k w' id i) = 0) /\
  init_event_manager id freq nh ns pdh prh pds prs w' = w' /\
  (forall j, j <> id -> em_at w' j = em_at w j) /\
  g_machine w' = g_machine w /\ turn_off_calls w' = turn_off_calls w.
Proof.
  intros Hid Hsz w'.
  assert (Hem : em_at w' id =
    init_event_manager_at freq nh ns pdh prh pds prs event_manager_zero).
  { unfold w', init_event_manager. rewrite em_at_upd_em by done.
    apply init_event_manager_at_overwrites;
      [done|apply event_manager_zero_sized]. }
  split; [exact Hem|].
  assert (Hsz' : sized_manager (em_at w' id)).
  { rewrite Hem.
    destruct (init_event_manager_at_num freq nh ns pdh prh pds prs
                event_manager_zero) as (_ & _ & _ & _ & Hh & Hs).
    split; [by rewrite Hh|by rewrite Hs]. }
  split.
  { intros k i. unfold channel.
    destruct (decide (i < NUM_MAX_EVENT_COUNTER)%nat) as [Hi|Hi].
    - unfold w', init_event_manager. rewrite em_at_upd_em by done.
      destruct Hsz as [Hh Hs].
      destruct k; cbn [interlocks_of].
      + rewrite init_event_manager_at_hard by done.
        unfold init_event. by destruct (i <? nh)%nat.
      + rewrite init_event_manager_at_soft by done.
        unfold init_event. by destruct (i <? ns)%nat.
    - destruct Hsz' as [Hh Hs]. unfold event_at.
      destruct k; cbn [interlocks_of];
        by rewrite lookup_ge_None_2 by lia. }
  split.
  { apply upd_em_fixed. fold (em_at w' id).
    rewrite Hem at 2.
    apply init_event_manager_at_overwrites;
      [done|apply event_manager_zero_sized]. }
  split.
  { intros j Hj. unfold w', init_event_manager.
    by rewrite em_at_upd_em_ne. }
  done.
Qed.

Lemma init_event_manager_overwrites_witness :
  let w' := init_event_manager 0 (of_Z 48000) 2 1
              [300; 400] [2000; 2000] [50] [500] w_due in
  ((0 < length (g_event_manager w_due))%nat /\
   sized_manager (em_at w_due 0) /\
   flag (channel Hard w_due 0 0) = 1 /\ counter (channel Hard w_due 0 0) = 4) /\
  flag (channel Hard w' 0 0) = 0 /\ counter (channel Hard w' 0 0) = 0 /\
  em_at w' 0 =
    init_event_manager_at (of_Z 48000) 2 1 [300; 400] [2000; 2000] [50] [500]
      event_manager_zero.
Proof.
  assert (Hid : (0 < length (g_event_manager w_due))%nat)
    by (vm_compute; lia).
  assert (Hsz : sized_manager (em_at w_due 0))
    by (split; vm_compute; reflexivity).
  destruct (init_event_manager_overwrites 0 (of_Z 48000) 2 1
              [300; 400] [2000; 2000] [50] [500] w_due Hid Hsz)
    as (Hem & Hfc & _).
  split.
  - split; [exact Hid|]. split; [exact Hsz|].
    split; vm_compute; reflexivity.
  - destruct (Hfc Hard 0%nat) as [Hf Hc].
    split; [exact Hf|]. split; [exact Hc|exact Hem].
Defined.

(** *** What a raise and a tick leave alone *)

Lemma only_channel_refl k id itlk w w' :
  g_event_manager w' = g_event_manager w -> only_channel k id itlk w w'.
Proof.
  intros H. unfold only_channel, channel, em_at. rewrite H. done.
Qed.

Lemma only_channel_trans k id itlk w1 w2 w3 :
  only_channel k id itlk w1 w2 -> only_channel k id itlk w2 w3 ->
  only_channel k id itlk w1 w3.
Proof.
  intros (A1 & B1 & C1 & D1) (A2 & B2 & C2 & D2).
  split; [|split; [|split]].
  - intros k' id' i H. by rewrite A2, A1.
  - intros k' id' i. destruct (B1 k' id' i), (B2 k' id' i).
    split; congruence.
  - intros k' id'. by rewrite C2, C1.
  - intros id'. destruct (D1 id'), (D2 id'). split; congruence.
Qed.

Lemma event_at_upd_event_any s i j f :
  event_at (upd_event i f s) j =
  if decide (i = j) then
    match event s !! j with Some e => f e | None => event_zero end
  else event_at s j.
Proof.
  unfold event_at, upd_event. cbn [event set_event]. case_decide as H.
  - subst. rewrite list_lookup_alter_eq. by destruct (event s !! j).
  - by rewrite list_lookup_alter_ne.
Qed.

Lemma em_at_upd_em_any w id j f :
  em_at (upd_em id f w) j =
  if decide (id = j) then
    match g_event_manager w !! j with
    | Some em => f em
    | None => event_manager_zero
    end
  else em_at w j.
Proof.
  unfold em_at, upd_em. cbn [g_event_manager set_g_event_manager].
  case_decide as H.
  - subst. rewrite list_lookup_alter_eq. by destruct (g_event_manager w !! j).
  - by rewrite list_lookup_alter_ne.
Qed.

Lemma only_channel_upd k id itlk g w :
  (forall e, debounce_count (g e) = debounce_count e /\
             reset_count (g e) = reset_count e) ->
  only_channel k id itlk w (upd_em id (upd_kind k (upd_event itlk g)) w).
Proof.
  intros Hg.
  assert (Hem : forall id',
    em_at (upd_em id (upd_kind k (upd_event itlk g)) w) id' = em_at w id' \/
    (id' = id /\
     em_at (upd_em id (upd_kind k (upd_event itlk g)) w) id' =
       upd_kind k (upd_event itlk g) (em_at w id'))).
  { intros id'. rewrite em_at_upd_em_any. case_decide as H; [|by left].
    subst. unfold em_at. destruct (g_event_manager w !! id'); [by right|].
    by left. }
  assert (Hch : forall k' i em,
    event_at (interlocks_of k' (upd_kind k (upd_event itlk g) em)) i =
      event_at (interlocks_of k' em) i \/
    (k' = k /\ i = itlk /\
     event_at (interlocks_of k' (upd_kind k (upd_event itlk g) em)) i =
       g (event_at (interlocks_of k' em) i))).
  { intros k' i em. destruct k, k'; cbn [upd_kind interlocks_of];
      rewrite ?hard_upd_hard, ?soft_upd_soft, ?hard_upd_soft, ?soft_upd_hard;
      try (by left).
    all: rewrite event_at_upd_event_any; case_decide as H; [|by left].
    all: subst; unfold event_at; destruct (event _ !! i); [by right|by left]. }
  split; [|split; [|split]].
  - intros k' id' i Hne. unfold channel.
    destruct (Hem id') as [->|[-> ->]]; [done|].
    destruct (Hch k' i (em_at w id)) as [->|(-> & -> & _)]; done.
  - intros k' id' i. unfold channel.
    destruct (Hem id') as [->|[-> ->]]; [done|].
    destruct (Hch k' i (em_at w id)) as [->|(-> & -> & ->)]; [done|].
    apply Hg.
  - intros k' id'. destruct (Hem id') as [->|[-> ->]]; [done|].
    by destruct k, k'.
  - intros id'. destruct (Hem id') as [->|[-> ->]]; [done|].
    by destruct k.
Qed.

Section RaiseFrame.
Variable USE_ITLK : bool.
Variable ps_turn_off : nat -> Z -> machine -> machine.

Local Abbreviation set_interlock := (set_interlock USE_ITLK ps_turn_off).
Local Abbreviation itlk_action := (itlk_action USE_ITLK ps_turn_off).

Lemma itlk_action_managers id w :
  g_event_manager (itlk_action id w) = g_event_manager w.
Proof. unfold EventManager.itlk_action. by destruct USE_ITLK. Qed.

Lemma set_interlock_only_channel k id itlk w :
  only_channel k id itlk w (set_interlock k id itlk w).
Proof.
  assert (Hf : forall v e, debounce_count (set_flag v e) = debounce_count e /\
                           reset_count (set_flag v e) = reset_count e) by done.
  assert (Hc : forall v e,
    debounce_count (set_counter v e) = debounce_count e /\
    reset_count (set_counter v e) = reset_count e)
    by done.
  destruct k; cbn [EventManager.set_interlock].
  - unfold EventManager.set_hard_interlock.
    destruct (_ <? _)%nat; [|by apply only_channel_refl].
    cbn zeta.
    set (w1 := upd_em id (upd_hard (upd_event itlk (set_flag 1))) w).
    assert (H1 : only_channel Hard id itlk w w1)
      by apply (only_channel_upd Hard id itlk (set_flag 1) w), Hf.
    destruct (_ <=? _); [|exact H1].
    eapply only_channel_trans; [exact H1|].
    eapply only_channel_trans;
      [|apply (only_channel_upd Hard id itlk (set_counter 0)), Hc].
    eapply only_channel_trans;
      [|apply (only_channel_upd Hard id itlk (set_flag 0)), Hf].
    destruct (_ =? 0); apply only_channel_refl; [|done].
    cbn [g_event_manager upd_machine set_g_machine].
    apply itlk_action_managers.
  - unfold EventManager.set_soft_interlock.
    destruct (_ <? _)%nat; [|by apply only_channel_refl].
    cbn zeta.
    set (w1 := upd_em id (upd_soft (upd_event itlk (set_flag 1))) w).
    assert (H1 : only_channel Soft id itlk w w1)
      by apply (only_channel_upd Soft id itlk (set_flag 1) w), Hf.
    destruct (_ <=? _); [|exact H1].
    eapply only_channel_trans; [exact H1|].
    eapply only_channel_trans;
      [|apply (only_channel_upd Soft id itlk (set_counter 0)), Hc].
    eapply only_channel_trans;
      [|apply (only_channel_upd Soft id itlk (set_flag 0)), Hf].
    destruct (_ =? 0); apply only_channel_refl; [|done].
    cbn [g_event_manager upd_machine set_g_machine].
    apply itlk_action_managers.
Qed.

Lemma set_interlock_inexistent k id itlk w :
  (num_events (interlocks_of k (em_at w id)) <= itlk)%nat ->
  set_interlock k id itlk w = w.
Proof.
  intros H. destruct k; cbn [EventManager.set_interlock interlocks_of] in *.
  - unfold EventManager.set_hard_interlock.
    by destruct (Nat.ltb_spec itlk (num_events (hard_interlocks (em_at w id))));
      [lia|].
  - unfold EventManager.set_soft_interlock.
    by destruct (Nat.ltb_spec itlk (num_events (soft_interlocks (em_at w id))));
      [lia|].
Qed.

(** Property X7.  [set_hard_interlock] and [set_soft_interlock] work on
    one channel: every other channel of either kind and of every
    manager is unchanged, no debounce or reset threshold, channel
    count, tick flag or time base changes, and a channel at or above
    the configured count leaves the whole state as it is.
    [isr_hard_interlock] and [isr_soft_interlock] are these calls on
    the module and the channel number the other core sent. *)
Theorem set_interlock_frame k id itlk w :
  let w' := set_interlock k id itlk w in
  (forall k' id' i,
     (k', id', i) <> (k, id, itlk) ->
     channel k' w' id' i = channel k' w id' i) /\
  (forall k' id' i,
     debounce_count (channel k' w' id' i) =
       debounce_count (channel k' w id' i) /\
     reset_count (channel k' w' id' i) = reset_count (channel k' w id' i)) /\
  (forall k' id',
     num_events (interlocks_of k' (em_at w' id')) =
       num_events (interlocks_of k' (em_at w id'))) /\
  (forall id',
     timebase_flag (em_at w' id') = timebase_flag (em_at w id') /\
     freq_timebase (em_at w' id') = freq_timebase (em_at w id')) /\
  ((num_events (interlocks_of k (em_at w id)) <= itlk)%nat -> w' = w) /\
  (forall mtoc,
     isr_hard_interlock USE_ITLK ps_turn_off mtoc w =
       set_interlock Hard (msg_id mtoc)
         (Z.to_nat (ps_hard_interlock (mtoc_module_at mtoc (msg_id mtoc)))) w /\
     isr_soft_interlock USE_ITLK ps_turn_off mtoc w =
       set_interlock Soft (msg_id mtoc)
         (Z.to_nat (ps_soft_interlock (mtoc_module_at mtoc (msg_id mtoc)))) w).
Proof.
  cbn zeta.
  destruct (set_interlock_only_channel k id itlk w) as (A & B & C & D).
  split; [exact A|]. split; [exact B|]. split; [exact C|].
  split; [exact D|]. split; [apply set_interlock_inexistent|].
  intros mtoc. by split.
Qed.
End RaiseFrame.

Lemma debounce_event_thresholds e :
  debounce_count (debounce_event e) = debounce_count e /\
  reset_count (debounce_event e) = reset_count e.
Proof.
  unfold debounce_event. destruct (negb _); [|done]. cbn zeta.
  by destruct (_ <=? _).
Qed.

Lemma debounce_event_flag e :
  flag (debounce_event e) = 0 \/ flag (debounce_event e) = flag e.
Proof.
  unfold debounce_event. destruct (negb _); [|by right]. cbn zeta.
  destruct (_ <=? _); [by left|by right].
Qed.

(** Channel [i] of a debounced set: the step of the channel when it is
    configured and in the array, the channel as it was otherwise. *)
Lemma debounce_interlocks_event_cases s i :
  event_at (debounce_interlocks s) i = debounce_event (event_at s i) \/
  event_at (debounce_interlocks s) i = event_at s i.
Proof.
  unfold debounce_interlocks, event_at.
  rewrite (foldl_upd_event_lookup _ (fun _ => debounce_event)).
  destruct (_ <? _)%nat; [|by right].
  destruct (event s !! i); [by left|by right].
Qed.

Lemma run_at_event_cases k em i :
  event_at (interlocks_of k (run_interlocks_debouncing_at em)) i =
    debounce_event (event_at (interlocks_of k em) i) \/
  event_at (interlocks_of k (run_interlocks_debouncing_at em)) i =
    event_at (interlocks_of k em) i.
Proof.
  unfold run_interlocks_debouncing_at. destruct (negb _); [|by right].
  destruct k; cbn; apply debounce_interlocks_event_cases.
Qed.

Lemma run_at_num_events k em :
  num_events (interlocks_of k (run_interlocks_debouncing_at em)) =
  num_events (interlocks_of k em).
Proof.
  unfold run_interlocks_debouncing_at. destruct (negb _); [|done].
  destruct k; cbn; apply debounce_interlocks_num.
Qed.

Lemma run_at_event_other k em i :
  (num_events (interlocks_of k em) <= i)%nat ->
  event_at (interlocks_of k (run_interlocks_debouncing_at em)) i =
  event_at (interlocks_of k em) i.
Proof.
  intros H. unfold run_interlocks_debouncing_at. destruct (negb _); [|done].
  destruct k; cbn; by apply debounce_interlocks_event_other.
Qed.

Lemma run_at_no_tick em :
  timebase_flag em = 0 -> run_interlocks_debouncing_at em = em.
Proof. intros H. unfold run_interlocks_debouncing_at. by rewrite H. Qed.

Lemma em_at_run_cases id w j :
  em_at (run_interlocks_debouncing id w) j = em_at w j \/
  (j = id /\
   em_at (run_interlocks_debouncing id w) j =
     run_interlocks_debouncing_at (em_at w j)).
Proof.
  unfold run_interlocks_debouncing. rewrite em_at_upd_em_any.
  case_decide as H; [|by left]. subst. unfold em_at.
  destruct (g_event_manager w !! j); [by right|by left].
Qed.

(** Property X8.  [run_interlocks_debouncing] touches the event manager
    of its module only: the modules and the record of [turn_off] calls
    are unchanged, so it neither latches nor clears an interlock; it
    leaves the tick flag at zero and does nothing without a tick, hence
    nothing when called twice in a row; channels whose flag is down or
    that are not configured are unchanged, no flag is raised, and no
    threshold or channel count changes. *)
Theorem run_interlocks_debouncing_frame id w :
  let w' := run_interlocks_debouncing id w in
  g_machine w' = g_machine w /\
  turn_off_calls w' = turn_off_calls w /\
  (forall j, j <> id -> em_at w' j = em_at w j) /\
  timebase_flag (em_at w' id) = 0 /\
  (timebase_flag (em_at w id) = 0 -> w' = w) /\
  run_interlocks_debouncing id w' = w' /\
  (forall k j i,
     flag (channel k w j i) = 0 ->
     channel k w' j i = channel k w j i) /\
  (forall k j i,
     (num_events (interlocks_of k (em_at w j)) <= i)%nat ->
     channel k w' j i = channel k w j i) /\
  (forall k j i,
     (flag (channel k w' j i) = 0 \/
      flag (channel k w' j i) = flag (channel k w j i)) /\
     debounce_count (channel k w' j i) = debounce_count (channel k w j i) /\
     reset_count (channel k w' j i) = reset_count (channel k w j i) /\
     num_events (interlocks_of k (em_at w' j)) =
       num_events (interlocks_of k (em_at w j))).
Proof.
  cbn zeta.
  split; [done|]. split; [done|].
  split.
  { intros j Hne. destruct (em_at_run_cases id w j) as [H|[H _]]; done. }
  split.
  { unfold run_interlocks_debouncing.
    rewrite em_at_upd_em_any. case_decide; [|done].
    destruct (g_event_manager w !! id); [|done].
    apply timebase_flag_run_at. }
  split.
  { intros H. apply upd_em_fixed. by apply run_at_no_tick. }
  split.
  { unfold run_interlocks_debouncing. rewrite upd_em_compose.
    apply upd_em_ext. intros em. cbn. apply run_at_idempotent. }
  split.
  { intros k j i Hf. unfold channel in *.
    destruct (em_at_run_cases id w j) as [->|[_ ->]]; [done|].
    destruct (run_at_event_cases k (em_at w j) i) as [->| ->]; [|done].
    by apply debounce_event_idle. }
  split.
  { intros k j i Hn. unfold channel.
    destruct (em_at_run_cases id w j) as [->|[_ ->]]; [done|].
    by apply run_at_event_other. }
  intros k j i. unfold channel.
  destruct (em_at_run_cases id w j) as [->|[_ ->]];
    [by repeat split; try right|].
  rewrite run_at_num_events.
  destruct (run_at_event_cases k (em_at w j) i) as [->| ->];
    [|by repeat split; try right].
  destruct (debounce_event_thresholds
              (event_at (interlocks_of k (em_at w j)) i)) as [-> ->].
  split; [apply debounce_event_flag|done].
Qed.

(** *** The time-base interrupt *)

Lemma em_at_set_flag id w j :
  (id < length (g_event_manager w))%nat ->
  em_at (SET_INTERLOCKS_TIMEBASE_FLAG id w) j =
  if decide (id = j) then set_timebase_flag 1 (em_at w j) else em_at w j.
Proof.
  intros Hl. unfold SET_INTERLOCKS_TIMEBASE_FLAG. rewrite em_at_upd_em_any.
  case_decide as H; [|done]. subst. unfold em_at.
  by destruct (lookup_lt_is_Some_2 _ _ Hl) as [em ->].
Qed.

Lemma length_set_flag id w :
  length (g_event_manager (SET_INTERLOCKS_TIMEBASE_FLAG id w)) =
  length (g_event_manager w).
Proof. apply length_upd_em. Qed.

Lemma em_at_isr w j :
  length (g_event_manager w) = NUM_MAX_PS_MODULES ->
  em_at (isr_interlocks_timebase w) j =
  if (j <? NUM_MAX_PS_MODULES)%nat then set_timebase_flag 1 (em_at w j)
  else em_at w j.
Proof.
  intros Hl. unfold isr_interlocks_timebase.
  rewrite !em_at_set_flag by (rewrite ?length_set_flag, Hl; cbv; lia).
  unfold NUM_MAX_PS_MODULES.
  do 4 (destruct j as [|j]; [done|]). done.
Qed.

Lemma world_eq w1 w2 :
  g_event_manager w1 = g_event_manager w2 ->
  g_machine w1 = g_machine w2 ->
  turn_off_calls w1 = turn_off_calls w2 -> w1 = w2.
Proof. destruct w1, w2. cbn. by intros -> -> ->. Qed.

Lemma length_isr w :
  length (g_event_manager (isr_interlocks_timebase w)) =
  length (g_event_manager w).
Proof.
  unfold isr_interlocks_timebase. by rewrite !length_set_flag.
Qed.

Lemma isr_machine w :
  g_machine (isr_interlocks_timebase w) = g_machine w /\
  turn_off_calls (isr_interlocks_timebase w) = turn_off_calls w.
Proof. done. Qed.

(** Property X9.  [isr_interlocks_timebase] raises the tick flag of the
    four managers and changes nothing else.  Ticks are not counted: a
    second interrupt before the background loop has run leaves the
    state as the first did.  [run_interlocks_debouncing] of one module
    consumes the tick of that module and leaves the others pending. *)
Theorem isr_interlocks_timebase_ticks w :
  length (g_event_manager w) = NUM_MAX_PS_MODULES ->
  let w' := isr_interlocks_timebase w in
  (forall id, (id < NUM_MAX_PS_MODULES)%nat ->
     timebase_flag (em_at w' id) = 1) /\
  (forall id,
     freq_timebase (em_at w' id) = freq_timebase (em_at w id) /\
     hard_interlocks (em_at w' id) = hard_interlocks (em_at w id) /\
     soft_interlocks (em_at w' id) = soft_interlocks (em_at w id)) /\
  g_machine w' = g_machine w /\
  turn_off_calls w' = turn_off_calls w /\
  isr_interlocks_timebase w' = w' /\
  (forall id j, (j < NUM_MAX_PS_MODULES)%nat ->
     timebase_flag (em_at (run_interlocks_debouncing id w') j) =
       if decide (j = id) then 0 else 1).
Proof.
  intros Hl. cbn zeta.
  split.
  { intros id Hid. rewrite em_at_isr by done.
    by destruct (Nat.ltb_spec id NUM_MAX_PS_MODULES); [|lia]. }
  split.
  { intros id. rewrite em_at_isr by done. by destruct (_ <? _)%nat. }
  split; [done|]. split; [done|].
  split.
  { apply world_eq; [|done..].
    apply list_eq. intros j.
    assert (Hl' := length_isr w).
    assert (Hl'' := length_isr (isr_interlocks_timebase w)).
    pose proof (em_at_isr (isr_interlocks_timebase w) j
                  ltac:(by rewrite length_isr)) as H1.
    pose proof (em_at_isr w j Hl) as H2.
    destruct (decide (j < NUM_MAX_PS_MODULES)%nat) as [Hj|Hj].
    - destruct (Nat.ltb_spec j NUM_MAX_PS_MODULES); [|lia].
      rewrite H2 in H1. unfold em_at in H1, H2.
      destruct (lookup_lt_is_Some_2
                  (g_event_manager
                     (isr_interlocks_timebase (isr_interlocks_timebase w))) j
                  ltac:(lia)) as [a Ha].
      destruct (lookup_lt_is_Some_2
                  (g_event_manager (isr_interlocks_timebase w)) j
                  ltac:(lia)) as [b Hb].
      rewrite Ha in H1 |- *. rewrite Hb in H2 |- *. cbn in H1, H2.
      f_equal. by rewrite H1, H2.
    - rewrite !lookup_ge_None_2 by lia. done. }
  intros id j Hj.
  unfold run_interlocks_debouncing. rewrite em_at_upd_em_any.
  destruct (decide (id = j)) as [->|Hne].
  - rewrite decide_True by done.
    destruct (g_event_manager (isr_interlocks_timebase w) !! j); [|done].
    apply timebase_flag_run_at.
  - rewrite decide_False by done.
    rewrite em_at_isr by done.
    by destruct (Nat.ltb_spec j NUM_MAX_PS_MODULES); [|lia].
Qed.

Lemma isr_interlocks_timebase_ticks_witness :
  length (g_event_manager w_raised) = NUM_MAX_PS_MODULES /\
  timebase_flag (em_at (isr_interlocks_timebase w_raised) 0) = 1 /\
  isr_interlocks_timebase (isr_interlocks_timebase w_raised) =
    isr_interlocks_timebase w_raised.
Proof.
  assert (Hl : length (g_event_manager w_raised) = NUM_MAX_PS_MODULES)
    by (vm_compute; reflexivity).
  split; [exact Hl|].
  destruct (isr_interlocks_timebase_ticks w_raised Hl)
    as (A & _ & _ & _ & B & _).
  split; [apply A; unfold NUM_MAX_PS_MODULES; lia|exact B].
Defined.

End EventManagerLaws.

(** ** The parameter bank: further properties *)

Module ParametersLaws.

Import F32 Parameters ParametersProofs.

Lemma bank_eq b1 b2 :
  g_parameters b1 = g_parameters b2 -> memory b1 = memory b2 -> b1 = b2.
Proof. destruct b1, b2. cbn. by intros -> ->. Qed.

Lemma set_param_store i n v b :
  set_param i n v b =
  if Z.of_nat n <? num_elements (param_at b i)
  then (store_as (type (param_at b i)) (p_val (param_at b i)) n v b, 1)
  else (b, 0).
Proof.
  unfold set_param. cbn zeta. destruct (_ <? _); [|done].
  by destruct (type _).
Qed.

Lemma get_param_load j m b :
  get_param j m b =
  if Z.of_nat m <? num_elements (param_at b j)
  then load_as (type (param_at b j)) b (p_val (param_at b j)) m
  else nan.
Proof.
  unfold get_param. cbn zeta. destruct (_ <? _); [|done].
  by destruct (type _).
Qed.

Lemma g_parameters_store_as ty p n v b :
  g_parameters (store_as ty p n v b) = g_parameters b.
Proof. by destruct ty. Qed.

Lemma param_at_store_as ty p n v b i :
  param_at (store_as ty p n v b) i = param_at b i.
Proof. by destruct ty. Qed.

Lemma memory_store_as ty p n v b a :
  ~ (fst (element ty p n) <= a < snd (element ty p n))%nat ->
  memory (store_as ty p n v b) !! a = memory b !! a.
Proof.
  unfold element. intros Ha.
  destruct ty; unfold store_as, store_f32, store_u32, store_u16;
    cbn [memory size_of fst snd] in *.
  - rewrite lookup_insert_ne; [done|lia].
  - rewrite !lookup_insert_ne; [done|lia|lia].
  - rewrite !lookup_insert_ne; [done|lia|lia].
Qed.

Lemma load_as_words ty p n b b' :
  (forall a, (fst (element ty p n) <= a < snd (element ty p n))%nat ->
     memory b' !! a = memory b !! a) ->
  load_as ty b' p n = load_as ty b p n.
Proof.
  unfold element. intros H.
  destruct ty; cbn [load_as load_u16 load_u32 load_f32 size_of fst snd] in *;
    unfold load_f32, load_u32, load_u16, word.
  - rewrite (H (p + n)%nat) by lia. done.
  - rewrite (H (p + 2 * n)%nat), (H (p + 2 * n + 1)%nat) by lia. done.
  - rewrite (H (p + 2 * n)%nat), (H (p + 2 * n + 1)%nat) by lia. done.
Qed.

Lemma load_as_store_as ty p n v b :
  representable ty v = true ->
  load_as ty (store_as ty p n v b) p n = stored_value ty v.
Proof.
  intros Hv.
  destruct ty; cbn [load_as store_as stored_value representable] in *.
  - by rewrite load_store_u16, to_uint_in_range.
  - by rewrite load_store_u32, to_uint_in_range.
  - by apply load_store_f32.
Qed.

Lemma store_as_store_as ty p n v1 v2 b :
  store_as ty p n v2 (store_as ty p n v1 b) = store_as ty p n v2 b.
Proof.
  destruct ty; unfold store_as, store_f32, store_u32, store_u16;
    apply bank_eq; cbn [g_parameters memory]; try done.
  - apply insert_insert_eq.
  - rewrite (insert_insert_ne _ (p + 2 * n)%nat (p + 2 * n + 1)%nat) by lia.
    rewrite insert_insert_eq. by rewrite insert_insert_eq.
  - rewrite (insert_insert_ne _ (p + 2 * n)%nat (p + 2 * n + 1)%nat) by lia.
    rewrite insert_insert_eq. by rewrite insert_insert_eq.
Qed.

Lemma store_as_commute ty1 p n v1 ty2 q m v2 b :
  apart (element ty1 p n) (element ty2 q m) ->
  store_as ty2 q m v2 (store_as ty1 p n v1 b) =
  store_as ty1 p n v1 (store_as ty2 q m v2 b).
Proof.
  unfold apart, element. intros H.
  apply bank_eq; [by rewrite !g_parameters_store_as|].
  apply map_eq. intros a.
  destruct ty1, ty2;
    unfold store_as, store_f32, store_u32, store_u16;
    cbn [memory size_of fst snd] in *;
    rewrite !lookup_insert; repeat case_decide; try done; lia.
Qed.

Lemma element_of_words s n : element_of s n = element (type s) (p_val s) n.
Proof. reflexivity. Qed.

(** Property X10.  [set_param] never changes the table of slots and
    writes the words of one element at most: its result is 1 exactly
    for an index below the element count, a result of 0 leaves the
    bank as it was, every word outside the element keeps its content,
    a read through any slot of an element that has no word in common
    with the one written returns what it did, and what a later
    [set_param] returns is not affected. *)
Theorem set_param_frame i n v b :
  let b' := fst (set_param i n v b) in
  let r := snd (set_param i n v b) in
  g_parameters b' = g_parameters b /\
  (r = (if Z.of_nat n <? num_elements (param_at b i) then 1 else 0)) /\
  (r = 0 -> b' = b) /\
  (forall a,
     ~ (fst (element_of (param_at b i) n) <= a
        < snd (element_of (param_at b i) n))%nat ->
     memory b' !! a = memory b !! a) /\
  (forall j m,
     apart (element_of (param_at b j) m) (element_of (param_at b i) n) ->
     get_param j m b' = get_param j m b) /\
  (forall j m u, snd (set_param j m u b') = snd (set_param j m u b)).
Proof.
  cbn zeta. rewrite set_param_store.
  destruct (Z.of_nat n <? num_elements (param_at b i)) eqn:E; cbn [fst snd].
  - split; [apply g_parameters_store_as|]. split; [done|]. split; [done|].
    split; [|split].
    + intros a Ha. by apply memory_store_as.
    + intros j m Hap. rewrite !get_param_load, param_at_store_as.
      destruct (Z.of_nat m <? _); [|done].
      apply load_as_words. intros a Ha. apply memory_store_as.
      rewrite !element_of_words in *. unfold apart in Hap. lia.
    + intros j m u. rewrite !set_param_store, !param_at_store_as.
      destruct (Z.of_nat m <? _); reflexivity.
  - done.
Qed.

(** Property X11.  Two writes compose as on a store: a second
    [set_param] of the same element overrides the first (the bank is
    that of the second write alone, and [get_param] returns the second
    value as the slot stores it, when its conversion is defined), and
    writes to elements that have no word in common commute. *)
Theorem set_param_compose i n v1 v2 j m b :
  let set i n v b := fst (set_param i n v b) in
  set i n v2 (set i n v1 b) = set i n v2 b /\
  (apart (element_of (param_at b i) n) (element_of (param_at b j) m) ->
   set j m v2 (set i n v1 b) = set i n v1 (set j m v2 b)) /\
  (Z.of_nat n < num_elements (param_at b i) ->
   representable (type (param_at b i)) v2 = true ->
   get_param i n (set i n v2 (set i n v1 b)) =
     stored_value (type (param_at b i)) v2).
Proof.
  cbn zeta.
  assert (Hs : forall i n v b,
    fst (set_param i n v b) =
    if Z.of_nat n <? num_elements (param_at b i)
    then store_as (type (param_at b i)) (p_val (param_at b i)) n v b
    else b).
  { intros. rewrite set_param_store. by destruct (_ <? _). }
  assert (Hp : forall i n v b k,
    param_at (fst (set_param i n v b)) k = param_at b k).
  { intros. rewrite Hs. destruct (_ <? _); [|done]. apply param_at_store_as. }
  assert (H1 : fst (set_param i n v2 (fst (set_param i n v1 b))) =
               fst (set_param i n v2 b)).
  { rewrite (Hs i n v2 (fst _)), Hp, (Hs i n v2 b), Hs.
    destruct (_ <? _); [|done]. apply store_as_store_as. }
  split; [exact H1|]. split.
  - intros Hne.
    rewrite (Hs j m v2 (fst _)), (Hs i n v1 (fst _)), !Hp, !Hs.
    destruct (_ <? _), (_ <? _); try done. by apply store_as_commute.
  - intros Hn Hv. rewrite H1.
    by apply (set_param_get_param_cases b i n v2).
Qed.

Lemma init_param_bound i ty nelem p b :
  0 < nelem ->
  init_param i ty nelem p b =
  mk_bank (<[i := mk_param i ty nelem p]> (g_parameters b)) (memory b).
Proof.
  intros H. unfold init_param. by destruct (Z.ltb_spec 0 nelem); [|lia].
Qed.

(** Property X12.  [init_param] with a positive count binds the slot
    and nothing else: the other slots and the memory are unchanged, a
    second call with the same arguments changes nothing, indexes at or
    above the new count are refused, and the slot is a view of the
    memory: a value written before through another slot of the same
    address and type, whose conversion to that type is defined, is
    read through the new one as that slot stored it. *)
Theorem init_param_binds j ty nelem p b :
  0 < nelem ->
  let b' := init_param j ty nelem p b in
  param_at b' j = mk_param j ty nelem p /\
  (forall i, i <> j -> param_at b' i = param_at b i) /\
  memory b' = memory b /\
  init_param j ty nelem p b' = b' /\
  (forall i n, i <> j -> get_param i n b' = get_param i n b) /\
  (forall n v,
     nelem <= Z.of_nat n ->
     get_param j n b' = nan /\ set_param j n v b' = (b', 0)) /\
  (forall i n v,
     p_val (param_at b i) = p ->
     type (param_at b i) = ty ->
     Z.of_nat n < num_elements (param_at b i) ->
     Z.of_nat n < nelem ->
     representable ty v = true ->
     get_param j n (init_param j ty nelem p (fst (set_param i n v b))) =
       stored_value ty v).
Proof.
  intros Hn. cbn zeta.
  assert (Hj : forall b,
    param_at (init_param j ty nelem p b) j = mk_param j ty nelem p)
    by (intros; by apply init_param_slot).
  assert (Hi : forall i, i <> j ->
    param_at (init_param j ty nelem p b) i = param_at b i).
  { intros i Hne. rewrite init_param_bound by done. unfold param_at.
    cbn [g_parameters]. by rewrite lookup_insert_ne. }
  split; [apply Hj|]. split; [exact Hi|].
  split; [by rewrite init_param_bound|].
  split.
  { rewrite !init_param_bound by done. cbn [g_parameters memory].
    by rewrite insert_insert_eq. }
  split.
  { intros i n Hne. rewrite !get_param_load, (Hi i Hne).
    destruct (_ <? _); [|done]. apply load_as_words. intros a _.
    by rewrite init_param_bound. }
  split.
  { intros n v Hge.
    destruct (set_param_get_param_cases (init_param j ty nelem p b) j n v)
      as [_ H].
    rewrite Hj in H. destruct (H Hge) as [H1 H2]. by split. }
  intros i n v Hp Hty Hlt Hlt' Hv.
  rewrite set_param_store.
  destruct (Z.ltb_spec (Z.of_nat n) (num_elements (param_at b i))); [|lia].
  cbn [fst]. rewrite Hp, Hty.
  rewrite get_param_load, Hj. cbn [num_elements type p_val].
  destruct (Z.ltb_spec (Z.of_nat n) nelem); [|lia].
  rewrite <- (load_as_store_as ty p n v b Hv).
  apply load_as_words. intros a _. by rewrite init_param_bound.
Qed.

Lemma init_param_binds_witness :
  0 < 4 /\
  param_at (init_param 2 is_float 4 7 bank_zero) 2 = mk_param 2 is_float 4 7 /\
  get_param 2 4 (init_param 2 is_float 4 7 bank_zero) = nan /\
  get_param 2 1
    (init_param 2 is_uint16_t 4 16
       (fst (set_param 1 1 (of_dyadic 5 (-1))
               (init_param 1 is_uint16_t 2 16 bank_zero)))) = of_Z 2.
Proof.
  assert (H : 0 < 4) by lia.
  split; [exact H|].
  destruct (init_param_binds 2 is_float 4 7 bank_zero H)
    as (A & _ & _ & _ & _ & B & _).
  split; [exact A|]. split; [apply (B 4%nat zero); lia|].
  destruct (init_param_binds 2 is_uint16_t 4 16
              (init_param 1 is_uint16_t 2 16 bank_zero) H)
    as (_ & _ & _ & _ & _ & _ & C).
  apply (C 1%nat 1%nat (of_dyadic 5 (-1))); vm_compute; reflexivity.
Defined.

End ParametersLaws.

(** ** FAP-4P: [turn_off] and the interlock checks *)

Module Fap4pInterlocksProofs.

Import F32 PsModules Control Fap4p EventManager.
Import PsModuleProofs EventManagerProofs EventManagerIsr.
Import EventManagerLaws Fap4pInterlocks.

(** *** What [turn_off] leaves alone *)

Section ModuleFrame.
Context {A : Type} (g : ps_module_t -> A) (j : nat).
Hypothesis g_openloop : forall v p, g (set_ps_openloop v p) = g p.
Hypothesis g_setpoint : forall v p, g (set_ps_setpoint v p) = g p.
Hypothesis g_reference : forall v p, g (set_ps_reference v p) = g p.
Hypothesis g_state : j = 0%nat -> forall v p, g (set_ps_state v p) = g p.

Lemma frame_upd_module i f m :
  (forall p, g (f p) = g p) ->
  g (module_at (upd_module i f m) j) = g (module_at m j).
Proof.
  intros Hf. rewrite module_at_alter. case_decide; [subst|done].
  unfold module_at. by destruct (ps_module m !! j).
Qed.

Lemma frame_upd_state v m :
  g (module_at (upd_module 0 (set_ps_state v) m) j) = g (module_at m j).
Proof.
  rewrite module_at_alter. case_decide as H; [subst|done].
  unfold module_at. destruct (ps_module m !! 0%nat); [|done].
  by apply g_state.
Qed.

Lemma frame_write_signal r v m :
  g (module_at (write_signal r v m) j) = g (module_at m j).
Proof.
  destruct r; cbn [write_signal]; try reflexivity;
    by apply frame_upd_module.
Qed.

Lemma frame_reset_dsp_pi i m :
  g (module_at (reset_dsp_pi i m) j) = g (module_at m j).
Proof.
  unfold reset_dsp_pi. destruct (dsp_pi m !! i); [|done].
  by rewrite frame_write_signal.
Qed.

Lemma frame_reset_dsp_srlim i m :
  g (module_at (reset_dsp_srlim i m) j) = g (module_at m j).
Proof.
  unfold reset_dsp_srlim. destruct (dsp_srlim m !! i); [|done].
  by rewrite frame_write_signal.
Qed.

Lemma frame_reset_dsp_error i m :
  g (module_at (reset_dsp_error i m) j) = g (module_at m j).
Proof.
  unfold reset_dsp_error. destruct (dsp_error m !! i); [|done].
  by rewrite frame_write_signal.
Qed.

Lemma frame_reset_controller m :
  g (module_at (reset_controller m) j) = g (module_at m j).
Proof.
  unfold reset_controller.
  rewrite module_at_reset_wfmref, module_at_disable_siggen.
  rewrite !frame_reset_dsp_srlim, !frame_reset_dsp_pi, frame_reset_dsp_error,
    frame_reset_dsp_srlim, !frame_write_signal.
  by rewrite frame_upd_module by apply g_openloop.
Qed.

Lemma frame_turn_off dummy m :
  g (module_at (turn_off dummy m) j) = g (module_at m j).
Proof.
  rewrite turn_off_unfold. cbn zeta.
  destruct (negb _); rewrite ?frame_upd_state, frame_reset_controller; done.
Qed.
End ModuleFrame.

Lemma turn_off_masks k dummy m j :
  mask_of k (module_at (turn_off dummy m) j) = mask_of k (module_at m j).
Proof. apply (frame_turn_off (mask_of k) j); by destruct k. Qed.

Lemma turn_off_other_state dummy m j :
  j <> 0%nat ->
  ps_state (module_at (turn_off dummy m) j) = ps_state (module_at m j).
Proof. intros H. by apply (frame_turn_off ps_state j). Qed.

Section MachineFrame.
Context {A : Type} (proj : machine -> A).
Hypothesis proj_ps_module : forall v m, proj (set_ps_module v m) = proj m.
Hypothesis proj_SIGGEN : forall v m, proj (set_SIGGEN v m) = proj m.
Hypothesis proj_WFMREF : forall v m, proj (set_WFMREF v m) = proj m.
Hypothesis proj_mtoc_amplitude :
  forall v m, proj (set_mtoc_siggen_amplitude v m) = proj m.
Hypothesis proj_mtoc_offset :
  forall v m, proj (set_mtoc_siggen_offset v m) = proj m.
Hypothesis proj_dummy_float : forall v m, proj (set_dummy_float v m) = proj m.
Hypothesis proj_net_signals : forall v m, proj (set_net_signals v m) = proj m.
Hypothesis proj_output_signals :
  forall v m, proj (set_output_signals v m) = proj m.
Hypothesis proj_dsp_srlim : forall v m, proj (set_dsp_srlim v m) = proj m.
Hypothesis proj_dsp_pi : forall v m, proj (set_dsp_pi v m) = proj m.
Hypothesis proj_pwm_regs : forall v m, proj (set_pwm_regs v m) = proj m.

Lemma proj_upd_module i f m : proj (upd_module i f m) = proj m.
Proof. apply proj_ps_module. Qed.

Lemma proj_write_signal r v m : proj (write_signal r v m) = proj m.
Proof.
  destruct r; cbn [write_signal]; auto using proj_upd_module.
Qed.

Lemma proj_reset_dsp_pi i m : proj (reset_dsp_pi i m) = proj m.
Proof.
  unfold reset_dsp_pi. destruct (dsp_pi m !! i); [|done].
  by rewrite proj_write_signal, proj_dsp_pi.
Qed.

Lemma proj_reset_dsp_srlim i m : proj (reset_dsp_srlim i m) = proj m.
Proof.
  unfold reset_dsp_srlim. destruct (dsp_srlim m !! i); [|done].
  by rewrite proj_write_signal, proj_dsp_srlim.
Qed.

Lemma proj_reset_dsp_error i m : proj (reset_dsp_error i m) = proj m.
Proof.
  unfold reset_dsp_error. destruct (dsp_error m !! i); [|done].
  by rewrite proj_write_signal.
Qed.

Lemma proj_reset_controller m : proj (reset_controller m) = proj m.
Proof.
  unfold reset_controller, reset_wfmref, disable_siggen.
  rewrite proj_WFMREF, proj_SIGGEN.
  rewrite !proj_reset_dsp_srlim, !proj_reset_dsp_pi, proj_reset_dsp_error,
    proj_reset_dsp_srlim, !proj_write_signal, proj_upd_module.
  unfold set_pwm_duty_chA. by rewrite !proj_pwm_regs.
Qed.

Lemma proj_turn_off dummy m :
  proj (turn_off dummy m) = proj (outputs_off m).
Proof.
  rewrite turn_off_unfold. cbn zeta.
  destruct (negb _); by rewrite ?proj_upd_module, proj_reset_controller.
Qed.
End MachineFrame.

Lemma gpdi_upd_module i f m : gpdi (upd_module i f m) = gpdi m.
Proof. reflexivity. Qed.

Lemma gpdi_turn_off dummy m : gpdi (turn_off dummy m) = gpdi m.
Proof. by rewrite (proj_turn_off gpdi). Qed.

Lemma LOOP_STATE_turn_off dummy m :
  LOOP_STATE (turn_off dummy m) = LOOP_STATE m.
Proof. by rewrite (proj_turn_off LOOP_STATE). Qed.

Lemma gpdo_turn_off dummy m :
  gpdo (turn_off dummy m) =
  <[3%nat := false]>
    (<[2%nat := false]> (<[1%nat := false]> (<[0%nat := false]> (gpdo m)))).
Proof. by rewrite (proj_turn_off gpdo). Qed.

Lemma pwm_enabled_ext m m' i :
  pwm_regs m = pwm_regs m' -> pwm_enabled m i = pwm_enabled m' i.
Proof. unfold pwm_enabled. by intros ->. Qed.

Lemma pwm_off_ext m m' n :
  pwm_regs m = pwm_regs m' -> pwm_off n m -> pwm_off n m'.
Proof. unfold pwm_off. by intros ->. Qed.

Lemma pwm_enabled_alter f j m m' i :
  (forall p, pwm_output_enabled (f p) = true -> pwm_output_enabled p = true) ->
  pwm_regs m' = alter f j (pwm_regs m) ->
  pwm_enabled m' i = true -> pwm_enabled m i = true.
Proof.
  intros Hf Hr. unfold pwm_enabled. rewrite Hr.
  destruct (decide (j = i)) as [->|Hne].
  - rewrite list_lookup_alter_eq. destruct (pwm_regs m !! i); [|done].
    apply Hf.
  - by rewrite list_lookup_alter_ne.
Qed.

Lemma pwm_enabled_disable j m i :
  pwm_enabled (disable_pwm_output j m) i = true -> pwm_enabled m i = true.
Proof.
  apply (pwm_enabled_alter
           (fun p => mk_pwm_module false (pwm_duty_chA p)) j); done.
Qed.

Lemma pwm_enabled_duty j v m i :
  pwm_enabled (set_pwm_duty_chA j v m) i = true -> pwm_enabled m i = true.
Proof.
  apply (pwm_enabled_alter
           (fun p => mk_pwm_module (pwm_output_enabled p) v) j); done.
Qed.

Lemma pwm_enabled_turn_off dummy m i :
  pwm_enabled (turn_off dummy m) i = true -> pwm_enabled m i = true.
Proof.
  rewrite (pwm_enabled_ext _ _ i (pwm_regs_turn_off dummy m)).
  intros H.
  do 8 apply pwm_enabled_duty in H.
  by do 8 apply pwm_enabled_disable in H.
Qed.

(** *** The relation between two points of the checks *)

Lemma state_step_refl a st : state_step a st st.
Proof. by left. Qed.

Lemma state_step_trans a st1 st2 st3 :
  state_step a st1 st2 -> state_step a st2 st3 -> state_step a st1 st3.
Proof.
  unfold state_step.
  intros [->|[->|(-> & -> & Hd)]] [->|[->|(E & -> & Hd')]];
    try discriminate; auto.
Qed.

Lemma state_step_not_initializing a st st' :
  state_step a st st' -> st <> Initializing -> st' <> Initializing.
Proof. intros [->|[->|(-> & _)]] H; done. Qed.

Lemma guarded_refl a w : guarded a w w.
Proof.
  unfold guarded. cbn zeta. split; [apply state_step_refl|]. done.
Qed.

Lemma guarded_trans a w1 w2 w3 :
  guarded a w1 w2 -> guarded a w2 w3 -> guarded a w1 w3.
Proof.
  unfold guarded. cbn zeta.
  intros (S1 & P1 & M1 & O1 & L1 & E1 & I1) (S2 & P2 & M2 & O2 & L2 & E2 & I2).
  split; [by eapply state_step_trans|].
  split.
  { intros Hst. destruct (P1 Hst) as [Pa Pb].
    destruct (P2 (state_step_not_initializing _ _ _ S1 Hst)) as [Pc Pd].
    split; [intros i H; by apply Pa, Pc|intros H; by apply Pd, Pb]. }
  split; [intros k j b H; by apply M2, M1|].
  split.
  { intros j Hj. destruct (O1 j Hj) as [<- <-]. by apply O2. }
  split; [congruence|]. split; congruence.
Qed.

(** A change of the event manager of module 0 alone. *)
Lemma guarded_upd_em a f w : guarded a w (upd_em 0 f w).
Proof.
  unfold guarded. cbn zeta.
  change (g_machine (upd_em 0 f w)) with (g_machine w).
  split; [apply state_step_refl|]. split; [done|]. split; [done|].
  split; [intros j Hj; by rewrite em_at_upd_em_ne|].
  split; [done|]. split; [apply length_upd_em|done].
Qed.

Lemma mask_or_mask k' k bit p b :
  Z.testbit (mask_of k' p) b = true ->
  Z.testbit (mask_of k' (or_mask k bit p)) b = true.
Proof.
  destruct k, k'; cbn; try done; rewrite Z.lor_spec; by intros ->.
Qed.

Lemma latched_bit_upd_module k' i f m j b :
  (forall p, Z.testbit (mask_of k' p) b = true ->
             Z.testbit (mask_of k' (f p)) b = true) ->
  latched_bit k' m j b = true -> latched_bit k' (upd_module i f m) j b = true.
Proof.
  intros Hf. unfold latched_bit. rewrite module_at_alter.
  case_decide; [subst|done]. unfold module_at.
  destruct (ps_module m !! j); [apply Hf|done].
Qed.

(** The protective action and the latch of a bit, as [fap_set_hard_interlock]
    and [fap_set_soft_interlock] make them. *)
Lemma guarded_latch U a k bit w :
  guarded a w
    (upd_machine (upd_module 0 (or_mask k bit))
       (itlk_action U fap_turn_off 0 w)).
Proof.
  unfold guarded. cbn zeta.
  cbn [g_machine upd_machine set_g_machine g_event_manager].
  rewrite itlk_action_machine, itlk_action_managers.
  set (m := g_machine w).
  assert (Hor : forall m0 j,
    ps_state (module_at (upd_module 0 (or_mask k bit) m0) j) =
    ps_state (module_at m0 j)).
  { intros m0 j. apply (frame_upd_module ps_state j). by destruct k. }
  destruct U.
  - unfold fap_turn_off.
    pose proof (turn_off_modules (Z.of_nat 0) m) as Ht1.
    pose proof (pwm_enabled_turn_off (Z.of_nat 0) m) as Ht2.
    pose proof (turn_off_pwm_off (Z.of_nat 0) m) as Ht3.
    pose proof (fun k' j => turn_off_masks k' (Z.of_nat 0) m j) as Ht4.
    pose proof (turn_off_other_state (Z.of_nat 0) m) as Ht5.
    pose proof (gpdi_turn_off (Z.of_nat 0) m) as Ht6.
    generalize dependent (turn_off (Z.of_nat 0) m). intros mt **.
    assert (Hregs :
      pwm_regs (upd_module 0 (or_mask k bit)
                  (upd_module 0 (set_ps_state Interlock) mt)) = pwm_regs mt)
      by (by rewrite !pwm_regs_upd_module).
    split.
    { unfold ps0_state. rewrite Hor, module_at_alter.
      rewrite decide_True by done.
      destruct (ps_module mt !! 0%nat) eqn:E; [by right; left|].
      left. unfold module_at.
      apply lookup_ge_None_1 in E.
      by rewrite lookup_ge_None_2 by lia. }
    split.
    { intros _. split.
      - intros i H. apply Ht2.
        by rewrite <- (pwm_enabled_ext _ _ i Hregs).
      - intros _. by apply (pwm_off_ext mt). }
    split.
    { intros k' j b H. apply latched_bit_upd_module;
        [intros p; apply mask_or_mask|].
      unfold latched_bit.
      rewrite (frame_upd_module (mask_of k') j) by by destruct k'.
      by rewrite Ht4. }
    split.
    { intros j Hj. split; [done|]. rewrite Hor.
      rewrite (module_at_alter mt 0 j). rewrite decide_False by done.
      by apply Ht5. }
    split.
    { rewrite !length_upd_module. exact Ht1. }
    split; [done|].
    rewrite !gpdi_upd_module. exact Ht6.
  - split; [left; apply Hor|].
    split; [done|].
    split.
    { intros k' j b H. apply latched_bit_upd_module;
        [intros p; apply mask_or_mask|done]. }
    split; [intros j Hj; split; [done|apply Hor]|].
    split; [apply length_upd_module|done].
Qed.

Lemma guarded_set_hard_interlock U a itlk w :
  guarded a w (fap_set_hard_interlock U 0 itlk w).
Proof.
  unfold fap_set_hard_interlock, EventManager.set_hard_interlock.
  destruct (_ <? _)%nat; [|apply guarded_refl]. cbn zeta.
  set (w1 := upd_em 0 (upd_hard (upd_event itlk (set_flag 1))) w).
  assert (H1 : guarded a w w1) by apply guarded_upd_em.
  destruct (_ <=? _); [|exact H1].
  eapply guarded_trans; [|apply guarded_upd_em].
  eapply guarded_trans; [|apply guarded_upd_em].
  eapply guarded_trans; [exact H1|].
  destruct (_ =? 0); [|apply guarded_refl].
  apply (guarded_latch U a Hard (lut itlk) w1).
Qed.

Lemma guarded_set_soft_interlock U a itlk w :
  guarded a w (fap_set_soft_interlock U 0 itlk w).
Proof.
  unfold fap_set_soft_interlock, EventManager.set_soft_interlock.
  destruct (_ <? _)%nat; [|apply guarded_refl]. cbn zeta.
  set (w1 := upd_em 0 (upd_soft (upd_event itlk (set_flag 1))) w).
  assert (H1 : guarded a w w1) by apply guarded_upd_em.
  destruct (_ <=? _); [|exact H1].
  eapply guarded_trans; [|apply guarded_upd_em].
  eapply guarded_trans; [|apply guarded_upd_em].
  eapply guarded_trans; [exact H1|].
  destruct (_ =? 0); [|apply guarded_refl].
  apply (guarded_latch U a Soft (lut itlk) w1).
Qed.

Lemma guarded_when a c f w :
  (forall w, guarded a w (f w)) -> guarded a w (when c f w).
Proof. intros H. unfold when. destruct (c _); [apply H|apply guarded_refl]. Qed.

Lemma guarded_if_else a c f g w :
  (forall w, guarded a w (f w)) -> (forall w, guarded a w (g w)) ->
  guarded a w (if_else c f g w).
Proof. intros Hf Hg. unfold if_else. destruct (c _); [apply Hf|apply Hg]. Qed.

Lemma pwm_regs_enable i m :
  ps_module (enable_pwm_output i m) = ps_module m /\
  gpdi (enable_pwm_output i m) = gpdi m.
Proof. done. Qed.

Lemma guarded_start_regulating a w :
  guarded a w
    (when (fun m => state_eqb (ps0_state m) Initializing)
       (when (fun _ => dclinks_charged a) (upd_machine start_regulating)) w).
Proof.
  unfold when.
  destruct (state_eqb _ _) eqn:Est; [|apply guarded_refl].
  destruct (dclinks_charged a) eqn:Ed; [|apply guarded_refl].
  assert (Hst : ps0_state (g_machine w) = Initializing).
  { unfold state_eqb in Est. apply Z.eqb_eq in Est.
    by destruct (ps0_state (g_machine w)). }
  unfold guarded. cbn zeta.
  cbn [g_machine upd_machine set_g_machine g_event_manager].
  set (m := g_machine w) in *.
  assert (Hm : ps_module (start_regulating m) =
               ps_module (upd_module 0 (set_ps_state SlowRef) m)) by done.
  assert (Hat : forall j, module_at (start_regulating m) j =
                          module_at (upd_module 0 (set_ps_state SlowRef) m) j).
  { intros j. unfold module_at. by rewrite Hm. }
  split.
  { right; right. split; [done|]. split; [|done].
    unfold ps0_state in *. rewrite Hat, module_at_alter.
    rewrite decide_True by done.
    unfold module_at in Hst. by destruct (ps_module m !! 0%nat). }
  split; [done|].
  split.
  { intros k j b H. unfold latched_bit. rewrite Hat.
    by rewrite (frame_upd_module (mask_of k) j) by by destruct k. }
  split.
  { intros j Hj. split; [done|]. rewrite Hat, module_at_alter.
    by rewrite decide_False. }
  split; [rewrite Hm; apply length_upd_module|done].
Qed.

(** *** [check_interlocks] *)

Ltac guarded_step :=
  first
    [ apply guarded_set_hard_interlock
    | apply guarded_set_soft_interlock
    | apply guarded_upd_em
    | apply guarded_when; intros; guarded_step
    | apply guarded_if_else; intros; guarded_step ].

Ltac guarded_chain :=
  lazymatch goal with
  | |- guarded _ ?w ?w => apply guarded_refl
  | |- guarded ?a ?w (?f ?x) =>
      apply (guarded_trans a w x (f x)); [guarded_chain|guarded_step]
  end.

Lemma guarded_check_load_feedback U a active i_load itlk w :
  guarded a w (check_load_feedback U a active i_load itlk w).
Proof. unfold check_load_feedback. guarded_step. Qed.

Lemma guarded_check_welded_contactors U a w :
  guarded a w (check_welded_contactors U w).
Proof. unfold check_welded_contactors. guarded_chain. Qed.

Lemma guarded_check_undervoltage U a w :
  guarded a w (check_undervoltage U a w).
Proof. unfold check_undervoltage. guarded_chain. Qed.

Lemma guarded_check_opened_contactors U a w :
  guarded a w (check_opened_contactors U a w).
Proof.
  unfold check_opened_contactors.
  match goal with
  | |- guarded _ _ (if_else ?c ?f ?g ?x) =>
      apply (guarded_trans a w x); [guarded_chain|]; generalize x
  end.
  intros x. pose proof (guarded_start_regulating a x) as H.
  unfold if_else. unfold when at 1 in H.
  destruct (state_eqb _ _); [exact H|].
  apply guarded_when. intros. apply guarded_check_undervoltage.
Qed.

Lemma guarded_run_interlocks_debouncing a w :
  guarded a w (run_interlocks_debouncing 0 w).
Proof. apply guarded_upd_em. Qed.

Ltac guarded_block :=
  first
    [ apply guarded_set_hard_interlock
    | apply guarded_set_soft_interlock
    | apply guarded_run_interlocks_debouncing
    | apply guarded_check_load_feedback
    | apply guarded_check_welded_contactors
    | apply guarded_check_opened_contactors
    | apply guarded_when; intros; guarded_block
    | apply guarded_if_else; intros; guarded_block ].

Ltac guarded_blocks :=
  lazymatch goal with
  | |- guarded _ ?w ?w => apply guarded_refl
  | |- guarded ?a ?w (?f ?x) =>
      apply (guarded_trans a w x (f x)); [guarded_blocks|guarded_block]
  end.

Lemma check_interlocks_guarded U a w :
  guarded a w (check_interlocks U a w).
Proof. unfold check_interlocks. guarded_blocks. Qed.

Lemma check_interlocks_tick U a w :
  timebase_flag (em_at (check_interlocks U a w) 0) = 0.
Proof.
  unfold check_interlocks.
  match goal with
  | |- context [run_interlocks_debouncing 0 ?x] => generalize x
  end.
  intros x. unfold run_interlocks_debouncing.
  rewrite em_at_upd_em_any. rewrite decide_True by done.
  destruct (g_event_manager x !! 0%nat); [|done].
  apply timebase_flag_run_at.
Qed.

Lemma state_step_below a st st' :
  state_step a st st' ->
  state_code st <= state_code Interlock ->
  state_code st' <= state_code Interlock.
Proof. intros [->|[->|(-> & _)]]; cbn; lia. Qed.

(** Property X14.  One pass of [check_interlocks], in either build and
    for all limits and readings: the state of module 0 is kept, or
    becomes [Interlock], or goes from [Initializing] to [SlowRef], the
    latter only with the four DC-link voltages above their minimum; a
    state of [Off] or [Interlock] stays one of them; unless the state
    was [Initializing] no PWM output is enabled and eight outputs that
    were off stay off; no bit of an interlock mask of any module is
    cleared; the event managers and the states of the other modules
    and the digital inputs are unchanged; the tick of manager 0 is
    consumed. *)
Theorem check_interlocks_guard U a w :
  let w' := check_interlocks U a w in
  let m := g_machine w in
  let m' := g_machine w' in
  (ps0_state m' = ps0_state m \/ ps0_state m' = Interlock \/
   (ps0_state m = Initializing /\ ps0_state m' = SlowRef /\
    dclinks_charged a = true)) /\
  (state_code (ps0_state m) <= state_code Interlock ->
   state_code (ps0_state m') <= state_code Interlock) /\
  (ps0_state m <> Initializing ->
   (forall i, pwm_enabled m' i = true -> pwm_enabled m i = true) /\
   (pwm_off NUM_PWM_MODULES m -> pwm_off NUM_PWM_MODULES m')) /\
  (forall k j b,
     Z.testbit (mask_of k (module_at m j)) b = true ->
     Z.testbit (mask_of k (module_at m' j)) b = true) /\
  (forall j, j <> 0%nat ->
     em_at w' j = em_at w j /\
     ps_state (module_at m' j) = ps_state (module_at m j)) /\
  timebase_flag (em_at w' 0) = 0 /\
  gpdi m' = gpdi m.
Proof.
  cbn zeta.
  destruct (check_interlocks_guarded U a w) as (S & P & M & O & _ & _ & I).
  split; [exact S|]. split; [by apply (state_step_below a)|].
  split; [exact P|]. split; [exact M|]. split; [exact O|].
  split; [apply check_interlocks_tick|exact I].
Qed.

Lemma when_true c f w : c (g_machine w) = true -> when c f w = f w.
Proof. intros H. unfold when. by rewrite H. Qed.

Lemma latched_pwm_off k itlk w :
  pwm_off NUM_PWM_MODULES (g_machine (latched true fap_turn_off k 0 itlk w)).
Proof.
  unfold latched. cbn [g_machine upd_machine set_g_machine].
  rewrite (itlk_action_machine true fap_turn_off). unfold fap_turn_off.
  pose proof (turn_off_pwm_off (Z.of_nat 0) (g_machine w)) as H.
  generalize dependent (turn_off (Z.of_nat 0) (g_machine w)). intros mt H.
  apply (pwm_off_ext mt); [|exact H].
  by rewrite !pwm_regs_upd_module.
Qed.

Lemma committed_hard_interlock itlk w :
  valid_channel Hard w 0 itlk ->
  debounce_count (channel Hard w 0 itlk) <= counter (channel Hard w 0 itlk) ->
  Z.land (sticky_mask Hard w 0) (lut itlk) = 0 ->
  let w1 := fap_set_hard_interlock true 0 itlk w in
  ps0_state (g_machine w1) = Interlock /\
  pwm_off NUM_PWM_MODULES (g_machine w1) /\
  Z.land (sticky_mask Hard w1 0) (lut itlk) <> 0.
Proof.
  intros Hv Hdue Hbit. cbn zeta.
  destruct (set_interlock_step true fap_turn_off fap_turn_off_modules
              Hard w 0 itlk Hv) as (_ & _ & Hstep).
  cbn zeta in Hstep. destruct (Hstep Hdue) as [_ Hm]. clear Hstep.
  rewrite Hbit in Hm. cbn [Z.eqb] in Hm. destruct Hm as [Hm _].
  change (set_interlock true fap_turn_off Hard 0 itlk w)
    with (fap_set_hard_interlock true 0 itlk w) in Hm.
  pose proof Hv as (_ & Hid & _).
  assert (Hs : sticky_mask Hard (fap_set_hard_interlock true 0 itlk w) 0 =
               sticky_mask Hard (latched true fap_turn_off Hard 0 itlk w) 0)
    by (unfold sticky_mask; by rewrite Hm).
  rewrite Hs. unfold ps0_state. rewrite Hm.
  split; [by apply (latched_state true fap_turn_off fap_turn_off_modules)|].
  split; [apply latched_pwm_off|].
  by apply (latched_present true fap_turn_off fap_turn_off_modules).
Qed.

Lemma land_testbit_0 x : Z.land x 1 <> 0 -> Z.testbit x 0 = true.
Proof.
  intros H. destruct (Z.testbit x 0) eqn:E; [done|]. exfalso. apply H.
  apply Z.bits_inj'. intros n Hn. rewrite Z.land_spec, Z.bits_0.
  destruct (decide (n = 0)) as [->|Hne]; [by rewrite E|].
  apply andb_false_iff. right.
  change 1 with (2 ^ 0). rewrite Z.pow2_bits_eqb by lia.
  apply Z.eqb_neq. lia.
Qed.

Lemma guarded_interlock a w1 w' :
  guarded a w1 w' ->
  ps0_state (g_machine w1) = Interlock ->
  pwm_off NUM_PWM_MODULES (g_machine w1) ->
  Z.testbit (sticky_mask Hard w1 0) 0 = true ->
  ps0_state (g_machine w') = Interlock /\
  pwm_off NUM_PWM_MODULES (g_machine w') /\
  Z.testbit (sticky_mask Hard w' 0) 0 = true.
Proof.
  intros (S & P & M & _) H1 H2 H3. rewrite H1 in S, P.
  split.
  { destruct S as [S|[S|(S & _)]]; [exact S|exact S|discriminate]. }
  split; [by apply P|].
  by apply (M Hard 0%nat 0).
Qed.

(** Property X15.  With [USE_ITLK], a mean load current above
    [MAX_I_LOAD] whose channel has reached its debounce count and is
    not latched yet puts the power supply in [Interlock] within that
    pass of [check_interlocks], from whatever state: at its end the
    state is [Interlock], the eight PWM outputs are off with a duty
    cycle of zero and the bit of [Load_Overcurrent] is in the mask,
    whatever the later checks of the pass found. *)
Theorem check_interlocks_overcurrent a w :
  valid_channel Hard w 0 Load_Overcurrent ->
  fgt (fabs (I_LOAD_MEAN (g_machine w))) (MAX_I_LOAD a) = true ->
  debounce_count (channel Hard w 0 Load_Overcurrent) <=
    counter (channel Hard w 0 Load_Overcurrent) ->
  Z.land (sticky_mask Hard w 0) (lut Load_Overcurrent) = 0 ->
  let w' := check_interlocks true a w in
  ps0_state (g_machine w') = Interlock /\
  pwm_off NUM_PWM_MODULES (g_machine w') /\
  Z.testbit (sticky_mask Hard w' 0) 0 = true /\
  timebase_flag (em_at w' 0) = 0.
Proof.
  intros Hv Hc Hdue Hbit. cbn zeta.
  destruct (committed_hard_interlock Load_Overcurrent w Hv Hdue Hbit)
    as (H1 & H2 & H3).
  apply land_testbit_0 in H3.
  assert (H : guarded a (fap_set_hard_interlock true 0 Load_Overcurrent w)
                (check_interlocks true a w)).
  { unfold check_interlocks.
    rewrite (when_true _ (fap_set_hard_interlock true 0 Load_Overcurrent) w Hc).
    generalize (fap_set_hard_interlock true 0 Load_Overcurrent w). intros w1.
    guarded_blocks. }
  destruct (guarded_interlock a _ _ H H1 H2 H3) as (A & B & C).
  split; [exact A|]. split; [exact B|]. split; [exact C|].
  apply check_interlocks_tick.
Qed.

Lemma check_interlocks_overcurrent_witness :
  ps0_state (g_machine w_overcurrent) = SlowRef /\
  ps0_state (g_machine (check_interlocks true limits_5 w_overcurrent)) =
    Interlock /\
  pwm_off NUM_PWM_MODULES
    (g_machine (check_interlocks true limits_5 w_overcurrent)).
Proof.
  assert (Hv : valid_channel Hard w_overcurrent 0 Load_Overcurrent)
    by (repeat split; vm_compute; lia).
  assert (Hc : fgt (fabs (I_LOAD_MEAN (g_machine w_overcurrent)))
                 (MAX_I_LOAD limits_5) = true)
    by (vm_compute; reflexivity).
  assert (Hd : debounce_count (channel Hard w_overcurrent 0 Load_Overcurrent)
               <= counter (channel Hard w_overcurrent 0 Load_Overcurrent))
    by (vm_compute; discriminate).
  assert (Hb : Z.land (sticky_mask Hard w_overcurrent 0)
                 (lut Load_Overcurrent) = 0)
    by (vm_compute; reflexivity).
  split; [vm_compute; reflexivity|].
  destruct (check_interlocks_overcurrent limits_5 w_overcurrent Hv Hc Hd Hb)
    as (A & B & _).
  split; [exact A|exact B].
Defined.

(** *** [turn_off] on a machine that is already off *)

Lemma alter_fixed {A} (f : A -> A) i (l : list A) :
  (forall x, l !! i = Some x -> f x = x) -> alter f i l = l.
Proof.
  intros H. apply list_eq. intros j.
  destruct (decide (i = j)) as [->|Hne].
  - rewrite list_lookup_alter_eq. destruct (l !! j) eqn:E; [|done].
    cbn. f_equal. by apply H.
  - by rewrite list_lookup_alter_ne.
Qed.

Lemma insert_fixed {A} (x : A) i (l : list A) :
  (forall y, l !! i = Some y -> y = x) -> <[i := x]> l = l.
Proof.
  intros H. destruct (l !! i) eqn:E.
  - apply list_insert_id. by rewrite E, (H _ eq_refl).
  - apply list_insert_ge. by apply lookup_ge_None_1.
Qed.

Lemma set_pwm_regs_same m : set_pwm_regs (pwm_regs m) m = m.
Proof. by destruct m. Qed.
Lemma set_gpdo_same m : set_gpdo (gpdo m) m = m.
Proof. by destruct m. Qed.
Lemma set_ps_module_same m : set_ps_module (ps_module m) m = m.
Proof. by destruct m. Qed.
Lemma set_dsp_pi_same m : set_dsp_pi (dsp_pi m) m = m.
Proof. by destruct m. Qed.
Lemma set_dsp_srlim_same m : set_dsp_srlim (dsp_srlim m) m = m.
Proof. by destruct m. Qed.
Lemma set_net_signals_same m : set_net_signals (net_signals m) m = m.
Proof. by destruct m. Qed.
Lemma set_output_signals_same m :
  set_output_signals (output_signals m) m = m.
Proof. by destruct m. Qed.
Lemma set_SIGGEN_same m : set_SIGGEN (SIGGEN m) m = m.
Proof. by destruct m. Qed.

Lemma disable_pwm_output_fixed i m :
  (forall p, pwm_regs m !! i = Some p -> pwm_output_enabled p = false) ->
  disable_pwm_output i m = m.
Proof.
  intros H. unfold disable_pwm_output. rewrite alter_fixed.
  - apply set_pwm_regs_same.
  - intros [e d] Hp. cbn. by rewrite <- (H _ Hp).
Qed.

Lemma set_pwm_duty_chA_fixed i m :
  (forall p, pwm_regs m !! i = Some p -> pwm_duty_chA p = zero) ->
  set_pwm_duty_chA i zero m = m.
Proof.
  intros H. unfold set_pwm_duty_chA. rewrite alter_fixed.
  - apply set_pwm_regs_same.
  - intros [e d] Hp. cbn. by rewrite <- (H _ Hp).
Qed.

Lemma CLEAR_GPDO_fixed k m :
  (gpdo m !! pred k = Some true -> False) -> CLEAR_GPDO k m = m.
Proof.
  intros H. unfold CLEAR_GPDO. rewrite insert_fixed.
  - apply set_gpdo_same.
  - intros [] Hy; [by destruct H|done].
Qed.

Lemma upd_module_fixed i f m :
  (forall p, ps_module m !! i = Some p -> f p = p) -> upd_module i f m = m.
Proof.
  intros H. unfold upd_module. rewrite alter_fixed by done.
  apply set_ps_module_same.
Qed.

Lemma finsert_fixed l i : fget l i = zero -> <[i := zero]> l = l.
Proof.
  intros H. apply insert_fixed. intros y Hy. unfold fget in H.
  by rewrite Hy in H.
Qed.

Lemma write_signal_fixed r m :
  read_signal m r = zero -> write_signal r zero m = m.
Proof.
  destruct r; cbn [read_signal write_signal]; intros H.
  - rewrite finsert_fixed by done. apply set_net_signals_same.
  - rewrite finsert_fixed by done. apply set_output_signals_same.
  - apply upd_module_fixed. intros p Hp. unfold module_at in H.
    rewrite Hp in H. cbn in H. destruct p. cbn in *. by subst.
  - apply upd_module_fixed. intros p Hp. unfold module_at in H.
    rewrite Hp in H. cbn in H. destruct p. cbn in *. by subst.
  - destruct m as [? s ? ? ? ? ? ? ? ? ? ? ? ? ?]. cbn in *.
    destruct s. cbn in *. by subst.
  - destruct m as [? s ? ? ? ? ? ? ? ? ? ? ? ? ?]. cbn in *.
    destruct s. cbn in *. by subst.
  - destruct m. cbn in *. by subst.
  - destruct m. cbn in *. by subst.
  - destruct m. cbn in *. by subst.
Qed.

Lemma reset_dsp_pi_fixed i m : pi_is_reset m i -> reset_dsp_pi i m = m.
Proof.
  intros H. unfold reset_dsp_pi. destruct (dsp_pi m !! i) as [p|] eqn:E;
    [|done].
  destruct (H p E) as [Hu Ho].
  assert (Hc : clear_dsp_pi p = p) by (destruct p; cbn in *; by subst).
  rewrite Hc, list_insert_id by done. rewrite set_dsp_pi_same.
  by apply write_signal_fixed.
Qed.

Lemma reset_dsp_srlim_fixed i m :
  srlim_is_reset m i -> reset_dsp_srlim i m = m.
Proof.
  intros H. unfold reset_dsp_srlim.
  destruct (dsp_srlim m !! i) as [p|] eqn:E; [|done].
  destruct (H p E) as [Hu Ho].
  assert (Hc : clear_dsp_srlim p = p) by (destruct p; cbn in *; by subst).
  rewrite Hc, list_insert_id by done. rewrite set_dsp_srlim_same.
  by apply write_signal_fixed.
Qed.

Lemma reset_dsp_error_fixed i m :
  error_is_reset m i -> reset_dsp_error i m = m.
Proof.
  intros H. unfold reset_dsp_error.
  destruct (dsp_error m !! i) as [e|] eqn:E; [|done].
  apply write_signal_fixed. by apply H.
Qed.

Lemma disable_siggen_fixed m :
  Siggen.enable (SIGGEN m) = 0 -> disable_siggen m = m.
Proof.
  intros H. unfold disable_siggen, Siggen.disable_siggen.
  destruct m as [? s ? ? ? ? ? ? ? ? ? ? ? ? ?]. cbn in *.
  destruct s. cbn in *. by subst.
Qed.

Lemma reset_wfmref_fixed m : WFMREF m = mk_wfmref 0 -> reset_wfmref m = m.
Proof. intros H. unfold reset_wfmref. destruct m. cbn in *. by subst. Qed.

Lemma turn_off_settled_fixed dummy m : settled m -> turn_off dummy m = m.
Proof.
  intros (Hpwm & Hgpdo & Hloop & Hst & Hsp & Href & Hpi & Hsr & Her & Hen & Hw).
  assert (Hdis : forall i, (i < 8)%nat -> disable_pwm_output i m = m).
  { intros i Hi. apply disable_pwm_output_fixed. intros p Hp.
    by destruct (Hpwm i p Hi Hp). }
  assert (Hduty : forall i, (i < 8)%nat -> set_pwm_duty_chA i zero m = m).
  { intros i Hi. apply set_pwm_duty_chA_fixed. intros p Hp.
    by destruct (Hpwm i p Hi Hp). }
  assert (Hclr : forall k, (0 < k <= 4)%nat -> CLEAR_GPDO k m = m).
  { intros k Hk. apply CLEAR_GPDO_fixed. apply Hgpdo. lia. }
  assert (Hol : upd_module 0 (set_ps_openloop (LOOP_STATE m)) m = m).
  { apply upd_module_fixed. intros p Hp. specialize (Hloop p Hp).
    destruct p. cbn in *. by subst. }
  assert (Hrc : reset_controller m = m).
  { unfold reset_controller.
    unfold PWM_MODULATOR_IGBT_1_MOD_1, PWM_MODULATOR_IGBT_2_MOD_1,
      PWM_MODULATOR_IGBT_1_MOD_2, PWM_MODULATOR_IGBT_2_MOD_2,
      PWM_MODULATOR_IGBT_1_MOD_3, PWM_MODULATOR_IGBT_2_MOD_3,
      PWM_MODULATOR_IGBT_1_MOD_4, PWM_MODULATOR_IGBT_2_MOD_4,
      SRLIM_I_LOAD_REFERENCE, SRLIM_SIGGEN_AMP, SRLIM_SIGGEN_OFFSET,
      ERROR_I_LOAD, PI_CONTROLLER_I_LOAD, PI_CONTROLLER_I_SHARE_MOD_1,
      PI_CONTROLLER_I_SHARE_MOD_2, PI_CONTROLLER_I_SHARE_MOD_3,
      PI_CONTROLLER_I_SHARE_MOD_4 in *.
    rewrite !Hduty by lia. rewrite Hol.
    rewrite (write_signal_fixed _ _ Hsp), (write_signal_fixed _ _ Href).
    rewrite (reset_dsp_srlim_fixed 0) by (apply Hsr; lia).
    rewrite (reset_dsp_error_fixed 0) by done.
    rewrite (reset_dsp_pi_fixed 0) by (apply Hpi; lia).
    rewrite (reset_dsp_pi_fixed 1) by (apply Hpi; lia).
    rewrite (reset_dsp_pi_fixed 2) by (apply Hpi; lia).
    rewrite (reset_dsp_pi_fixed 3) by (apply Hpi; lia).
    rewrite (reset_dsp_pi_fixed 4) by (apply Hpi; lia).
    rewrite (reset_dsp_srlim_fixed 1) by (apply Hsr; lia).
    rewrite (reset_dsp_srlim_fixed 2) by (apply Hsr; lia).
    rewrite (disable_siggen_fixed m) by done.
    by apply reset_wfmref_fixed. }
  rewrite turn_off_unfold. cbn zeta. unfold outputs_off,
    PIN_OPEN_DCLINK_CONTACTOR_MOD_1, PIN_OPEN_DCLINK_CONTACTOR_MOD_2,
    PIN_OPEN_DCLINK_CONTACTOR_MOD_3, PIN_OPEN_DCLINK_CONTACTOR_MOD_4,
    DELAY_US.
  rewrite !Hdis by lia. rewrite !Hclr by lia. rewrite Hrc.
  destruct (negb _) eqn:En; [|done].
  apply upd_module_fixed. intros p Hp. unfold ps0_state, module_at in Hst.
  unfold module_at in En. rewrite Hp in Hst, En. cbn in Hst, En.
  destruct Hst as [Hst|Hst]; rewrite Hst in En; [|discriminate].
  destruct p. cbn in *. by subst.
Qed.

Lemma LOOP_STATE_set_pwm_duty_chA i v m :
  LOOP_STATE (set_pwm_duty_chA i v m) = LOOP_STATE m.
Proof. reflexivity. Qed.

Lemma openloop_reset_controller m :
  (0 < length (ps_module m))%nat ->
  ps_openloop (module_at (reset_controller m) 0) = LOOP_STATE m.
Proof.
  intros Hl. unfold reset_controller.
  rewrite module_at_reset_wfmref, module_at_disable_siggen.
  rewrite !(frame_reset_dsp_srlim ps_openloop 0),
    !(frame_reset_dsp_pi ps_openloop 0),
    (frame_reset_dsp_error ps_openloop 0),
    (frame_reset_dsp_srlim ps_openloop 0),
    !(frame_write_signal ps_openloop 0) by done.
  cbv beta.
  match goal with
  | |- context [upd_module 0 (set_ps_openloop (LOOP_STATE ?X)) ?X] =>
      assert (HX1 : ps_module X = ps_module m)
        by (by rewrite !ps_module_set_pwm_duty_chA);
      assert (HX2 : LOOP_STATE X = LOOP_STATE m)
        by (by rewrite !LOOP_STATE_set_pwm_duty_chA);
      generalize dependent X
  end.
  intros X HX1 HX2.
  rewrite module_at_upd_module by (by rewrite HX1).
  cbn [ps_openloop set_ps_openloop]. exact HX2.
Qed.

Lemma length_outputs_off m :
  length (ps_module (outputs_off m)) = length (ps_module m).
Proof. reflexivity. Qed.

Lemma LOOP_STATE_outputs_off m : LOOP_STATE (outputs_off m) = LOOP_STATE m.
Proof. reflexivity. Qed.

Lemma openloop_turn_off_at dummy m :
  (0 < length (ps_module m))%nat ->
  ps_openloop (module_at (turn_off dummy m) 0) = LOOP_STATE m.
Proof.
  intros Hl.
  rewrite turn_off_unfold. cbn zeta.
  rewrite <- (LOOP_STATE_outputs_off m).
  rewrite <- (length_outputs_off m) in Hl.
  generalize dependent (outputs_off m). intros m0 Hl.
  destruct (negb _).
  - rewrite (frame_upd_module ps_openloop 0) by done.
    by apply openloop_reset_controller.
  - by apply openloop_reset_controller.
Qed.

Lemma openloop_turn_off dummy m p :
  ps_module (turn_off dummy m) !! 0%nat = Some p ->
  ps_openloop p = LOOP_STATE m.
Proof.
  intros Hp.
  assert (Hl : (0 < length (ps_module m))%nat).
  { apply lookup_lt_Some in Hp. by rewrite turn_off_modules in Hp. }
  pose proof (openloop_turn_off_at dummy m Hl) as H.
  generalize dependent (turn_off dummy m). intros mt Hp H.
  unfold module_at in H. by rewrite Hp in H.
Qed.

Lemma turn_off_settled dummy m : settled (turn_off dummy m).
Proof.
  split; [apply turn_off_pwm_off|].
  split.
  { intros k Hk. rewrite gpdo_turn_off.
    do 4 (destruct k as [|k];
          [ intros H;
            repeat first [ rewrite list_lookup_insert_ne in H by lia
                         | apply list_lookup_insert_Some in H;
                           destruct H as [[_ [H _]]|[H _]]; done ]
          | ]).
    lia. }
  split.
  { intros p Hp. rewrite LOOP_STATE_turn_off.
    by apply (openloop_turn_off dummy). }
  split.
  { unfold ps0_state. rewrite turn_off_state. destruct (state_eqb _ _); auto. }
  split; [apply turn_off_references|].
  split; [apply turn_off_references|].
  split; [intros i Hi; by apply turn_off_pi_reset|].
  split; [intros i Hi; by apply turn_off_srlim_reset|].
  split; [apply turn_off_error_reset|].
  split; [apply turn_off_siggen|apply turn_off_wfmref].
Qed.

(** Property X13.  [turn_off] is idempotent: a second call leaves the
    machine exactly as the first did.  It never touches the interlock
    masks and the alarms of any module, the state of the other
    modules, the digital inputs or the configured loop state; it
    leaves the four DC-link contactor outputs open and enables no PWM
    output. *)
Theorem turn_off_idempotent d1 d2 m :
  let m' := turn_off d1 m in
  turn_off d2 m' = m' /\
  (forall k j, mask_of k (module_at m' j) = mask_of k (module_at m j)) /\
  (forall j, ps_alarms (module_at m' j) = ps_alarms (module_at m j)) /\
  (forall j, j <> 0%nat ->
     ps_state (module_at m' j) = ps_state (module_at m j)) /\
  (forall k, (k < 4)%nat -> gpdo m' !! k = Some true -> False) /\
  length (gpdo m') = length (gpdo m) /\
  gpdi m' = gpdi m /\
  LOOP_STATE m' = LOOP_STATE m /\
  (forall i, pwm_enabled m' i = true -> pwm_enabled m i = true).
Proof.
  cbn zeta.
  pose proof (turn_off_settled d1 m) as Hs.
  split; [by apply turn_off_settled_fixed|].
  split; [intros k j; apply turn_off_masks|].
  split; [intros j; by apply (frame_turn_off ps_alarms j)|].
  split; [intros j Hj; by apply turn_off_other_state|].
  split; [apply Hs|].
  split; [by rewrite gpdo_turn_off, !length_insert|].
  split; [apply gpdi_turn_off|].
  split; [apply LOOP_STATE_turn_off|].
  apply pwm_enabled_turn_off.
Qed.

(** *** [reset_interlocks] after a committed interlock *)

Lemma pwm_regs_pulse_contactor status k k' m :
  pwm_regs (pulse_contactor status (SET_GPDO k) (CLEAR_GPDO k') m) =
  pwm_regs m.
Proof. unfold pulse_contactor. by destruct (status m). Qed.

Lemma gpdo_pulse_contactor status k m j :
  gpdo (pulse_contactor status (SET_GPDO k) (CLEAR_GPDO k) m) !! j =
    Some true ->
  gpdo m !! j = Some true.
Proof.
  unfold pulse_contactor. destruct (status m); [|done].
  unfold DELAY_US, SET_GPDO, CLEAR_GPDO. cbn [gpdo set_gpdo].
  rewrite list_insert_insert_eq. intros H.
  apply list_lookup_insert_Some in H.
  destruct H as [(_ & H & _)|[_ H]]; done.
Qed.

Lemma reset_interlocks_outputs dummy m :
  pwm_regs (Fap4p.reset_interlocks dummy m) = pwm_regs m /\
  (forall j, gpdo (Fap4p.reset_interlocks dummy m) !! j = Some true ->
             gpdo m !! j = Some true) /\
  ps_alarms (module_at (Fap4p.reset_interlocks dummy m) 0) = 0.
Proof.
  unfold Fap4p.reset_interlocks. cbn zeta.
  set (m1 := upd_module 0 (set_ps_alarms 0) _).
  assert (Hp : pwm_regs m1 = pwm_regs m) by done.
  assert (Hg : gpdo m1 = gpdo m) by done.
  assert (Ha : ps_alarms (module_at m1 0) = 0).
  { unfold m1. rewrite module_at_alter. rewrite decide_True by done.
    by destruct (_ !! 0%nat). }
  clearbody m1.
  destruct (_ <? _).
  - unfold PIN_CLOSE_DCLINK_CONTACTOR_MOD_1, PIN_CLOSE_DCLINK_CONTACTOR_MOD_2,
      PIN_CLOSE_DCLINK_CONTACTOR_MOD_3, PIN_CLOSE_DCLINK_CONTACTOR_MOD_4,
      PIN_OPEN_DCLINK_CONTACTOR_MOD_1, PIN_OPEN_DCLINK_CONTACTOR_MOD_2,
      PIN_OPEN_DCLINK_CONTACTOR_MOD_3, PIN_OPEN_DCLINK_CONTACTOR_MOD_4,
      DELAY_US.
    split; [|split].
    + rewrite pwm_regs_upd_module, !pwm_regs_pulse_contactor. exact Hp.
    + intros j H.
      change (gpdo (upd_module ?i ?f ?x)) with (gpdo x) in H.
      do 4 apply gpdo_pulse_contactor in H. by rewrite Hg in H.
    + rewrite (frame_upd_module ps_alarms 0) by done.
      match goal with
      | |- ps_alarms (module_at ?x 0) = 0 =>
          assert (Hx : ps_module x = ps_module m1)
            by (by rewrite !ps_module_pulse_contactor)
      end.
      unfold module_at. rewrite Hx. exact Ha.
  - rewrite Hp, Hg. done.
Qed.

Lemma gpdo_upd_module i f m : gpdo (upd_module i f m) = gpdo m.
Proof. reflexivity. Qed.

Lemma latched_contactors_open k itlk w j :
  (j < 4)%nat ->
  gpdo (g_machine (latched true fap_turn_off k 0 itlk w)) !! j = Some true ->
  False.
Proof.
  intros Hj. unfold latched. cbn [g_machine upd_machine set_g_machine].
  rewrite (itlk_action_machine true fap_turn_off). unfold fap_turn_off.
  rewrite !gpdo_upd_module.
  pose proof (turn_off_settled (Z.of_nat 0) (g_machine w)) as Hs.
  generalize dependent (turn_off (Z.of_nat 0) (g_machine w)).
  intros mt (_ & Hs & _). by apply Hs.
Qed.

Lemma committed_contactors_open itlk w j :
  valid_channel Hard w 0 itlk ->
  debounce_count (channel Hard w 0 itlk) <= counter (channel Hard w 0 itlk) ->
  Z.land (sticky_mask Hard w 0) (lut itlk) = 0 ->
  (j < 4)%nat ->
  gpdo (g_machine (fap_set_hard_interlock true 0 itlk w)) !! j = Some true ->
  False.
Proof.
  intros Hv Hdue Hbit Hj.
  destruct (set_interlock_step true fap_turn_off fap_turn_off_modules
              Hard w 0 itlk Hv) as (_ & _ & Hstep).
  cbn zeta in Hstep. destruct (Hstep Hdue) as [_ Hm]. clear Hstep.
  rewrite Hbit in Hm. cbn [Z.eqb] in Hm. destruct Hm as [Hm _].
  change (set_interlock true fap_turn_off Hard 0 itlk w)
    with (fap_set_hard_interlock true 0 itlk w) in Hm.
  rewrite Hm. by apply latched_contactors_open.
Qed.

Lemma reset_after_interlock dummy m :
  ps0_state m = Interlock ->
  pwm_off NUM_PWM_MODULES m ->
  (forall k, (k < 4)%nat -> gpdo m !! k = Some true -> False) ->
  let m2 := Fap4p.reset_interlocks dummy m in
  ps0_state m2 = Off /\
  ps_hard_interlock (module_at m2 0) = 0 /\
  ps_soft_interlock (module_at m2 0) = 0 /\
  ps_alarms (module_at m2 0) = 0 /\
  pwm_off NUM_PWM_MODULES m2 /\
  (forall k, (k < 4)%nat -> gpdo m2 !! k = Some true -> False).
Proof.
  intros H1 H2 Hg. cbn zeta.
  destruct (fap_reset_interlocks_module dummy m) as (Hh & Hs & Hst).
  destruct (reset_interlocks_outputs dummy m) as (Hp & Hgp & Ha).
  unfold ps0_state in *. rewrite H1 in Hst. cbn in Hst.
  split; [exact Hst|]. split; [exact Hh|]. split; [exact Hs|].
  split; [exact Ha|].
  split; [by apply (pwm_off_ext m)|].
  intros k Hk H. by apply (Hg k Hk), Hgp.
Qed.

(** Property X16.  A committed hard interlock followed by
    [reset_interlocks]: the commit leaves module 0 in [Interlock] with
    the bit in its mask; the reset then clears both masks and the
    alarms and brings the state to [Off], while the eight PWM outputs
    stay off with a duty cycle of zero and the four contactor outputs
    open. *)
Theorem interlock_reset_cycle itlk dummy w :
  valid_channel Hard w 0 itlk ->
  debounce_count (channel Hard w 0 itlk) <= counter (channel Hard w 0 itlk) ->
  Z.land (sticky_mask Hard w 0) (lut itlk) = 0 ->
  let w1 := fap_set_hard_interlock true 0 itlk w in
  let m2 := Fap4p.reset_interlocks dummy (g_machine w1) in
  ps0_state (g_machine w1) = Interlock /\
  Z.land (sticky_mask Hard w1 0) (lut itlk) <> 0 /\
  ps0_state m2 = Off /\
  ps_hard_interlock (module_at m2 0) = 0 /\
  ps_soft_interlock (module_at m2 0) = 0 /\
  ps_alarms (module_at m2 0) = 0 /\
  pwm_off NUM_PWM_MODULES m2 /\
  (forall k, (k < 4)%nat -> gpdo m2 !! k = Some true -> False).
Proof.
  intros Hv Hdue Hbit. cbn zeta.
  destruct (committed_hard_interlock itlk w Hv Hdue Hbit) as (H1 & H2 & H3).
  pose proof (fun j => committed_contactors_open itlk w j Hv Hdue Hbit) as Hg.
  split; [exact H1|]. split; [exact H3|].
  apply (reset_after_interlock dummy _ H1 H2 Hg).
Qed.

Lemma interlock_reset_cycle_witness :
  ps0_state (g_machine w_overcurrent) = SlowRef /\
  ps0_state
    (Fap4p.reset_interlocks 0
       (g_machine
          (fap_set_hard_interlock true 0 Load_Overcurrent w_overcurrent)))
    = Off /\
  pwm_off NUM_PWM_MODULES
    (Fap4p.reset_interlocks 0
       (g_machine
          (fap_set_hard_interlock true 0 Load_Overcurrent w_overcurrent))).
Proof.
  assert (Hv : valid_channel Hard w_overcurrent 0 Load_Overcurrent)
    by (repeat split; vm_compute; lia).
  assert (Hd : debounce_count (channel Hard w_overcurrent 0 Load_Overcurrent)
               <= counter (channel Hard w_overcurrent 0 Load_Overcurrent))
    by (vm_compute; discriminate).
  assert (Hb : Z.land (sticky_mask Hard w_overcurrent 0)
                 (lut Load_Overcurrent) = 0)
    by (vm_compute; reflexivity).
  split; [vm_compute; reflexivity|].
  destruct (interlock_reset_cycle Load_Overcurrent 0 w_overcurrent Hv Hd Hb)
    as (_ & _ & A & _ & _ & _ & B & _).
  split; [exact A|exact B].
Defined.

(** *** A persisting overcurrent through a call of the checks *)

Section RaiseInduction.
Variable U : bool.
Variable R : world -> world -> Prop.
Hypothesis R_refl : forall w, R w w.
Hypothesis R_trans : forall w1 w2 w3, R w1 w2 -> R w2 w3 -> R w1 w3.
Variable k : kind.
Variable i : nat.
Hypothesis R_upd :
  forall g w,
    (forall e, debounce_count (g e) = debounce_count e /\
               reset_count (g e) = reset_count e) ->
    R w (upd_em 0 (upd_kind k (upd_event i g)) w).
Hypothesis R_latch :
  forall w,
    R w (upd_machine (upd_module 0 (or_mask k (lut i)))
           (itlk_action U fap_turn_off 0 w)).

(** A relation kept by the updates of the channel and by the latch is
    kept by [set_hard_interlock] and [set_soft_interlock]. *)
Lemma set_interlock_rel w : R w (set_interlock U fap_turn_off k 0 i w).
Proof.
  assert (Hf : forall v e, debounce_count (set_flag v e) = debounce_count e /\
                           reset_count (set_flag v e) = reset_count e) by done.
  assert (Hc : forall v e,
    debounce_count (set_counter v e) = debounce_count e /\
    reset_count (set_counter v e) = reset_count e) by done.
  pose proof (fun v => R_upd (set_flag v)) as Hflag.
  pose proof (fun v => R_upd (set_counter v)) as Hcount.
  clear R_upd. revert R_latch Hflag Hcount.
  destruct k; cbn [set_interlock upd_kind or_mask]; intros Hlatch Hflag Hcount.
  - unfold EventManager.set_hard_interlock.
    destruct (_ <? _)%nat; [|apply R_refl]. cbn zeta.
    set (w1 := upd_em 0 (upd_hard (upd_event i (set_flag 1))) w).
    assert (H1 : R w w1) by (apply Hflag, Hf).
    destruct (_ <=? _); [|exact H1].
    eapply R_trans; [|apply Hcount, Hc].
    eapply R_trans; [|apply Hflag, Hf].
    eapply R_trans; [exact H1|].
    destruct (_ =? 0); [apply Hlatch|apply R_refl].
  - unfold EventManager.set_soft_interlock.
    destruct (_ <? _)%nat; [|apply R_refl]. cbn zeta.
    set (w1 := upd_em 0 (upd_soft (upd_event i (set_flag 1))) w).
    assert (H1 : R w w1) by (apply Hflag, Hf).
    destruct (_ <=? _); [|exact H1].
    eapply R_trans; [|apply Hcount, Hc].
    eapply R_trans; [|apply Hflag, Hf].
    eapply R_trans; [exact H1|].
    destruct (_ =? 0); [apply Hlatch|apply R_refl].
Qed.
End RaiseInduction.

Lemma keeps_overcurrent_refl w : keeps_overcurrent w w.
Proof. by unfold keeps_overcurrent. Qed.

Lemma keeps_overcurrent_trans w1 w2 w3 :
  keeps_overcurrent w1 w2 -> keeps_overcurrent w2 w3 ->
  keeps_overcurrent w1 w3.
Proof.
  unfold keeps_overcurrent.
  intros (A1 & B1 & C1 & D1 & E1 & F1 & G1) (A2 & B2 & C2 & D2 & E2 & F2 & G2).
  repeat split; congruence.
Qed.

Lemma upd_kind_sizes k' k i g em :
  num_events (interlocks_of k' (upd_kind k (upd_event i g) em)) =
    num_events (interlocks_of k' em) /\
  length (event (interlocks_of k' (upd_kind k (upd_event i g) em))) =
    length (event (interlocks_of k' em)).
Proof.
  destruct k, k'; cbn; try done; split; try done; apply length_alter.
Qed.

Lemma keeps_overcurrent_upd k i g w :
  (k, i) <> (Hard, Load_Overcurrent) ->
  (forall e, debounce_count (g e) = debounce_count e /\
             reset_count (g e) = reset_count e) ->
  keeps_overcurrent w (upd_em 0 (upd_kind k (upd_event i g)) w).
Proof.
  intros Hne Hg.
  destruct (only_channel_upd k 0 i g w Hg) as (A & _ & _ & D).
  unfold keeps_overcurrent.
  split.
  { apply A. intros E. apply Hne. by injection E as <- <-. }
  split; [apply D|]. split; [done|].
  assert (Hem :
    em_at (upd_em 0 (upd_kind k (upd_event i g)) w) 0 = em_at w 0 \/
    em_at (upd_em 0 (upd_kind k (upd_event i g)) w) 0 =
      upd_kind k (upd_event i g) (em_at w 0)).
  { rewrite em_at_upd_em_any. rewrite decide_True by done. unfold em_at.
    destruct (g_event_manager w !! 0%nat); [by right|by left]. }
  split; [|split; [|split; [apply length_upd_em|done]]].
  - destruct Hem as [->| ->]; [done|].
    apply (upd_kind_sizes Hard k i g (em_at w 0)).
  - destruct Hem as [->| ->]; [done|].
    apply (upd_kind_sizes Hard k i g (em_at w 0)).
Qed.

Lemma lut_bit_0 i : i <> 0%nat -> Z.testbit (lut i) 0 = false.
Proof.
  intros Hi. destruct i as [|i]; [done|].
  do 31 (destruct i as [|i]; [reflexivity|]).
  unfold lut. by rewrite lookup_ge_None_2 by (cbn; lia).
Qed.

Lemma or_mask_bit_0 k i p :
  (k, i) <> (Hard, Load_Overcurrent) ->
  Z.testbit (mask_of Hard (or_mask k (lut i) p)) 0 =
  Z.testbit (mask_of Hard p) 0.
Proof.
  intros Hne.
  destruct k;
    cbn [mask_of or_mask ps_hard_interlock set_ps_hard_interlock
         set_ps_soft_interlock]; [|done].
  rewrite Z.lor_spec, lut_bit_0; [apply orb_false_r|].
  intros ->. by apply Hne.
Qed.

Lemma keeps_overcurrent_latch U k i w :
  (k, i) <> (Hard, Load_Overcurrent) ->
  keeps_overcurrent w
    (upd_machine (upd_module 0 (or_mask k (lut i)))
       (itlk_action U fap_turn_off 0 w)).
Proof.
  intros Hne.
  destruct (guarded_latch U (mk_analog [] [] []) k (lut i) w)
    as (_ & _ & _ & _ & Hl & _).
  unfold keeps_overcurrent, channel, sticky_mask, em_at.
  cbn [g_machine upd_machine set_g_machine g_event_manager] in *.
  rewrite itlk_action_managers.
  split; [done|]. split; [done|].
  split; [|split; [done|split; [done|split; [done|exact Hl]]]].
  rewrite (frame_upd_module (fun p => Z.testbit (mask_of Hard p) 0) 0)
    by (intros p; by apply or_mask_bit_0).
  rewrite itlk_action_machine. destruct U; [|done].
  rewrite (frame_upd_module (fun p => Z.testbit (mask_of Hard p) 0) 0)
    by done.
  unfold fap_turn_off. by rewrite turn_off_masks.
Qed.

Lemma keeps_overcurrent_set_hard U i w :
  i <> Load_Overcurrent ->
  keeps_overcurrent w (fap_set_hard_interlock U 0 i w).
Proof.
  intros Hi.
  apply (set_interlock_rel U keeps_overcurrent keeps_overcurrent_refl
           keeps_overcurrent_trans Hard i).
  - intros g w0 Hg. apply keeps_overcurrent_upd; [|done].
    intros E. apply Hi. by injection E.
  - intros w0. apply keeps_overcurrent_latch.
    intros E. apply Hi. by injection E.
Qed.

Lemma keeps_overcurrent_set_soft U i w :
  keeps_overcurrent w (fap_set_soft_interlock U 0 i w).
Proof.
  apply (set_interlock_rel U keeps_overcurrent keeps_overcurrent_refl
           keeps_overcurrent_trans Soft i).
  - intros g w0 Hg. by apply keeps_overcurrent_upd.
  - intros w0. by apply keeps_overcurrent_latch.
Qed.

Lemma keeps_overcurrent_when c f w :
  (forall w, keeps_overcurrent w (f w)) -> keeps_overcurrent w (when c f w).
Proof.
  intros H. unfold when.
  destruct (c _); [apply H|apply keeps_overcurrent_refl].
Qed.

Lemma keeps_overcurrent_if_else c f g w :
  (forall w, keeps_overcurrent w (f w)) ->
  (forall w, keeps_overcurrent w (g w)) ->
  keeps_overcurrent w (if_else c f g w).
Proof. intros Hf Hg. unfold if_else. destruct (c _); [apply Hf|apply Hg]. Qed.

Lemma keeps_overcurrent_start_regulating w :
  keeps_overcurrent w (upd_machine start_regulating w).
Proof.
  unfold keeps_overcurrent, channel, sticky_mask, em_at.
  cbn [g_machine upd_machine set_g_machine g_event_manager].
  set (m := g_machine w).
  assert (Hm : ps_module (start_regulating m) =
               ps_module (upd_module 0 (set_ps_state SlowRef) m)) by done.
  assert (Hat : module_at (start_regulating m) 0 =
                module_at (upd_module 0 (set_ps_state SlowRef) m) 0).
  { unfold module_at. by rewrite Hm. }
  split; [done|]. split; [done|].
  split; [|split; [done|split; [done|split; [done|]]]].
  - rewrite Hat.
    by rewrite (frame_upd_module (fun p => Z.testbit (mask_of Hard p) 0) 0).
  - rewrite Hm. apply length_upd_module.
Qed.

Ltac keeps_side := intros E; vm_compute in E; discriminate.

Ltac keeps_block :=
  first
    [ apply keeps_overcurrent_set_hard; keeps_side
    | apply keeps_overcurrent_set_soft
    | apply keeps_overcurrent_start_regulating
    | apply keeps_overcurrent_when; intros; keeps_block
    | apply keeps_overcurrent_if_else; intros; keeps_block ].

Ltac keeps_chain :=
  lazymatch goal with
  | |- keeps_overcurrent ?w ?w => apply keeps_overcurrent_refl
  | |- keeps_overcurrent ?w (?f ?x) =>
      apply (keeps_overcurrent_trans w x (f x)); [keeps_chain|keeps_block]
  end.

Lemma keeps_overcurrent_load_feedback U a active i_load itlk w :
  keeps_overcurrent w (check_load_feedback U a active i_load itlk w).
Proof. unfold check_load_feedback. keeps_block. Qed.

Lemma keeps_overcurrent_welded U w :
  keeps_overcurrent w (check_welded_contactors U w).
Proof. unfold check_welded_contactors. keeps_chain. Qed.

Lemma keeps_overcurrent_undervoltage U a w :
  keeps_overcurrent w (check_undervoltage U a w).
Proof. unfold check_undervoltage. keeps_chain. Qed.

Lemma keeps_overcurrent_opened U a w :
  keeps_overcurrent w (check_opened_contactors U a w).
Proof.
  unfold check_opened_contactors.
  match goal with
  | |- keeps_overcurrent _ (if_else ?c ?f ?g ?x) =>
      apply (keeps_overcurrent_trans w x); [keeps_chain|]; generalize x
  end.
  intros x. apply keeps_overcurrent_if_else; intros.
  - keeps_block.
  - apply keeps_overcurrent_when. intros.
    apply keeps_overcurrent_undervoltage.
Qed.

Ltac keeps_blocks :=
  lazymatch goal with
  | |- keeps_overcurrent ?w ?w => apply keeps_overcurrent_refl
  | |- keeps_overcurrent ?w (?f ?x) =>
      apply (keeps_overcurrent_trans w x (f x));
      [ keeps_blocks
      | first [ apply keeps_overcurrent_load_feedback
              | apply keeps_overcurrent_welded
              | apply keeps_overcurrent_opened
              | apply keeps_overcurrent_when; intros;
                apply keeps_overcurrent_load_feedback
              | apply keeps_overcurrent_if_else; intros;
                [ apply keeps_overcurrent_welded
                | apply keeps_overcurrent_opened ]
              | keeps_block ] ]
  end.

(** [check_interlocks] from its first check on: what comes between the
    raise of [Load_Overcurrent] and the debouncing keeps the channel. *)
Lemma check_interlocks_from_first U a w :
  load_overcurrent a w = true ->
  exists w2,
    keeps_overcurrent (fap_set_hard_interlock U 0 Load_Overcurrent w) w2 /\
    guarded a (fap_set_hard_interlock U 0 Load_Overcurrent w) w2 /\
    check_interlocks U a w = run_interlocks_debouncing 0 w2.
Proof.
  intros Hc. unfold check_interlocks.
  rewrite (when_true _ (fap_set_hard_interlock U 0 Load_Overcurrent) w Hc).
  generalize (fap_set_hard_interlock U 0 Load_Overcurrent w). intros w1.
  match goal with
  | |- context [run_interlocks_debouncing 0 ?x] => exists x
  end.
  split; [keeps_blocks|]. split; [guarded_blocks|reflexivity].
Qed.

Lemma land_1_testbit x : Z.land x 1 = 0 <-> Z.testbit x 0 = false.
Proof.
  change 1 with (Z.ones 1). rewrite Z.land_ones by lia.
  change (2 ^ 1) with 2. rewrite <- Z.bit0_mod.
  by destruct (Z.testbit x 0).
Qed.

Lemma valid_channel_sizes w w' :
  num_events (hard_interlocks (em_at w' 0)) =
    num_events (hard_interlocks (em_at w 0)) ->
  length (event (hard_interlocks (em_at w' 0))) =
    length (event (hard_interlocks (em_at w 0))) ->
  length (g_event_manager w') = length (g_event_manager w) ->
  length (ps_module (g_machine w')) = length (ps_module (g_machine w)) ->
  valid_channel Hard w 0 Load_Overcurrent ->
  valid_channel Hard w' 0 Load_Overcurrent.
Proof.
  unfold valid_channel. cbn [interlocks_of].
  intros -> -> -> ->. done.
Qed.

(** The end of a call whose first check raised the channel below its
    debounce count. *)
Lemma counted_period dc rc c w1 w2 :
  0 <= c < dc -> dc < rc < 2 ^ 32 ->
  valid_channel Hard w1 0 Load_Overcurrent ->
  channel Hard w1 0 Load_Overcurrent = mk_event 1 c dc rc ->
  Z.land (sticky_mask Hard w1 0) (lut Load_Overcurrent) = 0 ->
  keeps_overcurrent w1 w2 ->
  let w' := run_interlocks_debouncing 0 w2 in
  valid_channel Hard w' 0 Load_Overcurrent /\
  channel Hard w' 0 Load_Overcurrent =
    mk_event 1 (if timebase_flag (em_at w1 0) =? 0 then c else c + 1) dc rc /\
  timebase_flag (em_at w' 0) = 0 /\
  Z.land (sticky_mask Hard w' 0) (lut Load_Overcurrent) = 0.
Proof.
  intros Hc Hrc Hv1 Hch1 Hb1 (A & B & C & D & E & F & G). cbn zeta.
  assert (Hv2 : valid_channel Hard w2 0 Load_Overcurrent)
    by by apply (valid_channel_sizes w1).
  assert (Hb2 : Z.land (sticky_mask Hard w2 0) (lut Load_Overcurrent) = 0).
  { apply land_1_testbit. rewrite C. by apply land_1_testbit. }
  rewrite Hch1 in A. rewrite <- B.
  destruct (Z.eqb_spec (timebase_flag (em_at w2 0)) 0) as [Hf|Hf].
  - rewrite run_interlocks_debouncing_idle by done. done.
  - destruct (run_interlocks_debouncing_step Hard w2 0 Load_Overcurrent Hv2 Hf)
      as (Hv' & Hch' & Hm' & _ & Hf').
    rewrite A in Hch'.
    assert (Hd : debounce_event (mk_event 1 c dc rc) =
                 mk_event 1 (c + 1) dc rc).
    { unfold debounce_event. cbn [flag Z.eqb negb counter set_counter
        reset_count].
      rewrite Z.mod_small by lia.
      by destruct (Z.leb_spec rc (c + 1)); [lia|]. }
    rewrite Hd in Hch'.
    unfold sticky_mask in *. rewrite Hm'. done.
Qed.

(** Property X17.  A call of [check_interlocks] counts a time-base
    period on the load overcurrent.  In either build, when the channel
    [Load_Overcurrent] exists with a counter below its debounce count
    and a reset count above it, its bit is not in the mask and the
    mean load current is above [MAX_I_LOAD] at the start of the call:
    at the end of the call the channel is raised with the same
    thresholds, its counter has grown by one if the tick flag of
    manager 0 was raised at the start of the call and is unchanged
    otherwise, the tick flag is consumed and the bit is still not in
    the mask, whatever the other checks of the call did. *)
Theorem load_overcurrent_counts_period U a w :
  let e := channel Hard w 0 Load_Overcurrent in
  valid_channel Hard w 0 Load_Overcurrent ->
  Z.land (sticky_mask Hard w 0) (lut Load_Overcurrent) = 0 ->
  0 <= counter e < debounce_count e ->
  debounce_count e < reset_count e < 2 ^ 32 ->
  load_overcurrent a w = true ->
  let w' := check_interlocks U a w in
  valid_channel Hard w' 0 Load_Overcurrent /\
  channel Hard w' 0 Load_Overcurrent =
    mk_event 1
      (if timebase_flag (em_at w 0) =? 0 then counter e else counter e + 1)
      (debounce_count e) (reset_count e) /\
  timebase_flag (em_at w' 0) = 0 /\
  Z.land (sticky_mask Hard w' 0) (lut Load_Overcurrent) = 0.
Proof.
  cbn zeta. intros Hv Hb Hc Hrc Hload.
  destruct (check_interlocks_from_first U a w Hload)
    as (w2 & Hk & _ & ->).
  destruct (set_interlock_step U fap_turn_off fap_turn_off_modules
              Hard w 0 Load_Overcurrent Hv) as (Hv1 & Hlow & _).
  cbn zeta in Hlow.
  destruct Hlow as (Hch1 & Hm1 & _); [lia|].
  destruct (set_interlock_only_channel U fap_turn_off
              Hard 0 Load_Overcurrent w) as (_ & _ & _ & Ht1).
  destruct (Ht1 0%nat) as [Ht1' _].
  change (set_interlock U fap_turn_off Hard 0 Load_Overcurrent w)
    with (fap_set_hard_interlock U 0 Load_Overcurrent w) in *.
  assert (Hb1 : Z.land
                  (sticky_mask Hard
                     (fap_set_hard_interlock U 0 Load_Overcurrent w) 0)
                  (lut Load_Overcurrent) = 0).
  { unfold sticky_mask in *. by rewrite Hm1. }
  assert (He1 : channel Hard
                  (fap_set_hard_interlock U 0 Load_Overcurrent w)
                  0 Load_Overcurrent =
                mk_event 1 (counter (channel Hard w 0 Load_Overcurrent))
                  (debounce_count (channel Hard w 0 Load_Overcurrent))
                  (reset_count (channel Hard w 0 Load_Overcurrent))).
  { rewrite Hch1. by destruct (channel Hard w 0 Load_Overcurrent). }
  rewrite <- Ht1'.
  exact (counted_period _ _ _ _ w2 Hc Hrc Hv1 He1 Hb1 Hk).
Qed.

Lemma load_overcurrent_counts_period_witness :
  let w := SET_INTERLOCKS_TIMEBASE_FLAG 0 w_overcurrent_fresh in
  (counter (channel Hard w 0 Load_Overcurrent) = 0 /\
   debounce_count (channel Hard w 0 Load_Overcurrent) = 4 /\
   timebase_flag (em_at w 0) = 1) /\
  channel Hard (check_interlocks true limits_5 w) 0 Load_Overcurrent =
    mk_event 1 1 4 48 /\
  timebase_flag (em_at (check_interlocks true limits_5 w) 0) = 0.
Proof.
  cbn zeta.
  set (w := SET_INTERLOCKS_TIMEBASE_FLAG 0 w_overcurrent_fresh).
  assert (Hv : valid_channel Hard w 0 Load_Overcurrent)
    by (repeat split; vm_compute; lia).
  assert (Hb : Z.land (sticky_mask Hard w 0) (lut Load_Overcurrent) = 0)
    by (vm_compute; reflexivity).
  assert (Hc : 0 <= counter (channel Hard w 0 Load_Overcurrent)
               < debounce_count (channel Hard w 0 Load_Overcurrent))
    by (split; vm_compute; [discriminate|reflexivity]).
  assert (Hrc : debounce_count (channel Hard w 0 Load_Overcurrent) <
                reset_count (channel Hard w 0 Load_Overcurrent) < 2 ^ 32)
    by (split; vm_compute; reflexivity).
  assert (Hl : load_overcurrent limits_5 w = true)
    by (vm_compute; reflexivity).
  split; [vm_compute; repeat split|].
  destruct (load_overcurrent_counts_period true limits_5 w Hv Hb Hc Hrc Hl)
    as (_ & A & B & _).
  split; [|exact B].
  rewrite A. vm_compute. reflexivity.
Defined.

(** *** The checks in a build without [USE_ITLK] *)

Lemma records_only_refl a w : records_only a w w.
Proof.
  unfold records_only. cbn zeta.
  split; [done|]. split; [by left|]. done.
Qed.

Lemma records_only_trans a w1 w2 w3 :
  records_only a w1 w2 -> records_only a w2 w3 -> records_only a w1 w3.
Proof.
  unfold records_only. cbn zeta.
  intros (C1 & S1 & P1 & D1 & R1 & G1 & W1 & I1 & L1 & O1)
         (C2 & S2 & P2 & D2 & R2 & G2 & W2 & I2 & L2 & O2).
  split; [congruence|].
  split.
  { destruct S1 as [S1|(Sa & Sb & Sc)], S2 as [S2|(Sd & Se & Sf)].
    - left. congruence.
    - right. split; [congruence|done].
    - right. split; [done|]. split; [congruence|done].
    - rewrite Sb in Sd. discriminate. }
  split; [intros i H; by apply P2, P1|].
  split; [congruence|].
  split; [intros r; by rewrite R2|].
  repeat split; congruence.
Qed.

Lemma records_only_upd_em a f w : records_only a w (upd_em 0 f w).
Proof.
  unfold records_only. cbn zeta.
  change (g_machine (upd_em 0 f w)) with (g_machine w).
  split; [done|]. split; [by left|]. done.
Qed.

Lemma read_signal_upd_module_frame i f m r :
  (forall p, ps_setpoint (f p) = ps_setpoint p) ->
  (forall p, ps_reference (f p) = ps_reference p) ->
  read_signal (upd_module i f m) r = read_signal m r.
Proof.
  intros Hs Hr. destruct r; cbn [read_signal]; try reflexivity.
  - by apply (frame_upd_module ps_setpoint).
  - by apply (frame_upd_module ps_reference).
Qed.

Lemma records_only_latch a k bit w :
  records_only a w
    (upd_machine (upd_module 0 (or_mask k bit))
       (itlk_action false fap_turn_off 0 w)).
Proof.
  unfold records_only, itlk_action. cbn zeta.
  cbn [g_machine upd_machine set_g_machine turn_off_calls].
  split; [done|].
  split.
  { left. unfold ps0_state. apply (frame_upd_module ps_state 0).
    by destruct k. }
  split; [done|]. split; [done|].
  split; [|done].
  intros r. apply read_signal_upd_module_frame; by destruct k.
Qed.

Lemma records_only_set_hard a i w :
  records_only a w (fap_set_hard_interlock false 0 i w).
Proof.
  apply (set_interlock_rel false (records_only a) (records_only_refl a)
           (records_only_trans a) Hard i).
  - intros g w0 _. apply records_only_upd_em.
  - intros w0. apply records_only_latch.
Qed.

Lemma records_only_set_soft a i w :
  records_only a w (fap_set_soft_interlock false 0 i w).
Proof.
  apply (set_interlock_rel false (records_only a) (records_only_refl a)
           (records_only_trans a) Soft i).
  - intros g w0 _. apply records_only_upd_em.
  - intros w0. apply records_only_latch.
Qed.

Lemma records_only_when a c f w :
  (forall w, records_only a w (f w)) -> records_only a w (when c f w).
Proof.
  intros H. unfold when. destruct (c _); [apply H|apply records_only_refl].
Qed.

Lemma records_only_if_else a c f g w :
  (forall w, records_only a w (f w)) -> (forall w, records_only a w (g w)) ->
  records_only a w (if_else c f g w).
Proof. intros Hf Hg. unfold if_else. destruct (c _); [apply Hf|apply Hg]. Qed.

Lemma duties_alter (f : pwm_module_t -> pwm_module_t) (i : nat)
    (l : list pwm_module_t) :
  (forall p, pwm_duty_chA (f p) = pwm_duty_chA p) ->
  pwm_duty_chA <$> alter f i l = pwm_duty_chA <$> l.
Proof.
  intros Hf. apply list_eq. intros j. rewrite !list_lookup_fmap.
  destruct (decide (i = j)) as [->|Hne].
  - rewrite list_lookup_alter_eq. destruct (l !! j); [|done].
    cbn. by rewrite Hf.
  - by rewrite list_lookup_alter_ne.
Qed.

Lemma enable_pwm_output_enabled j m i :
  pwm_enabled m i = true -> pwm_enabled (enable_pwm_output j m) i = true.
Proof.
  unfold pwm_enabled, enable_pwm_output. cbn [pwm_regs set_pwm_regs].
  destruct (decide (j = i)) as [->|Hne].
  - rewrite list_lookup_alter_eq. by destruct (pwm_regs m !! i).
  - by rewrite list_lookup_alter_ne.
Qed.

Lemma enable_pwm_output_duties j m :
  pwm_duty_chA <$> pwm_regs (enable_pwm_output j m) =
  pwm_duty_chA <$> pwm_regs m.
Proof.
  unfold enable_pwm_output. cbn [pwm_regs set_pwm_regs].
  by apply duties_alter.
Qed.

Lemma enable_pwm_output_frame j m :
  ps_module (enable_pwm_output j m) = ps_module m /\
  (forall r, read_signal (enable_pwm_output j m) r = read_signal m r) /\
  SIGGEN (enable_pwm_output j m) = SIGGEN m /\
  WFMREF (enable_pwm_output j m) = WFMREF m /\
  dsp_pi (enable_pwm_output j m) = dsp_pi m /\
  dsp_srlim (enable_pwm_output j m) = dsp_srlim m /\
  gpdo (enable_pwm_output j m) = gpdo m.
Proof. split; [done|]. split; [by intros []|done]. Qed.

Lemma records_only_start_regulating a w :
  records_only a w
    (when (fun m => state_eqb (ps0_state m) Initializing)
       (when (fun _ => dclinks_charged a) (upd_machine start_regulating)) w).
Proof.
  unfold when.
  destruct (state_eqb _ _) eqn:Est; [|apply records_only_refl].
  destruct (dclinks_charged a) eqn:Ed; [|apply records_only_refl].
  assert (Hst : ps0_state (g_machine w) = Initializing).
  { unfold state_eqb in Est. apply Z.eqb_eq in Est.
    by destruct (ps0_state (g_machine w)). }
  unfold records_only. cbn zeta.
  cbn [g_machine upd_machine set_g_machine turn_off_calls].
  set (m := g_machine w) in *.
  set (m1 := upd_module 0 (set_ps_state SlowRef) m).
  assert (H1 : ps0_state m1 = SlowRef).
  { unfold ps0_state, m1 in *. rewrite module_at_alter.
    rewrite decide_True by done.
    unfold module_at in Hst. by destruct (ps_module m !! 0%nat). }
  assert (H2 : forall r, read_signal m1 r = read_signal m r).
  { intros r. by apply read_signal_upd_module_frame. }
  assert (H3 : pwm_regs m1 = pwm_regs m) by done.
  assert (H4 : SIGGEN m1 = SIGGEN m /\ WFMREF m1 = WFMREF m /\
               dsp_pi m1 = dsp_pi m /\ dsp_srlim m1 = dsp_srlim m /\
               gpdo m1 = gpdo m) by done.
  unfold start_regulating. fold m1.
  assert (Hen : forall i, pwm_enabled m i = true -> pwm_enabled m1 i = true)
    by (intros i; by rewrite (pwm_enabled_ext m1 m i H3)).
  clearbody m1.
  split; [done|].
  split.
  { right. split; [done|]. split; [|done]. exact H1. }
  split.
  { intros i Hi. do 8 apply enable_pwm_output_enabled. by apply Hen. }
  split; [by rewrite !enable_pwm_output_duties, H3|].
  split; [intros r; by rewrite <- H2|].
  exact H4.
Qed.

Ltac records_block :=
  first
    [ apply records_only_set_hard
    | apply records_only_set_soft
    | apply records_only_upd_em
    | apply records_only_when; intros; records_block
    | apply records_only_if_else; intros; records_block ].

Ltac records_chain :=
  lazymatch goal with
  | |- records_only _ ?w ?w => apply records_only_refl
  | |- records_only ?a ?w (?f ?x) =>
      apply (records_only_trans a w x (f x)); [records_chain|records_block]
  end.

Lemma records_only_load_feedback a active i_load itlk w :
  records_only a w (check_load_feedback false a active i_load itlk w).
Proof. unfold check_load_feedback. records_block. Qed.

Lemma records_only_welded a w :
  records_only a w (check_welded_contactors false w).
Proof. unfold check_welded_contactors. records_chain. Qed.

Lemma records_only_undervoltage a w :
  records_only a w (check_undervoltage false a w).
Proof. unfold check_undervoltage. records_chain. Qed.

Lemma records_only_opened a w :
  records_only a w (check_opened_contactors false a w).
Proof.
  unfold check_opened_contactors.
  match goal with
  | |- records_only _ _ (if_else ?c ?f ?g ?x) =>
      apply (records_only_trans a w x); [records_chain|]; generalize x
  end.
  intros x. pose proof (records_only_start_regulating a x) as H.
  unfold if_else. unfold when at 1 in H.
  destruct (state_eqb _ _); [exact H|].
  apply records_only_when. intros. apply records_only_undervoltage.
Qed.

Ltac records_blocks :=
  lazymatch goal with
  | |- records_only _ ?w ?w => apply records_only_refl
  | |- records_only ?a ?w (?f ?x) =>
      apply (records_only_trans a w x (f x));
      [ records_blocks
      | first [ apply records_only_load_feedback
              | apply records_only_when; intros;
                apply records_only_load_feedback
              | apply records_only_if_else; intros;
                [ apply records_only_welded
                | apply records_only_opened ]
              | records_block ] ]
  end.

(** Property X18.  In a build without [USE_ITLK] a pass of
    [check_interlocks] switches nothing off: [turn_off] is never
    called, the state of module 0 is kept or goes from [Initializing]
    to [SlowRef] and never becomes [Interlock], no PWM output is
    disabled and no duty cycle changed, and the signals, the signal
    generator, the waveform reference, the PI and slew-rate stages and
    the digital outputs are unchanged; interlocks are only recorded in
    the masks. *)
Theorem check_interlocks_without_itlk a w :
  let w' := check_interlocks false a w in
  let m := g_machine w in
  let m' := g_machine w' in
  turn_off_calls w' = turn_off_calls w /\
  (ps0_state m' = ps0_state m \/
   (ps0_state m = Initializing /\ ps0_state m' = SlowRef /\
    dclinks_charged a = true)) /\
  (forall i, pwm_enabled m i = true -> pwm_enabled m' i = true) /\
  pwm_duty_chA <$> pwm_regs m' = pwm_duty_chA <$> pwm_regs m /\
  (forall r, read_signal m' r = read_signal m r) /\
  SIGGEN m' = SIGGEN m /\ WFMREF m' = WFMREF m /\
  dsp_pi m' = dsp_pi m /\ dsp_srlim m' = dsp_srlim m /\
  gpdo m' = gpdo m.
Proof.
  cbn zeta.
  assert (H : records_only a w (check_interlocks false a w)).
  { unfold check_interlocks, run_interlocks_debouncing. records_blocks. }
  exact H.
Qed.

End Fap4pInterlocksProofs.
